(* ===== verification/_CoqProject ===== *)
-Q . S2P
Prelude.v
PyText.v
PyLines.v
Sha256.v
Sha1.v
PySort.v
Enums.v
Errors.v
PyTime.v
TransitionGuard.v
Retry.v
Tables.v
WorkflowsConfig.v
Contracts.v
Agents.v
Tools.v
Evolution.v
Samples.v
Tracking.v
AgentRuntime.v
Leases.v
Repositories.v
Idempotency.v
DependencyResolver.v
Scheduler.v
Reconciliation.v
SuccessorFactory.v
EventDispatcher.v
Engine.v
Worker.v
PyDict.v
MaturityClock.v
PublishingRamp.v
Portfolio.v
MetricsPlan.v
ClosedLoop.v
AssetLineage.v
MutationReceipt.v
SupportIntake.v
Files.v
LocalStore.v
DraftClient.v
DraftOnce.v
DraftShop.v
DraftListing.v
Dedupe.v
RealDraft.v
DraftEffects.v
JsonText.v
PyStamp.v
ReceiptLog.v
ControlState.v
ControlFile.v
Footprints.v
System.v
