(* ===== verification/Prelude.v ===== *)
(** * Verification of the Money Machine orchestrator

    Money Machine runs a shop with a set of agents.  A durable orchestrator keeps workflows and
    their jobs in PostgreSQL, workers claim jobs under leases and run one agent each, and the
    events of a result spawn the next jobs.  Around it stand services that decide what happens
    to listings, clients that write to the outside at most once, and the document that records
    the progress of the programme itself.  This development models these parts and proves what
    makes them correct.  The sources are under [src/src/money_machine/]; paths below start
    there.  A definition has the name of the Python function it translates.

    ** How code is modelled

    - A call returns a value or raises ([result]); a call with effects is a function of the
      state it works on ([M S exn A], notations [let*], [do*], [let?], [do?]).  The state
      reached when it raises is kept, so "an error changes nothing" is always a theorem.
      Exceptions are a class and a message ([Errors]); [except] clauses test [isa], whose fuel 3
      is the length of the longest chain of bases.
    - The database ([Tables], from [persistence/tables.py]) is one finite map per table with the
      unique, check and foreign-key constraints of the schema and the version counters of
      [Versioned].  What PostgreSQL and [uuid4] promise is the class [Backend]: a select returns
      the matching rows in the order it asks for and ties in any order, fresh ids are new.
      [FOR UPDATE SKIP LOCKED] gets the set of rows that other transactions hold.
    - Text is ASCII bytes for case and stripping ([PyText], [PyLines]); UUIDs are numbers,
      aware datetimes are UTC microseconds ([PyTime] has naive ones too where the code tests for
      them); [sorted] is [PySort], a dictionary in insertion order is [PyDict].  Hashes are
      computed in full ([Sha256], [Sha1]), so identifiers derived from names are concrete.
    - Floats and decimals are rationals.  The backoff stays exact below the cap and raises above
      2^1024 as Python does; the similarity of titles is rounded to a double
      ([Dedupe.float_ratio]).
    - Agents, model providers, shop transports, fixtures of a provider, Git and the paths of the
      host are arguments.  Hypotheses about them are classes or definitions with a concrete
      instance beside them ([HonestShop], [HonestGit]).
    - Files fail: the state holds the outcomes of the operations to come ([Files], and
      [Outcome] in [LocalStore], where another process may also win the race for a name).

    ** The orchestrator

    [Enums] has the string enumerations of [domain/enums.py] and [domain/events.py];
    [TransitionGuard] the two transition tables, the guards and every path to publication
    ([orchestration/transition_guard.py], [state_machine.py]); [Retry] the retry policy
    ([retry.py]); [WorkflowsConfig] the workflow models of [config/settings.py] with the
    shipped [config/workflows.yaml] as a constant; [Contracts] the records of [domain/models/]
    with their validators.  [Evolution] states the contract every operation keeps: [db_ok], the
    invariant of a database at rest, and [db_evolves], what may change between two.

    On it stand [Leases] ([leases.py]: claim, heartbeat, release, reclaim), [Repositories]
    ([persistence/repositories/]), [Idempotency] ([idempotency.py]: reservations, effect
    attempts, receipts), [DependencyResolver] ([dependency_resolver.py]: readiness and
    promotion), [Scheduler] ([scheduler.py]: due jobs, stalls, timers), [Reconciliation]
    ([reconciliation.py]: uncertain effects), [SuccessorFactory] and [EventDispatcher]
    ([successor_factory.py], [event_dispatcher.py]: what an event spawns, once), [Engine]
    ([engine.py]: operator commands) and [Worker] ([worker.py], [_foundation.py],
    [persistence/unit_of_work.py]: one round claims, runs, settles and commits or rolls back).
    Each file proves the contract of its operations and their exact behaviour on every branch.
    [Samples] holds concrete rows for the examples.

    Agents: [Agents] is the configured roster, the commissioning gate and the prompt store
    ([agents/base.py], [registry.py], [prompt_store.py]); [Tools] the tool catalogue and the
    review coordinator ([tool_registry.py], [review_subagent.py]); [AgentRuntime] one execution
    and its recorded run ([runtime.py], [observability/agent_runs.py]).

    [Tracking] says what a call may do to any database, in order or not: what the schema
    enforces, reservations and attempts that only grow, and the moves of job rows as a
    [Footprint] lists them; [Footprints] has the footprint of every operation above and below.

    [System] composes all of this: an [action] is an operation as a transaction with any
    arguments, the recording of a draft, a worker round or the passing of time, and a run is any
    sequence of actions.  The schema holds in every state of every run.  The leases and budgets
    of the jobs hold in a [regular_run]: no round claims a job of a defined agent without an
    implementation, and no draft is recorded for a product whose draft job has used up its
    attempts.  The code breaks them otherwise, which [Worker.unimplemented_agent_keeps_lease] and
    [DraftListing.exhausted_draft_job_readied] show.  In a regular run the history is monotone,
    and the database refines an abstract machine of job statuses action by action: each action
    has its own table of moves ([job_moves]), and every move is an edge of the job table or two.
    [reconcile_and_apply] is one action; the code has no caller that applies a result by itself
    ([Reconciliation.apply_leaks_lease] shows what that could do).

    ** Services on listings

    [MaturityClock], [PublishingRamp], [Portfolio] and [AssetLineage] model the modules of the
    same name under [assets/] ([maturity_clock.py], [publishing_ramp_decision.py],
    [portfolio_eligibility.py], [asset_lineage.py]): live days are the measure of the instants
    a listing was live, the ramp is one comparison, a portfolio evaluation decides each listing
    by its rank, and the staleness walk is exactly reachability.  [MetricsPlan] reads the metric
    fixture and plans a window ([metrics_fixture.py]); [ClosedLoop] stores the triggers of a
    plan once and confirms culls ([closed_loop_store.py]), composed with the results of
    [Portfolio].  [SupportIntake] keeps the first incident of a key and drafts replies that are
    never sent ([support_intake.py]).  [MutationReceipt] commits a listing write once per key
    ([mutation_receipt.py]).  [Dedupe] ([domain/services/dedupe.py], [domain/models/products.py])
    compares a product spec with the catalogue and reports exactly the rules it breaks.

    ** Writes to the outside

    [DraftClient] is [integrations/etsy/draft_client.py]: a ledger of small files around one
    [POST].  [DraftOnce] proves that a draft is posted at most once on any transport and any
    failing file operations, [DraftShop] that against a truthful shop with any number of
    drafts, and with files that work, the client refines a four-phase machine, [DraftListing] ([assets/etsy_draft.py],
    [assets/draft_listing_successor.py]) that a ready draft leaves exactly one job, unless the
    event of the finished product was logged before.
    [RealDraft] ([application/real_draft_authority.py]) is the fixed authority of a run for one
    product and the admission of its readback.  [DraftEffects]
    ([application/real_draft_effects.py]) is the write under it: [execute] is a program whose
    transactions and provider calls are steps ([Prog]); [exec_step] interleaves any number of
    executions, loses connections before or after a commit, and lets the rest of the system
    change the database as long as reservations and attempts only grow ([Tracking.spares]; every
    action of [System] does, [System.action_is_environment]).  An effect is created at most once
    all the same, unless the provider refused it for certain or somebody else records that
    nothing was found ([System.settled_absence_creates_again]).  A transaction is one step because it holds the row
    lock of its job.

    [LocalStore] ([integrations/storage/local.py], [interface.py]) is the content-addressed
    asset store: keys and URIs are inverse to each other, anything else is refused before the
    disk is touched, and what was published is read back after any later use of the store.

    [ReceiptLog] ([observability/receipts.py]) is the append log of Notion operations: a receipt
    is frozen and checked, written as a line of JSON and read back; [receipts_survive_failures]
    holds for any logs on any paths and writes that stop at any byte.  It stands on [JsonText],
    [json.dumps] and [json.loads] with their round trip and the fact that no text of an object
    can be cut short unnoticed, and on [PyStamp], the text of a datetime by its fields.

    ** The control document

    [ControlState] is the first half of [control/state.py]: the parser of the
    implementation-state document and the two validators.  [programme_history] says what any
    sequence of accepted transitions leads to; between transitions the document is edited by
    ordinary commits, which the code does not check.  [edited] describes the documented edits of
    a session in progress (head and evidence are free), [closed_by_hand] a session that is
    closed in the document itself (decision D-0032).
    [ControlFile] is the second half: the Git evidence, the lock file and the atomic
    replacement.  [transition_is_atomic] holds for any host and any failures;
    [sessions_close_on_new_commits] composes the two halves under [HonestGit].

    ** Bounds and fuel

    - [WorkflowsConfig.reach_loop] runs one round per entry job and declared successor
      ([graph_fuel]); [validate_graph_iff] shows that it never runs out.
    - [JsonText.loads] gives [parse_value] the length of the text, each call consumes a character;
      [loads_dumps] shows that this is enough for what is written.
    - [AssetLineage.walk] gets one round more than there are assets; [walk_terminates] shows
      that this is enough.
    - [DraftClient.read_loop] is bounded by the code itself: [PAGE_CAP] pages.
    - [Sha256.chunks] and its twin get the length of the padded message.
    - [Leases.claim_all] and the worker loop take the number of rounds, or the clock readings,
      as an argument; [claims_drain_the_queue] and [poison_job_starves_queue] say what happens
      for every number.
    - [Reconciliation.reconciliation_terminates] needs as many answers as attempts are left.
    - Integers are Python's and have no width; the range of [datetime] and [timedelta] is
      checked where an overflow would raise.

    ** Not modelled

    - Column lengths: "exactly when" is said of texts that fit their columns.  Telemetry columns
      and structured logs: nothing the theorems speak of depends on them.
    - Two processes that drive the draft client at once: its calls follow one another, and the
      race of two of them for the pending file of one draft is left out.
    - The tables of other subsystems, the migrations ([src/migrations], schema statements) and
      the remaining models of [config/settings.py]: declarations without behaviour.
    - YAML, UTF-8 and, but for [JsonText], JSON decoding: the model starts from the decoded
      value.  JSON numbers are integers and the keys of a decoded object are distinct.
    - Rendering of documents, images and video, and the remaining modules of [assets/] that
      assemble or check them: calls into imaging and PDF libraries over fixtures.
    - [agents/implementations], [agents/contracts] and the prompts: programs around language
      models and browsers, and large records of natural-language content.
    - [domain/services/claim_validation.py] and [listing_text.py]: rules over natural language.
    - The other clients under [integrations/] (Notion, PostHog, language models, browser
      adapters, the S3 double): thin wrappers over third-party protocols.
    - [api/], [cli/], [control/cli.py], the fixture and Notion runs of [application/]
      ([fixture_run.py], [fixture_provider.py], [fixture_product.py], [real_notion_build.py]),
      [control/recovery.py], [control/session_evidence.py], the rest of [observability/],
      [src/scripts] and the web console: glue over the services above, logging, and developer
      tools. *)

From stdpp Require Export base option list gmap sets strings pretty sorting relations.
From Stdlib Require Export ZArith Lia.

Declare Scope py_scope.
Delimit Scope py_scope with py.

(** ** Results and the state-and-exception monad *)

(** A Python call either returns a value or raises. *)
Inductive result (E A : Type) : Type :=
  | Ok (a : A)
  | Raise (e : E).
Arguments Ok {E A} a.
Arguments Raise {E A} e.

#[export] Instance result_eq_dec {E A} `{EqDecision E, EqDecision A} :
  EqDecision (result E A).
Proof. solve_decision. Defined.

(** A stateful call: it reads and writes a state [S] and may raise [E].  The
    state reached when it raises is kept, so that "an error changes nothing"
    is a statement about the code and not a property of the monad. *)
Definition M (S E A : Type) : Type := S → result E A * S.

Definition pyret {S E A} (a : A) : M S E A := λ s, (Ok a, s).

Definition pyraise {S E A} (e : E) : M S E A := λ s, (Raise e, s).

Definition pybind {S E A B} (m : M S E A) (k : A → M S E B) : M S E B :=
  λ s, match m s with
       | (Ok a, s') => k a s'
       | (Raise e, s') => (Raise e, s')
       end.

Definition gets {S E A} (f : S → A) : M S E A := λ s, (Ok (f s), s).

Definition modify {S E} (f : S → S) : M S E unit := λ s, (Ok tt, f s).

Definition lift_result {S E A} (r : result E A) : M S E A := λ s, (r, s).

(** [try: m except e: h e] *)
Definition try_except {S E A} (m : M S E A) (h : E → M S E A) : M S E A :=
  λ s, match m s with
       | (Ok a, s') => (Ok a, s')
       | (Raise e, s') => h e s'
       end.

(** A call on one half of a pair of states. *)
Definition on_fst {S T E A} (m : M S E A) : M (S * T) E A := λ s,
  let '(r, s1) := m s.1 in (r, (s1, s.2)).

Definition on_snd {S T E A} (m : M T E A) : M (S * T) E A := λ s,
  let '(r, s2) := m s.2 in (r, (s.1, s2)).

(** [try: m finally: fin]: an exception of [fin] replaces the outcome of [m]. *)
Definition try_finally {S E A} (m : M S E A) (fin : M S E unit) : M S E A :=
  λ s, let (r, s') := m s in
       match fin s' with
       | (Ok _, s'') => (r, s'')
       | (Raise e, s'') => (Raise e, s'')
       end.

(** A group of writes sent as one: all of them or none. *)
Definition atomically {S E A} (m : M S E A) : M S E A :=
  λ s, match m s with
       | (Ok a, s') => (Ok a, s')
       | (Raise e, _) => (Raise e, s)
       end.

Definition rbind {E A B} (r : result E A) (k : A → result E B) : result E B :=
  match r with
  | Ok a => k a
  | Raise e => Raise e
  end.

Notation "'let*' x := m 'in' k" := (pybind m (λ x, k))
  (at level 10, x name, m at level 100, k at level 200) : py_scope.
Notation "'do*' m ; k" := (pybind m (λ _, k))
  (at level 10, m at level 100, k at level 200) : py_scope.
Notation "'let?' x := m 'in' k" := (rbind m (λ x, k))
  (at level 10, x name, m at level 100, k at level 200) : py_scope.
Notation "'do?' m ; k" := (rbind m (λ _, k))
  (at level 10, m at level 100, k at level 200) : py_scope.
Open Scope py_scope.

(** [for a in l: acc = f(acc, a)] where the body may raise. *)
Fixpoint for_fold {S E A B} (f : B → A → M S E B) (l : list A) (b : B) : M S E B :=
  match l with
  | [] => pyret b
  | a :: l => let* b' := f b a in for_fold f l b'
  end.

Fixpoint traverse {E A B} (f : A → result E B) (l : list A) : result E (list B) :=
  match l with
  | [] => Ok []
  | a :: l => let? b := f a in let? bs := traverse f l in Ok (b :: bs)
  end.

(** ** Reasoning about stateful calls *)

(** Every run of [m] relates the states before and after by [R]. *)
Definition within {S E A} (R : relation S) (m : M S E A) : Prop :=
  ∀ s, R s (m s).2.

Create HintDb orch discriminated.

Section within.
Context {S E : Type} (R : relation S) `{!PreOrder R}.

Lemma within_ret {A} (a : A) : within R (pyret (E := E) a).
Proof. intros s. simpl. reflexivity. Qed.

Lemma within_raise {A} (e : E) : within R (pyraise (A := A) e).
Proof. intros s. simpl. reflexivity. Qed.

Lemma within_gets {A} (f : S → A) : within R (gets (E := E) f).
Proof. intros s. simpl. reflexivity. Qed.

Lemma within_lift {A} (r : result E A) : within R (lift_result r).
Proof. intros s. simpl. reflexivity. Qed.

Lemma within_modify (f : S → S) : (∀ s, R s (f s)) → within R (modify (E := E) f).
Proof. intros Hf s. apply Hf. Qed.

Lemma within_bind {A B} (m : M S E A) (k : A → M S E B) :
  within R m → (∀ a, within R (k a)) → within R (pybind m k).
Proof.
  intros Hm Hk s. unfold pybind. specialize (Hm s).
  destruct (m s) as [[a|e] s']; simpl in *; [etrans; [exact Hm|apply Hk]|done].
Qed.

(** A continuation that depends on what was read from the state. *)
Lemma within_gets_bind {A B} (f : S → A) (k : A → M S E B) :
  (∀ s, R s (k (f s) s).2) → within R (pybind (gets f) k).
Proof. intros Hk s. apply Hk. Qed.

Lemma within_lift_bind {A B} (r : result E A) (k : A → M S E B) :
  (∀ a, r = Ok a → within R (k a)) → within R (pybind (lift_result r) k).
Proof. intros Hk s. unfold pybind, lift_result. destruct r; [by apply Hk|simpl; reflexivity]. Qed.

Lemma within_try {A} (m : M S E A) (h : E → M S E A) :
  within R m → (∀ e, within R (h e)) → within R (try_except m h).
Proof.
  intros Hm Hh s. unfold try_except. specialize (Hm s).
  destruct (m s) as [[a|e] s']; simpl in *; [done|etrans; [exact Hm|apply Hh]].
Qed.

Lemma within_atomically {A} (m : M S E A) : within R m → within R (atomically m).
Proof.
  intros Hm s. unfold atomically. specialize (Hm s).
  destruct (m s) as [[a|e] s']; simpl in *; [done|reflexivity].
Qed.

Lemma within_fold {A B} (f : B → A → M S E B) l :
  (∀ b a, within R (f b a)) → ∀ b, within R (for_fold f l b).
Proof.
  intros Hf. induction l as [|a l IH]; intros b; simpl.
  - apply within_ret.
  - apply within_bind; auto.
Qed.
End within.

(** Calls on one half of a pair of states. *)
Lemma within_on_fst {S T E A} (R : relation S) (R' : relation (S * T)) (m : M S E A) :
  within R m → (∀ a a' t, R a a' → R' (a, t) (a', t)) → within R' (on_fst m).
Proof.
  intros Hm HR [s t]. unfold on_fst. specialize (Hm s). simpl. destruct (m s). by apply HR.
Qed.

Lemma within_on_snd {S T E A} (R : relation T) (R' : relation (S * T)) (m : M T E A) :
  within R m → (∀ s a a', R a a' → R' (s, a) (s, a')) → within R' (on_snd m).
Proof.
  intros Hm HR [s t]. unfold on_snd. specialize (Hm t). simpl. destruct (m t). by apply HR.
Qed.

#[export] Hint Resolve within_ret within_raise within_gets within_lift
  within_bind within_try within_fold within_atomically : orch.

(** Inversion of a successful sequence of calls. *)
Lemma pybind_ok {S E A B} (m : M S E A) (k : A → M S E B) s b s'' :
  pybind m k s = (Ok b, s'') ↔ ∃ a s', m s = (Ok a, s') ∧ k a s' = (Ok b, s'').
Proof.
  unfold pybind. destruct (m s) as [[a|e] s'] eqn:Hm; naive_solver.
Qed.

Lemma pyret_ok {S E A} (a b : A) (s s' : S) : pyret (E := E) a s = (Ok b, s') ↔ a = b ∧ s = s'.
Proof. unfold pyret. naive_solver. Qed.

Lemma rbind_ok {E A B} (r : result E A) (k : A → result E B) b :
  rbind r k = Ok b ↔ ∃ a, r = Ok a ∧ k a = Ok b.
Proof. destruct r; naive_solver. Qed.

Lemma traverse_Forall2 {E A B} (f : A → result E B) l k :
  traverse f l = Ok k ↔ Forall2 (λ a b, f a = Ok b) l k.
Proof.
  revert k. induction l as [|a l IH]; intros k; simpl.
  - split; [by intros [= <-]|by inversion 1].
  - rewrite rbind_ok. split.
    + intros (b & Hb & Hr). apply rbind_ok in Hr as (bs & Hbs & [= <-]).
      constructor; [done|by apply IH].
    + intros H. inversion H as [|? b ? bs Hb Hbs]; simplify_eq.
      exists b. split; [done|]. apply rbind_ok. exists bs. by rewrite IH.
Qed.

Lemma forallb_elem_of {A} (P : A → bool) l : forallb P l = true ↔ ∀ a, a ∈ l → P a = true.
Proof. rewrite forallb_forall. by setoid_rewrite list_elem_of_In. Qed.

(** [len(set(l)) == len(l)] *)
Definition all_unique {A} `{!EqDecision A} (l : list A) : bool := bool_decide (NoDup l).

Lemma StronglySorted_impl {A} (R R' : relation A) l :
  StronglySorted R l → (∀ a b, R a b → R' a b) → StronglySorted R' l.
Proof.
  intros Hl HR. induction Hl as [|a l Hl IH Hall]; constructor; [done|].
  eapply Forall_impl; [exact Hall|]. auto.
Qed.

(** *** Filters *)

Lemma filter_all {A} (P : A → Prop) `{!∀ x, Decision (P x)} (l : list A) : (∀ x, x ∈ l → P x) → filter P l = l.
Proof.
  induction l as [|x l IH]; intros Hall; [done|]. rewrite filter_cons_True by (apply Hall; left).
  by rewrite IH by (intros; apply Hall; by right).
Qed.

Lemma filter_none {A} (P : A → Prop) `{!∀ x, Decision (P x)} (l : list A) : (∀ x, x ∈ l → ¬ P x) → filter P l = [].
Proof. intros Hn. apply elem_of_nil_inv. intros x [HP Hx]%list_elem_of_filter. by apply (Hn x). Qed.

Lemma filter_le {A} (P : A → Prop) `{!∀ x, Decision (P x)} (l : list A) : (length (filter P l) ≤ length l)%nat.
Proof. induction l as [|a l IH]; [done|]. rewrite filter_cons. case_decide; simpl; lia. Qed.

Lemma filter_length_all {A} (P : A → Prop) `{!∀ x, Decision (P x)} (l : list A) :
  length (filter P l) = length l → Forall P l.
Proof.
  induction l as [|a l IH]; [done|]. rewrite filter_cons. case_decide; simpl; intros Hl.
  - constructor; [done|]. apply IH. lia.
  - pose proof (filter_le P l). lia.
Qed.

(** ** Tactics *)

(** Unfold a handler applied to a state into its tests, one case per test. *)
Ltac unfold_monad :=
  unfold pybind, pyret, pyraise, gets, modify, lift_result, try_except in *.

Ltac run_handler :=
  unfold_monad; simpl in *; repeat (case_match; simplify_eq/=); try done.

(** Split the conjunctions and existentials of the context. *)
Ltac crack :=
  repeat match goal with
  | H : ∃ _, _ |- _ => destruct H
  | H : _ ∧ _ |- _ => destruct H
  end; simplify_eq.

(** Decide a closed proposition by evaluation. *)
Ltac by_decide :=
  match goal with |- ?P => apply (bool_decide_unpack P); vm_compute; exact I end.

(** Walk a handler whose every call keeps the contract. *)
Ltac within_step :=
  first
    [ solve [auto 1 with orch nocore]
    | apply within_ret; apply _ | apply within_raise; apply _ | apply within_gets; apply _
    | apply within_lift; apply _
    | apply within_bind; [apply _| |intros ?]
    | apply within_try; [apply _| |intros ?]
    | apply within_atomically; [apply _|]
    | apply within_fold; [apply _|intros ? ?]
    | case_match ].
Ltac solve_within := repeat within_step.
