(* ===== verification/PyText.v ===== *)
(** * Python text

    The pieces of Python's text handling the program uses: substring tests,
    lower-casing, [str] of integers, UUIDs and UTC datetimes, and the one-digit
    float format of the retry messages.

    A Python [str] is its UTF-8 byte sequence; case operations act on ASCII.  A
    [UUID] is its 128-bit integer.  A timezone-aware [datetime] is the number
    of microseconds since 1970-01-01T00:00:00Z and a [timedelta] a number of
    microseconds. *)

From S2P Require Import Prelude.
From Stdlib Require Import QArith.QArith_base.
Close Scope Q_scope.

Abbreviation uuid := N (only parsing).
Abbreviation datetime := Z (only parsing).
Abbreviation timedelta := Z (only parsing).

Open Scope string_scope.

(** ** Substrings and case *)

(** [needle in hay] *)
Fixpoint str_in (needle hay : string) : bool :=
  String.prefix needle hay ||
  match hay with
  | EmptyString => false
  | String _ rest => str_in needle rest
  end.

Definition ascii_lower (c : Ascii.ascii) : Ascii.ascii :=
  let n := Ascii.N_of_ascii c in
  if ((65 <=? n) && (n <=? 90))%N then Ascii.ascii_of_N (n + 32) else c.

(** [s.lower()] *)
Fixpoint str_lower (s : string) : string :=
  match s with
  | EmptyString => EmptyString
  | String c r => String (ascii_lower c) (str_lower r)
  end.

(** The part of [s] before the first [sep], the whole of [s] without one:
    [s.split(sep, 1)[0]]. *)
Fixpoint str_before (sep : Ascii.ascii) (s : string) : string :=
  match s with
  | EmptyString => EmptyString
  | String c r => if decide (c = sep) then EmptyString else String c (str_before sep r)
  end.

(** Python truth of a string: empty is false. *)
Definition str_truth (s : string) : bool := if decide (s = "") then false else true.

Definition is_space (c : Ascii.ascii) : bool :=
  let n := Ascii.N_of_ascii c in ((9 <=? n) && (n <=? 13) || (n =? 32) || (28 <=? n) && (n <=? 31))%N.

Fixpoint str_lstrip (s : string) : string :=
  match s with
  | EmptyString => EmptyString
  | String c r => if is_space c then str_lstrip r else s
  end.

Fixpoint str_rstrip (s : string) : string :=
  match s with
  | EmptyString => EmptyString
  | String c r =>
      match str_rstrip r with
      | EmptyString => if is_space c then EmptyString else String c EmptyString
      | r' => String c r'
      end
  end.

(** [s.strip()] *)
Definition str_strip (s : string) : string := str_rstrip (str_lstrip s).

(** [repr] of a string over ASCII: double quotes only when the text has a single
    quote and no double quote; control characters, the backslash and the quote are
    escaped. *)
Definition dquote : Ascii.ascii := Ascii.ascii_of_N 34.
Definition squote : Ascii.ascii := Ascii.ascii_of_N 39.
Definition backslash : Ascii.ascii := Ascii.ascii_of_N 92.

Fixpoint str_has (c : Ascii.ascii) (s : string) : bool :=
  match s with
  | EmptyString => false
  | String d r => (if decide (d = c) then true else false) || str_has c r
  end.

Definition hex_char (n : N) : Ascii.ascii :=
  Ascii.ascii_of_N (if (n <? 10)%N then 48 + n else 87 + n)%N.

Definition repr_char (quote c : Ascii.ascii) : string :=
  let n := Ascii.N_of_ascii c in
  if decide (c = quote ∨ c = backslash) then String backslash (String c EmptyString)
  else if (n =? 9)%N then String backslash "t"
  else if (n =? 10)%N then String backslash "n"
  else if (n =? 13)%N then String backslash "r"
  else if ((n <? 32) || (n =? 127))%N then
    String backslash (String (Ascii.ascii_of_N 120) (String (hex_char (n / 16)) (String (hex_char (n mod 16)) EmptyString)))
  else String c EmptyString.

Fixpoint repr_chars (quote : Ascii.ascii) (s : string) : string :=
  match s with
  | EmptyString => EmptyString
  | String c r => repr_char quote c ++ repr_chars quote r
  end.

Definition str_repr (s : string) : string :=
  let quote := if str_has squote s && negb (str_has dquote s) then dquote else squote in
  String quote (repr_chars quote s ++ String quote EmptyString).

(** ** UUIDs *)

Definition hex_digit (n : N) : Ascii.ascii :=
  Ascii.ascii_of_N (if (n <? 10)%N then 48 + n else 87 + n)%N.

(** The low [k] hexadecimal digits of [n], most significant first. *)
Fixpoint hex_digits (k : nat) (n : N) : string :=
  match k with
  | O => EmptyString
  | S k => String (hex_digit (N.shiftr n (4 * N.of_nat k) mod 16)) (hex_digits k n)
  end.

(** [str(u)]: 8-4-4-4-12 lower-case hexadecimal digits. *)
Definition uuid_str (u : uuid) : string :=
  hex_digits 8 (N.shiftr u 96) ++ "-" ++ hex_digits 4 (N.shiftr u 80) ++ "-" ++
  hex_digits 4 (N.shiftr u 64) ++ "-" ++ hex_digits 4 (N.shiftr u 48) ++ "-" ++
  hex_digits 12 u.

Definition uuid_ok (u : uuid) : Prop := (u < 2 ^ 128)%N.

(** [str(x) if x else "null"] of an optional UUID; a UUID is always true. *)
Definition uuid_or (dflt : string) (u : option uuid) : string :=
  match u with Some u => uuid_str u | None => dflt end.

(** ** Datetimes *)

Definition day_us : Z := 86400000000.

(** The proleptic Gregorian date of a day number. *)
Definition civil_of_days (days : Z) : Z * Z * Z :=
  let z := (days + 719468)%Z in
  let era := (z / 146097)%Z in
  let doe := (z mod 146097)%Z in
  let yoe := ((doe - doe / 1460 + doe / 36524 - doe / 146096) / 365)%Z in
  let doy := (doe - (365 * yoe + yoe / 4 - yoe / 100))%Z in
  let mp := ((5 * doy + 2) / 153)%Z in
  let d := (doy - (153 * mp + 2) / 5 + 1)%Z in
  let m := if (mp <? 10)%Z then (mp + 3)%Z else (mp - 9)%Z in
  ((yoe + era * 400 + (if (m <=? 2)%Z then 1 else 0))%Z, m, d).

(** [z] in decimal, zero-padded to [k] digits. *)
Fixpoint dec_digits (k : nat) (z : Z) : string :=
  match k with
  | O => EmptyString
  | S k => dec_digits k (z / 10) ++ String (hex_digit (Z.to_N (z mod 10))) EmptyString
  end.

Definition datetime_text (sep : string) (t : datetime) : string :=
  let '(y, m, d) := civil_of_days (t / day_us) in
  let us := (t mod day_us)%Z in
  let secs := (us / 1000000)%Z in
  let frac := (us mod 1000000)%Z in
  dec_digits 4 y ++ "-" ++ dec_digits 2 m ++ "-" ++ dec_digits 2 d ++ sep ++
  dec_digits 2 (secs / 3600) ++ ":" ++ dec_digits 2 (secs / 60 mod 60) ++ ":" ++
  dec_digits 2 (secs mod 60) ++
  (if (frac =? 0)%Z then "" else "." ++ dec_digits 6 frac) ++ "+00:00".

(** [t.isoformat()] and [str(t)] of a UTC datetime. *)
Definition isoformat (t : datetime) : string := datetime_text "T" t.
Definition datetime_str (t : datetime) : string := datetime_text " " t.

(** ** Rationals *)

(** Round to the nearest integer, ties to even. *)
Definition Qround_even (q : Q) : Z :=
  let n := Qnum q in
  let d := Z.pos (Qden q) in
  let fl := (n / d)%Z in
  let r := (n mod d)%Z in
  match (2 * r ?= d)%Z with
  | Lt => fl
  | Gt => (fl + 1)%Z
  | Eq => if Z.even fl then fl else (fl + 1)%Z
  end.

(** [f"{q:.1f}"] *)
Definition format_1f (q : Q) : string :=
  let t := Qround_even (q * 10)%Q in
  let a := Z.abs t in
  (if (Qnum q <? 0)%Z then "-" else "") ++ pretty (a / 10)%Z ++ "." ++
  dec_digits 1 (a mod 10).

Example uuid_str_ex :
  uuid_str 0x4f6a0b1c8d2e4a709c116b5d4e3f2a10 = "4f6a0b1c-8d2e-4a70-9c11-6b5d4e3f2a10".
Proof. vm_compute. reflexivity. Qed.
Example isoformat_ex : isoformat 1792108800000000 = "2026-10-16T00:00:00+00:00".
Proof. vm_compute. reflexivity. Qed.
Example isoformat_leap_ex : isoformat 951782400123456 = "2000-02-29T00:00:00.123456+00:00".
Proof. vm_compute. reflexivity. Qed.
Example format_1f_ex : format_1f 300 = "300.0" ∧ format_1f (1 # 4) = "0.2".
Proof. split; vm_compute; reflexivity. Qed.

(** ** Rendering is injective *)

(** [c] does not occur in [s]. *)
Fixpoint str_free (c : Ascii.ascii) (s : string) : bool :=
  match s with
  | EmptyString => true
  | String d r => (if decide (d = c) then false else true) && str_free c r
  end.

Abbreviation colon := (Ascii.Ascii false true false true true true false false).

Lemma str_free_app c s1 s2 : str_free c (s1 ++ s2) = str_free c s1 && str_free c s2.
Proof. induction s1 as [|d s1 IH]; simpl; [done|]. rewrite IH. by rewrite andb_assoc. Qed.

Lemma str_app_inj_len s1 s2 t1 t2 :
  String.length s1 = String.length s2 → s1 ++ t1 = s2 ++ t2 → s1 = s2 ∧ t1 = t2.
Proof.
  revert s2. induction s1 as [|c s1 IH]; intros [|d s2]; simpl; try done.
  intros [= Hl] [= -> Ht]. destruct (IH s2 Hl Ht) as [-> ->]. done.
Qed.

(** Two fields followed by the same separator, which neither contains. *)
Lemma str_field_inj c s1 s2 t1 t2 :
  str_free c s1 = true → str_free c s2 = true →
  s1 ++ String c t1 = s2 ++ String c t2 → s1 = s2 ∧ t1 = t2.
Proof.
  revert s2. induction s1 as [|d s1 IH]; intros [|e s2]; simpl; intros H1 H2 Heq;
    simplify_eq/=; try done;
    repeat case_decide; simplify_eq/=; try done.
  destruct (IH s2) as [-> ->]; auto.
Qed.

Lemma hex_digits_length k n : String.length (hex_digits k n) = k.
Proof. induction k as [|k IH]; simpl; congruence. Qed.

Lemma hex_digit_inj m n : (m < 16)%N → (n < 16)%N → hex_digit m = hex_digit n → m = n.
Proof.
  intros Hm Hn H. unfold hex_digit in H. apply (f_equal Ascii.N_of_ascii) in H.
  rewrite !Ascii.N_ascii_embedding in H; repeat case_match; try lia;
  repeat match goal with H : (_ <? _)%N = true |- _ => apply N.ltb_lt in H | H : (_ <? _)%N = false |- _ => apply N.ltb_ge in H end; lia.
Qed.
Lemma hex_digit_not_colon n : (n < 16)%N → hex_digit n ≠ colon.
Proof.
  intros H E. apply (f_equal Ascii.N_of_ascii) in E. unfold hex_digit in E.
  rewrite Ascii.N_ascii_embedding in E; [|case_match; lia].
  revert E. change (Ascii.N_of_ascii colon) with 58%N.
  destruct (N.ltb_spec n 10); lia.
Qed.
Lemma hex_digits_no_colon k n : str_free colon (hex_digits k n) = true.
Proof.
  induction k as [|k IH]; cbn [hex_digits str_free]; [done|].
  rewrite IH. case_decide as Hd; [|done].
  exfalso. revert Hd. apply hex_digit_not_colon. apply N.mod_lt. done.
Qed.
Lemma hex_digits_bits k m n :
  hex_digits k m = hex_digits k n →
  ∀ i, (i < 4 * N.of_nat k)%N → N.testbit m i = N.testbit n i.
Proof.
  induction k as [|k IH]; cbn [hex_digits]; intros Heq i Hi; [lia|].
  injection Heq as Hd Hr.
  destruct (decide (i < 4 * N.of_nat k)%N) as [|Hge]; [by apply IH|].
  apply hex_digit_inj in Hd; [|by apply N.mod_lt..].
  apply (f_equal (λ x, N.testbit x (i - 4 * N.of_nat k))) in Hd.
  change 16%N with (2 ^ 4)%N in Hd.
  rewrite !N.mod_pow2_bits_low in Hd by lia.
  rewrite !N.shiftr_spec' in Hd.
  by replace (i - 4 * N.of_nat k + 4 * N.of_nat k)%N with i in Hd by lia.
Qed.

Lemma uuid_str_inj u v : uuid_ok u → uuid_ok v → uuid_str u = uuid_str v → u = v.
Proof.
  unfold uuid_ok, uuid_str. intros Hu Hv H.
  apply str_app_inj_len in H as [H1 H]; [|by rewrite !hex_digits_length].
  apply (inj (String.append "-")) in H.
  apply str_app_inj_len in H as [H2 H]; [|by rewrite !hex_digits_length].
  apply (inj (String.append "-")) in H.
  apply str_app_inj_len in H as [H3 H]; [|by rewrite !hex_digits_length].
  apply (inj (String.append "-")) in H.
  apply str_app_inj_len in H as [H4 H]; [|by rewrite !hex_digits_length].
  apply (inj (String.append "-")) in H as H5.
  pose proof (hex_digits_bits _ _ _ H1) as B1. pose proof (hex_digits_bits _ _ _ H2) as B2.
  pose proof (hex_digits_bits _ _ _ H3) as B3. pose proof (hex_digits_bits _ _ _ H4) as B4.
  pose proof (hex_digits_bits _ _ _ H5) as B5.
  assert (∀ w x y s k, (∀ i, (i < 4 * N.of_nat k)%N → N.testbit (N.shiftr x s) i = N.testbit (N.shiftr y s) i) →
    (s <= w < s + 4 * N.of_nat k)%N → N.testbit x w = N.testbit y w) as Hsh.
  { intros w x y s k Hb Hw. specialize (Hb (w - s)%N ltac:(lia)).
    rewrite !N.shiftr_spec' in Hb. by replace (w - s + s)%N with w in Hb by lia. }
  apply N.bits_inj. intros i.
  destruct (decide (i < 128)%N).
  - destruct (decide (i < 48)%N); [apply B5; lia|].
    destruct (decide (i < 64)%N); [eapply (Hsh _ _ _ 48%N); [exact B4|lia]|].
    destruct (decide (i < 80)%N); [eapply (Hsh _ _ _ 64%N); [exact B3|lia]|].
    destruct (decide (i < 96)%N); [eapply (Hsh _ _ _ 80%N); [exact B2|lia]|].
    eapply (Hsh _ _ _ 96%N); [exact B1|lia].
  - assert (Hb : ∀ x, (x < 2 ^ 128)%N → N.testbit x i = false).
    { intros x Hx. rewrite <- (N.mod_small x (2 ^ 128)) by done. apply N.mod_pow2_bits_high. lia. }
    by rewrite !Hb.
Qed.
Lemma uuid_str_no_colon u : str_free colon (uuid_str u) = true.
Proof. unfold uuid_str. by rewrite !str_free_app, !hex_digits_no_colon. Qed.
Lemma uuid_or_no_colon d u : str_free colon d = true → str_free colon (uuid_or d u) = true.
Proof. destruct u; [intros _; apply uuid_str_no_colon|done]. Qed.
Lemma str_app_assoc (a b c : string) : a ++ (b ++ c) = (a ++ b) ++ c.
Proof. induction a as [|x a IH]; [done|]. exact (f_equal (String x) IH). Qed.

Lemma str_app_length s t : String.length (s ++ t) = (String.length s + String.length t)%nat.
Proof. induction s as [|c s IH]; simpl; [done|]. by rewrite IH. Qed.
Lemma uuid_str_length u : String.length (uuid_str u) = 36%nat.
Proof. unfold uuid_str. by rewrite !str_app_length, !hex_digits_length. Qed.
Lemma uuid_or_inj d u v : String.length d ≠ 36%nat →
  (∀ w, u = Some w → uuid_ok w) → (∀ w, v = Some w → uuid_ok w) → uuid_or d u = uuid_or d v → u = v.
Proof.
  intros Hd Hu Hv. destruct u as [u|], v as [v|]; simpl; intros Heq; try done.
  - f_equal. apply uuid_str_inj; auto.
  - rewrite <- Heq, uuid_str_length in Hd. done.
  - rewrite Heq, uuid_str_length in Hd. done.
Qed.
