(* ===== verification/PyLines.v ===== *)
(** * Lines, pieces and numbers of a text

    [str.split], prefixes, universal newlines, [isdigit] and [int] over ASCII, with the
    facts that relate them to concatenation and to the decimal form of an integer. *)

From S2P Require Import Prelude PyText.
Open Scope string_scope.
Open Scope Z_scope.

(** ** Pieces *)

(** [s.split(sep)] for a one-character separator. *)
Fixpoint str_split (sep : Ascii.ascii) (s : string) : list string :=
  match s with
  | EmptyString => [EmptyString]
  | String c r =>
      if decide (c = sep) then EmptyString :: str_split sep r
      else match str_split sep r with
           | p :: ps => String c p :: ps
           | [] => [String c EmptyString]
           end
  end.

(** The rest of [s] after the prefix [p], if [s] starts with it. *)
Fixpoint strip_prefix (p s : string) : option string :=
  match p with
  | EmptyString => Some s
  | String c p => match s with
                  | String d s => if decide (c = d) then strip_prefix p s else None
                  | EmptyString => None
                  end
  end.

Definition slash : Ascii.ascii := Ascii.ascii_of_N 47.

(** [read_text]: bytes decoded with universal newlines, CR LF and CR read as LF. *)
Definition cr : Ascii.ascii := Ascii.ascii_of_N 13.
Definition lf : Ascii.ascii := Ascii.ascii_of_N 10.
Fixpoint universal_newlines (s : string) : string :=
  match s with
  | String c r =>
      if decide (c = cr) then
        match r with
        | String d r' => if decide (d = lf) then String lf (universal_newlines r')
                         else String lf (universal_newlines r)
        | EmptyString => String lf EmptyString
        end
      else String c (universal_newlines r)
  | EmptyString => EmptyString
  end.

(** ** Numbers *)

Definition digit_value (c : Ascii.ascii) : option Z :=
  let n := Z.of_N (Ascii.N_of_ascii c) in
  if (48 <=? n) && (n <=? 57) then Some (n - 48) else None.

(** Digits with single underscores between them; [ok] tells whether the text may end. *)
Fixpoint int_digits (acc : Z) (ok : bool) (s : string) : option Z :=
  match s with
  | EmptyString => if ok then Some acc else None
  | String c r =>
      match digit_value c with
      | Some d => int_digits (10 * acc + d) true r
      | None => if ok && bool_decide (c = Ascii.ascii_of_N 95) then int_digits acc false r else None
      end
  end.

Definition is_digit (c : Ascii.ascii) : bool := bool_decide (is_Some (digit_value c)).

Fixpoint all_digits (s : string) : bool :=
  match s with EmptyString => true | String c r => is_digit c && all_digits r end.

(** [s.isdigit()] *)
Definition isdigit (s : string) : bool := str_truth s && all_digits s.

(** [re.fullmatch("[0-9a-f]{k}", s)] *)
Definition lower_hex (c : Ascii.ascii) : bool :=
  is_digit c || ((97 <=? Ascii.N_of_ascii c)%N && (Ascii.N_of_ascii c <=? 102)%N).

Fixpoint str_all (p : Ascii.ascii → bool) (s : string) : bool :=
  match s with
  | "" => true
  | String c s => p c && str_all p s
  end.

Definition hex_text (k : nat) (s : string) : bool := (String.length s =? k)%nat && str_all lower_hex s.

(** [s.rstrip(chars)] *)
Fixpoint str_rstrip_of (chars : list Ascii.ascii) (s : string) : string :=
  match s with
  | EmptyString => EmptyString
  | String c r =>
      match str_rstrip_of chars r with
      | EmptyString => if decide (c ∈ chars) then EmptyString else String c EmptyString
      | r' => String c r'
      end
  end.

(** ** Lemmas *)

Lemma str_app_nil_r s : s ++ "" = s.
Proof. induction s as [|c s IH]; [done|]. exact (f_equal (String c) IH). Qed.

Lemma str_all_app p s t : str_all p (s ++ t) = str_all p s && str_all p t.
Proof. induction s as [|c s IH]; simpl; [done|]. by rewrite IH, andb_assoc. Qed.

Lemma rstrip_head c s : is_space c = false → ∃ r, str_rstrip (String c s) = String c r.
Proof. intros Hc. cbn [str_rstrip]. destruct (str_rstrip s) as [|d r]; [rewrite Hc|]; by eexists. Qed.

(** What starts with more than a space is not blank. *)
Lemma strip_nonblank c s : is_space c = false → str_truth (str_strip (String c s)) = true.
Proof.
  intros Hc. unfold str_strip. cbn [str_lstrip]. rewrite Hc. by destruct (rstrip_head c s Hc) as [r ->].
Qed.

Lemma rstrip_rstrip s : str_rstrip (str_rstrip s) = str_rstrip s.
Proof.
  induction s as [|c s IH]; [done|]. cbn [str_rstrip]. destruct (str_rstrip s) as [|d r] eqn:Hs.
  - destruct (is_space c) eqn:Hc; [done|]. cbn [str_rstrip]. by rewrite Hc.
  - change (str_rstrip (String c (String d r))) with
      (match str_rstrip (String d r) with
       | EmptyString => if is_space c then EmptyString else String c EmptyString
       | r' => String c r'
       end). by rewrite IH.
Qed.

Lemma lstrip_cases s : str_lstrip s = "" ∨ ∃ c r, str_lstrip s = String c r ∧ is_space c = false.
Proof.
  induction s as [|c s IH]; [by left|]. cbn [str_lstrip]. destruct (is_space c) eqn:Hc; [done|]. right. eauto.
Qed.

Lemma strip_strip s : str_strip (str_strip s) = str_strip s.
Proof.
  unfold str_strip. destruct (lstrip_cases s) as [->|(c & r & -> & Hc)]; [done|].
  destruct (rstrip_head c r Hc) as [t Ht]. rewrite Ht at 1. cbn [str_lstrip]. rewrite Hc, <- Ht. apply rstrip_rstrip.
Qed.

Lemma strip_prefix_app p s : strip_prefix p (p ++ s) = Some s.
Proof. induction p as [|c p IH]; simpl; [done|]. by rewrite decide_True. Qed.

Lemma strip_prefix_Some p s r : strip_prefix p s = Some r → s = p ++ r.
Proof.
  revert s. induction p as [|c p IH]; intros [|d s]; simpl; try (by intros [= <-]).
  case_decide as Hd; [|done]. intros Hs%IH. by subst.
Qed.

Lemma str_split_ne_nil sep s : str_split sep s ≠ [].
Proof. destruct s; simpl; [done|]. case_decide; [done|]. by destruct (str_split sep s). Qed.

Lemma str_split_free sep s : str_has sep s = false → str_split sep s = [s].
Proof.
  induction s as [|c s IH]; simpl; [done|]. rewrite orb_false_iff. intros [Hc Hs].
  rewrite IH by done. by case_decide.
Qed.

Lemma str_split_app sep a b :
  str_has sep a = false → str_split sep (a ++ String sep b) = a :: str_split sep b.
Proof.
  induction a as [|c a IH]; simpl; [by rewrite decide_True|].
  rewrite orb_false_iff. intros [Hc Ha]. rewrite IH by done. by case_decide.
Qed.

Lemma str_split_cons sep s p ps : str_split sep s = p :: ps →
  str_has sep p = false ∧
  match ps with
  | [] => s = p
  | _ => ∃ r, s = p ++ String sep r ∧ str_split sep r = ps
  end.
Proof.
  revert p ps. induction s as [|c s IH]; intros p ps; simpl; [by intros [= <- <-]|].
  case_decide as Hc.
  - intros [= <- <-]. subst c. split; [done|].
    destruct (str_split sep s) eqn:Hs; [|by exists s].
    exfalso. destruct s; simpl in Hs; [done|]. case_decide; [done|]. by destruct (str_split sep s).
  - destruct (str_split sep s) as [|q qs] eqn:Hs.
    + exfalso. destruct s; simpl in Hs; [done|]. case_decide; [done|]. by destruct (str_split sep s).
    + intros [= <- <-]. destruct (IH q qs eq_refl) as [Hq Hr]. simpl. rewrite Hq.
      split; [by rewrite decide_False|].
      destruct qs; [by subst|]. destruct Hr as (r & -> & Hr). by exists r.
Qed.

(** ** Decimal text *)

Lemma pretty_char_value n : (n < 10)%N → digit_value (pretty_N_char n) = Some (Z.of_N n).
Proof.
  intros Hn. assert (n = 0 ∨ n = 1 ∨ n = 2 ∨ n = 3 ∨ n = 4 ∨ n = 5 ∨ n = 6 ∨ n = 7 ∨ n = 8 ∨ n = 9)%N
    as H by lia. naive_solver.
Qed.

(** Induction on the digits of a number. *)
Lemma pretty_go_ind (P : N → string → string → Prop) :
  (∀ s, P 0%N s s) →
  (∀ x s r, (0 < x)%N → P (x / 10)%N (String (pretty_N_char (x mod 10)) s) r → P x s r) →
  ∀ x s, P x s (pretty_N_go x s).
Proof.
  intros H0 HS x. induction (N.lt_wf_0 x) as [x _ IH]. intros s.
  assert (x = 0 ∨ 0 < x)%N as [->|Hx] by lia; [by rewrite pretty_N_go_0|].
  rewrite pretty_N_go_step by done. apply HS; [done|]. apply IH. by apply N.div_lt.
Qed.

Lemma pretty_mod_digit x : is_digit (pretty_N_char (x mod 10)) = true.
Proof. unfold is_digit. rewrite pretty_char_value by by apply N.mod_lt. by rewrite bool_decide_true. Qed.

Lemma pretty_go_all_digits x s : all_digits s = true → all_digits (pretty_N_go x s) = true.
Proof.
  revert x s. apply (pretty_go_ind (λ x s r, all_digits s = true → all_digits r = true)); [done|].
  intros x s r _ IH Hs. apply IH. simpl. by rewrite pretty_mod_digit.
Qed.

Lemma pretty_go_int x s acc ok :
  ∃ k, int_digits acc ok (pretty_N_go x s) =
       int_digits (acc * 10 ^ Z.of_nat k + Z.of_N x) (ok || bool_decide (0 < x)%N) s.
Proof.
  revert x s acc ok.
  apply (pretty_go_ind (λ x s r, ∀ acc ok, ∃ k, int_digits acc ok r =
    int_digits (acc * 10 ^ Z.of_nat k + Z.of_N x) (ok || bool_decide (0 < x)%N) s)).
  - intros s acc ok. exists 0%nat. rewrite bool_decide_false by lia. rewrite orb_false_r.
    f_equal. simpl. lia.
  - intros x s r Hx IH acc ok. destruct (IH acc ok) as [k ->]. exists (S k).
    cbn [int_digits]. rewrite pretty_char_value by by apply N.mod_lt.
    rewrite (bool_decide_true (0 < x)%N), orb_true_r by done. f_equal.
    rewrite Nat2Z.inj_succ, Z.pow_succ_r by lia.
    rewrite N2Z.inj_div, N2Z.inj_mod. pose proof (Z.div_mod (Z.of_N x) 10). lia.
Qed.

Lemma pretty_go_length x s k :
  (x < 10 ^ N.of_nat k)%N → (String.length (pretty_N_go x s) <= k + String.length s)%nat.
Proof.
  revert x s k.
  apply (pretty_go_ind (λ x s r, ∀ k, (x < 10 ^ N.of_nat k)%N →
    (String.length r <= k + String.length s)%nat)); [lia|].
  intros x s r Hx IH [|k] Hk; [simpl in Hk; lia|].
  rewrite Nat2N.inj_succ, N.pow_succ_r' in Hk.
  specialize (IH k ltac:(apply N.Div0.div_lt_upper_bound; lia)). simpl in *. lia.
Qed.

Lemma pretty_pos_go (z : Z) : 0 < z → pretty z = pretty_N_go (Z.to_N z) "".
Proof. destruct z as [|p|p]; [lia| |lia]. intros _. done. Qed.

(** [int(str(z))] *)
Lemma int_pretty z : 0 < z → int_digits 0 false (pretty z) = Some z.
Proof.
  intros Hz. rewrite pretty_pos_go by done.
  destruct (pretty_go_int (Z.to_N z) "" 0 false) as [k ->].
  rewrite bool_decide_true by lia. simpl. f_equal. lia.
Qed.

Lemma pretty_all_digits z : 0 <= z → all_digits (pretty z) = true.
Proof.
  intros Hz. destruct (decide (z = 0)) as [->|]; [done|].
  rewrite pretty_pos_go by lia. by apply pretty_go_all_digits.
Qed.

Lemma pretty_length z k : 0 < z < 10 ^ Z.of_nat k → (String.length (pretty z) <= k)%nat.
Proof.
  intros Hz. rewrite pretty_pos_go by lia.
  pose proof (pretty_go_length (Z.to_N z) "" k) as H. simpl in H. rewrite Nat.add_0_r in H. apply H.
  apply N2Z.inj_lt. rewrite Z2N.id, N2Z.inj_pow by lia. rewrite nat_N_Z. simpl. lia.
Qed.

(** A number starts with a digit other than zero. *)
Lemma pretty_go_head x s : (0 < x)%N →
  ∃ n r, (0 < n < 10)%N ∧ pretty_N_go x s = String (pretty_N_char n) r ∧
         (all_digits s = true → all_digits r = true).
Proof.
  revert s. induction (N.lt_wf_0 x) as [x _ IH]. intros s Hx. rewrite pretty_N_go_step by done.
  destruct (decide (x < 10)%N) as [Hlt|].
  - rewrite N.div_small, N.mod_small, pretty_N_go_0 by done. by exists x, s.
  - assert (H10 : (0 < x / 10)%N) by (apply N.div_str_pos; lia).
    destruct (IH (x / 10)%N ltac:(by apply N.div_lt) (String (pretty_N_char (x mod 10)) s) H10)
      as (m & t & Hm & -> & Ht).
    exists m, t. split_and!; [lia..|done|]. intros Hs. apply Ht. simpl. by rewrite pretty_mod_digit.
Qed.

(** A character that is not a digit does not occur in a number. *)
Lemma all_digits_free c s : is_digit c = false → all_digits s = true → str_free c s = true.
Proof.
  intros Hc. induction s as [|d s IH]; simpl; [done|]. rewrite andb_true_iff. intros [Hd Hs].
  rewrite decide_False by congruence. auto.
Qed.
