(* ===== verification/Sha256.v ===== *)
(** * SHA-256

    [hashlib.sha256] as the program uses it to derive deterministic job ids:
    an executable definition of FIPS 180-4 on 32-bit words kept in [N], checked
    against the standard's test vectors. *)

From S2P Require Import Prelude PyText.
Open Scope N_scope.

Definition w32 (x : N) : N := x mod 2 ^ 32.
Definition add32 (x y : N) : N := w32 (x + y).
Definition rotr (k x : N) : N := N.lor (N.shiftr x k) (w32 (N.shiftl x (32 - k))).

Definition sha_ch (x y z : N) : N := N.lxor (N.land x y) (N.ldiff z x).
Definition sha_maj (x y z : N) : N :=
  N.lxor (N.lxor (N.land x y) (N.land x z)) (N.land y z).
Definition bsig0 (x : N) : N := N.lxor (N.lxor (rotr 2 x) (rotr 13 x)) (rotr 22 x).
Definition bsig1 (x : N) : N := N.lxor (N.lxor (rotr 6 x) (rotr 11 x)) (rotr 25 x).
Definition ssig0 (x : N) : N := N.lxor (N.lxor (rotr 7 x) (rotr 18 x)) (N.shiftr x 3).
Definition ssig1 (x : N) : N := N.lxor (N.lxor (rotr 17 x) (rotr 19 x)) (N.shiftr x 10).

(** The standard takes its constants from the first 32 bits of the fractional parts of
    the roots of the first primes; they are computed here. *)
Definition is_prime (n : nat) : bool :=
  forallb (λ d, negb (Nat.eqb (Nat.modulo n d) 0)) (seq 2 (n - 2)).
Definition primes_below (n : nat) : list N := N.of_nat <$> filter (λ k, is_prime k = true) (seq 2 (n - 2)).

(** The integer cube root of [n], bit by bit from bit [k - 1] down. *)
Fixpoint icbrt (k : nat) (n r : N) : N :=
  match k with
  | O => r
  | S k => let c := r + 2 ^ N.of_nat k in icbrt k n (if c * c * c <=? n then c else r)
  end.

Definition sha_k : list N :=
  Eval vm_compute in (λ p, w32 (icbrt 40 (N.shiftl p 96) 0)) <$> primes_below 312.
Definition sha_init : list N :=
  Eval vm_compute in (λ p, w32 (N.sqrt (N.shiftl p 64))) <$> take 8 (primes_below 312).

Fixpoint bytes_of_string (s : string) : list N :=
  match s with
  | EmptyString => []
  | String c r => Ascii.N_of_ascii c :: bytes_of_string r
  end.

(** Big-endian bytes of [n], [k] of them, and back. *)
Fixpoint be_bytes (k : nat) (n : N) : list N :=
  match k with
  | O => []
  | S k => N.shiftr n (8 * N.of_nat k) mod 256 :: be_bytes k n
  end.
Definition be_num (bs : list N) : N := fold_left (λ acc b, acc * 256 + b) bs 0.

Definition sha_pad (bs : list N) : list N :=
  let len := N.of_nat (length bs) in
  let zeros := (119 - len mod 64) mod 64 in
  bs ++ [128] ++ replicate (N.to_nat zeros) 0 ++ be_bytes 8 (8 * len).

(** Split a list into chunks of [k]; [fuel] bounds the number of chunks. *)
Fixpoint chunks {A} (fuel k : nat) (l : list A) : list (list A) :=
  match fuel, l with
  | O, _ | _, [] => []
  | S fuel, _ => take k l :: chunks fuel k (drop k l)
  end.

(** The message schedule, kept in reverse so the four taps have fixed depth. *)
Fixpoint sha_extend (n : nat) (rw : list N) : list N :=
  match n with
  | O => rw
  | S n =>
      let tap i := default 0 (rw !! i) in
      let w := add32 (add32 (ssig1 (tap 1%nat)) (tap 6%nat))
                     (add32 (ssig0 (tap 14%nat)) (tap 15%nat)) in
      sha_extend n (w :: rw)
  end.

Definition sha_schedule (block : list N) : list N :=
  reverse (sha_extend 48 (reverse (be_num <$> chunks 16 4 block))).

Definition sha_round (st : list N) (kw : N * N) : list N :=
  match st with
  | [a; b; c; d; e; f; g; h] =>
      let t1 := add32 (add32 (add32 h (bsig1 e)) (add32 (sha_ch e f g) (kw.1))) kw.2 in
      let t2 := add32 (bsig0 a) (sha_maj a b c) in
      [add32 t1 t2; a; b; c; add32 d t1; e; f; g]
  | _ => st
  end.

Definition sha_block (st : list N) (block : list N) : list N :=
  zip_with add32 st (fold_left sha_round (zip sha_k (sha_schedule block)) st).

(** [hashlib.sha256(s.encode()).digest()] *)
Definition sha256_digest (s : string) : list N :=
  let padded := sha_pad (bytes_of_string s) in
  let st := fold_left sha_block (chunks (length padded) 64 padded) sha_init in
  st ≫= be_bytes 4.

(** [UUID(bytes=sha256(s.encode()).digest()[:16])], which is also
    [UUID(sha256(s.encode()).hexdigest()[:32])]. *)
Definition sha256_uuid (s : string) : uuid := be_num (take 16 (sha256_digest s)).

(** [sha256(text).hexdigest()] *)
Definition sha256_hex (s : string) : string :=
  fold_right (λ b acc, hex_digits 2 b ++ acc) "" (sha256_digest s).

(** The empty message and the one-block message of FIPS 180-4, and a two-block one. *)
Example sha256_empty :
  be_num (sha256_digest "") = 0xe3b0c44298fc1c149afbf4c8996fb92427ae41e4649b934ca495991b7852b855.
Proof. vm_compute. reflexivity. Qed.
Example sha256_abc :
  be_num (sha256_digest "abc") = 0xba7816bf8f01cfea414140de5dae2223b00361a396177a9cb410ff61f20015ad.
Proof. vm_compute. reflexivity. Qed.
Example sha256_two_blocks :
  be_num (sha256_digest "abcdbcdecdefdefgefghfghighijhijkijkljklmklmnlmnomnopnopq")
  = 0x248d6a61d20638b8e5c026930c3e6039a33ce45964ff2167f6ecedd419db06c1.
Proof. vm_compute. reflexivity. Qed.

Lemma be_num_bound bs : Forall (λ b, b < 256) bs → be_num bs < 256 ^ N.of_nat (length bs).
Proof.
  unfold be_num. intros H.
  assert (∀ acc n, acc < 256 ^ n →
    fold_left (λ acc b, acc * 256 + b) bs acc < 256 ^ (n + N.of_nat (length bs))) as Hg.
  { induction H as [|b bs Hb _ IH]; intros acc n Ha; cbn [fold_left length].
    - by rewrite N.add_0_r.
    - replace (n + N.of_nat (S (length bs))) with (N.succ n + N.of_nat (length bs)) by lia.
      apply IH. rewrite N.pow_succ_r'. nia. }
  apply (Hg 0 0). simpl. lia.
Qed.

Lemma be_bytes_bound k n : Forall (λ b, b < 256) (be_bytes k n).
Proof. induction k; simpl; constructor; [by apply N.mod_lt|done]. Qed.

Lemma sha256_digest_bound s : Forall (λ b, b < 256) (sha256_digest s).
Proof.
  unfold sha256_digest. induction (fold_left _ _ _) as [|w l IH]; [constructor|].
  rewrite bind_cons. apply Forall_app. split; [apply be_bytes_bound|exact IH].
Qed.

(** A derived job id is a 128-bit UUID. *)
Lemma sha256_uuid_ok s : uuid_ok (sha256_uuid s).
Proof.
  unfold uuid_ok, sha256_uuid.
  eapply N.lt_le_trans; [apply be_num_bound, Forall_take, sha256_digest_bound|].
  replace (2 ^ 128) with (256 ^ 16) by done.
  apply N.pow_le_mono_r; [done|]. rewrite length_take. lia.
Qed.
