(* ===== verification/Sha1.v ===== *)
(** * SHA-1 and name-based UUIDs

    [hashlib.sha1] and [uuid.uuid5] as the asset services use them for stable
    identifiers: an executable definition of FIPS 180-4 SHA-1 on 32-bit words, and the
    version and variant bits of RFC 4122. *)

From S2P Require Import Prelude PyText Sha256.
Open Scope N_scope.

Definition rotl (k x : N) : N := N.lor (w32 (N.shiftl x k)) (N.shiftr x (32 - k)).

(** The round constants are the leading bits of the square roots of 2, 3, 5 and 10. *)
Definition sha1_k (t : nat) : N :=
  let root n := N.sqrt (n * 2 ^ 60) in
  if (t <? 20)%nat then root 2 else if (t <? 40)%nat then root 3
  else if (t <? 60)%nat then root 5 else root 10.

Definition sha1_f (t : nat) (x y z : N) : N :=
  if (t <? 20)%nat then sha_ch x y z
  else if (t <? 40)%nat then N.lxor (N.lxor x y) z
  else if (t <? 60)%nat then sha_maj x y z
  else N.lxor (N.lxor x y) z.

(** The counting and the reversed counting byte patterns. *)
Definition sha1_init : list N :=
  [be_num [0x67; 0x45; 0x23; 0x01]; be_num [0xef; 0xcd; 0xab; 0x89];
   be_num [0x98; 0xba; 0xdc; 0xfe]; be_num [0x10; 0x32; 0x54; 0x76];
   be_num [0xc3; 0xd2; 0xe1; 0xf0]].

Fixpoint sha1_extend (n : nat) (rw : list N) : list N :=
  match n with
  | O => rw
  | S n =>
      let tap i := default 0 (rw !! i) in
      sha1_extend n (rotl 1 (N.lxor (N.lxor (tap 2%nat) (tap 7%nat)) (N.lxor (tap 13%nat) (tap 15%nat))) :: rw)
  end.

Definition sha1_schedule (block : list N) : list N :=
  reverse (sha1_extend 64 (reverse (be_num <$> chunks 16 4 block))).

Definition sha1_round (st : list N) (tw : nat * N) : list N :=
  match st with
  | [a; b; c; d; e] =>
      let x := add32 (add32 (add32 (rotl 5 a) (sha1_f tw.1 b c d)) (add32 e (sha1_k tw.1))) tw.2 in
      [x; a; rotl 30 b; c; d]
  | _ => st
  end.

Definition sha1_block (st : list N) (block : list N) : list N :=
  zip_with add32 st (fold_left sha1_round (zip (seq 0 80) (sha1_schedule block)) st).

Definition sha1_digest (bytes : list N) : list N :=
  let padded := sha_pad bytes in
  fold_left sha1_block (chunks (length padded) 64 padded) sha1_init ≫= be_bytes 4.

Example sha1_empty : be_num (sha1_digest []) = 0xda39a3ee5e6b4b0d3255bfef95601890afd80709.
Proof. vm_compute. reflexivity. Qed.
Example sha1_abc : be_num (sha1_digest (bytes_of_string "abc")) = 0xa9993e364706816aba3e25717850c26c9cd0d89d.
Proof. vm_compute. reflexivity. Qed.

(** [uuid.UUID(bytes=digest[:16], version=5)] *)
Definition version5 (n : N) : uuid :=
  let n := N.lor (N.ldiff n (N.shiftl 0xc000 48)) (N.shiftl 0x8000 48) in
  N.lor (N.ldiff n (N.shiftl 0xf000 64)) (N.shiftl 5 76).

Definition uuid5 (namespace : uuid) (name : string) : uuid :=
  version5 (be_num (take 16 (sha1_digest (be_bytes 16 namespace ++ bytes_of_string name)))).

Definition NAMESPACE_URL : uuid := 0x6ba7b8119dad11d180b400c04fd430c8.

(** The example of the [uuid] module's documentation has namespace DNS. *)
Example uuid5_python_org :
  uuid_str (uuid5 0x6ba7b8109dad11d180b400c04fd430c8 "python.org")
  = "886313e1-3b8a-5372-9b90-0c9aee199e5d"%string.
Proof. vm_compute. reflexivity. Qed.
