(* ===== verification/PySort.v ===== *)
(** * Python's sort

    [sorted] and [list.sort]: a stable sort by a total preorder.  Stability is kept by
    inserting from the right in front of equal elements; [reverse=True] is the same sort
    by the converse order. *)

From S2P Require Import Prelude.
Open Scope Z_scope.

Section sort.
Context {A : Type} (le : A → A → bool).

Fixpoint insert_by (x : A) (l : list A) : list A :=
  match l with
  | [] => [x]
  | y :: r => if le x y then x :: l else y :: insert_by x r
  end.

Definition py_sorted (l : list A) : list A := foldr insert_by [] l.

Lemma insert_by_perm x l : insert_by x l ≡ₚ x :: l.
Proof.
  induction l as [|y l IH]; simpl; [done|]. destruct (le x y); [done|].
  rewrite IH. apply Permutation_swap.
Qed.

Lemma py_sorted_perm l : py_sorted l ≡ₚ l.
Proof. induction l as [|x l IH]; simpl; [done|]. by rewrite insert_by_perm, IH. Qed.

Lemma elem_of_py_sorted l x : x ∈ py_sorted l ↔ x ∈ l.
Proof. by rewrite py_sorted_perm. Qed.

Lemma py_sorted_length l : length (py_sorted l) = length l.
Proof. by rewrite py_sorted_perm. Qed.

Context (le_total : ∀ x y, le x y = true ∨ le y x = true)
  (le_trans : ∀ x y z, le x y = true → le y z = true → le x z = true).

Lemma insert_by_sorted x l :
  StronglySorted (λ a b, le a b = true) l → StronglySorted (λ a b, le a b = true) (insert_by x l).
Proof.
  induction 1 as [|y l Hs IH Hy]; simpl; [by repeat constructor|].
  destruct (le x y) eqn:Hxy.
  - constructor; [by constructor|]. constructor; [done|]. eapply Forall_impl; [exact Hy|].
    intros z Hz. by apply (le_trans x y z).
  - constructor; [done|]. rewrite insert_by_perm. constructor; [|done].
    destruct (le_total x y); congruence.
Qed.

Lemma py_sorted_sorted l : StronglySorted (λ a b, le a b = true) (py_sorted l).
Proof. induction l; simpl; [constructor|by apply insert_by_sorted]. Qed.
End sort.

(** [key=...] for an integer key. *)
Definition by_key {A} (key : A → Z) : A → A → bool := λ a b, key a <=? key b.

Lemma by_key_sorted {A} (key : A → Z) l :
  StronglySorted (λ a b, key a <= key b) (py_sorted (by_key key) l).
Proof.
  apply (StronglySorted_impl (λ a b, by_key key a b = true)).
  - apply py_sorted_sorted; unfold by_key; [intros x y|intros x y z]; rewrite ?Z.leb_le; lia.
  - unfold by_key. intros a b. by rewrite Z.leb_le.
Qed.
