(* ===== verification/Enums.v ===== *)
(** * Domain taxonomies

    The string enumerations of [domain/enums.py] and [domain/events.py].  Each
    is a module of its own, so that [JobStatus.READY] is written as in the
    source; [<Enum>_value] is the member's string value and [<Enum>_members]
    the members in declaration order. *)

From S2P Require Import Prelude.
Open Scope string_scope.

(** Product experiment lifecycle states ([domain/enums.py], class [ProductLifecycleState]). *)
Module ProductLifecycleState.
Inductive ProductLifecycleState : Set :=
  | DISCOVERED | RESEARCHING | RESEARCH_COMPLETE | QUALIFYING | QUALIFIED | REJECTED
  | TEARDOWN_PENDING | TEARDOWN_COMPLETE | SPEC_READY | DEDUPE_CHECK | RECONCEPTING
  | BUILDING | BUILD_QA | BUILD_REPAIR | VARIANT_BUILD | VARIANT_QA | MERCHANDISING
  | ASSET_BUILD | ASSET_QA | DRAFTING | DRAFT_READY | PREFLIGHT | LISTING_REPAIR
  | READY_TO_PUBLISH | PUBLISHED | POST_PUBLISH_QA | INCIDENT_REPAIR | OBSERVING
  | MATURE | EVALUATING | REPAIRING | DEACTIVATING | DEACTIVATED | SUCCESSOR_SPEC.
#[export] Instance ProductLifecycleState_eq_dec : EqDecision ProductLifecycleState.
Proof. solve_decision. Defined.
Definition ProductLifecycleState_value (x : ProductLifecycleState) : string :=
  match x with
  | DISCOVERED => "DISCOVERED"
  | RESEARCHING => "RESEARCHING"
  | RESEARCH_COMPLETE => "RESEARCH_COMPLETE"
  | QUALIFYING => "QUALIFYING"
  | QUALIFIED => "QUALIFIED"
  | REJECTED => "REJECTED"
  | TEARDOWN_PENDING => "TEARDOWN_PENDING"
  | TEARDOWN_COMPLETE => "TEARDOWN_COMPLETE"
  | SPEC_READY => "SPEC_READY"
  | DEDUPE_CHECK => "DEDUPE_CHECK"
  | RECONCEPTING => "RECONCEPTING"
  | BUILDING => "BUILDING"
  | BUILD_QA => "BUILD_QA"
  | BUILD_REPAIR => "BUILD_REPAIR"
  | VARIANT_BUILD => "VARIANT_BUILD"
  | VARIANT_QA => "VARIANT_QA"
  | MERCHANDISING => "MERCHANDISING"
  | ASSET_BUILD => "ASSET_BUILD"
  | ASSET_QA => "ASSET_QA"
  | DRAFTING => "DRAFTING"
  | DRAFT_READY => "DRAFT_READY"
  | PREFLIGHT => "PREFLIGHT"
  | LISTING_REPAIR => "LISTING_REPAIR"
  | READY_TO_PUBLISH => "READY_TO_PUBLISH"
  | PUBLISHED => "PUBLISHED"
  | POST_PUBLISH_QA => "POST_PUBLISH_QA"
  | INCIDENT_REPAIR => "INCIDENT_REPAIR"
  | OBSERVING => "OBSERVING"
  | MATURE => "MATURE"
  | EVALUATING => "EVALUATING"
  | REPAIRING => "REPAIRING"
  | DEACTIVATING => "DEACTIVATING"
  | DEACTIVATED => "DEACTIVATED"
  | SUCCESSOR_SPEC => "SUCCESSOR_SPEC"
  end.
Definition ProductLifecycleState_members : list ProductLifecycleState :=
  [DISCOVERED; RESEARCHING; RESEARCH_COMPLETE; QUALIFYING; QUALIFIED; REJECTED;
   TEARDOWN_PENDING; TEARDOWN_COMPLETE; SPEC_READY; DEDUPE_CHECK; RECONCEPTING;
   BUILDING; BUILD_QA; BUILD_REPAIR; VARIANT_BUILD; VARIANT_QA; MERCHANDISING;
   ASSET_BUILD; ASSET_QA; DRAFTING; DRAFT_READY; PREFLIGHT; LISTING_REPAIR;
   READY_TO_PUBLISH; PUBLISHED; POST_PUBLISH_QA; INCIDENT_REPAIR; OBSERVING; MATURE;
   EVALUATING; REPAIRING; DEACTIVATING; DEACTIVATED; SUCCESSOR_SPEC].
End ProductLifecycleState.
Export (hints) ProductLifecycleState.
Abbreviation ProductLifecycleState := ProductLifecycleState.ProductLifecycleState.

(** Orchestration job states ([domain/enums.py], class [JobStatus]). *)
Module JobStatus.
Inductive JobStatus : Set :=
  | PENDING | BLOCKED | READY | RUNNING | SUCCEEDED | FAILED | TERMINAL_FAILURE
  | CANCELLED | UNCERTAIN_EXTERNAL_EFFECT.
#[export] Instance JobStatus_eq_dec : EqDecision JobStatus.
Proof. solve_decision. Defined.
Definition JobStatus_value (x : JobStatus) : string :=
  match x with
  | PENDING => "PENDING"
  | BLOCKED => "BLOCKED"
  | READY => "READY"
  | RUNNING => "RUNNING"
  | SUCCEEDED => "SUCCEEDED"
  | FAILED => "FAILED"
  | TERMINAL_FAILURE => "TERMINAL_FAILURE"
  | CANCELLED => "CANCELLED"
  | UNCERTAIN_EXTERNAL_EFFECT => "UNCERTAIN_EXTERNAL_EFFECT"
  end.
Definition JobStatus_members : list JobStatus :=
  [PENDING; BLOCKED; READY; RUNNING; SUCCEEDED; FAILED; TERMINAL_FAILURE; CANCELLED;
   UNCERTAIN_EXTERNAL_EFFECT].
End JobStatus.
Export (hints) JobStatus.
Abbreviation JobStatus := JobStatus.JobStatus.

(** Statuses returned by one agent run ([domain/enums.py], class [AgentRunStatus]). *)
Module AgentRunStatus.
Inductive AgentRunStatus : Set :=
  | SUCCESS | FAILURE | BLOCKED | UNCERTAIN_EXTERNAL_EFFECT.
#[export] Instance AgentRunStatus_eq_dec : EqDecision AgentRunStatus.
Proof. solve_decision. Defined.
Definition AgentRunStatus_value (x : AgentRunStatus) : string :=
  match x with
  | SUCCESS => "SUCCESS"
  | FAILURE => "FAILURE"
  | BLOCKED => "BLOCKED"
  | UNCERTAIN_EXTERNAL_EFFECT => "UNCERTAIN_EXTERNAL_EFFECT"
  end.
Definition AgentRunStatus_members : list AgentRunStatus :=
  [SUCCESS; FAILURE; BLOCKED; UNCERTAIN_EXTERNAL_EFFECT].
End AgentRunStatus.
Export (hints) AgentRunStatus.
Abbreviation AgentRunStatus := AgentRunStatus.AgentRunStatus.

(** Branch results of QA and dedupe gates ([domain/enums.py], class [BranchOutcome]). *)
Module BranchOutcome.
Inductive BranchOutcome : Set :=
  | PASS | FAIL | TOO_CLOSE.
#[export] Instance BranchOutcome_eq_dec : EqDecision BranchOutcome.
Proof. solve_decision. Defined.
Definition BranchOutcome_value (x : BranchOutcome) : string :=
  match x with
  | PASS => "PASS"
  | FAIL => "FAIL"
  | TOO_CLOSE => "TOO_CLOSE"
  end.
Definition BranchOutcome_members : list BranchOutcome :=
  [PASS; FAIL; TOO_CLOSE].
End BranchOutcome.
Export (hints) BranchOutcome.
Abbreviation BranchOutcome := BranchOutcome.BranchOutcome.

(** External-effect classes of a job ([domain/enums.py], class [SideEffectClass]). *)
Module SideEffectClass.
Inductive SideEffectClass : Set :=
  | NONE | EXTERNAL_READ | EXTERNAL_WRITE | EXTERNAL_SPEND | EXTERNAL_MESSAGE.
#[export] Instance SideEffectClass_eq_dec : EqDecision SideEffectClass.
Proof. solve_decision. Defined.
Definition SideEffectClass_value (x : SideEffectClass) : string :=
  match x with
  | NONE => "NONE"
  | EXTERNAL_READ => "EXTERNAL_READ"
  | EXTERNAL_WRITE => "EXTERNAL_WRITE"
  | EXTERNAL_SPEND => "EXTERNAL_SPEND"
  | EXTERNAL_MESSAGE => "EXTERNAL_MESSAGE"
  end.
Definition SideEffectClass_members : list SideEffectClass :=
  [NONE; EXTERNAL_READ; EXTERNAL_WRITE; EXTERNAL_SPEND; EXTERNAL_MESSAGE].
End SideEffectClass.
Export (hints) SideEffectClass.
Abbreviation SideEffectClass := SideEffectClass.SideEffectClass.

(** Retry safety contract of a job ([domain/enums.py], class [RetryClass]). *)
Module RetryClass.
Inductive RetryClass : Set :=
  | SAFE | IDEMPOTENT | RECONCILE_FIRST | MANUAL_RESUME | NEVER.
#[export] Instance RetryClass_eq_dec : EqDecision RetryClass.
Proof. solve_decision. Defined.
Definition RetryClass_value (x : RetryClass) : string :=
  match x with
  | SAFE => "SAFE"
  | IDEMPOTENT => "IDEMPOTENT"
  | RECONCILE_FIRST => "RECONCILE_FIRST"
  | MANUAL_RESUME => "MANUAL_RESUME"
  | NEVER => "NEVER"
  end.
Definition RetryClass_members : list RetryClass :=
  [SAFE; IDEMPOTENT; RECONCILE_FIRST; MANUAL_RESUME; NEVER].
End RetryClass.
Export (hints) RetryClass.
Abbreviation RetryClass := RetryClass.RetryClass.

(** Portfolio decisions ([domain/enums.py], class [DecisionType]). *)
Module DecisionType.
Inductive DecisionType : Set :=
  | HOLD | REPAIR | CULL | MULTIPLY.
#[export] Instance DecisionType_eq_dec : EqDecision DecisionType.
Proof. solve_decision. Defined.
Definition DecisionType_value (x : DecisionType) : string :=
  match x with
  | HOLD => "HOLD"
  | REPAIR => "REPAIR"
  | CULL => "CULL"
  | MULTIPLY => "MULTIPLY"
  end.
Definition DecisionType_members : list DecisionType :=
  [HOLD; REPAIR; CULL; MULTIPLY].
End DecisionType.
Export (hints) DecisionType.
Abbreviation DecisionType := DecisionType.DecisionType.

(** Incident categories ([domain/enums.py], class [IncidentType]). *)
Module IncidentType.
Inductive IncidentType : Set :=
  | BROKEN_LINK | CUSTOMER_ISSUE | BUILD_DEFECT | LISTING_DEFECT | CREDENTIAL_FAILURE
  | PROVIDER_MISMATCH | TERMINAL_JOB_FAILURE | UNCERTAIN_EXTERNAL_EFFECT.
#[export] Instance IncidentType_eq_dec : EqDecision IncidentType.
Proof. solve_decision. Defined.
Definition IncidentType_value (x : IncidentType) : string :=
  match x with
  | BROKEN_LINK => "BROKEN_LINK"
  | CUSTOMER_ISSUE => "CUSTOMER_ISSUE"
  | BUILD_DEFECT => "BUILD_DEFECT"
  | LISTING_DEFECT => "LISTING_DEFECT"
  | CREDENTIAL_FAILURE => "CREDENTIAL_FAILURE"
  | PROVIDER_MISMATCH => "PROVIDER_MISMATCH"
  | TERMINAL_JOB_FAILURE => "TERMINAL_JOB_FAILURE"
  | UNCERTAIN_EXTERNAL_EFFECT => "UNCERTAIN_EXTERNAL_EFFECT"
  end.
Definition IncidentType_members : list IncidentType :=
  [BROKEN_LINK; CUSTOMER_ISSUE; BUILD_DEFECT; LISTING_DEFECT; CREDENTIAL_FAILURE;
   PROVIDER_MISMATCH; TERMINAL_JOB_FAILURE; UNCERTAIN_EXTERNAL_EFFECT].
End IncidentType.
Export (hints) IncidentType.
Abbreviation IncidentType := IncidentType.IncidentType.

(** Operating modes ([domain/enums.py], class [AutonomyMode]). *)
Module AutonomyMode.
Inductive AutonomyMode : Set :=
  | SIMULATION | DRAFT | LIVE.
#[export] Instance AutonomyMode_eq_dec : EqDecision AutonomyMode.
Proof. solve_decision. Defined.
Definition AutonomyMode_value (x : AutonomyMode) : string :=
  match x with
  | SIMULATION => "simulation"
  | DRAFT => "draft"
  | LIVE => "live"
  end.
Definition AutonomyMode_members : list AutonomyMode :=
  [SIMULATION; DRAFT; LIVE].
End AutonomyMode.
Export (hints) AutonomyMode.
Abbreviation AutonomyMode := AutonomyMode.AutonomyMode.

(** Implementation channels ([domain/enums.py], class [CapabilityChannel]). *)
Module CapabilityChannel.
Inductive CapabilityChannel : Set :=
  | DIRECT_API | COMPOSIO | BROWSER | INTERNAL_RENDERER | MANUAL_EXTERNAL_BLOCKER.
#[export] Instance CapabilityChannel_eq_dec : EqDecision CapabilityChannel.
Proof. solve_decision. Defined.
Definition CapabilityChannel_value (x : CapabilityChannel) : string :=
  match x with
  | DIRECT_API => "DIRECT_API"
  | COMPOSIO => "COMPOSIO"
  | BROWSER => "BROWSER"
  | INTERNAL_RENDERER => "INTERNAL_RENDERER"
  | MANUAL_EXTERNAL_BLOCKER => "MANUAL_EXTERNAL_BLOCKER"
  end.
End CapabilityChannel.
Export (hints) CapabilityChannel.
Abbreviation CapabilityChannel := CapabilityChannel.CapabilityChannel.

(** Durable domain events ([domain/events.py], class [EventName]). *)
Module EventName.
Inductive EventName : Set :=
  | ACCOUNT_CONNECTED | RESEARCH_COMPLETED | NICHE_SHORTLISTED | PRODUCT_QUALIFIED
  | PRODUCT_REJECTED | TEARDOWN_COMPLETED | PRODUCT_SPEC_CREATED | DEDUPE_PASSED
  | DEDUPE_FAILED | BUILD_COMPLETED | BUILD_QA_PASSED | BUILD_QA_FAILED
  | VARIANTS_COMPLETED | ASSETS_COMPLETED | DRAFT_CREATED | PREFLIGHT_PASSED
  | PREFLIGHT_FAILED | LISTING_PUBLISHED | POST_PUBLISH_VERIFIED | METRICS_CAPTURED
  | LISTING_MATURED | LISTING_HELD | LISTING_REPAIR_REQUESTED | LISTING_CULLED
  | WINNER_DETECTED | SUCCESSOR_CREATED | CUSTOMER_ISSUE_RECEIVED
  | BROKEN_LINK_DETECTED | REPAIR_COMPLETED | JOB_FAILED | JOB_STALLED
  | CREDENTIAL_REQUIRED | ENVIRONMENT_AUDITED | SHOP_BOOTSTRAPPED | NICHE_SELECTED
  | COMPETITOR_PURCHASED | VARIANT_LINKS_VERIFIED | SCREENSHOTS_CAPTURED
  | LISTING_COPY_COMPLETED | DELIVERY_FILES_COMPLETED | PRICING_COMPLETED
  | PROOF_FEEDBACK_CAPTURED | SCHEDULE_CONFIGURED | BUILD_SLOT_DEFERRED
  | MONTHLY_REVIEW_COMPLETED | SCALE_DECIDED | LISTING_CULL_REQUESTED | REPAIR_APPLIED.
#[export] Instance EventName_eq_dec : EqDecision EventName.
Proof. solve_decision. Defined.
Definition EventName_value (x : EventName) : string :=
  match x with
  | ACCOUNT_CONNECTED => "ACCOUNT_CONNECTED"
  | RESEARCH_COMPLETED => "RESEARCH_COMPLETED"
  | NICHE_SHORTLISTED => "NICHE_SHORTLISTED"
  | PRODUCT_QUALIFIED => "PRODUCT_QUALIFIED"
  | PRODUCT_REJECTED => "PRODUCT_REJECTED"
  | TEARDOWN_COMPLETED => "TEARDOWN_COMPLETED"
  | PRODUCT_SPEC_CREATED => "PRODUCT_SPEC_CREATED"
  | DEDUPE_PASSED => "DEDUPE_PASSED"
  | DEDUPE_FAILED => "DEDUPE_FAILED"
  | BUILD_COMPLETED => "BUILD_COMPLETED"
  | BUILD_QA_PASSED => "BUILD_QA_PASSED"
  | BUILD_QA_FAILED => "BUILD_QA_FAILED"
  | VARIANTS_COMPLETED => "VARIANTS_COMPLETED"
  | ASSETS_COMPLETED => "ASSETS_COMPLETED"
  | DRAFT_CREATED => "DRAFT_CREATED"
  | PREFLIGHT_PASSED => "PREFLIGHT_PASSED"
  | PREFLIGHT_FAILED => "PREFLIGHT_FAILED"
  | LISTING_PUBLISHED => "LISTING_PUBLISHED"
  | POST_PUBLISH_VERIFIED => "POST_PUBLISH_VERIFIED"
  | METRICS_CAPTURED => "METRICS_CAPTURED"
  | LISTING_MATURED => "LISTING_MATURED"
  | LISTING_HELD => "LISTING_HELD"
  | LISTING_REPAIR_REQUESTED => "LISTING_REPAIR_REQUESTED"
  | LISTING_CULLED => "LISTING_CULLED"
  | WINNER_DETECTED => "WINNER_DETECTED"
  | SUCCESSOR_CREATED => "SUCCESSOR_CREATED"
  | CUSTOMER_ISSUE_RECEIVED => "CUSTOMER_ISSUE_RECEIVED"
  | BROKEN_LINK_DETECTED => "BROKEN_LINK_DETECTED"
  | REPAIR_COMPLETED => "REPAIR_COMPLETED"
  | JOB_FAILED => "JOB_FAILED"
  | JOB_STALLED => "JOB_STALLED"
  | CREDENTIAL_REQUIRED => "CREDENTIAL_REQUIRED"
  | ENVIRONMENT_AUDITED => "ENVIRONMENT_AUDITED"
  | SHOP_BOOTSTRAPPED => "SHOP_BOOTSTRAPPED"
  | NICHE_SELECTED => "NICHE_SELECTED"
  | COMPETITOR_PURCHASED => "COMPETITOR_PURCHASED"
  | VARIANT_LINKS_VERIFIED => "VARIANT_LINKS_VERIFIED"
  | SCREENSHOTS_CAPTURED => "SCREENSHOTS_CAPTURED"
  | LISTING_COPY_COMPLETED => "LISTING_COPY_COMPLETED"
  | DELIVERY_FILES_COMPLETED => "DELIVERY_FILES_COMPLETED"
  | PRICING_COMPLETED => "PRICING_COMPLETED"
  | PROOF_FEEDBACK_CAPTURED => "PROOF_FEEDBACK_CAPTURED"
  | SCHEDULE_CONFIGURED => "SCHEDULE_CONFIGURED"
  | BUILD_SLOT_DEFERRED => "BUILD_SLOT_DEFERRED"
  | MONTHLY_REVIEW_COMPLETED => "MONTHLY_REVIEW_COMPLETED"
  | SCALE_DECIDED => "SCALE_DECIDED"
  | LISTING_CULL_REQUESTED => "LISTING_CULL_REQUESTED"
  | REPAIR_APPLIED => "REPAIR_APPLIED"
  end.
Definition EventName_members : list EventName :=
  [ACCOUNT_CONNECTED; RESEARCH_COMPLETED; NICHE_SHORTLISTED; PRODUCT_QUALIFIED;
   PRODUCT_REJECTED; TEARDOWN_COMPLETED; PRODUCT_SPEC_CREATED; DEDUPE_PASSED;
   DEDUPE_FAILED; BUILD_COMPLETED; BUILD_QA_PASSED; BUILD_QA_FAILED;
   VARIANTS_COMPLETED; ASSETS_COMPLETED; DRAFT_CREATED; PREFLIGHT_PASSED;
   PREFLIGHT_FAILED; LISTING_PUBLISHED; POST_PUBLISH_VERIFIED; METRICS_CAPTURED;
   LISTING_MATURED; LISTING_HELD; LISTING_REPAIR_REQUESTED; LISTING_CULLED;
   WINNER_DETECTED; SUCCESSOR_CREATED; CUSTOMER_ISSUE_RECEIVED; BROKEN_LINK_DETECTED;
   REPAIR_COMPLETED; JOB_FAILED; JOB_STALLED; CREDENTIAL_REQUIRED; ENVIRONMENT_AUDITED;
   SHOP_BOOTSTRAPPED; NICHE_SELECTED; COMPETITOR_PURCHASED; VARIANT_LINKS_VERIFIED;
   SCREENSHOTS_CAPTURED; LISTING_COPY_COMPLETED; DELIVERY_FILES_COMPLETED;
   PRICING_COMPLETED; PROOF_FEEDBACK_CAPTURED; SCHEDULE_CONFIGURED;
   BUILD_SLOT_DEFERRED; MONTHLY_REVIEW_COMPLETED; SCALE_DECIDED;
   LISTING_CULL_REQUESTED; REPAIR_APPLIED].
End EventName.
Export (hints) EventName.
Abbreviation EventName := EventName.EventName.

(** ** Values are distinct *)

Definition values_nodup {A} (value : A → string) (members : list A) : bool :=
  bool_decide (NoDup (value <$> members)).

Lemma enum_value_inj {A} (value : A → string) (members : list A) :
  (∀ a, a ∈ members) → values_nodup value members = true → Inj (=) (=) value.
Proof.
  intros Hall Hnd%bool_decide_eq_true a b Hab.
  destruct (list_elem_of_lookup_1 _ _ (Hall a)) as [i Hi].
  destruct (list_elem_of_lookup_1 _ _ (Hall b)) as [j Hj].
  assert (i = j) as ->.
  { eapply (NoDup_lookup (value <$> members) i j (value a) Hnd).
    - by rewrite list_lookup_fmap, Hi.
    - rewrite list_lookup_fmap, Hj. simpl. by rewrite Hab. }
  congruence.
Qed.

#[export] Instance EventName_value_inj : Inj (=) (=) EventName.EventName_value.
Proof. apply (enum_value_inj _ EventName.EventName_members); [|by vm_compute].
  intros a. apply list_elem_of_In. destruct a; simpl; tauto. Qed.
#[export] Instance JobStatus_value_inj : Inj (=) (=) JobStatus.JobStatus_value.
Proof. apply (enum_value_inj _ JobStatus.JobStatus_members); [|by vm_compute].
  intros a. apply list_elem_of_In. destruct a; simpl; tauto. Qed.
