(* ===== verification/Errors.v ===== *)
(** * Exceptions

    The exception classes the orchestrator and the agent runtime raise or catch, with the class
    hierarchy its [except] clauses rely on.  An exception carries its message,
    because [promote_pending_to_ready] dispatches on message text. *)

From S2P Require Import Prelude.

Inductive exn_class : Set :=
  | Exception_
  | ValueError
  | AssertionError
  | OverflowError
  | RuntimeError
  | IntegrityError
  | MultipleResultsFound
  | InvalidTransitionError
  | LeaseAcquisitionError
  | LeaseExpiredError
  | LeaseNotHeldError
  | IdempotencyKeyReservedError
  | DependencyResolutionError
  | DependencyNotSatisfiedError
  | WorkflowInactiveError
  | IdempotencyCollisionError
  | ReconciliationBudgetExhausted
  | EventAppendError
  | EngineError
  | WorkflowNotFoundError
  | JobNotFoundError
  | InvalidRetryError
  | ValidationError
  | OSError
  | FileNotFoundError
  | PermissionError
  | KeyError
  | IndexError
  | AgentRuntimeError
  | AgentNotCommissionedError
  | AgentNotImplementedError
  | AgentRegistryError
  | PromptIntegrityError
  | PromptValidationError
  | PromptSecretError
  | ToolPermissionError
  | ToolNotFoundError
  | ReviewSubagentError
  | ReviewSubagentMutationError
  | ReviewSubagentBudgetError
  | ReceiptRejected
  | ReconciliationError
  | WriteTimeout
  | DraftGateError
  | EtsyDraftRefused
  | FileExistsError
  | ClosedLoopRefusal
  | ControlStateError
  | SupportRefusal
  | MetricsFixtureRefusal
  | DraftRunRefused
  | DraftEffectUncertain
  | AttributeError
  | UnicodeDecodeError
  | DuplicateReceiptError.

#[export] Instance exn_class_eq_dec : EqDecision exn_class.
Proof. solve_decision. Defined.

(** The direct base class. *)
Definition exn_base (c : exn_class) : option exn_class :=
  match c with
  | Exception_ => None
  | InvalidTransitionError => Some ValueError
  | LeaseExpiredError | LeaseNotHeldError => Some LeaseAcquisitionError
  | DependencyNotSatisfiedError | WorkflowInactiveError | IdempotencyCollisionError =>
      Some DependencyResolutionError
  | WorkflowNotFoundError | JobNotFoundError | InvalidRetryError => Some EngineError
  | EventAppendError | DraftEffectUncertain => Some RuntimeError
  | ValidationError | PromptIntegrityError | PromptValidationError | PromptSecretError
  | ControlStateError | ClosedLoopRefusal | SupportRefusal | MetricsFixtureRefusal | DraftRunRefused
  | UnicodeDecodeError | DuplicateReceiptError =>
      Some ValueError
  | FileNotFoundError | PermissionError | FileExistsError => Some OSError
  | ToolPermissionError => Some PermissionError
  | ToolNotFoundError => Some KeyError
  | AgentNotCommissionedError | AgentNotImplementedError | AgentRegistryError
  | ReviewSubagentError => Some AgentRuntimeError
  | ReviewSubagentMutationError | ReviewSubagentBudgetError => Some ReviewSubagentError
  | _ => Some Exception_
  end.

(** [issubclass c d]; every chain of bases has at most three links. *)
Fixpoint isa_fuel (fuel : nat) (c d : exn_class) : bool :=
  bool_decide (c = d) ||
  match fuel, exn_base c with
  | S fuel, Some b => isa_fuel fuel b d
  | _, _ => false
  end.
Definition isa (c d : exn_class) : bool := isa_fuel 3 c d.

Record exn := Exn { exn_type : exn_class; exn_message : string }.

#[export] Instance exn_eq_dec : EqDecision exn.
Proof. solve_decision. Defined.

(** Every class is an [Exception], so the chain bound of [isa] is enough. *)
Lemma isa_exception c : isa c Exception_ = true.
Proof. by destruct c. Qed.

(** ** Validation *)

Definition value_error {A} (m : string) : result exn A := Raise (Exn ValueError m).

(** [if not c: raise ValueError(m)] *)
Definition check (c : bool) (m : string) : result exn unit := if c then Ok tt else value_error m.

Lemma check_ok c m : check c m = Ok tt ↔ c = true.
Proof. destruct c; simpl; naive_solver. Qed.

