(* ===== verification/PyTime.v ===== *)
(** * Python's datetime

    Time-zone awareness and the range of [datetime] and [timedelta].  An aware datetime is
    the instant it denotes; its range is the one of UTC. *)

From S2P Require Import Prelude PyText Errors.
Open Scope string_scope.
Open Scope Z_scope.

(** A [datetime] with a time zone, or without. *)
Inductive moment : Set :=
  | Aware (t : datetime)
  | Naive (local : Z).

(** The first and the last representable microsecond of UTC. *)
Definition datetime_min : datetime := -62135596800000000.
Definition datetime_max : datetime := 253402300799999999.

(** [timedelta(days=n)]; counts beyond a C [int] get another message. *)
Definition timedelta_days (n : Z) : result exn timedelta :=
  if Z.abs n <=? 999999999 then Ok (n * day_us)
  else Raise (Exn OverflowError ("days=" ++ pretty n ++ "; must have magnitude <= 999999999")).

(** [t + d] *)
Definition datetime_add (t : datetime) (d : timedelta) : result exn datetime :=
  if (datetime_min <=? t + d) && (t + d <=? datetime_max) then Ok (t + d)
  else Raise (Exn OverflowError "date value out of range").

Example datetime_max_text : isoformat datetime_max = "9999-12-31T23:59:59.999999+00:00".
Proof. vm_compute. reflexivity. Qed.
Example datetime_min_text : isoformat datetime_min = "0001-01-01T00:00:00+00:00".
Proof. vm_compute. reflexivity. Qed.
