(* ===== verification/TransitionGuard.v ===== *)
(** * Transition guard and job state machine

    [orchestration/transition_guard.py] and [orchestration/state_machine.py]:
    the two transition tables, the guards that raise on an edge outside them,
    the cross-workflow successor guard, and the reachability facts the tables
    promise to the rest of the orchestrator. *)

From S2P Require Import Prelude PyText Enums Errors.
Import ProductLifecycleState DecisionType.
Open Scope string_scope.

(** ** Tables *)

Definition PRODUCT_TRANSITIONS (s : ProductLifecycleState) : list ProductLifecycleState :=
  match s with
  | DISCOVERED => [RESEARCHING]
  | RESEARCHING => [RESEARCH_COMPLETE]
  | RESEARCH_COMPLETE => [QUALIFYING]
  | QUALIFYING => [QUALIFIED; REJECTED]
  | QUALIFIED => [TEARDOWN_PENDING]
  | REJECTED => []
  | TEARDOWN_PENDING => [TEARDOWN_COMPLETE]
  | TEARDOWN_COMPLETE => [SPEC_READY]
  | SPEC_READY => [DEDUPE_CHECK]
  | DEDUPE_CHECK => [RECONCEPTING; BUILDING]
  | RECONCEPTING => [SPEC_READY]
  | BUILDING => [BUILD_QA]
  | BUILD_QA => [BUILD_REPAIR; VARIANT_BUILD]
  | BUILD_REPAIR => [BUILD_QA]
  | VARIANT_BUILD => [VARIANT_QA]
  | VARIANT_QA => [VARIANT_BUILD; MERCHANDISING]
  | MERCHANDISING => [ASSET_BUILD]
  | ASSET_BUILD => [ASSET_QA]
  | ASSET_QA => [ASSET_BUILD; DRAFTING]
  | DRAFTING => [DRAFT_READY]
  | DRAFT_READY => [PREFLIGHT]
  | PREFLIGHT => [LISTING_REPAIR; READY_TO_PUBLISH]
  | LISTING_REPAIR => [PREFLIGHT]
  | READY_TO_PUBLISH => [PUBLISHED]
  | PUBLISHED => [POST_PUBLISH_QA]
  | POST_PUBLISH_QA => [INCIDENT_REPAIR; OBSERVING]
  | INCIDENT_REPAIR => [POST_PUBLISH_QA]
  | OBSERVING => [MATURE]
  | MATURE => [EVALUATING]
  | EVALUATING => [OBSERVING; REPAIRING; DEACTIVATING; SUCCESSOR_SPEC]
  | REPAIRING => [OBSERVING]
  | DEACTIVATING => [DEACTIVATED]
  | DEACTIVATED => []
  | SUCCESSOR_SPEC => [OBSERVING]
  end.

Definition JOB_TRANSITIONS (s : JobStatus) : list JobStatus :=
  match s with
  | JobStatus.PENDING => [JobStatus.BLOCKED; JobStatus.READY; JobStatus.CANCELLED]
  | JobStatus.BLOCKED => [JobStatus.READY; JobStatus.CANCELLED]
  | JobStatus.READY => [JobStatus.RUNNING; JobStatus.CANCELLED]
  | JobStatus.RUNNING => [JobStatus.SUCCEEDED; JobStatus.FAILED; JobStatus.BLOCKED; JobStatus.UNCERTAIN_EXTERNAL_EFFECT]
  | JobStatus.FAILED => [JobStatus.READY; JobStatus.TERMINAL_FAILURE]
  | JobStatus.UNCERTAIN_EXTERNAL_EFFECT => [JobStatus.SUCCEEDED; JobStatus.FAILED; JobStatus.BLOCKED]
  | JobStatus.SUCCEEDED => []
  | JobStatus.TERMINAL_FAILURE => []
  | JobStatus.CANCELLED => []
  end.

Definition PRODUCT_TERMINAL_RESULTS (s : ProductLifecycleState) : option EventName :=
  match s with
  | REJECTED => Some EventName.PRODUCT_REJECTED
  | DEACTIVATED => Some EventName.LISTING_CULLED
  | _ => None
  end.

Definition JOB_TERMINAL_RESULTS (s : JobStatus) : option string :=
  match s with
  | JobStatus.SUCCEEDED => Some "success_contract"
  | JobStatus.TERMINAL_FAILURE => Some "structured_error"
  | JobStatus.CANCELLED => Some "cancellation_reason"
  | _ => None
  end.

Definition PORTFOLIO_DECISION_PATHS (d : DecisionType) : list ProductLifecycleState :=
  match d with
  | HOLD => [EVALUATING; OBSERVING]
  | REPAIR => [EVALUATING; REPAIRING; OBSERVING]
  | CULL => [EVALUATING; DEACTIVATING; DEACTIVATED]
  | MULTIPLY => [EVALUATING; SUCCESSOR_SPEC; OBSERVING]
  end.

Definition ORIGINAL_WORKFLOW_ENTRY_STATE : ProductLifecycleState := DISCOVERED.
Definition SUCCESSOR_WORKFLOW_ENTRY_STATE : ProductLifecycleState := DEDUPE_CHECK.
Definition SUCCESSOR_SPAWN_SOURCE_STATE : ProductLifecycleState := SUCCESSOR_SPEC.

(** ** Guards *)

Definition require_product_transition (source target : ProductLifecycleState)
    : result exn unit :=
  if decide (target ∈ PRODUCT_TRANSITIONS source) then Ok tt
  else Raise (Exn InvalidTransitionError
    ("invalid product transition: " ++ ProductLifecycleState_value source ++ " -> " ++
     ProductLifecycleState_value target)).

Definition require_job_transition (source target : JobStatus) : result exn unit :=
  if decide (target ∈ JOB_TRANSITIONS source) then Ok tt
  else Raise (Exn InvalidTransitionError
    ("invalid job transition: " ++ JobStatus.JobStatus_value source ++ " -> " ++
     JobStatus.JobStatus_value target)).

Definition require_successor_spawn (parent_state : ProductLifecycleState)
    (parent_workflow_id successor_workflow_id : uuid)
    : result exn ProductLifecycleState :=
  if decide (parent_state ≠ SUCCESSOR_SPAWN_SOURCE_STATE) then
    Raise (Exn InvalidTransitionError
      ("successor workflows spawn only from SUCCESSOR_SPEC, not " ++
       ProductLifecycleState_value parent_state))
  else if decide (parent_workflow_id = successor_workflow_id) then
    Raise (Exn InvalidTransitionError
      ("successor workflow must differ from the parent workflow; " ++
       "SUCCESSOR_SPEC -> DEDUPE_CHECK is not a same-workflow transition"))
  else Ok SUCCESSOR_WORKFLOW_ENTRY_STATE.

(** ** [JobStateMachine] *)

Record StateTransition := {
  tr_job_id : uuid;
  tr_source_status : JobStatus;
  tr_target_status : JobStatus;
  tr_timestamp : datetime;
  tr_reason : option string
}.

(** [clock] is the value of [datetime.now(UTC)]. *)
Definition validate_transition (clock : datetime) (job_id : uuid)
    (source target : JobStatus) (reason : option string) : result exn StateTransition :=
  do? require_job_transition source target;
  Ok {| tr_job_id := job_id; tr_source_status := source; tr_target_status := target;
        tr_timestamp := clock; tr_reason := reason |}.

Definition can_transition (source target : JobStatus) : result exn bool :=
  match require_job_transition source target with
  | Ok _ => Ok true
  | Raise e => if isa (exn_type e) InvalidTransitionError then Ok false else Raise e
  end.

Definition get_allowed_transitions (source : JobStatus) : list JobStatus :=
  JOB_TRANSITIONS source.

Definition is_terminal (status : JobStatus) : bool :=
  Nat.eqb (length (JOB_TRANSITIONS status)) 0.

(** ** Edges, paths and reachability *)

Definition product_edge (s t : ProductLifecycleState) : Prop := t ∈ PRODUCT_TRANSITIONS s.
Definition job_edge (s t : JobStatus) : Prop := t ∈ JOB_TRANSITIONS s.

(** [path R a l b]: [l] lists the states visited from [a] to [b], both included. *)
Inductive path {A} (R : relation A) : A → list A → A → Prop :=
  | path_one a : path R a [a] a
  | path_step a b c l : R a b → path R b l c → path R a (a :: l) c.

#[export] Instance product_edge_dec s t : Decision (product_edge s t).
Proof. unfold product_edge. apply _. Defined.

#[export] Instance job_edge_dec s t : Decision (job_edge s t).
Proof. unfold job_edge. apply _. Defined.

#[global] Typeclasses Opaque product_edge job_edge.

Ltac solve_path :=
  repeat first [apply path_one | eapply path_step; cycle 1]; by_decide.

(** The states reachable from [l] through states that satisfy [keep]. *)
Section closure.
Context {A : Type} `{!EqDecision A} (succ : A → list A) (keep : A → bool).

Definition expand (l : list A) : list A :=
  remove_dups (l ++ filter (λ y, keep y = true) (l ≫= succ)).

Definition reach (fuel : nat) (a : A) : list A := Nat.iter fuel expand [a].

Definition closed (l : list A) : bool :=
  forallb (λ x, forallb (λ y, negb (keep y) || bool_decide (y ∈ l)) (succ x)) l.

Lemma closed_step l x y :
  closed l = true → x ∈ l → y ∈ succ x → keep y = true → y ∈ l.
Proof.
  unfold closed. rewrite forallb_forall. intros Hc Hx Hy Hk.
  specialize (Hc x (proj1 (list_elem_of_In _ _) Hx)). rewrite forallb_forall in Hc.
  specialize (Hc y (proj1 (list_elem_of_In _ _) Hy)).
  rewrite Hk in Hc. simpl in Hc. by apply bool_decide_eq_true in Hc.
Qed.

(** A path that stays inside [keep] ends inside any closed set holding its start. *)
Lemma closed_path l a p b :
  path (λ x y, y ∈ succ x) a p b →
  closed l = true → a ∈ l → Forall (λ x, keep x = true) p → b ∈ l.
Proof.
  induction 1 as [a|a b c p Hab Hp IH]; intros Hc Ha Hk; [done|].
  inversion Hk as [|?? Hka Hkp]; simplify_eq.
  apply IH; auto. eapply closed_step; eauto.
  inversion Hp; simplify_eq; by inversion Hkp.
Qed.

Lemma closed_rtc l a b :
  rtc (λ x y, y ∈ succ x) a b → (∀ x, keep x = true) → closed l = true → a ∈ l → b ∈ l.
Proof.
  induction 1 as [a|a b c Hab Hbc IH]; intros Hk Hc Ha; [done|].
  apply IH; auto. eapply closed_step; eauto.
Qed.

(** What [reach] collects really is reachable. *)
Lemma reach_sound fuel a b : b ∈ reach fuel a → rtc (λ x y, y ∈ succ x) a b.
Proof.
  revert b. induction fuel as [|n IH]; intros b; simpl.
  - rewrite list_elem_of_singleton. by intros ->.
  - unfold expand. rewrite elem_of_remove_dups, elem_of_app, list_elem_of_filter,
      list_elem_of_bind.
    intros [Hb|[_ (x & Hx & Hy)]]; [by apply IH|].
    eapply rtc_r; [by apply IH|done].
Qed.
End closure.

Lemma reach_start {A} `{!EqDecision A} (succ : A → list A) keep fuel a :
  a ∈ reach succ keep fuel a.
Proof.
  induction fuel as [|n IH]; simpl; [by left|].
  unfold expand. apply elem_of_remove_dups, elem_of_app. by left.
Qed.

(** A state every path from [a] to [b] must visit: cutting it disconnects them. *)
Definition separates {A} `{!EqDecision A} (succ : A → list A) (fuel : nat) (g a b : A) : bool :=
  let keep x := negb (bool_decide (x = g)) in
  let l := reach succ keep fuel a in
  closed succ keep l && negb (bool_decide (b ∈ l)).

Lemma dominator {A} `{!EqDecision A} (succ : A → list A) (fuel : nat) (g a b : A) p :
  separates succ fuel g a b = true → path (λ x y, y ∈ succ x) a p b → g ∈ p.
Proof.
  unfold separates. rewrite andb_true_iff, negb_true_iff. intros [Hc Hb] Hp.
  apply bool_decide_eq_false in Hb.
  destruct (decide (g ∈ p)) as [|Hg]; [done|]. exfalso. apply Hb.
  eapply closed_path; [exact Hp|exact Hc|apply reach_start|].
  apply Forall_forall. intros x Hx.
  rewrite bool_decide_false; [done|]. by intros ->.
Qed.

(** Everything reachable from [a] satisfies [P]. *)
Definition always {A} `{!EqDecision A} (succ : A → list A) (fuel : nat) (P : A → bool) (a : A)
    : bool :=
  let l := reach succ (λ _, true) fuel a in closed succ (λ _, true) l && forallb P l.

Lemma always_rtc {A} `{!EqDecision A} (succ : A → list A) fuel P a b :
  always succ fuel P a = true → rtc (λ x y, y ∈ succ x) a b → P b = true.
Proof.
  unfold always. rewrite andb_true_iff, forallb_forall. intros [Hc HP] H.
  apply HP, list_elem_of_In. eapply closed_rtc; [exact H|done|exact Hc|apply reach_start].
Qed.

(** ** Facts about the guards *)

Lemma require_job_transition_ok s t : require_job_transition s t = Ok tt ↔ job_edge s t.
Proof. unfold require_job_transition, job_edge. case_decide; naive_solver. Qed.

Lemma require_job_transition_raise s t e :
  require_job_transition s t = Raise e → ¬ job_edge s t ∧ exn_type e = InvalidTransitionError.
Proof. unfold require_job_transition, job_edge. case_decide; naive_solver. Qed.

Lemma terminal_no_edge s t : is_terminal s = true → ¬ job_edge s t.
Proof. destruct s; simpl; try done; intros _; by apply not_elem_of_nil. Qed.

Lemma terminal_absorbing s t : is_terminal s = true → rtc job_edge s t → t = s.
Proof.
  intros Hs H. inversion H as [|? u ? Hsu]; simplify_eq; [done|].
  by apply (terminal_no_edge _ _ Hs) in Hsu.
Qed.

#[export] Hint Extern 1 (job_edge _ _) => (apply list_elem_of_In; simpl; tauto) : orch.

(** The gates in front of publication. *)
Definition publication_gates : list ProductLifecycleState :=
  [DEDUPE_CHECK; BUILD_QA; VARIANT_QA; ASSET_QA; PREFLIGHT; READY_TO_PUBLISH].

(** States a product is in before it has been published. *)
Definition pre_publication : list ProductLifecycleState :=
  [DISCOVERED; RESEARCHING; RESEARCH_COMPLETE; QUALIFYING; QUALIFIED; REJECTED;
   TEARDOWN_PENDING; TEARDOWN_COMPLETE; SPEC_READY; DEDUPE_CHECK; RECONCEPTING; BUILDING;
   BUILD_QA; BUILD_REPAIR; VARIANT_BUILD; VARIANT_QA; MERCHANDISING; ASSET_BUILD; ASSET_QA;
   DRAFTING; DRAFT_READY; PREFLIGHT; LISTING_REPAIR; READY_TO_PUBLISH].

(** Every lifecycle path from a workflow entry state (the original entry
    [DISCOVERED] or the successor entry [DEDUPE_CHECK]) to [PUBLISHED] visits the
    dedupe gate, the build, variant and asset QA gates, preflight and
    [READY_TO_PUBLISH]: the table admits no shortcut to publication. *)
Theorem publication_passes_every_gate entry p gate :
  entry = ORIGINAL_WORKFLOW_ENTRY_STATE ∨ entry = SUCCESSOR_WORKFLOW_ENTRY_STATE →
  path product_edge entry p PUBLISHED →
  gate ∈ publication_gates →
  gate ∈ p.
Proof.
  intros Hentry Hp Hgate.
  destruct (decide (gate = entry)) as [->|Hne]; [inversion Hp; by left|].
  apply (dominator PRODUCT_TRANSITIONS 34 gate entry PUBLISHED p); [|exact Hp].
  destruct Hentry as [-> | ->]; repeat (apply elem_of_cons in Hgate as [->|Hgate]);
    try (by apply not_elem_of_nil in Hgate); try (by destruct Hne);
    vm_compute; reflexivity.
Qed.

Lemma publication_passes_every_gate_witness :
  PREFLIGHT ∈ [DEDUPE_CHECK; BUILDING; BUILD_QA; VARIANT_BUILD; VARIANT_QA; MERCHANDISING;
    ASSET_BUILD; ASSET_QA; DRAFTING; DRAFT_READY; PREFLIGHT; READY_TO_PUBLISH; PUBLISHED].
Proof.
  apply (publication_passes_every_gate SUCCESSOR_WORKFLOW_ENTRY_STATE).
  - right. reflexivity.
  - solve_path.
  - by_decide.
Defined.

(** Once published, a product never re-enters a pre-publication state within
    its workflow (the MULTIPLY boundary: the winner returns to [OBSERVING] and
    only a new workflow re-enters the dedupe gate), and from every state the
    table still reaches one of the two terminal states. *)
Theorem published_never_rebuilt_and_can_end s :
  (rtc product_edge PUBLISHED s → s ∉ pre_publication) ∧
  (rtc product_edge s REJECTED ∨ rtc product_edge s DEACTIVATED).
Proof.
  split.
  - intros H. apply (bool_decide_eq_true_1 (s ∉ pre_publication)).
    apply (always_rtc PRODUCT_TRANSITIONS 34 (λ x, bool_decide (x ∉ pre_publication))
      PUBLISHED s); [vm_compute; reflexivity|exact H].
  - destruct s; first [left; apply (reach_sound PRODUCT_TRANSITIONS (λ _, true) 34);
        by_decide
      | right; apply (reach_sound PRODUCT_TRANSITIONS (λ _, true) 34);
        by_decide].
Qed.

(** The four portfolio decisions are paths of the product table, their
    outcomes end where the decision says, and the successor guard admits exactly
    a parent in [SUCCESSOR_SPEC] with a distinct successor workflow, returning
    the dedupe gate as entry state (never reached from the parent itself). *)
Theorem portfolio_paths_and_successor_guard :
  (∀ d, path product_edge EVALUATING (PORTFOLIO_DECISION_PATHS d)
          (match d with CULL => DEACTIVATED | _ => OBSERVING end)) ∧
  (∀ st parent succ r, require_successor_spawn st parent succ = Ok r ↔
     st = SUCCESSOR_SPEC ∧ parent ≠ succ ∧ r = DEDUPE_CHECK) ∧
  (∀ st, rtc product_edge SUCCESSOR_SPEC st → st ≠ DEDUPE_CHECK).
Proof.
  split; [|split].
  - intros []; simpl; solve_path.
  - intros st parent succ r. unfold require_successor_spawn, SUCCESSOR_SPAWN_SOURCE_STATE,
      SUCCESSOR_WORKFLOW_ENTRY_STATE.
    repeat case_decide; naive_solver.
  - intros st H. apply (bool_decide_eq_true_1 (st ≠ DEDUPE_CHECK)).
    apply (always_rtc PRODUCT_TRANSITIONS 34 (λ x, bool_decide (x ≠ DEDUPE_CHECK))
      SUCCESSOR_SPEC st); [vm_compute; reflexivity|exact H].
Qed.

(** The job table is a lifecycle: [validate_transition] and [can_transition]
    accept exactly its edges, [is_terminal] holds exactly of the statuses with a
    recorded terminal result and nothing leaves them, execution is entered only
    from [READY] and success or uncertainty only through [RUNNING]. *)
Theorem job_table_lifecycle :
  (∀ clock j s t r, (∃ tr, validate_transition clock j s t r = Ok tr) ↔ job_edge s t) ∧
  (∀ s t, can_transition s t = Ok (bool_decide (job_edge s t))) ∧
  (∀ s, is_terminal s = true ↔ is_Some (JOB_TERMINAL_RESULTS s)) ∧
  (∀ s t, is_terminal s = true → rtc job_edge s t → t = s) ∧
  (∀ s, job_edge s JobStatus.RUNNING → s = JobStatus.READY) ∧
  (∀ p, path job_edge JobStatus.PENDING p JobStatus.SUCCEEDED → JobStatus.RUNNING ∈ p).
Proof.
  split; [|split; [|split; [|split; [|split]]]].
  - intros clock j s t r. unfold validate_transition. rewrite <- require_job_transition_ok.
    destruct (require_job_transition s t) as [[]|e]; simpl; naive_solver.
  - intros s t. unfold can_transition, require_job_transition, job_edge.
    case_decide; simpl; [by rewrite bool_decide_true|by rewrite bool_decide_false].
  - intros []; simpl; split; intros H; try done; by destruct H.
  - apply terminal_absorbing.
  - intros s H. destruct s; try done;
      apply (bool_decide_eq_true_2 _) in H; vm_compute in H; discriminate.
  - intros p. apply (dominator JOB_TRANSITIONS 9). vm_compute. reflexivity.
Qed.
