(* ===== verification/Retry.v ===== *)
(** * Retry policy

    [orchestration/retry.py]: attempt budgets, retry classes and capped
    exponential backoff.  Delays are rationals: with the default arguments (the
    only ones the engine passes) every intermediate value is a power of two or
    the cap, which binary64 represents exactly.  [multiplier ** attempt] raises
    [OverflowError] once it leaves the binary64 range, as Python's float power
    does.  [now] is the caller's clock ([datetime.now(UTC)] when omitted). *)

From S2P Require Import Prelude PyText Enums Errors.
From Stdlib Require Import QArith.QArith QArith.Qpower.
Close Scope Q_scope.
Open Scope string_scope.
Open Scope Z_scope.
Import RetryClass.

Record RetryDecision := {
  can_retry : bool;
  next_attempt : Z;
  retry_scheduled_at : option datetime;
  retry_reason : string
}.

Definition default_base_delay_seconds : Q := 2.
Definition default_backoff_multiplier : Q := 2.
Definition default_max_delay_seconds : Q := 300.

(** The first magnitude outside binary64. *)
Definition float_limit : Q := inject_Z (2 ^ 1024).

Definition float_pow (x : Q) (n : Z) : result exn Q :=
  let p := Qpower x n in
  if Qle_bool float_limit p || Qle_bool p (Qopp float_limit)
  then Raise (Exn OverflowError "(34, 'Numerical result out of range')")
  else Ok p.

Definition _calculate_backoff (attempt : Z) (base_delay multiplier max_delay : Q)
    : result exn Q :=
  let? p := float_pow multiplier attempt in
  let delay := (base_delay * p)%Q in
  Ok (if Qle_bool delay max_delay then delay else max_delay).

(** [timedelta(seconds=q)]: whole microseconds, ties to even. *)
Definition timedelta_seconds (q : Q) : timedelta := Qround_even (q * 1000000)%Q.

Section evaluate.
Context (retry_class : RetryClass) (current_attempt max_attempts : Z)
  (base_delay_seconds backoff_multiplier max_delay_seconds : Q)
  (now : datetime) (reconciliation_resolved : bool).

(** The branch shared by the classes that may retry. *)
Definition retry_after_backoff (label : string) : result exn RetryDecision :=
  let? delay := _calculate_backoff current_attempt base_delay_seconds backoff_multiplier
                  max_delay_seconds in
  Ok {| can_retry := true; next_attempt := current_attempt + 1;
        retry_scheduled_at := Some (now + timedelta_seconds delay);
        retry_reason := label ++ " after " ++ format_1f delay ++ "s backoff" |}.

Definition retry_refused (reason : string) : RetryDecision :=
  {| can_retry := false; next_attempt := current_attempt + 1;
     retry_scheduled_at := None; retry_reason := reason |}.

Definition evaluate_retry : result exn RetryDecision :=
  if max_attempts <=? 0 then
    Raise (Exn ValueError ("max_attempts must be positive, got " ++ pretty max_attempts))
  else if max_attempts <=? current_attempt then
    Raise (Exn ValueError ("current_attempt " ++ pretty current_attempt ++
      " >= max_attempts " ++ pretty max_attempts ++
      "; job should already be TERMINAL_FAILURE"))
  else if max_attempts <=? current_attempt + 1 then
    Ok (retry_refused ("retry budget exhausted (" ++ pretty (current_attempt + 1) ++ "/" ++
      pretty max_attempts ++ ")"))
  else match retry_class with
  | SAFE => retry_after_backoff "SAFE retry"
  | IDEMPOTENT => retry_after_backoff "IDEMPOTENT retry"
  | RECONCILE_FIRST =>
      if reconciliation_resolved
      then retry_after_backoff "RECONCILE_FIRST resolved, retry"
      else Ok (retry_refused "RECONCILE_FIRST: reconciliation required before retry")
  | MANUAL_RESUME => Ok (retry_refused "MANUAL_RESUME: operator intervention required")
  | NEVER => Ok (retry_refused "NEVER: non-retryable failure")
  end.
End evaluate.

Definition evaluate_retry_default (retry_class : RetryClass) (current_attempt max_attempts : Z)
    (now : datetime) (reconciliation_resolved : bool) : result exn RetryDecision :=
  evaluate_retry retry_class current_attempt max_attempts default_base_delay_seconds
    default_backoff_multiplier default_max_delay_seconds now reconciliation_resolved.

Definition can_retry_from_status (status : JobStatus) : bool :=
  bool_decide (status = JobStatus.FAILED).

Definition must_reconcile_first (status : JobStatus) (retry_class : RetryClass)
    (reconciliation_resolved : bool) : bool :=
  if decide (status = JobStatus.SUCCEEDED) then false
  else if decide (status = JobStatus.UNCERTAIN_EXTERNAL_EFFECT) then true
  else if reconciliation_resolved then false
  else bool_decide (retry_class = RECONCILE_FIRST).

(** ** Which failures may retry *)

(** The class admits a retry at all, given what reconciliation knows. *)
Definition class_retries (c : RetryClass) (resolved : bool) : bool :=
  match c with
  | SAFE | IDEMPOTENT => true
  | RECONCILE_FIRST => resolved
  | MANUAL_RESUME | NEVER => false
  end.

Example evaluate_retry_ex :
  evaluate_retry_default SAFE 1 4 1000 false =
  Ok {| can_retry := true; next_attempt := 2; retry_scheduled_at := Some 4001000;
        retry_reason := "SAFE retry after 4.0s backoff" |}.
Proof. vm_compute. reflexivity. Qed.

(** The number of seconds the default policy waits after attempt [a]. *)
Definition default_delay (a : Z) : Z := Z.min (2 ^ (a + 1)) 300.

Lemma Qpower_two a : 0 <= a → (Qpower 2 a == inject_Z (2 ^ a))%Q.
Proof.
  intros Ha. rewrite Zpower_Qpower by done. reflexivity.
Qed.

Lemma Qround_even_Z (q : Q) z : (q == inject_Z z)%Q → Qround_even q = z.
Proof.
  unfold Qeq, Qround_even. simpl. rewrite Z.mul_1_r. intros H.
  rewrite H, Z.mod_mul, Z.div_mul by lia. simpl. done.
Qed.
Lemma float_pow_two a : 0 <= a < 1024 -> exists p, float_pow 2 a = Ok p /\ (p == inject_Z (2 ^ a))%Q.
Proof.
  intros Ha. exists (Qpower 2 a). split; [|apply Qpower_two; lia].
  unfold float_pow.
  assert (Hlt : (Qpower 2 a < float_limit)%Q).
  { rewrite Qpower_two by lia. unfold float_limit. rewrite <- Zlt_Qlt. apply Z.pow_lt_mono_r; lia. }
  assert (Hpos : (- float_limit < Qpower 2 a)%Q).
  { rewrite Qpower_two by lia. unfold float_limit. rewrite <- inject_Z_opp, <- Zlt_Qlt.
   pose proof (Z.pow_nonneg 2 a). assert (0 < 2 ^ 1024) by (apply Z.pow_pos_nonneg; lia). lia. }
  destruct (Qle_bool float_limit _) eqn:E1; [apply Qle_bool_iff in E1; exfalso; revert Hlt; by apply Qle_not_lt|].
  destruct (Qle_bool (Qpower 2 a) _) eqn:E2; [apply Qle_bool_iff in E2; exfalso; revert Hpos; by apply Qle_not_lt|].
  done.
Qed.
Lemma default_backoff a : 0 <= a < 1024 ->
  exists q, _calculate_backoff a default_base_delay_seconds default_backoff_multiplier default_max_delay_seconds = Ok q
   /\ (q == inject_Z (default_delay a))%Q.
Proof.
  intros Ha. unfold _calculate_backoff. change default_backoff_multiplier with 2%Q. destruct (float_pow_two a Ha) as (p & -> & Hp). simpl.
  assert (Hd : (default_base_delay_seconds * p == inject_Z (2 ^ (a + 1)))%Q).
  { rewrite Hp. unfold default_base_delay_seconds. rewrite Z.pow_add_r, Z.mul_comm by lia. rewrite inject_Z_mult. reflexivity. }
  unfold default_delay.
  destruct (Qle_bool _ _) eqn:E; (eexists; split; [reflexivity|]).
  - apply Qle_bool_iff in E. rewrite Hd in E |- *. change default_max_delay_seconds with (inject_Z 300) in E.
    rewrite <- Zle_Qle in E. by rewrite Z.min_l.
  - rewrite Z.min_r; [reflexivity|].
    destruct (Z.le_gt_cases 300 (2 ^ (a + 1))) as [|Hlt]; [done|].
    assert (Qle_bool (default_base_delay_seconds * p) default_max_delay_seconds = true); [|congruence].
    apply Qle_bool_iff. rewrite Hd. change default_max_delay_seconds with (inject_Z 300). rewrite <- Zle_Qle. lia.
Qed.

Lemma float_pow_two_overflow a : 1024 <= a → ∃ m, float_pow 2 a = Raise (Exn OverflowError m).
Proof.
  intros Ha. unfold float_pow.
  assert (Qle_bool float_limit (Qpower 2 a) = true) as ->; [|by eexists].
  apply Qle_bool_iff. rewrite Qpower_two by lia. unfold float_limit. rewrite <- Zle_Qle.
  apply Z.pow_le_mono_r; lia.
Qed.

(** The default retry policy, on every branch.  A non-positive budget or an
    attempt at or past it is a [ValueError]; otherwise the decision allows a
    retry exactly when a further attempt is inside the budget and the class
    admits it, schedules it [min (2^(a+1)) 300] seconds ahead, and refuses with
    no schedule otherwise.  From attempt 1024 on, a retryable failure raises
    [OverflowError] instead of being capped. *)
Theorem evaluate_retry_spec c a m now res :
  0 <= a →
  (m <= 0 ∨ m <= a → ∃ msg, evaluate_retry_default c a m now res = Raise (Exn ValueError msg)) ∧
  (a < m → a < 1024 ∨ a + 1 = m ∨ class_retries c res = false →
    let go := (a + 1 <? m) && class_retries c res in
    ∃ why, evaluate_retry_default c a m now res =
      Ok {| can_retry := go; next_attempt := a + 1;
            retry_scheduled_at := if go then Some (now + default_delay a * 1000000) else None;
            retry_reason := why |}) ∧
  (a + 1 < m → 1024 <= a → class_retries c res = true →
    ∃ msg, evaluate_retry_default c a m now res = Raise (Exn OverflowError msg)).
Proof.
  intros Ha. unfold evaluate_retry_default, evaluate_retry. split; [|split].
  - intros Hm. destruct (Z.leb_spec m 0); [by eexists|].
    destruct (Z.leb_spec m a); [by eexists|lia].
  - intros Hm Hr. rewrite !(proj2 (Z.leb_gt _ _)) by lia.
    destruct (Z.leb_spec m (a + 1)).
    + rewrite (proj2 (Z.ltb_ge _ _)) by lia. by eexists.
    + rewrite (proj2 (Z.ltb_lt _ _)) by lia. simpl.
      destruct (class_retries c res) eqn:Hc.
      * destruct Hr as [Hr|[Hr|Hr]]; [|lia|done].
        destruct (default_backoff a ltac:(lia)) as (q & Hq & Hqz).
        assert (timedelta_seconds q = default_delay a * 1000000) as Ht.
        { apply Qround_even_Z. rewrite Hqz, inject_Z_mult. reflexivity. }
        destruct c; simplify_eq/=; try destruct res; simplify_eq/=;
          unfold retry_after_backoff; rewrite Hq; simpl; rewrite Ht; by eexists.
      * destruct c; simplify_eq/=; by eexists.
  - intros Hm Hbig Hc. rewrite !(proj2 (Z.leb_gt _ _)) by lia.
    destruct (float_pow_two_overflow a Hbig) as [msg Ho].
    exists msg. destruct c; simplify_eq/=; unfold retry_after_backoff, _calculate_backoff;
      change default_backoff_multiplier with 2%Q; by rewrite Ho.
Qed.

Lemma evaluate_retry_spec_witness :
  ∃ why, evaluate_retry_default RECONCILE_FIRST 0 3 0 true =
    Ok {| can_retry := true; next_attempt := 1; retry_scheduled_at := Some 2000000;
          retry_reason := why |}.
Proof.
  destruct (evaluate_retry_spec RECONCILE_FIRST 0 3 0 true) as (_ & H & _); [lia|].
  apply H; [lia|left; lia].
Defined.
