(* ===== verification/Tables.v ===== *)
(** * Canonical tables and the database session

    The orchestrator's tables of [persistence/tables.py] as records of columns,
    a database as one finite map per table keyed by primary key, and the session
    operations the handlers use: primary-key reads, filtered and ordered
    selects, inserts and flushes that enforce the unique, check and foreign-key
    constraints the schema declares.

    Enumerated state columns have their enumeration as type, which is what the
    taxonomy checks guarantee.  Column lengths are not modelled.  [Versioned]
    rows follow the mapper's [version_id_col]: a flush that changes a column
    increments [version], a flush without a net change writes nothing.

    What PostgreSQL and [uuid4] promise is the class [Backend]: a select returns
    a permutation of the matching rows, sorted by its [ORDER BY] key and in no
    promised order among ties, and a generated primary key is fresh.  [db_clock]
    is the value of [now()] and of [datetime.now(UTC)] during the transaction. *)

From S2P Require Import Prelude PyText Enums Errors.
From Stdlib Require Import QArith.QArith_base.
Close Scope Q_scope.
Open Scope string_scope.
Open Scope Z_scope.

(** JSON column values. *)
Inductive json : Set :=
  | JNull
  | JBool (b : bool)
  | JInt (z : Z)
  | JStr (s : string)
  | JList (l : list json)
  | JDict (kvs : list (string * json)).

(** [d.get(k)] of a JSON object. *)
Definition json_get (k : string) (kvs : list (string * json)) : option json :=
  (λ r, r.2.2) <$> list_find (λ kv, kv.1 = k) kvs.

(** Reconciliation outcome of an external effect. *)
Module EffectState.
Inductive EffectState : Set := CONFIRMED | ABSENT | UNKNOWN.
#[export] Instance EffectState_eq_dec : EqDecision EffectState.
Proof. solve_decision. Defined.
End EffectState.
Export (hints) EffectState.
Abbreviation EffectState := EffectState.EffectState.

(** [workflow_runs]: one durable product workflow. *)
Record WorkflowRun := {
  wf_shop_id : uuid;
  wf_type : string;
  wf_workflow_version : Z;
  wf_product_state : ProductLifecycleState;
  wf_parent_workflow_id : option uuid;
  wf_parent_decision_id : option uuid;
  wf_batch_id : option uuid;
  wf_started_at : datetime;
  wf_completed_at : option datetime;
  wf_version : Z
}.

(** [jobs]: a durable unit of work. *)
Record Job := {
  j_workflow_id : uuid;
  j_type : string;
  j_object_type : string;
  j_object_id : uuid;
  j_owner_agent_id : string;
  j_status : JobStatus;
  j_input : json;
  j_success_contract : json;
  j_scheduled_at : datetime;
  j_attempt : Z;
  j_max_attempts : Z;
  j_idempotency_key : string;
  j_side_effect_class : SideEffectClass;
  j_retry_class : RetryClass;
  j_allowed_mode : AutonomyMode;
  j_lease_owner : option string;
  j_lease_expires_at : option datetime;
  j_heartbeat_at : option datetime;
  j_created_at : datetime;
  j_updated_at : datetime;
  j_version : Z
}.

(** [job_dependencies]: a predecessor that must succeed first. *)
Record JobDependency := {
  dep_job_id : uuid;
  dep_depends_on_job_id : uuid;
  dep_satisfied_at : option datetime
}.

(** [scheduled_triggers]: a recurring trigger with a unique key. *)
Record ScheduledTrigger := {
  trig_shop_id : uuid;
  trig_kind : string;
  trig_key : string;
  trig_cron_expression : string;
  trig_next_fire_at : datetime;
  trig_last_fired_at : option datetime;
  trig_active : bool;
  trig_created_at : datetime
}.

(** [events]: the append-only event log. *)
Record Event := {
  ev_name : EventName;
  ev_aggregate_type : string;
  ev_aggregate_id : uuid;
  ev_workflow_id : option uuid;
  ev_job_id : option uuid;
  ev_agent_run_id : option uuid;
  ev_payload : json;
  ev_dedupe_key : string;
  ev_occurred_at : datetime;
  ev_recorded_at : datetime
}.

(** [idempotency_records]: reservations of external effects. *)
Record IdempotencyRecord := {
  idem_key : string;
  idem_job_id : uuid;
  idem_operation : string;
  idem_side_effect_class : SideEffectClass;
  idem_reserved_at : datetime;
  idem_completed_at : option datetime
}.

(** [effect_attempts]: what one attempted effect is known to have done. *)
Record EffectAttempt := {
  eff_key : string;
  eff_job_id : uuid;
  eff_agent_run_id : option uuid;
  eff_provider : string;
  eff_operation : string;
  eff_state : EffectState;
  eff_provider_object_id : option string;
  eff_reconciliation_attempt : Z;
  eff_observed_at : datetime;
  eff_recorded_at : datetime
}.

(** [receipts]: the append-only effect ledger. *)
Record Receipt := {
  rc_job_id : uuid;
  rc_key : string;
  rc_provider : string;
  rc_operation : string;
  rc_side_effect_class : SideEffectClass;
  rc_autonomy_mode : AutonomyMode;
  rc_effect_state : EffectState;
  rc_provider_object_id : option string;
  rc_amount : option Q;
  rc_currency : option string;
  rc_safe_detail : json;
  rc_recorded_at : datetime
}.

Record DB := {
  shops : gset uuid;
  workflow_runs : gmap uuid WorkflowRun;
  jobs : gmap uuid Job;
  job_dependencies : gmap uuid JobDependency;
  scheduled_triggers : gmap uuid ScheduledTrigger;
  events : gmap uuid Event;
  idempotency_records : gmap uuid IdempotencyRecord;
  effect_attempts : gmap uuid EffectAttempt;
  receipts : gmap uuid Receipt;
  db_clock : datetime
}.

(** Attribute assignment on a mapped row. *)
Definition set_j_status (x : JobStatus) (j : Job) : Job :=
  {| j_workflow_id := j_workflow_id j; j_type := j_type j; j_object_type :=
     j_object_type j; j_object_id := j_object_id j; j_owner_agent_id :=
     j_owner_agent_id j; j_status := x; j_input := j_input j; j_success_contract :=
     j_success_contract j; j_scheduled_at := j_scheduled_at j; j_attempt :=
     j_attempt j; j_max_attempts := j_max_attempts j; j_idempotency_key :=
     j_idempotency_key j; j_side_effect_class := j_side_effect_class j;
     j_retry_class := j_retry_class j; j_allowed_mode := j_allowed_mode j;
     j_lease_owner := j_lease_owner j; j_lease_expires_at := j_lease_expires_at j;
     j_heartbeat_at := j_heartbeat_at j; j_created_at := j_created_at j;
     j_updated_at := j_updated_at j; j_version := j_version j |}.
Definition set_j_scheduled_at (x : datetime) (j : Job) : Job :=
  {| j_workflow_id := j_workflow_id j; j_type := j_type j; j_object_type :=
     j_object_type j; j_object_id := j_object_id j; j_owner_agent_id :=
     j_owner_agent_id j; j_status := j_status j; j_input := j_input j;
     j_success_contract := j_success_contract j; j_scheduled_at := x; j_attempt :=
     j_attempt j; j_max_attempts := j_max_attempts j; j_idempotency_key :=
     j_idempotency_key j; j_side_effect_class := j_side_effect_class j;
     j_retry_class := j_retry_class j; j_allowed_mode := j_allowed_mode j;
     j_lease_owner := j_lease_owner j; j_lease_expires_at := j_lease_expires_at j;
     j_heartbeat_at := j_heartbeat_at j; j_created_at := j_created_at j;
     j_updated_at := j_updated_at j; j_version := j_version j |}.
Definition set_j_attempt (x : Z) (j : Job) : Job :=
  {| j_workflow_id := j_workflow_id j; j_type := j_type j; j_object_type :=
     j_object_type j; j_object_id := j_object_id j; j_owner_agent_id :=
     j_owner_agent_id j; j_status := j_status j; j_input := j_input j;
     j_success_contract := j_success_contract j; j_scheduled_at := j_scheduled_at j;
     j_attempt := x; j_max_attempts := j_max_attempts j; j_idempotency_key :=
     j_idempotency_key j; j_side_effect_class := j_side_effect_class j;
     j_retry_class := j_retry_class j; j_allowed_mode := j_allowed_mode j;
     j_lease_owner := j_lease_owner j; j_lease_expires_at := j_lease_expires_at j;
     j_heartbeat_at := j_heartbeat_at j; j_created_at := j_created_at j;
     j_updated_at := j_updated_at j; j_version := j_version j |}.
Definition set_j_lease_owner (x : option string) (j : Job) : Job :=
  {| j_workflow_id := j_workflow_id j; j_type := j_type j; j_object_type :=
     j_object_type j; j_object_id := j_object_id j; j_owner_agent_id :=
     j_owner_agent_id j; j_status := j_status j; j_input := j_input j;
     j_success_contract := j_success_contract j; j_scheduled_at := j_scheduled_at j;
     j_attempt := j_attempt j; j_max_attempts := j_max_attempts j; j_idempotency_key
     := j_idempotency_key j; j_side_effect_class := j_side_effect_class j;
     j_retry_class := j_retry_class j; j_allowed_mode := j_allowed_mode j;
     j_lease_owner := x; j_lease_expires_at := j_lease_expires_at j; j_heartbeat_at
     := j_heartbeat_at j; j_created_at := j_created_at j; j_updated_at :=
     j_updated_at j; j_version := j_version j |}.
Definition set_j_lease_expires_at (x : option datetime) (j : Job) : Job :=
  {| j_workflow_id := j_workflow_id j; j_type := j_type j; j_object_type :=
     j_object_type j; j_object_id := j_object_id j; j_owner_agent_id :=
     j_owner_agent_id j; j_status := j_status j; j_input := j_input j;
     j_success_contract := j_success_contract j; j_scheduled_at := j_scheduled_at j;
     j_attempt := j_attempt j; j_max_attempts := j_max_attempts j; j_idempotency_key
     := j_idempotency_key j; j_side_effect_class := j_side_effect_class j;
     j_retry_class := j_retry_class j; j_allowed_mode := j_allowed_mode j;
     j_lease_owner := j_lease_owner j; j_lease_expires_at := x; j_heartbeat_at :=
     j_heartbeat_at j; j_created_at := j_created_at j; j_updated_at := j_updated_at
     j; j_version := j_version j |}.
Definition set_j_heartbeat_at (x : option datetime) (j : Job) : Job :=
  {| j_workflow_id := j_workflow_id j; j_type := j_type j; j_object_type :=
     j_object_type j; j_object_id := j_object_id j; j_owner_agent_id :=
     j_owner_agent_id j; j_status := j_status j; j_input := j_input j;
     j_success_contract := j_success_contract j; j_scheduled_at := j_scheduled_at j;
     j_attempt := j_attempt j; j_max_attempts := j_max_attempts j; j_idempotency_key
     := j_idempotency_key j; j_side_effect_class := j_side_effect_class j;
     j_retry_class := j_retry_class j; j_allowed_mode := j_allowed_mode j;
     j_lease_owner := j_lease_owner j; j_lease_expires_at := j_lease_expires_at j;
     j_heartbeat_at := x; j_created_at := j_created_at j; j_updated_at :=
     j_updated_at j; j_version := j_version j |}.
Definition set_j_updated_at (x : datetime) (j : Job) : Job :=
  {| j_workflow_id := j_workflow_id j; j_type := j_type j; j_object_type :=
     j_object_type j; j_object_id := j_object_id j; j_owner_agent_id :=
     j_owner_agent_id j; j_status := j_status j; j_input := j_input j;
     j_success_contract := j_success_contract j; j_scheduled_at := j_scheduled_at j;
     j_attempt := j_attempt j; j_max_attempts := j_max_attempts j; j_idempotency_key
     := j_idempotency_key j; j_side_effect_class := j_side_effect_class j;
     j_retry_class := j_retry_class j; j_allowed_mode := j_allowed_mode j;
     j_lease_owner := j_lease_owner j; j_lease_expires_at := j_lease_expires_at j;
     j_heartbeat_at := j_heartbeat_at j; j_created_at := j_created_at j;
     j_updated_at := x; j_version := j_version j |}.
Definition set_j_version (x : Z) (j : Job) : Job :=
  {| j_workflow_id := j_workflow_id j; j_type := j_type j; j_object_type :=
     j_object_type j; j_object_id := j_object_id j; j_owner_agent_id :=
     j_owner_agent_id j; j_status := j_status j; j_input := j_input j;
     j_success_contract := j_success_contract j; j_scheduled_at := j_scheduled_at j;
     j_attempt := j_attempt j; j_max_attempts := j_max_attempts j; j_idempotency_key
     := j_idempotency_key j; j_side_effect_class := j_side_effect_class j;
     j_retry_class := j_retry_class j; j_allowed_mode := j_allowed_mode j;
     j_lease_owner := j_lease_owner j; j_lease_expires_at := j_lease_expires_at j;
     j_heartbeat_at := j_heartbeat_at j; j_created_at := j_created_at j;
     j_updated_at := j_updated_at j; j_version := x |}.

Definition set_wf_product_state (x : ProductLifecycleState) (w : WorkflowRun) : WorkflowRun :=
  {| wf_shop_id := wf_shop_id w; wf_type := wf_type w; wf_workflow_version :=
     wf_workflow_version w; wf_product_state := x; wf_parent_workflow_id :=
     wf_parent_workflow_id w; wf_parent_decision_id := wf_parent_decision_id w;
     wf_batch_id := wf_batch_id w; wf_started_at := wf_started_at w; wf_completed_at
     := wf_completed_at w; wf_version := wf_version w |}.
Definition set_wf_completed_at (x : option datetime) (w : WorkflowRun) : WorkflowRun :=
  {| wf_shop_id := wf_shop_id w; wf_type := wf_type w; wf_workflow_version :=
     wf_workflow_version w; wf_product_state := wf_product_state w;
     wf_parent_workflow_id := wf_parent_workflow_id w; wf_parent_decision_id :=
     wf_parent_decision_id w; wf_batch_id := wf_batch_id w; wf_started_at :=
     wf_started_at w; wf_completed_at := x; wf_version := wf_version w |}.
Definition set_wf_version (x : Z) (w : WorkflowRun) : WorkflowRun :=
  {| wf_shop_id := wf_shop_id w; wf_type := wf_type w; wf_workflow_version :=
     wf_workflow_version w; wf_product_state := wf_product_state w;
     wf_parent_workflow_id := wf_parent_workflow_id w; wf_parent_decision_id :=
     wf_parent_decision_id w; wf_batch_id := wf_batch_id w; wf_started_at :=
     wf_started_at w; wf_completed_at := wf_completed_at w; wf_version := x |}.

Definition set_dep_satisfied_at (x : option datetime) (d : JobDependency) : JobDependency :=
  {| dep_job_id := dep_job_id d; dep_depends_on_job_id := dep_depends_on_job_id d;
     dep_satisfied_at := x |}.

Definition set_trig_next_fire_at (x : datetime) (t : ScheduledTrigger) : ScheduledTrigger :=
  {| trig_shop_id := trig_shop_id t; trig_kind := trig_kind t; trig_key := trig_key
     t; trig_cron_expression := trig_cron_expression t; trig_next_fire_at := x;
     trig_last_fired_at := trig_last_fired_at t; trig_active := trig_active t;
     trig_created_at := trig_created_at t |}.

Definition set_idem_completed_at (x : option datetime) (r : IdempotencyRecord) : IdempotencyRecord :=
  {| idem_key := idem_key r; idem_job_id := idem_job_id r; idem_operation :=
     idem_operation r; idem_side_effect_class := idem_side_effect_class r;
     idem_reserved_at := idem_reserved_at r; idem_completed_at := x |}.

Definition set_eff_state (x : EffectState) (e : EffectAttempt) : EffectAttempt :=
  {| eff_key := eff_key e; eff_job_id := eff_job_id e; eff_agent_run_id :=
     eff_agent_run_id e; eff_provider := eff_provider e; eff_operation :=
     eff_operation e; eff_state := x; eff_provider_object_id :=
     eff_provider_object_id e; eff_reconciliation_attempt :=
     eff_reconciliation_attempt e; eff_observed_at := eff_observed_at e;
     eff_recorded_at := eff_recorded_at e |}.
Definition set_eff_provider_object_id (x : option string) (e : EffectAttempt) : EffectAttempt :=
  {| eff_key := eff_key e; eff_job_id := eff_job_id e; eff_agent_run_id :=
     eff_agent_run_id e; eff_provider := eff_provider e; eff_operation :=
     eff_operation e; eff_state := eff_state e; eff_provider_object_id := x;
     eff_reconciliation_attempt := eff_reconciliation_attempt e; eff_observed_at :=
     eff_observed_at e; eff_recorded_at := eff_recorded_at e |}.
Definition set_eff_observed_at (x : datetime) (e : EffectAttempt) : EffectAttempt :=
  {| eff_key := eff_key e; eff_job_id := eff_job_id e; eff_agent_run_id :=
     eff_agent_run_id e; eff_provider := eff_provider e; eff_operation :=
     eff_operation e; eff_state := eff_state e; eff_provider_object_id :=
     eff_provider_object_id e; eff_reconciliation_attempt :=
     eff_reconciliation_attempt e; eff_observed_at := x; eff_recorded_at :=
     eff_recorded_at e |}.

Definition set_workflow_runs (x : gmap uuid WorkflowRun) (db : DB) : DB :=
  {| shops := shops db; workflow_runs := x; jobs := jobs db; job_dependencies :=
     job_dependencies db; scheduled_triggers := scheduled_triggers db; events :=
     events db; idempotency_records := idempotency_records db; effect_attempts :=
     effect_attempts db; receipts := receipts db; db_clock := db_clock db |}.
Definition set_jobs (x : gmap uuid Job) (db : DB) : DB :=
  {| shops := shops db; workflow_runs := workflow_runs db; jobs := x;
     job_dependencies := job_dependencies db; scheduled_triggers :=
     scheduled_triggers db; events := events db; idempotency_records :=
     idempotency_records db; effect_attempts := effect_attempts db; receipts :=
     receipts db; db_clock := db_clock db |}.
Definition set_job_dependencies (x : gmap uuid JobDependency) (db : DB) : DB :=
  {| shops := shops db; workflow_runs := workflow_runs db; jobs := jobs db;
     job_dependencies := x; scheduled_triggers := scheduled_triggers db; events :=
     events db; idempotency_records := idempotency_records db; effect_attempts :=
     effect_attempts db; receipts := receipts db; db_clock := db_clock db |}.
Definition set_scheduled_triggers (x : gmap uuid ScheduledTrigger) (db : DB) : DB :=
  {| shops := shops db; workflow_runs := workflow_runs db; jobs := jobs db;
     job_dependencies := job_dependencies db; scheduled_triggers := x; events :=
     events db; idempotency_records := idempotency_records db; effect_attempts :=
     effect_attempts db; receipts := receipts db; db_clock := db_clock db |}.
Definition set_events (x : gmap uuid Event) (db : DB) : DB :=
  {| shops := shops db; workflow_runs := workflow_runs db; jobs := jobs db;
     job_dependencies := job_dependencies db; scheduled_triggers :=
     scheduled_triggers db; events := x; idempotency_records := idempotency_records
     db; effect_attempts := effect_attempts db; receipts := receipts db; db_clock :=
     db_clock db |}.
Definition set_idempotency_records (x : gmap uuid IdempotencyRecord) (db : DB) : DB :=
  {| shops := shops db; workflow_runs := workflow_runs db; jobs := jobs db;
     job_dependencies := job_dependencies db; scheduled_triggers :=
     scheduled_triggers db; events := events db; idempotency_records := x;
     effect_attempts := effect_attempts db; receipts := receipts db; db_clock :=
     db_clock db |}.
Definition set_effect_attempts (x : gmap uuid EffectAttempt) (db : DB) : DB :=
  {| shops := shops db; workflow_runs := workflow_runs db; jobs := jobs db;
     job_dependencies := job_dependencies db; scheduled_triggers :=
     scheduled_triggers db; events := events db; idempotency_records :=
     idempotency_records db; effect_attempts := x; receipts := receipts db; db_clock
     := db_clock db |}.
Definition set_receipts (x : gmap uuid Receipt) (db : DB) : DB :=
  {| shops := shops db; workflow_runs := workflow_runs db; jobs := jobs db;
     job_dependencies := job_dependencies db; scheduled_triggers :=
     scheduled_triggers db; events := events db; idempotency_records :=
     idempotency_records db; effect_attempts := effect_attempts db; receipts := x;
     db_clock := db_clock db |}.

Definition empty_db (shops0 : gset uuid) (clock : datetime) : DB :=
  {| shops := shops0; workflow_runs := ∅; jobs := ∅; job_dependencies := ∅;
     scheduled_triggers := ∅; events := ∅; idempotency_records := ∅;
     effect_attempts := ∅; receipts := ∅; db_clock := clock |}.

(** ** What the database server and [uuid4] promise *)

Class Backend := {
  order_by : ∀ {A : Type}, (A → Z) → list A → list A;
  order_by_perm : ∀ {A} (key : A → Z) l, order_by key l ≡ₚ l;
  order_by_sorted : ∀ {A} (key : A → Z) l,
    StronglySorted (λ a b, key a <= key b) (order_by key l);
  uuid4 : gset uuid → uuid;
  uuid4_fresh : ∀ X, uuid4 X ∉ X
}.

(** A session computation over the database. *)
Abbreviation Session := (M DB exn).

Definition integrity_error : exn := Exn IntegrityError "".

(** Rows of a table satisfying [P], in the order the server returns them. *)
Definition select {A} `{Backend} (table : DB → gmap uuid A) (P : uuid → A → bool)
    (key : uuid * A → Z) (db : DB) : list (uuid * A) :=
  order_by key (filter (λ r, P r.1 r.2 = true) (map_to_list (table db))).

(** A select without [ORDER BY]: any order. *)
Definition unordered {A} (r : uuid * A) : Z := 0.

(** [.scalars().one_or_none()] *)
Definition one_or_none {A} (rows : list A) : result exn (option A) :=
  match rows with
  | [] => Ok None
  | [a] => Ok (Some a)
  | _ => Raise (Exn MultipleResultsFound "Multiple rows were found when one or none was required")
  end.

(** A raw [now()] read. *)
Definition clock_now : Session datetime := gets db_clock.

(** [session.get(Job, job_id)], with or without a row lock. *)
Definition get_job (jid : uuid) : Session (option Job) := gets (λ db, jobs db !! jid).

(** [session.get(WorkflowRun, workflow_id)] *)
Definition get_workflow (wid : uuid) : Session (option WorkflowRun) :=
  gets (λ db, workflow_runs db !! wid).

(** A mapped job object after a flush: its attributes are the stored row's. *)
Definition refreshed (r : uuid * Job) : Session (uuid * Job) :=
  gets (λ db, (r.1, default r.2 (jobs db !! r.1))).

(** ** Row constraints *)

Definition agent_ids : list string :=
  ["A01"; "A02"; "A03"; "A04"; "A05"; "A06"; "A07"; "A08";
   "A09"; "A10"; "A11"; "A12"; "A13"; "A14"; "A15"; "A16"].

(** [attempt_within_budget], [positive_attempt_budget], [agent_id_format]. *)
Definition job_check (j : Job) : bool :=
  (j_attempt j <=? j_max_attempts j) && (0 <? j_max_attempts j) &&
  bool_decide (j_owner_agent_id j ∈ agent_ids).

(** [effect_state_evidence] and [nonnegative_reconciliation_attempt]. *)
Definition effect_check (e : EffectAttempt) : bool :=
  match eff_state e, eff_provider_object_id e with
  | EffectState.CONFIRMED, Some _ | EffectState.ABSENT, None | EffectState.UNKNOWN, _ => true
  | _, _ => false
  end && (0 <=? eff_reconciliation_attempt e).

(** [nonnegative_amount] and [amount_needs_a_currency]. *)
Definition receipt_check (r : Receipt) : bool :=
  match rc_amount r with Some q => Qle_bool 0 q | None => true end &&
  bool_decide (is_Some (rc_amount r) ↔ is_Some (rc_currency r)).

(** Does some row of the table satisfy [P]? *)
Definition table_any {A} (t : gmap uuid A) (P : A → bool) : bool :=
  existsb (λ r, P r.2) (map_to_list t).

Definition fk_opt {A} (t : gmap uuid A) (k : option uuid) : bool :=
  match k with Some k => bool_decide (is_Some (t !! k)) | None => true end.

(** ** Flushes *)

(** The columns the orchestrator assigns after insertion. *)
Definition job_mutable (j : Job) :=
  (j_status j, j_scheduled_at j, j_attempt j, j_lease_owner j, j_lease_expires_at j,
   j_heartbeat_at j, j_updated_at j).

(** One UPDATE of a job row, skipped when no column changed. *)
Definition store_job (db : DB) (row : uuid * Job) : DB :=
  match jobs db !! row.1 with
  | Some old =>
      if decide (job_mutable row.2 = job_mutable old) then db
      else set_jobs (<[row.1 := set_j_version (j_version old + 1) row.2]> (jobs db)) db
  | None => db
  end.

(** Flush dirty job rows: every check constraint holds or nothing is written. *)
Definition flush_jobs (rows : list (uuid * Job)) : Session unit :=
  λ db, if forallb (λ r, job_check r.2) rows
        then (Ok tt, foldl store_job db rows)
        else (Raise integrity_error, db).

Definition store_workflow (db : DB) (wid : uuid) (w : WorkflowRun) : DB :=
  match workflow_runs db !! wid with
  | Some old =>
      if decide ((wf_product_state w, wf_completed_at w) =
                 (wf_product_state old, wf_completed_at old)) then db
      else set_workflow_runs (<[wid := set_wf_version (wf_version old + 1) w]>
             (workflow_runs db)) db
  | None => db
  end.

Definition flush_workflow (wid : uuid) (w : WorkflowRun) : Session unit :=
  modify (λ db, store_workflow db wid w).

Definition insert_workflow (wid : uuid) (w : WorkflowRun) : Session unit :=
  λ db, if bool_decide (workflow_runs db !! wid = None) &&
           bool_decide (wf_shop_id w ∈ shops db) &&
           fk_opt (workflow_runs db) (wf_parent_workflow_id w) &&
           bool_decide (wf_parent_workflow_id w ≠ Some wid)
        then (Ok tt, set_workflow_runs (<[wid := w]> (workflow_runs db)) db)
        else (Raise integrity_error, db).

Definition insert_job (jid : uuid) (j : Job) : Session unit :=
  λ db, if bool_decide (jobs db !! jid = None) &&
           negb (table_any (jobs db) (λ k, bool_decide (j_idempotency_key k = j_idempotency_key j))) &&
           bool_decide (is_Some (workflow_runs db !! j_workflow_id j)) && job_check j
        then (Ok tt, set_jobs (<[jid := j]> (jobs db)) db)
        else (Raise integrity_error, db).

Definition insert_event `{Backend} (e : Event) : Session uuid :=
  λ db, if negb (table_any (events db) (λ k, bool_decide (ev_dedupe_key k = ev_dedupe_key e))) &&
           fk_opt (workflow_runs db) (ev_workflow_id e) && fk_opt (jobs db) (ev_job_id e)
        then let eid := uuid4 (dom (events db)) in
             (Ok eid, set_events (<[eid := e]> (events db)) db)
        else (Raise integrity_error, db).

Definition insert_idempotency `{Backend} (r : IdempotencyRecord) : Session uuid :=
  λ db, if negb (table_any (idempotency_records db) (λ k, bool_decide (idem_key k = idem_key r))) &&
           bool_decide (is_Some (jobs db !! idem_job_id r))
        then let rid := uuid4 (dom (idempotency_records db)) in
             (Ok rid, set_idempotency_records (<[rid := r]> (idempotency_records db)) db)
        else (Raise integrity_error, db).

Definition insert_effect_attempt `{Backend} (e : EffectAttempt) : Session uuid :=
  λ db, if negb (table_any (effect_attempts db) (λ k,
             bool_decide (eff_key k = eff_key e) &&
             (eff_reconciliation_attempt k =? eff_reconciliation_attempt e))) &&
           bool_decide (is_Some (jobs db !! eff_job_id e)) && effect_check e
        then let eid := uuid4 (dom (effect_attempts db)) in
             (Ok eid, set_effect_attempts (<[eid := e]> (effect_attempts db)) db)
        else (Raise integrity_error, db).

(** Flush an edited effect attempt. *)
Definition flush_effect_attempt (eid : uuid) (e : EffectAttempt) : Session unit :=
  λ db, if effect_check e
        then (Ok tt, set_effect_attempts (<[eid := e]> (effect_attempts db)) db)
        else (Raise integrity_error, db).

Definition insert_receipt `{Backend} (r : Receipt) : Session uuid :=
  λ db, if negb (table_any (receipts db) (λ k,
             bool_decide (rc_key k = rc_key r) && bool_decide (rc_operation k = rc_operation r) &&
             (rc_recorded_at k =? rc_recorded_at r))) &&
           bool_decide (is_Some (jobs db !! rc_job_id r)) && receipt_check r
        then let rid := uuid4 (dom (receipts db)) in
             (Ok rid, set_receipts (<[rid := r]> (receipts db)) db)
        else (Raise integrity_error, db).

Definition insert_trigger `{Backend} (t : ScheduledTrigger) : Session uuid :=
  λ db, if negb (table_any (scheduled_triggers db) (λ k, bool_decide (trig_key k = trig_key t))) &&
           bool_decide (trig_shop_id t ∈ shops db)
        then let tid := uuid4 (dom (scheduled_triggers db)) in
             (Ok tid, set_scheduled_triggers (<[tid := t]> (scheduled_triggers db)) db)
        else (Raise integrity_error, db).

(** ** A reference backend *)

#[export] Instance key_le_dec {A} (key : A → Z) (a b : A) : Decision (key a <= key b).
Proof. apply _. Defined.

Definition sort_by {A} (key : A → Z) (l : list A) : list A :=
  merge_sort (λ a b, key a <= key b) l.

Lemma sort_by_perm {A} (key : A → Z) l : sort_by key l ≡ₚ l.
Proof. apply merge_sort_Permutation. Qed.

Lemma sort_by_sorted {A} (key : A → Z) l :
  StronglySorted (λ a b, key a <= key b) (sort_by key l).
Proof. apply StronglySorted_merge_sort; [intros x y z; lia|intros x y; lia]. Qed.

(** A stable sort and the smallest fresh key: one server that keeps the promises. *)
Definition reference_backend : Backend :=
  {| order_by A := sort_by; order_by_perm A := sort_by_perm; order_by_sorted A := sort_by_sorted;
     uuid4 := fresh; uuid4_fresh := is_fresh |}.

(** ** Session facts *)

Section select.
Context `{Backend} {A : Type} (table : DB → gmap uuid A) (P : uuid → A → bool)
  (key : uuid * A → Z).

Lemma elem_of_select db r :
  r ∈ select table P key db ↔ table db !! r.1 = Some r.2 ∧ P r.1 r.2 = true.
Proof.
  unfold select. rewrite order_by_perm, list_elem_of_filter.
  destruct r as [k a]. rewrite elem_of_map_to_list. simpl. tauto.
Qed.

Lemma select_NoDup db : NoDup (select table P key db).*1.
Proof.
  unfold select. rewrite order_by_perm.
  apply (sublist_NoDup _ (map_to_list (table db)).*1); [apply NoDup_fst_map_to_list|].
  apply fmap_sublist, sublist_filter.
Qed.

Lemma select_sorted db : StronglySorted (λ a b, key a <= key b) (select table P key db).
Proof. apply order_by_sorted. Qed.
End select.

Lemma take_NoDup_fst {A} n (l : list (uuid * A)) : NoDup l.*1 → NoDup (take n l).*1.
Proof. intros Hl. apply (sublist_NoDup _ l.*1); [done|]. apply fmap_sublist, sublist_take. Qed.

Lemma elem_of_take_1 {A} n (l : list A) a : a ∈ take n l → a ∈ l.
Proof. intros (i & Hi & _)%elem_of_take. by eapply list_elem_of_lookup_2. Qed.

Lemma table_any_true {A} (t : gmap uuid A) P :
  table_any t P = true ↔ ∃ k a, t !! k = Some a ∧ P a = true.
Proof.
  unfold table_any. rewrite existsb_exists. split.
  - intros ([k a] & Hin & HP). apply list_elem_of_In, elem_of_map_to_list in Hin. eauto.
  - intros (k & a & Hk & HP). exists (k, a). split; [|done].
    by apply list_elem_of_In, elem_of_map_to_list.
Qed.

Lemma table_any_false {A} (t : gmap uuid A) P :
  table_any t P = false ↔ ∀ k a, t !! k = Some a → P a = false.
Proof.
  rewrite <- not_true_iff_false, table_any_true. split.
  - intros Hn k a Hk. apply not_true_iff_false. naive_solver.
  - intros Hn (k & a & Hk & HP). rewrite (Hn k a Hk) in HP. done.
Qed.

(** The row a flush leaves in place of [old] when [new] was assigned. *)
Definition stored (old new : Job) : Job :=
  if decide (job_mutable new = job_mutable old) then old
  else set_j_version (j_version old + 1) new.

Lemma store_job_lookup db r k :
  jobs (store_job db r) !! k =
  if decide (k = r.1) then (λ old, stored old r.2) <$> jobs db !! k else jobs db !! k.
Proof.
  unfold store_job, stored. destruct (decide (k = r.1)) as [->|Hne].
  - destruct (jobs db !! r.1) as [old|] eqn:Hr; [|by rewrite Hr].
    simpl. case_decide; [by rewrite Hr|]. simpl. by rewrite lookup_insert_eq.
  - destruct (jobs db !! r.1) as [old|]; [|done].
    case_decide; [done|]. simpl. by rewrite lookup_insert_ne.
Qed.

(** [foldl store_job] touches the jobs table only. *)
Lemma store_job_frame db r : store_job db r = set_jobs (jobs (store_job db r)) db.
Proof. unfold store_job. repeat case_match; destruct db; done. Qed.

Lemma foldl_store_frame rows db :
  foldl store_job db rows = set_jobs (jobs (foldl store_job db rows)) db.
Proof.
  revert db. induction rows as [|r rows IH]; intros db; simpl; [by destruct db|].
  rewrite IH at 1. rewrite store_job_frame at 2. done.
Qed.

Lemma foldl_store_lookup rows db k :
  NoDup rows.*1 →
  jobs (foldl store_job db rows) !! k =
  match (list_to_map rows : gmap uuid Job) !! k with
  | Some j => (λ old, stored old j) <$> jobs db !! k
  | None => jobs db !! k
  end.
Proof.
  revert db. induction rows as [|[i j] rows IH]; intros db Hnd; simpl; [done|].
  apply NoDup_cons in Hnd as [Hi Hnd]. rewrite IH by done. rewrite store_job_lookup. simpl.
  destruct (decide (k = i)) as [->|Hne].
  - rewrite lookup_insert_eq, not_elem_of_list_to_map_1 by done. done.
  - by rewrite lookup_insert_ne.
Qed.

Lemma flush_jobs_cases rows db :
  (forallb (λ r, job_check r.2) rows = true ∧
     flush_jobs rows db = (Ok tt, foldl store_job db rows)) ∨
  (forallb (λ r, job_check r.2) rows = false ∧
     flush_jobs rows db = (Raise integrity_error, db)).
Proof. unfold flush_jobs. case_match; auto. Qed.
