(* ===== verification/WorkflowsConfig.v ===== *)
(** * Workflow configuration

    [config/settings.py], the workflow graph models: the validators that a loaded
    [config/workflows.yaml] passes through, with the worklist that decides which
    configured jobs are reachable, and the repository's own configuration as a
    constant.  Enumerated YAML values are parsed, so the fields carry the
    enumerations. *)

From S2P Require Import Prelude PyText Enums Errors TransitionGuard Tables.
Open Scope nat_scope.
Open Scope string_scope.

Record WorkflowJobDefinition := {
  wj_job_type : string;
  wj_owner_agent_id : string;
  wj_side_effect_class : SideEffectClass;
  wj_retry_class : RetryClass;
  wj_allowed_modes : list AutonomyMode;
  wj_output_contracts : list string;
  wj_admitted_events : list EventName;
  wj_successor_job_types : list string;
  wj_capability_operation : option string;
  wj_capability_channel : option CapabilityChannel
}.

Record WorkflowDefinition := {
  wd_workflow_type : string;
  wd_version : Z;
  wd_entry_job_types : list string;
  wd_jobs : list WorkflowJobDefinition
}.

Record WorkflowsConfig := {
  wc_version : Z;
  wc_event_successor_map : list (string * list string);
  wc_workflows : list WorkflowDefinition
}.

(** ** Field constraints *)

Definition is_upper (c : Ascii.ascii) : bool :=
  let n := Ascii.N_of_ascii c in ((65 <=? n) && (n <=? 90))%N.
Definition is_alnum (c : Ascii.ascii) : bool :=
  let n := Ascii.N_of_ascii c in
  ((65 <=? n) && (n <=? 90) || (97 <=? n) && (n <=? 122) || (48 <=? n) && (n <=? 57))%N.

(** [[A-Za-z0-9]*Job] to the end. *)
Fixpoint alnum_then_job (s : string) : bool :=
  (if decide (s = "Job") then true else false) ||
  match s with
  | EmptyString => false
  | String c r => is_alnum c && alnum_then_job r
  end.

(** [^[A-Z][A-Za-z0-9]*Job$] *)
Definition is_canonical_job_type (s : string) : bool :=
  match s with
  | EmptyString => false
  | String c r => is_upper c && alnum_then_job r
  end.

Definition job_fields_ok (j : WorkflowJobDefinition) : bool :=
  is_canonical_job_type (wj_job_type j) && bool_decide (wj_owner_agent_id j ∈ agent_ids) &&
  negb (Nat.eqb (length (wj_allowed_modes j)) 0) &&
  forallb (λ c, str_truth (str_strip c)) (wj_output_contracts j) &&
  all_unique (str_strip <$> wj_output_contracts j) &&
  negb (Nat.eqb (length (wj_admitted_events j)) 0) &&
  forallb is_canonical_job_type (wj_successor_job_types j) &&
  from_option (λ o, str_truth (str_strip o)) true (wj_capability_operation j).

(** ** [WorkflowJobDefinition.validate_effect_contract] *)

Definition admitted_retries (c : SideEffectClass) : list RetryClass :=
  match c with
  | SideEffectClass.NONE => [RetryClass.SAFE; RetryClass.IDEMPOTENT]
  | SideEffectClass.EXTERNAL_READ =>
      [RetryClass.SAFE; RetryClass.IDEMPOTENT; RetryClass.MANUAL_RESUME]
  | SideEffectClass.EXTERNAL_WRITE =>
      [RetryClass.IDEMPOTENT; RetryClass.RECONCILE_FIRST; RetryClass.MANUAL_RESUME]
  | SideEffectClass.EXTERNAL_SPEND => [RetryClass.RECONCILE_FIRST]
  | SideEffectClass.EXTERNAL_MESSAGE => [RetryClass.RECONCILE_FIRST]
  end.

Definition validate_effect_contract (j : WorkflowJobDefinition) : result exn unit :=
  do? check (all_unique (wj_allowed_modes j)) "allowed modes must be unique";
  do? check (all_unique (wj_admitted_events j)) "admitted events must be unique";
  do? check (all_unique (wj_successor_job_types j)) "successor job types must be unique";
  let has_op := bool_decide (is_Some (wj_capability_operation j)) in
  let has_ch := bool_decide (is_Some (wj_capability_channel j)) in
  do? (if decide (wj_side_effect_class j = SideEffectClass.NONE)
       then check (negb (has_op || has_ch)) "internal jobs forbid external capability fields"
       else check (has_op && has_ch) "external jobs require operation and capability channel");
  do? check (bool_decide (wj_retry_class j ∈ admitted_retries (wj_side_effect_class j)))
        "retry class is unsafe for the configured side effect";
  check (negb (bool_decide (wj_side_effect_class j ∈
                 [SideEffectClass.EXTERNAL_SPEND; SideEffectClass.EXTERNAL_MESSAGE]) &&
               bool_decide (AutonomyMode.DRAFT ∈ wj_allowed_modes j)))
    "draft mode prohibits spend and message effects".

(** ** [WorkflowDefinition.validate_graph] *)

(** [{job.job_type: set(job.successor_job_types) for job in self.jobs}[t]] *)
Definition successors_of (js : list WorkflowJobDefinition) (t : string) : list string :=
  match list_find (λ j, wj_job_type j = t) js with
  | Some (_, j) => wj_successor_job_types j
  | None => []
  end.

(** The worklist; the head of [stack] is the end of the Python list.  A round pops
    one entry; [None] is an exhausted fuel. *)
Fixpoint reach_loop (js : list WorkflowJobDefinition) (fuel : nat) (stack : list string)
    (reachable : gset string) : option (gset string) :=
  match stack with
  | [] => Some reachable
  | t :: stack =>
      match fuel with
      | O => None
      | S fuel =>
          if decide (t ∈ reachable) then reach_loop js fuel stack reachable
          else reach_loop js fuel (reverse (successors_of js t) ++ stack)%list ({[t]} ∪ reachable)
      end
  end.

(** One round per entry job and per declared successor. *)
Definition graph_fuel (w : WorkflowDefinition) : nat :=
  length (wd_entry_job_types w) + sum_list ((λ j, length (wj_successor_job_types j)) <$> wd_jobs w).

#[export] Instance string_leb_dec (a b : string) : Decision (String.leb a b = true).
Proof. apply _. Defined.

Definition validate_graph (w : WorkflowDefinition) : result exn unit :=
  let job_types := wj_job_type <$> wd_jobs w in
  do? check (all_unique job_types) "workflow job types must be unique";
  do? check (forallb (λ t, bool_decide (t ∈ job_types)) (wd_entry_job_types w))
        "workflow entry jobs must exist in the workflow";
  do? check (forallb (λ j, forallb (λ t, bool_decide (t ∈ job_types)) (wj_successor_job_types j))
               (wd_jobs w))
        "workflow successor jobs must exist in the workflow";
  match reach_loop (wd_jobs w) (graph_fuel w) (reverse (wd_entry_job_types w)) ∅ with
  | None => value_error "fuel"
  | Some reachable =>
      let unreachable := filter (λ t, t ∉ reachable) job_types in
      check (Nat.eqb (length unreachable) 0)
        ("workflow jobs must be reachable from an entry job; unreachable: " ++
         String.concat ", " (merge_sort (λ a b, String.leb a b = true) unreachable))
  end.

(** ** [WorkflowsConfig] *)

Definition validate_workflow_types (c : WorkflowsConfig) : result exn unit :=
  check (all_unique (wd_workflow_type <$> wc_workflows c)) "workflow types must be unique".

(** Everything [WorkflowsConfig.model_validate] checks, inner models first. *)
Definition validate_config (c : WorkflowsConfig) : result exn unit :=
  do? check (bool_decide (wc_version c = 1%Z) && negb (Nat.eqb (length (wc_workflows c)) 0)) "fields";
  do? traverse (λ w,
        do? check (str_truth (str_strip (wd_workflow_type w)) && (0 <? wd_version w)%Z &&
                   forallb is_canonical_job_type (wd_entry_job_types w) &&
                   negb (Nat.eqb (length (wd_entry_job_types w)) 0) &&
                   negb (Nat.eqb (length (wd_jobs w)) 0)) "fields";
        do? traverse (λ j, do? check (job_fields_ok j) "fields"; validate_effect_contract j)
              (wd_jobs w);
        validate_graph w) (wc_workflows c);
  validate_workflow_types c.

(** ** The worklist computes reachability *)

Section worklist.
Context (js : list WorkflowJobDefinition).

Definition declares (a b : string) : Prop := b ∈ successors_of js a.

(** Successor entries of the jobs not visited yet. *)
Definition pending_work (reachable : gset string) : nat :=
  sum_list ((λ j, if decide (wj_job_type j ∈ reachable) then 0
                  else length (wj_successor_job_types j)) <$> js).
End worklist.

Lemma pending_work_visit js t reachable :
  NoDup (wj_job_type <$> js) → t ∉ reachable →
  pending_work js reachable = pending_work js ({[t]} ∪ reachable) + length (successors_of js t).
Proof.
  unfold pending_work, successors_of. intros Hnd Ht. induction js as [|j l IH]; [done|].
  rewrite !fmap_cons. cbn [sum_list]. rewrite fmap_cons in Hnd. apply NoDup_cons in Hnd as [Hj Hnd].
  specialize (IH Hnd). cbn [list_find].
  destruct (decide (wj_job_type j = t)) as [<-|Hne].
  - rewrite (decide_False (P := _ ∈ reachable)) by done.
    rewrite (decide_True (P := _ ∈ {[wj_job_type j]} ∪ reachable)) by set_solver.
    assert (list_find (λ j0, wj_job_type j0 = wj_job_type j) l = None) as Hnone.
    { apply list_find_None, Forall_forall. intros x Hx Heq. apply Hj. rewrite <- Heq.
      by apply list_elem_of_fmap_2. }
    rewrite Hnone in IH. simpl in IH |- *. lia.
  - assert (Hiff : wj_job_type j ∈ {[t]} ∪ reachable ↔ wj_job_type j ∈ reachable) by set_solver.
    rewrite (decide_ext _ _ _ _ Hiff).
    destruct (list_find (λ j0, wj_job_type j0 = t) l) as [[i jt]|]; simpl in *; case_decide; lia.
Qed.

Lemma reach_loop_sound js (entries : list string) fuel stack reachable out :
  reach_loop js fuel stack reachable = Some out →
  (∀ t, t ∈ stack ∨ t ∈ reachable → ∃ e, e ∈ entries ∧ rtc (declares js) e t) →
  (∀ t u, t ∈ reachable → declares js t u → u ∈ stack ∨ u ∈ reachable) →
  (∀ e, e ∈ entries → e ∈ stack ∨ e ∈ reachable) →
  ∀ t, t ∈ out ↔ ∃ e, e ∈ entries ∧ rtc (declares js) e t.
Proof.
  revert stack reachable. induction fuel as [|n IH]; intros [|t stack] reachable; simpl; try done.
  1, 2: intros [= ->] Hs Hc He u; (split; [intros; apply Hs; by right|]);
    intros (e & Hin & Hr); destruct (He e Hin) as [Hx|Hx]; [by apply not_elem_of_nil in Hx|];
    clear He Hin; induction Hr as [|x y z Hxy _ IHr]; [done|]; apply IHr;
    destruct (Hc x y Hx Hxy) as [Hy|Hy]; [by apply not_elem_of_nil in Hy|done].
  case_decide as Ht; intros Hrun Hs Hc He; apply (IH _ _ Hrun).
  - intros u Hu. apply Hs. set_solver.
  - intros u v Hu Huv. destruct (Hc u v Hu Huv); set_solver.
  - intros e Hin. destruct (He e Hin); set_solver.
  - intros u [Hu|Hu].
    + apply elem_of_app in Hu as [Hu|Hu]; [|apply Hs; set_solver].
      rewrite elem_of_reverse in Hu. destruct (Hs t) as (e & Hin & Hr); [left; left|].
      exists e. split; [done|]. eapply rtc_r; [exact Hr|exact Hu].
    + apply elem_of_union in Hu as [->%elem_of_singleton|Hu]; apply Hs; [left; left|by right].
  - intros u v Hu Huv. apply elem_of_union in Hu as [->%elem_of_singleton|Hu].
    + left. apply elem_of_app. left. by apply elem_of_reverse.
    + destruct (Hc u v Hu Huv) as [Hv|Hv]; [apply elem_of_cons in Hv as [->|Hv]|]; set_solver.
  - intros e Hin. destruct (He e Hin) as [Hv|Hv]; [apply elem_of_cons in Hv as [->|Hv]|]; set_solver.
Qed.

(** The fuel covers every round: each pops one entry, and a job's successors are
    pushed once. *)
Lemma reach_loop_enough js fuel stack reachable :
  NoDup (wj_job_type <$> js) → length stack + pending_work js reachable <= fuel →
  ∃ out, reach_loop js fuel stack reachable = Some out.
Proof.
  intros Hnd. revert stack reachable. induction fuel as [|n IH]; intros [|t stack] reachable Hf;
    simpl in *; try (by eexists); [lia|].
  case_decide as Ht; [apply IH; lia|]. apply IH.
  rewrite length_app, length_reverse. rewrite (pending_work_visit js t reachable) in Hf by done. lia.
Qed.

(** The jobs the worklist does not visit. *)
Lemma reach_loop_unreachable js entries fuel out :
  reach_loop js fuel (reverse entries) ∅ = Some out →
  length (filter (λ t, t ∉ out) (wj_job_type <$> js)) = 0 ↔
  ∀ t, t ∈ wj_job_type <$> js → ∃ e, e ∈ entries ∧ rtc (declares js) e t.
Proof.
  intros Hout. rewrite length_zero_iff_nil.
  assert (Hs : ∀ t, t ∈ out ↔ ∃ e, e ∈ entries ∧ rtc (declares js) e t).
  { apply (reach_loop_sound js entries _ _ _ _ Hout).
    - intros t [Ht|Ht]; [|set_solver]. rewrite elem_of_reverse in Ht. by exists t.
    - set_solver.
    - intros e He. left. by rewrite elem_of_reverse. }
  split.
  - intros Hnil t Ht. apply Hs. destruct (decide (t ∈ out)) as [|Hn]; [done|].
    destruct (not_elem_of_nil t). rewrite <- Hnil. by apply list_elem_of_filter.
  - intros Hall. apply elem_of_nil_inv. intros t [Hn Ht]%list_elem_of_filter.
    by apply Hn, Hs, Hall.
Qed.

Lemma graph_fuel_enough w :
  NoDup (wj_job_type <$> wd_jobs w) →
  ∃ out, reach_loop (wd_jobs w) (graph_fuel w) (reverse (wd_entry_job_types w)) ∅ = Some out.
Proof.
  intros Hnd. apply reach_loop_enough; [done|]. unfold graph_fuel, pending_work.
  rewrite length_reverse. apply Nat.add_le_mono_l, Nat.eq_le_incl. f_equal.
Qed.

(** C40: the graph validator accepts a workflow exactly when its job types are
    distinct, entry jobs and declared successors exist, and every job can be reached
    from an entry job along declared successors.  The worklist always finishes. *)
Theorem validate_graph_iff w :
  validate_graph w = Ok tt ↔
  NoDup (wj_job_type <$> wd_jobs w) ∧
  (∀ e, e ∈ wd_entry_job_types w → e ∈ wj_job_type <$> wd_jobs w) ∧
  (∀ j t, j ∈ wd_jobs w → t ∈ wj_successor_job_types j → t ∈ wj_job_type <$> wd_jobs w) ∧
  (∀ t, t ∈ wj_job_type <$> wd_jobs w →
     ∃ e, e ∈ wd_entry_job_types w ∧ rtc (declares (wd_jobs w)) e t).
Proof.
  unfold validate_graph. rewrite rbind_ok. unfold all_unique.
  split.
  - intros ([] & Hnd%check_ok%bool_decide_eq_true & H).
    apply rbind_ok in H as ([] & Hen%check_ok & H). apply rbind_ok in H as ([] & Hsu%check_ok & H).
    destruct (graph_fuel_enough w Hnd) as [out Hout]. rewrite Hout in H.
    apply check_ok, Nat.eqb_eq in H. split; [done|]. split; [|split].
    + intros e He. rewrite forallb_elem_of in Hen. by apply (bool_decide_eq_true_1 _), Hen.
    + intros j t Hj Ht. rewrite forallb_elem_of in Hsu. specialize (Hsu j Hj).
      rewrite forallb_elem_of in Hsu. by apply (bool_decide_eq_true_1 _), Hsu.
    + by apply (reach_loop_unreachable _ _ _ _ Hout).
  - intros (Hnd & Hen & Hsu & Hr). exists tt. split; [by apply check_ok, bool_decide_eq_true|].
    apply rbind_ok. exists tt. split.
    { apply check_ok, forallb_elem_of. intros e He. by apply bool_decide_eq_true, Hen. }
    apply rbind_ok. exists tt. split.
    { apply check_ok, forallb_elem_of. intros j Hj. apply forallb_elem_of. intros t Ht.
      apply bool_decide_eq_true. by eapply Hsu. }
    destruct (graph_fuel_enough w Hnd) as [out Hout]. rewrite Hout.
    apply check_ok, Nat.eqb_eq. by apply (reach_loop_unreachable _ _ _ _ Hout).
Qed.

(** ** The repository's configuration *)

Definition job_def (t o : string) (s : SideEffectClass) (r : RetryClass) (m : list AutonomyMode)
    (c : list string) (e : list EventName) (n : list string) (op : option string)
    (ch : option CapabilityChannel) : WorkflowJobDefinition :=
  {| wj_job_type := t; wj_owner_agent_id := o; wj_side_effect_class := s; wj_retry_class := r;
     wj_allowed_modes := m; wj_output_contracts := c; wj_admitted_events := e;
     wj_successor_job_types := n; wj_capability_operation := op; wj_capability_channel := ch |}.

Definition canonical_event_successor_map : list (string * list string) :=
  [("ACCOUNT_CONNECTED", ["EnvironmentAuditJob"]);
   ("ENVIRONMENT_AUDITED", ["WorkspaceProvisioningJob"]);
   ("SHOP_BOOTSTRAPPED", ["ResearchCollectionJob"]);
   ("RESEARCH_COMPLETED", ["ShortlistJob"]);
   ("NICHE_SHORTLISTED", ["QualificationJob"]);
   ("PRODUCT_QUALIFIED", ["NicheSelectionJob"]);
   ("PRODUCT_REJECTED", ["NicheSelectionJob"]);
   ("NICHE_SELECTED", ["CompetitorPurchaseJob"]);
   ("COMPETITOR_PURCHASED", ["TeardownJob"]);
   ("TEARDOWN_COMPLETED", ["ProductSpecJob"]);
   ("PRODUCT_SPEC_CREATED", ["DedupeJob"]);
   ("DEDUPE_PASSED", ["ProductBuildJob"]);
   ("DEDUPE_FAILED", ["ReconceptProductJob"]);
   ("BUILD_COMPLETED", ["ProductQAJob"]);
   ("BUILD_QA_PASSED", ["VariantBuildJob"]);
   ("BUILD_QA_FAILED", ["BuildRepairJob"]);
   ("VARIANTS_COMPLETED", ["VariantPublishJob"]);
   ("VARIANT_LINKS_VERIFIED", ["ScreenshotJob"]);
   ("SCREENSHOTS_CAPTURED", ["ListingCopyJob"; "AssetFactoryJob"; "DeliveryBuildJob"]);
   ("LISTING_COPY_COMPLETED", ["PricingJob"]);
   ("ASSETS_COMPLETED", ["DraftListingJob"]);
   ("DELIVERY_FILES_COMPLETED", ["PreflightJob"]);
   ("PRICING_COMPLETED", []);
   ("DRAFT_CREATED", ["PreflightJob"]);
   ("PREFLIGHT_PASSED", ["PublishListingJob"]);
   ("PREFLIGHT_FAILED", ["ListingRepairJob"]);
   ("LISTING_PUBLISHED", ["PostPublishVerificationJob"]);
   ("POST_PUBLISH_VERIFIED", ["ProofDistributionJob"]);
   ("SCHEDULE_CONFIGURED", ["WeeklyReviewJob"; "MonthlyDeepPassJob"]);
   ("METRICS_CAPTURED", ["PortfolioDecisionJob"]);
   ("LISTING_MATURED", ["PortfolioDecisionJob"]);
   ("LISTING_HELD", ["WeeklyReviewJob"]);
   ("LISTING_REPAIR_REQUESTED", ["IncidentRepairJob"]);
   ("LISTING_CULL_REQUESTED", ["DeactivateListingJob"]);
   ("LISTING_CULLED", ["BuildSlotJob"]);
   ("SUCCESSOR_CREATED", []);
   ("BUILD_SLOT_DEFERRED", ["ResearchCollectionJob"]);
   ("MONTHLY_REVIEW_COMPLETED", ["ResearchCollectionJob"; "BuildSlotJob"; "ScaleEvaluationJob"]);
   ("SCALE_DECIDED", ["BuildSlotJob"; "MonthlyDeepPassJob"]);
   ("REPAIR_APPLIED", ["ProductQAJob"]);
   ("REPAIR_COMPLETED", ["PreflightJob"]);
   ("PROOF_FEEDBACK_CAPTURED", ["WeeklyReviewJob"]);
   ("CUSTOMER_ISSUE_RECEIVED", ["IncidentRepairJob"]);
   ("BROKEN_LINK_DETECTED", ["IncidentRepairJob"]);
   ("JOB_FAILED", ["IncidentRepairJob"]);
   ("CREDENTIAL_REQUIRED", []);
   ("WINNER_DETECTED", []);
   ("JOB_STALLED", [])].

Definition canonical_jobs : list WorkflowJobDefinition :=
  [ job_def "ProvisioningCheckJob" "A02" SideEffectClass.EXTERNAL_WRITE RetryClass.MANUAL_RESUME
       [AutonomyMode.SIMULATION; AutonomyMode.LIVE]
       ["AgentResult"; "IncidentResult"]
       [EventName.ACCOUNT_CONNECTED; EventName.CREDENTIAL_REQUIRED]
       ["EnvironmentAuditJob"] (Some "ACCOUNT_PROVISIONING") (Some CapabilityChannel.MANUAL_EXTERNAL_BLOCKER);
    job_def "EnvironmentAuditJob" "A02" SideEffectClass.NONE RetryClass.SAFE
       [AutonomyMode.SIMULATION; AutonomyMode.DRAFT; AutonomyMode.LIVE]
       ["AgentResult"; "IncidentResult"]
       [EventName.ENVIRONMENT_AUDITED; EventName.CREDENTIAL_REQUIRED]
       ["WorkspaceProvisioningJob"] None None;
    job_def "WorkspaceProvisioningJob" "A02" SideEffectClass.EXTERNAL_WRITE RetryClass.MANUAL_RESUME
       [AutonomyMode.SIMULATION; AutonomyMode.LIVE]
       ["AgentResult"; "IncidentResult"]
       [EventName.ACCOUNT_CONNECTED; EventName.CREDENTIAL_REQUIRED]
       ["ShopProvisioningJob"] (Some "NOTION_WORKSPACE_PROVISION") (Some CapabilityChannel.MANUAL_EXTERNAL_BLOCKER);
    job_def "ShopProvisioningJob" "A02" SideEffectClass.EXTERNAL_WRITE RetryClass.MANUAL_RESUME
       [AutonomyMode.SIMULATION; AutonomyMode.LIVE]
       ["AgentResult"; "IncidentResult"]
       [EventName.ACCOUNT_CONNECTED; EventName.CREDENTIAL_REQUIRED]
       ["BootstrapRecordsJob"] (Some "ETSY_SHOP_PROVISION") (Some CapabilityChannel.MANUAL_EXTERNAL_BLOCKER);
    job_def "BootstrapRecordsJob" "A01" SideEffectClass.EXTERNAL_WRITE RetryClass.IDEMPOTENT
       [AutonomyMode.SIMULATION; AutonomyMode.DRAFT; AutonomyMode.LIVE]
       ["AgentResult"]
       [EventName.SHOP_BOOTSTRAPPED]
       ["ResearchCollectionJob"] (Some "NOTION_SHOP_HQ_WRITE") (Some CapabilityChannel.DIRECT_API);
    job_def "ResearchCollectionJob" "A03" SideEffectClass.EXTERNAL_READ RetryClass.SAFE
       [AutonomyMode.SIMULATION; AutonomyMode.DRAFT; AutonomyMode.LIVE]
       ["AgentResult"; "ResearchReport"]
       [EventName.RESEARCH_COMPLETED]
       ["ShortlistJob"] (Some "MARKET_RESEARCH_READ") (Some CapabilityChannel.BROWSER);
    job_def "ShortlistJob" "A03" SideEffectClass.NONE RetryClass.SAFE
       [AutonomyMode.SIMULATION; AutonomyMode.DRAFT; AutonomyMode.LIVE]
       ["AgentResult"]
       [EventName.NICHE_SHORTLISTED]
       ["QualificationJob"] None None;
    job_def "QualificationJob" "A05" SideEffectClass.NONE RetryClass.SAFE
       [AutonomyMode.SIMULATION; AutonomyMode.DRAFT; AutonomyMode.LIVE]
       ["AgentResult"]
       [EventName.PRODUCT_QUALIFIED; EventName.PRODUCT_REJECTED]
       ["NicheSelectionJob"] None None;
    job_def "NicheSelectionJob" "A05" SideEffectClass.NONE RetryClass.SAFE
       [AutonomyMode.SIMULATION; AutonomyMode.DRAFT; AutonomyMode.LIVE]
       ["AgentResult"]
       [EventName.NICHE_SELECTED]
       ["CompetitorPurchaseJob"] None None;
    job_def "CompetitorPurchaseJob" "A04" SideEffectClass.EXTERNAL_SPEND RetryClass.RECONCILE_FIRST
       [AutonomyMode.SIMULATION; AutonomyMode.LIVE]
       ["AgentResult"]
       [EventName.COMPETITOR_PURCHASED; EventName.CREDENTIAL_REQUIRED]
       ["TeardownJob"] (Some "COMPETITOR_PURCHASE") (Some CapabilityChannel.BROWSER);
    job_def "TeardownJob" "A04" SideEffectClass.NONE RetryClass.SAFE
       [AutonomyMode.SIMULATION; AutonomyMode.DRAFT; AutonomyMode.LIVE]
       ["AgentResult"; "TeardownReport"]
       [EventName.TEARDOWN_COMPLETED]
       ["ProductSpecJob"] None None;
    job_def "ProductSpecJob" "A05" SideEffectClass.NONE RetryClass.SAFE
       [AutonomyMode.SIMULATION; AutonomyMode.DRAFT; AutonomyMode.LIVE]
       ["AgentResult"; "ProductSpec"]
       [EventName.PRODUCT_SPEC_CREATED]
       ["DedupeJob"] None None;
    job_def "DedupeJob" "A06" SideEffectClass.NONE RetryClass.SAFE
       [AutonomyMode.SIMULATION; AutonomyMode.DRAFT; AutonomyMode.LIVE]
       ["AgentResult"; "DedupeResult"]
       [EventName.DEDUPE_PASSED; EventName.DEDUPE_FAILED]
       ["ProductBuildJob"; "ReconceptProductJob"] None None;
    job_def "ReconceptProductJob" "A05" SideEffectClass.NONE RetryClass.SAFE
       [AutonomyMode.SIMULATION; AutonomyMode.DRAFT; AutonomyMode.LIVE]
       ["AgentResult"; "ProductSpec"]
       [EventName.PRODUCT_SPEC_CREATED]
       ["DedupeJob"] None None;
    job_def "ProductBuildJob" "A07" SideEffectClass.EXTERNAL_WRITE RetryClass.IDEMPOTENT
       [AutonomyMode.SIMULATION; AutonomyMode.DRAFT; AutonomyMode.LIVE]
       ["AgentResult"; "BuildResult"]
       [EventName.BUILD_COMPLETED]
       ["ProductQAJob"] (Some "NOTION_PRODUCT_WRITE") (Some CapabilityChannel.DIRECT_API);
    job_def "ProductQAJob" "A09" SideEffectClass.EXTERNAL_READ RetryClass.SAFE
       [AutonomyMode.SIMULATION; AutonomyMode.DRAFT; AutonomyMode.LIVE]
       ["AgentResult"; "ProductQAResult"]
       [EventName.BUILD_QA_PASSED; EventName.BUILD_QA_FAILED; EventName.REPAIR_COMPLETED]
       ["VariantBuildJob"; "BuildRepairJob"] (Some "NOTION_BUILD_READ") (Some CapabilityChannel.DIRECT_API);
    job_def "BuildRepairJob" "A07" SideEffectClass.EXTERNAL_WRITE RetryClass.RECONCILE_FIRST
       [AutonomyMode.SIMULATION; AutonomyMode.DRAFT; AutonomyMode.LIVE]
       ["AgentResult"; "BuildResult"]
       [EventName.REPAIR_APPLIED]
       ["ProductQAJob"] (Some "NOTION_PRODUCT_REPAIR") (Some CapabilityChannel.DIRECT_API);
    job_def "VariantBuildJob" "A08" SideEffectClass.EXTERNAL_WRITE RetryClass.IDEMPOTENT
       [AutonomyMode.SIMULATION; AutonomyMode.DRAFT; AutonomyMode.LIVE]
       ["AgentResult"; "BuildResult"]
       [EventName.VARIANTS_COMPLETED]
       ["VariantPublishJob"] (Some "NOTION_VARIANT_WRITE") (Some CapabilityChannel.DIRECT_API);
    job_def "VariantPublishJob" "A08" SideEffectClass.EXTERNAL_WRITE RetryClass.RECONCILE_FIRST
       [AutonomyMode.SIMULATION; AutonomyMode.DRAFT; AutonomyMode.LIVE]
       ["AgentResult"; "BuildResult"]
       [EventName.VARIANT_LINKS_VERIFIED]
       ["ScreenshotJob"] (Some "NOTION_LINK_PUBLISH") (Some CapabilityChannel.BROWSER);
    job_def "ScreenshotJob" "A11" SideEffectClass.EXTERNAL_READ RetryClass.SAFE
       [AutonomyMode.SIMULATION; AutonomyMode.DRAFT; AutonomyMode.LIVE]
       ["AgentResult"; "BuildResult"; "ArtifactReference"]
       [EventName.SCREENSHOTS_CAPTURED]
       ["ListingCopyJob"; "AssetFactoryJob"; "DeliveryBuildJob"] (Some "NOTION_SCREENSHOT_READ") (Some CapabilityChannel.BROWSER);
    job_def "ListingCopyJob" "A10" SideEffectClass.NONE RetryClass.SAFE
       [AutonomyMode.SIMULATION; AutonomyMode.DRAFT; AutonomyMode.LIVE]
       ["AgentResult"; "ListingPackage"]
       [EventName.LISTING_COPY_COMPLETED]
       ["PricingJob"] None None;
    job_def "AssetFactoryJob" "A11" SideEffectClass.NONE RetryClass.SAFE
       [AutonomyMode.SIMULATION; AutonomyMode.DRAFT; AutonomyMode.LIVE]
       ["AgentResult"; "BuildResult"; "ArtifactReference"]
       [EventName.ASSETS_COMPLETED]
       ["DraftListingJob"] None None;
    job_def "DeliveryBuildJob" "A11" SideEffectClass.NONE RetryClass.SAFE
       [AutonomyMode.SIMULATION; AutonomyMode.DRAFT; AutonomyMode.LIVE]
       ["AgentResult"; "BuildResult"; "ArtifactReference"]
       [EventName.DELIVERY_FILES_COMPLETED]
       ["PreflightJob"] None None;
    job_def "PricingJob" "A10" SideEffectClass.NONE RetryClass.SAFE
       [AutonomyMode.SIMULATION; AutonomyMode.DRAFT; AutonomyMode.LIVE]
       ["AgentResult"; "ListingPackage"]
       [EventName.PRICING_COMPLETED]
       [] None None;
    job_def "DraftListingJob" "A13" SideEffectClass.EXTERNAL_WRITE RetryClass.RECONCILE_FIRST
       [AutonomyMode.SIMULATION; AutonomyMode.DRAFT; AutonomyMode.LIVE]
       ["AgentResult"; "ListingPackage"]
       [EventName.DRAFT_CREATED]
       ["PreflightJob"] (Some "ETSY_DRAFT_WRITE") (Some CapabilityChannel.DIRECT_API);
    job_def "PreflightJob" "A12" SideEffectClass.EXTERNAL_READ RetryClass.SAFE
       [AutonomyMode.SIMULATION; AutonomyMode.DRAFT; AutonomyMode.LIVE]
       ["AgentResult"; "PreflightResult"]
       [EventName.PREFLIGHT_PASSED; EventName.PREFLIGHT_FAILED; EventName.REPAIR_COMPLETED]
       ["PublishListingJob"; "ListingRepairJob"] (Some "ETSY_DRAFT_READ") (Some CapabilityChannel.DIRECT_API);
    job_def "ListingRepairJob" "A13" SideEffectClass.EXTERNAL_WRITE RetryClass.RECONCILE_FIRST
       [AutonomyMode.SIMULATION; AutonomyMode.DRAFT; AutonomyMode.LIVE]
       ["AgentResult"; "ListingPackage"]
       [EventName.REPAIR_APPLIED]
       ["PreflightJob"] (Some "ETSY_LISTING_REPAIR") (Some CapabilityChannel.DIRECT_API);
    job_def "PublishListingJob" "A13" SideEffectClass.EXTERNAL_WRITE RetryClass.RECONCILE_FIRST
       [AutonomyMode.SIMULATION; AutonomyMode.LIVE]
       ["AgentResult"]
       [EventName.LISTING_PUBLISHED]
       ["PostPublishVerificationJob"] (Some "ETSY_PUBLISH") (Some CapabilityChannel.DIRECT_API);
    job_def "PostPublishVerificationJob" "A13" SideEffectClass.EXTERNAL_SPEND RetryClass.RECONCILE_FIRST
       [AutonomyMode.SIMULATION; AutonomyMode.LIVE]
       ["AgentResult"; "IncidentResult"]
       [EventName.POST_PUBLISH_VERIFIED; EventName.JOB_FAILED]
       ["ProofDistributionJob"; "WeeklyReviewJob"; "IncidentRepairJob"] (Some "ETSY_POST_PUBLISH_CHECKOUT") (Some CapabilityChannel.BROWSER);
    job_def "ProofDistributionJob" "A16" SideEffectClass.EXTERNAL_MESSAGE RetryClass.RECONCILE_FIRST
       [AutonomyMode.SIMULATION; AutonomyMode.LIVE]
       ["AgentResult"; "IncidentResult"]
       [EventName.PROOF_FEEDBACK_CAPTURED; EventName.CUSTOMER_ISSUE_RECEIVED]
       ["IncidentRepairJob"; "WeeklyReviewJob"] (Some "PROOF_DISTRIBUTION") (Some CapabilityChannel.MANUAL_EXTERNAL_BLOCKER);
    job_def "IncidentRepairJob" "A16" SideEffectClass.NONE RetryClass.SAFE
       [AutonomyMode.SIMULATION; AutonomyMode.DRAFT; AutonomyMode.LIVE]
       ["AgentResult"; "IncidentResult"]
       [EventName.REPAIR_COMPLETED; EventName.JOB_FAILED]
       ["NotionRepairJob"; "ListingRepairJob"; "WeeklyReviewJob"] None None;
    job_def "NotionRepairJob" "A07" SideEffectClass.EXTERNAL_WRITE RetryClass.RECONCILE_FIRST
       [AutonomyMode.SIMULATION; AutonomyMode.DRAFT; AutonomyMode.LIVE]
       ["AgentResult"; "BuildResult"]
       [EventName.REPAIR_APPLIED]
       ["LinkVerificationJob"] (Some "NOTION_PRODUCT_REPAIR") (Some CapabilityChannel.DIRECT_API);
    job_def "LinkVerificationJob" "A09" SideEffectClass.EXTERNAL_READ RetryClass.SAFE
       [AutonomyMode.SIMULATION; AutonomyMode.DRAFT; AutonomyMode.LIVE]
       ["AgentResult"; "ProductQAResult"; "IncidentResult"]
       [EventName.VARIANT_LINKS_VERIFIED; EventName.BROKEN_LINK_DETECTED; EventName.REPAIR_COMPLETED]
       ["IncidentRepairJob"] (Some "NOTION_LINK_READ") (Some CapabilityChannel.BROWSER);
    job_def "ScheduleConfigurationJob" "A01" SideEffectClass.NONE RetryClass.IDEMPOTENT
       [AutonomyMode.SIMULATION; AutonomyMode.DRAFT; AutonomyMode.LIVE]
       ["AgentResult"]
       [EventName.SCHEDULE_CONFIGURED]
       ["WeeklyReviewJob"; "MonthlyDeepPassJob"] None None;
    job_def "WeeklyReviewJob" "A14" SideEffectClass.EXTERNAL_READ RetryClass.SAFE
       [AutonomyMode.SIMULATION; AutonomyMode.DRAFT; AutonomyMode.LIVE]
       ["AgentResult"; "MetricsSnapshot"]
       [EventName.METRICS_CAPTURED; EventName.LISTING_MATURED]
       ["PortfolioDecisionJob"; "LinkVerificationJob"] (Some "ETSY_METRICS_READ") (Some CapabilityChannel.DIRECT_API);
    job_def "PortfolioDecisionJob" "A15" SideEffectClass.NONE RetryClass.SAFE
       [AutonomyMode.SIMULATION; AutonomyMode.DRAFT; AutonomyMode.LIVE]
       ["AgentResult"; "PortfolioDecision"]
       [EventName.LISTING_HELD; EventName.LISTING_REPAIR_REQUESTED; EventName.LISTING_CULL_REQUESTED; EventName.WINNER_DETECTED]
       ["IncidentRepairJob"; "DeactivateListingJob"; "SuccessorProductJob"; "WeeklyReviewJob"] None None;
    job_def "DeactivateListingJob" "A13" SideEffectClass.EXTERNAL_WRITE RetryClass.RECONCILE_FIRST
       [AutonomyMode.SIMULATION; AutonomyMode.LIVE]
       ["AgentResult"]
       [EventName.LISTING_CULLED]
       ["BuildSlotJob"] (Some "ETSY_DEACTIVATE") (Some CapabilityChannel.DIRECT_API);
    job_def "SuccessorProductJob" "A15" SideEffectClass.NONE RetryClass.SAFE
       [AutonomyMode.SIMULATION; AutonomyMode.DRAFT; AutonomyMode.LIVE]
       ["AgentResult"; "ProductSpec"; "PortfolioDecision"]
       [EventName.WINNER_DETECTED]
       ["BuildSlotJob"] None None;
    job_def "BuildSlotJob" "A01" SideEffectClass.NONE RetryClass.IDEMPOTENT
       [AutonomyMode.SIMULATION; AutonomyMode.DRAFT; AutonomyMode.LIVE]
       ["AgentResult"; "ProductSpec"]
       [EventName.SUCCESSOR_CREATED; EventName.BUILD_SLOT_DEFERRED]
       ["DedupeJob"; "ResearchCollectionJob"] None None;
    job_def "MonthlyDeepPassJob" "A14" SideEffectClass.EXTERNAL_READ RetryClass.IDEMPOTENT
       [AutonomyMode.SIMULATION; AutonomyMode.DRAFT; AutonomyMode.LIVE]
       ["AgentResult"; "MetricsSnapshot"]
       [EventName.MONTHLY_REVIEW_COMPLETED]
       ["ResearchCollectionJob"; "BuildSlotJob"; "ScaleEvaluationJob"] (Some "ETSY_METRICS_READ") (Some CapabilityChannel.DIRECT_API);
    job_def "ScaleEvaluationJob" "A15" SideEffectClass.NONE RetryClass.SAFE
       [AutonomyMode.SIMULATION; AutonomyMode.DRAFT; AutonomyMode.LIVE]
       ["AgentResult"; "PortfolioDecision"]
       [EventName.SCALE_DECIDED]
       ["BuildSlotJob"; "MonthlyDeepPassJob"] None None ].

Definition canonical_workflows : WorkflowsConfig :=
  {| wc_version := 1; wc_event_successor_map := canonical_event_successor_map;
     wc_workflows := [ {| wd_workflow_type := "ProductLifecycleWorkflow"; wd_version := 1;
       wd_entry_job_types := ["ProvisioningCheckJob"; "ScheduleConfigurationJob"];
       wd_jobs := canonical_jobs |} ] |}.

(** What an emitted event spawns at run time: the job types mapped to the events a
    job may emit. *)
Definition runtime_successors (c : WorkflowsConfig) (t : string) : list string :=
  match list_find (λ j, wj_job_type j = t) (wc_workflows c ≫= wd_jobs) with
  | Some (_, j) =>
      (wj_admitted_events j) ≫= λ e, from_option snd []
        (snd <$> list_find (λ kv, kv.1 = EventName.EventName_value e) (wc_event_successor_map c))
  | None => []
  end.

(** The job types no event of a reachable job spawns. *)
Definition unspawned : list string :=
  ["BootstrapRecordsJob"; "LinkVerificationJob"; "NotionRepairJob"; "ShopProvisioningJob";
   "SuccessorProductJob"].

Definition runtime_edge (a b : string) : Prop := b ∈ runtime_successors canonical_workflows a.

(** The job types spawned from the two entry jobs, and their closure test. *)
Definition runtime_reach (entry : string) : list string :=
  reach (runtime_successors canonical_workflows) (λ _, true) 20 entry.

Lemma runtime_reach_iff entry t :
  entry ∈ ["ProvisioningCheckJob"; "ScheduleConfigurationJob"] →
  rtc runtime_edge entry t ↔ t ∈ runtime_reach entry.
Proof.
  intros He. split; [|apply reach_sound]. intros Hr.
  apply (closed_rtc (runtime_successors canonical_workflows) (λ _, true) (runtime_reach entry) entry t Hr);
    [done| |apply reach_start].
  repeat (apply elem_of_cons in He as [->|He]); [vm_compute; reflexivity..|].
  by apply not_elem_of_nil in He.
Qed.

Definition spawned_check : bool :=
  let spawned := (runtime_reach "ProvisioningCheckJob" ++ runtime_reach "ScheduleConfigurationJob")%list in
  forallb (λ t, Bool.eqb (bool_decide (t ∈ spawned)) (bool_decide (t ∉ unspawned)))
    (wj_job_type <$> canonical_jobs).

Lemma spawned_checked : spawned_check = true.
Proof. vm_compute. reflexivity. Qed.

#[global] Opaque runtime_reach canonical_jobs canonical_event_successor_map.

(** The repository's configuration passes every validator, maps every domain
    event (so no event is refused as unknown), and maps events only to configured
    jobs.  But the jobs its event map spawns, starting from the entry jobs, are not
    all configured jobs: exactly five are declared reachable and never spawned. *)
Theorem canonical_workflows_checked :
  validate_config canonical_workflows = Ok tt ∧
  (∀ e, is_Some (list_find (λ kv, kv.1 = EventName.EventName_value e)
                   (wc_event_successor_map canonical_workflows))) ∧
  Forall (λ kv, Forall (λ t, t ∈ wj_job_type <$> canonical_jobs) kv.2)
    (wc_event_successor_map canonical_workflows) ∧
  (∀ t, t ∈ wj_job_type <$> canonical_jobs →
    (∃ entry, entry ∈ ["ProvisioningCheckJob"; "ScheduleConfigurationJob"] ∧
       rtc runtime_edge entry t) ↔ t ∉ unspawned).
Proof.
  split; [vm_compute; reflexivity|]. split; [intros []; vm_compute; by eexists|].
  assert (Hmap : forallb (λ kv, forallb (λ t, bool_decide (t ∈ wj_job_type <$> canonical_jobs)) kv.2)
    (wc_event_successor_map canonical_workflows) = true) by (vm_compute; reflexivity).
  pose proof spawned_checked as Hall. unfold spawned_check in Hall. cbv zeta in Hall.
  pose proof (proj1 (forallb_elem_of _ _) Hmap) as Hmap'. clear Hmap.
  pose proof (proj1 (forallb_elem_of _ _) Hall) as Hall'. clear Hall. split.
  { apply Forall_forall. intros kv Hkv. apply Forall_forall. intros t Ht.
    exact (bool_decide_eq_true_1 _ (proj1 (forallb_elem_of _ _) (Hmap' kv Hkv) t Ht)). }
  intros t Ht. pose proof (Bool.eqb_prop _ _ (Hall' t Ht)) as Hall.
  assert (Hiff : (t ∈ runtime_reach "ProvisioningCheckJob" ∨
      t ∈ runtime_reach "ScheduleConfigurationJob") ↔ t ∉ unspawned).
  { rewrite <- (bool_decide_eq_true (t ∉ unspawned)), <- Hall, bool_decide_eq_true. symmetry.
    apply elem_of_app. }
  rewrite <- Hiff. clear Hall Hiff Hmap' Hall'. split.
  - intros (entry & He & Hr). apply runtime_reach_iff in Hr; [|done].
    apply elem_of_cons in He as [->|He]; [by left|]. apply list_elem_of_singleton in He as ->. by right.
  - intros [Hr|Hr]; [exists "ProvisioningCheckJob"|exists "ScheduleConfigurationJob"];
      (split; [repeat (left || right)|]); (apply runtime_reach_iff; [repeat (left || right)|done]).
Qed.

(** A finished listing repair emits [REPAIR_APPLIED], which the map sends to product
    QA, not to the preflight that the job declares as its successor. *)
Example listing_repair_route :
  runtime_successors canonical_workflows "ListingRepairJob" = ["ProductQAJob"] ∧
  successors_of canonical_jobs "ListingRepairJob" = ["PreflightJob"].
Proof. vm_compute. split; reflexivity. Qed.
