(* ===== verification/Contracts.v ===== *)
(** * Domain contracts

    [domain/models/common.py], [jobs.py] and [portfolio.py]: the immutable records
    that cross component boundaries and the model validators that decide which
    combinations of fields exist.  Field-level string and number constraints are
    checked where a record is parsed from stored JSON ([_job_envelope] of the
    worker); here the fields already carry their types. *)

From S2P Require Import Prelude PyText Enums Errors Tables.
From Stdlib Require Import QArith.QArith_base.
Close Scope Q_scope.
Open Scope string_scope.
Open Scope Z_scope.

(** ** References *)

Inductive Sensitivity : Set := PUBLIC | INTERNAL | DENIED.

(** ** Constrained strings of [domain/models/_base.py] *)

Definition validation_error {A} (model : string) : result exn A :=
  Raise (Exn ValidationError ("validation error for " ++ model)).

(** [NonEmptyStr]: stripped, and not empty then. *)
Definition non_empty_str (model s : string) : result exn string :=
  if str_truth (str_strip s) then Ok (str_strip s) else validation_error model.

Record ArtifactReference := {
  ar_artifact_id : uuid;
  ar_logical_role : string;
  ar_media_type : string;
  ar_sha256 : string;
  ar_byte_size : Z;
  ar_storage_reference : string;
  ar_producing_job_id : uuid;
  ar_producing_agent_run_id : uuid;
  ar_created_at : datetime;
  ar_sensitivity : Sensitivity;
  ar_retention_class : string;
  ar_parent_artifact_ids : list uuid
}.

Definition validate_parent_ids (a : ArtifactReference) : result exn unit :=
  do? check (negb (bool_decide (ar_artifact_id a ∈ ar_parent_artifact_ids a)))
        "artifact cannot be its own parent";
  check (all_unique (ar_parent_artifact_ids a)) "parent artifact IDs must be unique".

Record EvidenceReference := {
  er_evidence_id : uuid;
  er_evidence_type : string;
  er_source_reference : string;
  er_observed_at : datetime;
  er_sha256 : option string;
  er_artifact_id : option uuid;
  er_producing_job_id : option uuid;
  er_safe_summary : string
}.

Record EffectReference := {
  ef_idempotency_key : string;
  ef_provider : string;
  ef_operation : string;
  ef_provider_object_id : option string;
  ef_effect_state : EffectState;
  ef_observed_at : datetime;
  ef_reconciliation_attempt : Z
}.

(** [value is not None] *)
Definition given {A} (o : option A) : bool := bool_decide (is_Some o).

Definition validate_effect_state (e : EffectReference) : result exn unit :=
  do? check (negb (bool_decide (ef_effect_state e = EffectState.CONFIRMED) &&
                   negb (given (ef_provider_object_id e))))
        "a confirmed effect must identify the provider object";
  check (negb (bool_decide (ef_effect_state e = EffectState.ABSENT) &&
               given (ef_provider_object_id e)))
    "an absent effect cannot identify a provider object".

Record ContractError := {
  ce_code : string;
  ce_message : string;
  ce_retryable : bool;
  ce_blocker_action : option string;
  ce_safe_detail : json
}.

Record SuccessContract := {
  sc_output_model : string;
  sc_required_artifact_roles : list string;
  sc_required_events : list EventName
}.

Definition validate_uniqueness (c : SuccessContract) : result exn unit :=
  do? check (all_unique (sc_required_artifact_roles c)) "required artifact roles must be unique";
  check (all_unique (sc_required_events c)) "required events must be unique".

Record CheckResult := {
  ck_name : string;
  ck_passed : bool;
  ck_defect_code : option string;
  ck_evidence : list EvidenceReference;
  ck_observed_value : option json
}.

Definition validate_defect_code (c : CheckResult) : result exn unit :=
  do? check (negb (ck_passed c && given (ck_defect_code c))) "passing check forbids a defect code";
  check (negb (negb (ck_passed c) && negb (given (ck_defect_code c))))
    "failed check requires a defect code".

(** ** Jobs and results *)

Record JobEnvelope := {
  je_job_id : uuid;
  je_workflow_id : uuid;
  je_object_id : uuid;
  je_job_type : string;
  je_object_type : string;
  je_owner_agent_id : string;
  je_job_status : JobStatus;
  je_input : json;
  je_required_artifacts : list ArtifactReference;
  je_scheduled_at : datetime;
  je_job_attempt : Z;
  je_max_attempts : Z;
  je_idempotency_key : string;
  je_side_effect_class : SideEffectClass;
  je_retry_class : RetryClass;
  je_success_contract : SuccessContract
}.

Definition validate_attempt_budget (e : JobEnvelope) : result exn unit :=
  do? check (je_job_attempt e <=? je_max_attempts e) "attempt cannot exceed max_attempts";
  check (all_unique (ar_artifact_id <$> je_required_artifacts e)) "required artifacts must be unique".

Record AgentResult := {
  rs_job_id : uuid;
  rs_agent_run_id : uuid;
  rs_agent_id : string;
  rs_agent_definition_version : Z;
  rs_prompt_reference : string;
  rs_prompt_sha256 : string;
  rs_status : AgentRunStatus;
  rs_output : json;
  rs_artifacts : list ArtifactReference;
  rs_evidence : list EvidenceReference;
  rs_emitted_events : list EventName;
  rs_effects : list EffectReference;
  rs_error : option ContractError
}.

(** The loop over produced artifacts; the first offending one raises. *)
Definition cites_run (r : AgentResult) (a : ArtifactReference) : result exn unit :=
  do? check (bool_decide (ar_producing_agent_run_id a = rs_agent_run_id r))
        "every produced artifact must cite this agent run";
  check (bool_decide (ar_producing_job_id a = rs_job_id r))
    "every produced artifact must cite this job".

Definition validate_terminal_result (r : AgentResult) : result exn unit :=
  let success := bool_decide (rs_status r = AgentRunStatus.SUCCESS) in
  do? check (negb (success && given (rs_error r))) "SUCCESS forbids an error";
  do? check (negb (negb success && negb (given (rs_error r)))) "non-success result requires an error";
  do? traverse (cites_run r) (rs_artifacts r);
  do? check (all_unique (ef_idempotency_key <$> rs_effects r))
        "effect references must be unique by idempotency key";
  do? check (negb (bool_decide (rs_status r = AgentRunStatus.UNCERTAIN_EXTERNAL_EFFECT) &&
                   negb (existsb (λ e, bool_decide (ef_effect_state e = EffectState.UNKNOWN))
                           (rs_effects r))))
        "an uncertain result must cite the unresolved effect";
  do? check (all_unique (rs_emitted_events r)) "emitted events must be unique";
  do? check (all_unique (ar_artifact_id <$> rs_artifacts r)) "result artifacts must be unique";
  check (all_unique (er_evidence_id <$> rs_evidence r)) "result evidence must be unique".

(** ** Portfolio *)

Record MetricsSnapshot := {
  ms_snapshot_id : uuid;
  ms_listing_id : uuid;
  ms_listing_version : Z;
  ms_provider : string;
  ms_observed_at : datetime;
  ms_views : Z;
  ms_favourites : Z;
  ms_orders : Z;
  ms_gross_revenue : Q;
  ms_currency : string;
  ms_reconciled : bool;
  ms_source_evidence : list EvidenceReference
}.

Record PortfolioDecision := {
  pd_decision_id : uuid;
  pd_workflow_id : uuid;
  pd_product_id : uuid;
  pd_listing_id : uuid;
  pd_decision : DecisionType;
  pd_metrics_snapshot_ids : list uuid;
  pd_cohort_reference : string;
  pd_rule_version : string;
  pd_explanation : string;
  pd_evidence : list EvidenceReference;
  pd_repair_job_id : option uuid;
  pd_deactivation_job_id : option uuid;
  pd_successor_workflow_id : option uuid;
  pd_successor_spec_id : option uuid;
  pd_decided_at : datetime
}.

Definition validate_decision_path (d : PortfolioDecision) : result exn unit :=
  let repair := given (pd_repair_job_id d) in
  let deactivation := given (pd_deactivation_job_id d) in
  let successor := given (pd_successor_workflow_id d) in
  let spec := given (pd_successor_spec_id d) in
  do? check (all_unique (pd_metrics_snapshot_ids d)) "metrics snapshot IDs must be unique";
  match pd_decision d with
  | DecisionType.HOLD =>
      check (negb (repair || deactivation || successor || spec))
        "HOLD forbids repair, deactivation, and successor IDs"
  | DecisionType.REPAIR =>
      do? check repair "REPAIR requires repair_job_id";
      check (negb (deactivation || successor || spec)) "REPAIR forbids deactivation and successor IDs"
  | DecisionType.CULL =>
      do? check deactivation "CULL requires deactivation_job_id";
      check (negb (repair || successor || spec)) "CULL forbids repair and successor IDs"
  | DecisionType.MULTIPLY =>
      do? check successor "MULTIPLY requires successor_workflow_id";
      do? check spec "MULTIPLY requires successor_spec_id";
      do? check (negb (bool_decide (pd_successor_workflow_id d = Some (pd_workflow_id d))))
            "successor workflow must differ from parent workflow";
      check (negb (repair || deactivation)) "MULTIPLY forbids repair and deactivation IDs"
  end.

Module IncidentStatus.
Inductive IncidentStatus : Set := OPEN | BLOCKED | RESOLVED | UNCERTAIN_EXTERNAL_EFFECT.
#[export] Instance IncidentStatus_eq_dec : EqDecision IncidentStatus.
Proof. solve_decision. Defined.
End IncidentStatus.
Export (hints) IncidentStatus.

Record IncidentResult := {
  in_result_id : uuid;
  in_incident_id : uuid;
  in_incident_type : IncidentType;
  in_status : IncidentStatus.IncidentStatus;
  in_affected_object_type : string;
  in_affected_object_id : uuid;
  in_affected_version : Z;
  in_opening_event : EventName;
  in_opening_job_id : uuid;
  in_safe_detail : string;
  in_evidence : list EvidenceReference;
  in_resolution_job_id : option uuid;
  in_resolution_result_reference : option string;
  in_error : option ContractError;
  in_opened_at : datetime;
  in_resolved_at : option datetime
}.

Definition validate_incident_status (i : IncidentResult) : result exn unit :=
  let job := given (in_resolution_job_id i) in
  let ref := given (in_resolution_result_reference i) in
  let time := given (in_resolved_at i) in
  do? (if decide (in_status i = IncidentStatus.RESOLVED) then
         do? check (job && ref && time) "RESOLVED requires resolution job, result, and timestamp";
         check (negb (given (in_error i))) "RESOLVED forbids an error"
       else
         do? check (negb (job || ref || time)) "unresolved incident forbids resolution fields";
         check (negb (bool_decide (in_status i ∈ [IncidentStatus.BLOCKED;
                        IncidentStatus.UNCERTAIN_EXTERNAL_EFFECT]) && negb (given (in_error i))))
           (if decide (in_status i = IncidentStatus.BLOCKED) then "BLOCKED requires an error"
            else "UNCERTAIN_EXTERNAL_EFFECT requires an error"));
  check (match in_resolved_at i with Some t => in_opened_at i <=? t | None => true end)
    "resolved_at cannot precede opened_at".

(** ** What the validators admit *)

Lemma given_true {A} (o : option A) : given o = true ↔ is_Some o.
Proof. unfold given. apply bool_decide_eq_true. Qed.

Lemma given_false {A} (o : option A) : given o = false ↔ o = None.
Proof. unfold given. rewrite bool_decide_eq_false. symmetry. apply eq_None_not_Some. Qed.

Lemma all_unique_true {A} `{!EqDecision A} (l : list A) : all_unique l = true ↔ NoDup l.
Proof. unfold all_unique. apply bool_decide_eq_true. Qed.

(** [do? check c m; k] succeeds when the check passes and [k] does. *)
Lemma check_bind c m (k : result exn unit) :
  (do? check c m; k) = Ok tt ↔ c = true ∧ k = Ok tt.
Proof. destruct c; simpl; naive_solver. Qed.

Lemma traverse_checks {A} (f : A → result exn unit) l (k : result exn unit) :
  (do? traverse f l; k) = Ok tt ↔ Forall (λ a, f a = Ok tt) l ∧ k = Ok tt.
Proof.
  rewrite rbind_ok. split.
  - intros (us & Hus & Hk). split; [|done]. apply traverse_Forall2 in Hus.
    induction Hus as [|a [] l us Ha _ IH]; constructor; auto.
  - intros [Hl Hk]. exists (replicate (length l) tt). split; [|done]. apply traverse_Forall2.
    induction Hl; constructor; auto.
Qed.

Ltac solve_checks :=
  rewrite ?check_bind, ?check_ok, ?negb_true_iff, ?orb_false_iff, ?andb_true_iff, ?given_true,
    ?given_false, ?all_unique_true, ?bool_decide_eq_true, ?bool_decide_eq_false in *.

(** A portfolio decision is accepted exactly when its snapshots are distinct and
    it carries the identifiers of its own branch and of no other: none for [HOLD], the
    repair job for [REPAIR], the deactivation job for [CULL], and for [MULTIPLY] a
    successor spec and a successor workflow different from its own. *)
Theorem validate_decision_path_iff d :
  validate_decision_path d = Ok tt ↔
  NoDup (pd_metrics_snapshot_ids d) ∧
  match pd_decision d with
  | DecisionType.HOLD => pd_repair_job_id d = None ∧ pd_deactivation_job_id d = None ∧
      pd_successor_workflow_id d = None ∧ pd_successor_spec_id d = None
  | DecisionType.REPAIR => is_Some (pd_repair_job_id d) ∧ pd_deactivation_job_id d = None ∧
      pd_successor_workflow_id d = None ∧ pd_successor_spec_id d = None
  | DecisionType.CULL => is_Some (pd_deactivation_job_id d) ∧ pd_repair_job_id d = None ∧
      pd_successor_workflow_id d = None ∧ pd_successor_spec_id d = None
  | DecisionType.MULTIPLY => (∃ s, pd_successor_workflow_id d = Some s ∧ s ≠ pd_workflow_id d) ∧
      is_Some (pd_successor_spec_id d) ∧ pd_repair_job_id d = None ∧
      pd_deactivation_job_id d = None
  end.
Proof.
  unfold validate_decision_path. rewrite check_bind, all_unique_true.
  apply and_iff_compat_l. destruct (pd_decision d); solve_checks; [naive_solver..|].
  split.
  - intros ([s Hs] & Hp & Hne & Hr & Hd). split; [|done]. exists s. split; [done|]. congruence.
  - intros ((s & Hs & Hne) & Hp & Hr & Hd). split; [by eexists|]. split; [done|]. split; [|done].
    congruence.
Qed.

(** An agent result is accepted exactly when an error is present iff the run did
    not succeed, every artifact cites this run and job, an uncertain result cites an
    unresolved effect, and effects, events, artifacts and evidence are distinct. *)
Theorem validate_terminal_result_iff r :
  validate_terminal_result r = Ok tt ↔
  (rs_status r = AgentRunStatus.SUCCESS ↔ rs_error r = None) ∧
  Forall (λ a, ar_producing_agent_run_id a = rs_agent_run_id r ∧
               ar_producing_job_id a = rs_job_id r) (rs_artifacts r) ∧
  NoDup (ef_idempotency_key <$> rs_effects r) ∧
  (rs_status r = AgentRunStatus.UNCERTAIN_EXTERNAL_EFFECT →
     ∃ e, e ∈ rs_effects r ∧ ef_effect_state e = EffectState.UNKNOWN) ∧
  NoDup (rs_emitted_events r) ∧ NoDup (ar_artifact_id <$> rs_artifacts r) ∧
  NoDup (er_evidence_id <$> rs_evidence r).
Proof.
  unfold validate_terminal_result. rewrite !check_bind, traverse_checks, !check_bind, check_ok.
  rewrite !all_unique_true.
  assert (Herr : (negb (bool_decide (rs_status r = AgentRunStatus.SUCCESS) && given (rs_error r)) = true ∧
    negb (negb (bool_decide (rs_status r = AgentRunStatus.SUCCESS)) && negb (given (rs_error r))) = true) ↔
    (rs_status r = AgentRunStatus.SUCCESS ↔ rs_error r = None)).
  { rewrite <- given_false. case_bool_decide as Hs; destruct (given (rs_error r)); naive_solver. }
  assert (Hart : Forall (λ a, cites_run r a = Ok tt) (rs_artifacts r) ↔
    Forall (λ a, ar_producing_agent_run_id a = rs_agent_run_id r ∧
      ar_producing_job_id a = rs_job_id r) (rs_artifacts r)).
  { apply Forall_iff. intros a. unfold cites_run. by rewrite check_bind, check_ok, !bool_decide_eq_true. }
  rewrite Hart.
  assert (Hunc : negb (bool_decide (rs_status r = AgentRunStatus.UNCERTAIN_EXTERNAL_EFFECT) &&
      negb (existsb (λ e, bool_decide (ef_effect_state e = EffectState.UNKNOWN)) (rs_effects r))) = true ↔
    (rs_status r = AgentRunStatus.UNCERTAIN_EXTERNAL_EFFECT →
     ∃ e, e ∈ rs_effects r ∧ ef_effect_state e = EffectState.UNKNOWN)).
  { assert (Hex : existsb (λ e, bool_decide (ef_effect_state e = EffectState.UNKNOWN)) (rs_effects r) = true ↔
      ∃ e, e ∈ rs_effects r ∧ ef_effect_state e = EffectState.UNKNOWN).
    { rewrite existsb_exists. setoid_rewrite <- list_elem_of_In. by setoid_rewrite bool_decide_eq_true. }
    rewrite <- Hex. clear. generalize (existsb (λ e, bool_decide (ef_effect_state e = EffectState.UNKNOWN))
      (rs_effects r)). intros b. case_bool_decide; destruct b; simpl; intuition congruence. }
  rewrite Hunc. tauto.
Qed.
