(* ===== verification/Agents.v ===== *)
(** * Agents: roster, commissioning and prompts

    [config/settings.py] ([AgentCommissioningState], [AgentDefinition], [AgentsConfig]),
    [agents/base.py], [agents/registry.py] and [agents/prompt_store.py]: the configured
    roster of sixteen agents, the gate on production execution, and the prompt store
    that loads a prompt only when its hash, sections and content pass. *)

From S2P Require Import Prelude PyText PyLines Sha256 Enums Errors Tables WorkflowsConfig Contracts.
Open Scope string_scope.
Open Scope Z_scope.

(** ** Configuration *)

Module AgentCommissioningState.
Inductive AgentCommissioningState : Set :=
  | DESIGNED | IMPLEMENTED | TESTED | COMMISSIONED | SUSPENDED.
#[export] Instance AgentCommissioningState_eq_dec : EqDecision AgentCommissioningState.
Proof. solve_decision. Defined.
Definition AgentCommissioningState_value (x : AgentCommissioningState) : string :=
  match x with
  | DESIGNED => "DESIGNED"
  | IMPLEMENTED => "IMPLEMENTED"
  | TESTED => "TESTED"
  | COMMISSIONED => "COMMISSIONED"
  | SUSPENDED => "SUSPENDED"
  end.
End AgentCommissioningState.
Import AgentCommissioningState.

(** [config.settings.AgentDefinition]; unique string tuples are lists. *)
Record ConfigAgentDefinition := {
  ca_agent_id : string;
  ca_name : string;
  ca_implementation_version : Z;
  ca_contract_version : Z;
  ca_system_prompt_reference : string;
  ca_input_contracts : list string;
  ca_output_contracts : list string;
  ca_allowed_tools : list string;
  ca_provider_operations : list string;
  ca_allowed_side_effect_classes : list SideEffectClass;
  ca_default_side_effect_class : SideEffectClass;
  ca_allowed_retry_classes : list RetryClass;
  ca_default_retry_class : RetryClass;
  ca_timeout_seconds : Z;
  ca_model_policy : string;
  ca_commissioning_state : AgentCommissioningState;
  ca_commissioning_evidence : list string
}.

Definition validate_defaults_and_uniqueness (c : ConfigAgentDefinition) : result exn unit :=
  do? check (all_unique (ca_allowed_side_effect_classes c)) "allowed side-effect classes must be unique";
  do? check (bool_decide (ca_default_side_effect_class c ∈ ca_allowed_side_effect_classes c))
        "default side-effect class must be allowed";
  do? check (all_unique (ca_allowed_retry_classes c)) "allowed retry classes must be unique";
  do? check (bool_decide (ca_default_retry_class c ∈ ca_allowed_retry_classes c))
        "default retry class must be allowed";
  check (negb (bool_decide (ca_commissioning_state c = COMMISSIONED) &&
               bool_decide (ca_commissioning_evidence c = [])))
    "COMMISSIONED requires evidence".

(** [AgentsConfig]: sixteen agents, and the roster rule. *)
Definition validate_roster (agents : list ConfigAgentDefinition) : result exn unit :=
  let ids := ca_agent_id <$> agents in
  do? check (all_unique ids) "agent IDs must be unique";
  check (bool_decide (list_to_set ids =@{gset string} list_to_set agent_ids))
    "agent roster must contain exactly A01 through A16".

(** ** [agents/base.py] *)

Definition EXECUTABLE_COMMISSIONING_STATES : list AgentCommissioningState := [TESTED; COMMISSIONED].

Record AgentDefinition := {
  ad_agent_id : string;
  ad_name : string;
  ad_contract_version : Z;
  ad_system_prompt_reference : string;
  ad_input_contracts : list string;
  ad_output_contracts : list string;
  ad_allowed_tools : list string;
  ad_default_side_effect_class : string;
  ad_timeout_seconds : Z;
  ad_commissioning_state : AgentCommissioningState;
  ad_commissioning_evidence : list string;
  ad_database_id : option uuid
}.

Definition from_config (c : ConfigAgentDefinition) : AgentDefinition :=
  {| ad_agent_id := ca_agent_id c; ad_name := ca_name c;
     ad_contract_version := ca_contract_version c;
     ad_system_prompt_reference := ca_system_prompt_reference c;
     ad_input_contracts := ca_input_contracts c; ad_output_contracts := ca_output_contracts c;
     ad_allowed_tools := ca_allowed_tools c;
     ad_default_side_effect_class :=
       SideEffectClass.SideEffectClass_value (ca_default_side_effect_class c);
     ad_timeout_seconds := ca_timeout_seconds c;
     ad_commissioning_state := ca_commissioning_state c;
     ad_commissioning_evidence := ca_commissioning_evidence c; ad_database_id := None |}.

Definition allows_production_execution (d : AgentDefinition) : bool :=
  bool_decide (ad_commissioning_state d ∈ EXECUTABLE_COMMISSIONING_STATES).

Definition assert_production_executable (d : AgentDefinition) : result exn unit :=
  if allows_production_execution d then Ok tt
  else Raise (Exn AgentNotCommissionedError
    ("agent " ++ ad_agent_id d ++ " is " ++ AgentCommissioningState_value (ad_commissioning_state d) ++
     "; production execution requires TESTED or COMMISSIONED")).

Definition assert_agent_may_execute (d : AgentDefinition) (production : bool) : result exn unit :=
  if negb production then Ok tt else assert_production_executable d.

Definition parse_system_prompt_reference (reference : string) : result exn (string * string) :=
  let malformed := Raise (Exn AgentRegistryError
    ("malformed agent prompt reference: " ++ str_repr reference)) in
  match strip_prefix "agent://" reference with
  | None =>
      Raise (Exn AgentRegistryError ("unsupported prompt reference scheme: " ++ str_repr reference))
  | Some remainder =>
      match str_split slash remainder with
      | [agent_id; system; version] =>
          if decide (system ≠ "system") then malformed
          else if str_truth agent_id && str_truth version then Ok (agent_id, version)
          else malformed
      | _ => malformed
      end
  end.

(** ** [agents/registry.py] *)

Abbreviation AgentRegistry := (gmap string AgentDefinition).

(** The dictionary comprehension of [from_config] (a later duplicate wins), then the
    count check of the constructor. *)
Definition registry_from_config (agents : list ConfigAgentDefinition) : result exn AgentRegistry :=
  let registry : AgentRegistry :=
    foldl (λ m c, <[ca_agent_id c := from_config c]> m) ∅ agents in
  if decide (size registry ≠ 16%nat) then
    Raise (Exn AgentRegistryError ("agent registry must contain exactly sixteen agents, got " ++
      pretty (size registry)))
  else Ok registry.

Definition registry_get (registry : AgentRegistry) (agent_id : string) : result exn AgentDefinition :=
  match registry !! agent_id with
  | Some d => Ok d
  | None => Raise (Exn AgentRegistryError ("unknown agent id: " ++ agent_id))
  end.

(** The keys are sorted as code points, which for UTF-8 is the byte order. *)
Definition roster (registry : AgentRegistry) : list AgentDefinition :=
  omap (λ k, registry !! k) (merge_sort (λ a b, String.leb a b = true) (elements (dom registry))).

(** ** [agents/prompt_store.py] *)

Definition REQUIRED_SECTIONS : list string :=
  ["## Purpose"; "## Input Contract"; "## Output Contract"; "## Instructions"; "## Tool Permissions"].

(** *** [SECRET_PATTERN]

    A keyword, a separator, an optional quote and six value characters, with optional
    blanks around the separator, in any case.  Each part starts with characters the
    part before cannot take, so one pass without backtracking decides a match. *)

(** The text after the first prefix of the list that [s] starts with. *)
Fixpoint after_prefix (ps : list string) (s : string) : option string :=
  match ps with
  | [] => None
  | p :: ps => match strip_prefix p s with Some r => Some r | None => after_prefix ps s end
  end.

Definition secret_keywords : list string :=
  ["api_key"; "api-key"; "apikey"; "token"; "password"; "secret"; "credential"].
Definition secret_separators : list string := [":"; "="; "is"; "of"].

Definition is_value_char (c : Ascii.ascii) : bool :=
  let n := Ascii.N_of_ascii c in
  ((65 <=? n) && (n <=? 90) || (97 <=? n) && (n <=? 122) || (48 <=? n) && (n <=? 57) ||
   (n =? 95) || (n =? 45))%N.

Fixpoint value_run (k : nat) (s : string) : bool :=
  match k, s with
  | O, _ => true
  | S k, String c r => is_value_char c && value_run k r
  | S _, EmptyString => false
  end.

Definition drop_quote (s : string) : string :=
  match s with
  | String c r => if decide (c = squote ∨ c = dquote) then r else s
  | EmptyString => s
  end.

(** A match at the start of [s], which is lower-cased. *)
Definition secret_here (s : string) : bool :=
  match after_prefix secret_keywords s with
  | Some r =>
      match after_prefix secret_separators (str_lstrip r) with
      | Some r => value_run 6 (drop_quote (str_lstrip r))
      | None => false
      end
  | None => false
  end.

(** [SECRET_PATTERN.search] *)
Fixpoint secret_search (s : string) : bool :=
  secret_here s || match s with String _ r => secret_search r | EmptyString => false end.

(** *** Loading *)

(** What the file system holds at [prompts/agents/<agent-id>/<version>.md]: a path that
    resolves outside the directory, no file, bytes that are not UTF-8, or a text. *)
Inductive PromptPath : Set :=
  | OutsideRoot
  | NoFile
  | NotUtf8
  | PromptText (content : string).

Definition forbidden_patterns : list string :=
  [".."; "/"; String backslash EmptyString; String (Ascii.ascii_of_N 0) EmptyString; "~"].

Definition _validate_path_component (component name : string) : result exn unit :=
  do? check (str_truth component) (name ++ " cannot be empty");
  do? traverse (λ p, check (negb (str_in p component))
                  (name ++ " contains forbidden pattern '" ++ p ++ "': " ++ component))
        forbidden_patterns;
  check (negb (String.prefix "/" component ||
               match component with
               | String _ (String c _) => bool_decide (c = Ascii.ascii_of_N 58)
               | _ => false
               end))
    (name ++ " cannot be an absolute path: " ++ component).

Definition missing_sections (content : string) : list string :=
  filter (λ section, str_in section content = false) REQUIRED_SECTIONS.

Definition _validate_sections (content agent_id version : string) : result exn unit :=
  match missing_sections content with
  | [] => Ok tt
  | l => Raise (Exn PromptValidationError ("Prompt " ++ agent_id ++ "/" ++ version ++
           " is missing required sections: " ++ String.concat ", " l))
  end.

Definition _check_secrets (content agent_id version : string) : result exn unit :=
  if secret_search (str_lower content) then
    Raise (Exn PromptSecretError ("Prompt " ++ agent_id ++ "/" ++ version ++
      " contains forbidden secret patterns. Secrets must not be embedded in prompts."))
  else Ok tt.

Section store.
Variable prompt_path : string → string → PromptPath.

Definition load (agent_id version expected_hash : string) : result exn string :=
  do? _validate_path_component agent_id "agent_id";
  do? _validate_path_component version "version";
  match prompt_path agent_id version with
  | OutsideRoot =>
      Raise (Exn ValueError ("Invalid path for " ++ agent_id ++ "/" ++ version ++
        ": Path traversal attempt detected: " ++ agent_id ++ "/" ++ version))
  | NoFile => Raise (Exn FileNotFoundError ("Prompt not found: " ++ agent_id ++ "/" ++ version))
  | NotUtf8 => Raise (Exn ValueError "")
  | PromptText bytes =>
      let content := universal_newlines bytes in
      let actual_hash := sha256_hex content in
      do? (if decide (actual_hash ≠ expected_hash)
           then Raise (Exn PromptIntegrityError ("Prompt hash mismatch for " ++ agent_id ++ "/" ++
             version ++ ": expected " ++ expected_hash ++ ", got " ++ actual_hash))
           else Ok tt);
      do? _validate_sections content agent_id version;
      do? _check_secrets content agent_id version;
      Ok content
  end.
End store.

(** ** The roster *)

Lemma registry_lookup agents id :
  foldl (λ m c, <[ca_agent_id c := from_config c]> m) (∅ : AgentRegistry) agents !! id =
  from_config <$> last (filter (λ c, ca_agent_id c = id) agents).
Proof.
  induction agents as [|c agents IH] using rev_ind; [done|].
  rewrite foldl_snoc, filter_app. cbv beta. destruct (decide (ca_agent_id c = id)) as [<-|Hne].
  - rewrite lookup_insert_eq, filter_cons_True, filter_nil, last_snoc by done. done.
  - rewrite lookup_insert_ne, filter_cons_False, filter_nil, app_nil_r by done. apply IH.
Qed.

Lemma registry_dom agents :
  dom (foldl (λ m c, <[ca_agent_id c := from_config c]> m) (∅ : AgentRegistry) agents) =
  list_to_set (ca_agent_id <$> agents).
Proof.
  induction agents as [|c agents IH] using rev_ind; [done|].
  rewrite foldl_snoc. cbv beta. rewrite dom_insert_L, IH, fmap_app, list_to_set_app_L. set_solver.
Qed.

Lemma elem_of_roster registry d : d ∈ roster registry ↔ ∃ k, registry !! k = Some d.
Proof.
  unfold roster. rewrite list_elem_of_omap. split.
  - intros (k & _ & Hk). by exists k.
  - intros (k & Hk). exists k. split; [|done]. rewrite merge_sort_Permutation.
    apply elem_of_elements. by eapply elem_of_dom_2.
Qed.

(** A roster that validates has one definition for each of the sixteen ids, and the
    registry built from it resolves exactly those, each to its own definition. *)
Lemma roster_resolves agents :
  validate_roster agents = Ok tt →
  ∃ registry, registry_from_config agents = Ok registry ∧
    ∀ id, match registry_get registry id with
          | Ok d => id ∈ agent_ids ∧ ad_agent_id d = id ∧ d ∈ from_config <$> agents
          | Raise e => id ∉ agent_ids ∧ exn_type e = AgentRegistryError
          end.
Proof.
  unfold validate_roster. intros H. apply rbind_ok in H as (u & Hu & H). destruct u.
  apply check_ok in Hu, H. apply bool_decide_eq_true in Hu, H.
  unfold registry_from_config. set (reg := foldl _ _ _).
  assert (Hdom : dom reg = list_to_set agent_ids) by (unfold reg; by rewrite registry_dom).
  rewrite decide_False.
  2: { intros Hs. apply Hs. rewrite <- size_dom, Hdom. done. }
  eexists. split; [done|]. intros id. unfold registry_get.
  destruct (reg !! id) as [d|] eqn:Hr.
  - split; [apply elem_of_dom_2 in Hr; rewrite Hdom in Hr; by apply elem_of_list_to_set in Hr|].
    unfold reg in Hr. rewrite registry_lookup in Hr. apply fmap_Some in Hr as (c & Hl & ->).
    apply last_Some_elem_of in Hl. apply list_elem_of_filter in Hl as [<- Hin].
    split; [done|]. by apply list_elem_of_fmap_2.
  - split; [|done]. apply not_elem_of_dom in Hr. rewrite Hdom in Hr.
    intros Hin. apply Hr. by apply elem_of_list_to_set.
Qed.

(** ** The secret scan decides the pattern *)

Lemma after_prefix_Some ps s r : after_prefix ps s = Some r → ∃ p, p ∈ ps ∧ s = p ++ r.
Proof.
  induction ps as [|p ps IH]; simpl; [done|].
  destruct (strip_prefix p s) as [r'|] eqn:Hp.
  - intros [= <-]. exists p. split; [by left|by apply strip_prefix_Some].
  - intros (q & Hq & ->)%IH. exists q. split; [by right|done].
Qed.

(** No entry of a prefix-free list is a prefix of a text that starts with another. *)
Definition prefix_free (ps : list string) : bool :=
  forallb (λ p, forallb (λ q, bool_decide (p = q) || negb (String.prefix p q) && negb (String.prefix q p)) ps) ps.

Lemma strip_prefix_clash p q s r :
  strip_prefix p (q ++ s) = Some r → String.prefix p q = false → String.prefix q p = false → False.
Proof.
  revert q. induction p as [|c p IH]; intros [|d q]; simpl; try done.
  case_decide as Hd; [subst d|done].
  destruct (Ascii.ascii_dec c c); [|done]. apply IH.
Qed.

Lemma after_prefix_app ps p s : prefix_free ps = true → p ∈ ps → after_prefix ps (p ++ s) = Some s.
Proof.
  unfold prefix_free. rewrite forallb_forall. intros Hf Hp.
  assert (Hfree : ∀ q, q ∈ ps → q = p ∨ String.prefix q p = false ∧ String.prefix p q = false).
  { intros q Hq. specialize (Hf q). rewrite forallb_forall in Hf.
    specialize (Hf (proj1 (list_elem_of_In _ _) Hq) p (proj1 (list_elem_of_In _ _) Hp)).
    apply orb_true_iff in Hf as [Hf|Hf]; [left; by apply bool_decide_eq_true in Hf|right].
    by apply andb_true_iff in Hf as [?%negb_true_iff ?%negb_true_iff]. }
  clear Hf. induction ps as [|q ps IH]; [by apply elem_of_nil in Hp|]. simpl.
  destruct (strip_prefix q (p ++ s)) as [r|] eqn:Hq.
  - destruct (Hfree q ltac:(by left)) as [->|[H1 H2]]; [by rewrite strip_prefix_app in Hq|].
    exfalso. by eapply strip_prefix_clash.
  - apply elem_of_cons in Hp as [->|Hp]; [by rewrite strip_prefix_app in Hq|].
    apply IH; [done|]. intros q' Hq'. apply Hfree. by right.
Qed.

Definition all_space (s : string) : bool := bool_decide (str_lstrip s = EmptyString).

Lemma str_lstrip_split s : ∃ ws, s = ws ++ str_lstrip s ∧ all_space ws = true.
Proof.
  induction s as [|c s (ws & IH & Hws)]; simpl; [by exists ""|].
  destruct (is_space c) eqn:Hc; [|by exists ""].
  exists (String c ws). split; [simpl; by rewrite IH at 1|].
  unfold all_space. simpl. by rewrite Hc.
Qed.

(** A text that does not start with a blank. *)
Definition no_lead (s : string) : bool :=
  match s with String c _ => negb (is_space c) | EmptyString => true end.

Lemma str_lstrip_app ws s : all_space ws = true → no_lead s = true → str_lstrip (ws ++ s) = s.
Proof.
  unfold all_space. rewrite bool_decide_eq_true. intros Hw Hs.
  induction ws as [|c ws IH]; simpl in *.
  - destruct s as [|c s]; simpl in *; [done|]. by destruct (is_space c).
  - destruct (is_space c); [by apply IH|done].
Qed.

Lemma value_char_free c : is_value_char c = true → is_space c = false ∧ c ≠ squote ∧ c ≠ dquote.
Proof. destruct c as [[] [] [] [] [] [] [] []]; done. Qed.

(** A match of the pattern as the regular expression describes it. *)
Definition secret_match (s : string) : Prop :=
  ∃ pre kw ws1 sep ws2 q v post,
    s = pre ++ kw ++ ws1 ++ sep ++ ws2 ++ q ++ v ++ post ∧
    kw ∈ secret_keywords ∧ sep ∈ secret_separators ∧ q ∈ [""; "'"; String dquote ""] ∧
    all_space ws1 = true ∧ all_space ws2 = true ∧ String.length v = 6%nat ∧ value_run 6 v = true.

Lemma value_run_split k s : value_run k s = true →
  ∃ v r, s = v ++ r ∧ String.length v = k ∧ value_run k v = true.
Proof.
  revert s. induction k as [|k IH]; intros s; [by exists "", s|].
  destruct s as [|c s]; simpl; [done|]. intros [Hc Hr]%andb_true_iff.
  destruct (IH _ Hr) as (v & r & -> & <- & Hv). exists (String c v), r. simpl. by rewrite Hc.
Qed.

Lemma value_run_app k v r : value_run k v = true → value_run k (v ++ r) = true.
Proof.
  revert v. induction k as [|k IH]; intros [|c v]; simpl; try done.
  rewrite !andb_true_iff. intros [? ?]. auto.
Qed.

Lemma sep_no_lead sep s : sep ∈ secret_separators → no_lead (sep ++ s) = true.
Proof. unfold secret_separators. rewrite !elem_of_cons, elem_of_nil. naive_solver. Qed.

Lemma secret_here_iff s :
  secret_here s = true ↔ ∃ kw ws1 sep ws2 q v post,
    s = kw ++ ws1 ++ sep ++ ws2 ++ q ++ v ++ post ∧
    kw ∈ secret_keywords ∧ sep ∈ secret_separators ∧ q ∈ [""; "'"; String dquote ""] ∧
    all_space ws1 = true ∧ all_space ws2 = true ∧ String.length v = 6%nat ∧ value_run 6 v = true.
Proof.
  unfold secret_here. split.
  - destruct (after_prefix secret_keywords s) as [r|] eqn:Hk; [|done].
    apply after_prefix_Some in Hk as (kw & Hkw & ->).
    destruct (str_lstrip_split r) as (ws1 & Hr & Hw1).
    destruct (after_prefix secret_separators (str_lstrip r)) as [t|] eqn:Hs; [|done].
    apply after_prefix_Some in Hs as (sep & Hsep & Hrt). rewrite Hrt in Hr.
    destruct (str_lstrip_split t) as (ws2 & Ht & Hw2). intros Hv.
    apply value_run_split in Hv as (v & post & Hd & Hlen & Hv).
    assert (Hq : ∃ q, str_lstrip t = q ++ v ++ post ∧ q ∈ [""; "'"; String dquote ""]).
    { rewrite <- Hd. unfold drop_quote. destruct (str_lstrip t) as [|c u]; [exists ""; set_solver|].
      case_decide as Hc; [|exists ""; set_solver].
      exists (String c ""). split; [done|]. destruct Hc as [->| ->]; set_solver. }
    destruct Hq as (q & Hq & Hq'). exists kw, ws1, sep, ws2, q, v, post.
    rewrite Hr, Ht, Hq. done.
  - intros (kw & ws1 & sep & ws2 & q & v & post & -> & Hkw & Hsep & Hq & Hw1 & Hw2 & Hlen & Hv).
    rewrite after_prefix_app by done. rewrite (str_lstrip_app ws1) by (try apply sep_no_lead; done).
    rewrite after_prefix_app by done.
    destruct v as [|c v]; [done|]. pose proof Hv as Hv'. simpl in Hv'. apply andb_true_iff in Hv' as [Hc _].
    destruct (value_char_free c Hc) as (Hsp & Hnq & Hnd).
    rewrite (str_lstrip_app ws2) by (try done; rewrite !elem_of_cons, elem_of_nil in Hq;
      destruct Hq as [->|[->|[->|[]]]]; simpl; by rewrite ?Hsp).
    assert (drop_quote (q ++ String c v ++ post) = String c v ++ post) as ->.
    { rewrite !elem_of_cons, elem_of_nil in Hq. destruct Hq as [->|[->|[->|[]]]]; simpl.
      - rewrite decide_False; [done|]. by intros [?|?].
      - done.
      - done. }
    by apply value_run_app.
Qed.

(** The one-pass scan of a prompt decides the secret pattern: it reports a text
    exactly when some keyword is followed by a separator, blanks and an optional quote
    around it, and six value characters, as the regular expression says. *)
Lemma secret_search_iff s : secret_search s = true ↔ secret_match s.
Proof.
  unfold secret_match. split.
  - induction s as [|c s IH]; cbn [secret_search]; rewrite orb_true_iff; intros [H|H]; try done.
    + apply secret_here_iff in H. destruct H as (kw & H). by exists "", kw.
    + destruct (IH H) as (pre & kw & ws1 & sep & ws2 & q & v & post & -> & H').
      by exists (String c pre), kw, ws1, sep, ws2, q, v, post.
  - intros (pre & H). induction pre as [|c pre IH] in s, H |- *.
    + assert (secret_here s = true) as Hs by (apply secret_here_iff; exact H).
      destruct s; cbn [secret_search]; by rewrite Hs.
    + destruct H as (kw & ws1 & sep & ws2 & q & v & post & -> & H).
      cbn [secret_search String.append]. apply orb_true_iff. right. apply IH.
      by exists kw, ws1, sep, ws2, q, v, post.
Qed.

(** ** Loading a prompt *)

(** A path component the store accepts. *)
Definition clean_component (c : string) : Prop :=
  c ≠ "" ∧ (∀ p, p ∈ forbidden_patterns → str_in p c = false) ∧
  ∀ a r, c ≠ String a (String (Ascii.ascii_of_N 58) r).

Lemma traverse_check_ok {A} (P : A → bool) (msg : A → string) l :
  (∃ u, traverse (λ a, check (P a) (msg a)) l = Ok u) ↔ ∀ a, a ∈ l → P a = true.
Proof.
  induction l as [|a l IH]; simpl.
  - split; [intros _ a Ha; by apply elem_of_nil in Ha|by eexists].
  - unfold check at 1, value_error. destruct (P a) eqn:Ha; simpl.
    + split.
      * intros (u & Hu). destruct (traverse _ l) as [us|e] eqn:Ht; [|done].
        intros b [->|Hb]%elem_of_cons; [done|]. apply IH; [by eexists|done].
      * intros Hall. destruct (proj2 IH) as (us & Hus); [intros b Hb; apply Hall; by right|].
        rewrite Hus. by eexists.
    + split; [by intros (u & Hu)|]. intros Hall. specialize (Hall a ltac:(by left)). congruence.
Qed.

Lemma prefix_slash_in c : String.prefix "/" c = true → str_in "/" c = true.
Proof. destruct c; [done|]. cbn [str_in]. by intros ->. Qed.

Lemma validate_component_ok c name : _validate_path_component c name = Ok tt ↔ clean_component c.
Proof.
  unfold _validate_path_component, clean_component. rewrite rbind_ok. split.
  - intros ([] & Hne & H). apply rbind_ok in H as (us & Hus & H). apply check_ok in Hne, H.
    split; [intros ->; done|]. split.
    + intros p Hp. apply negb_true_iff. apply (proj1 (traverse_check_ok _ _ _) (ex_intro _ _ Hus) p Hp).
    + intros a r ->. apply negb_true_iff, orb_false_iff in H as [_ H]. by apply bool_decide_eq_false in H.
  - intros (Hne & Hpat & Habs). exists tt. split; [apply check_ok; unfold str_truth; by rewrite decide_False|].
    destruct (proj2 (traverse_check_ok (λ p, negb (str_in p c))
      (λ p, name ++ " contains forbidden pattern '" ++ p ++ "': " ++ c) forbidden_patterns)) as (us & Hus).
    { intros p Hp. by rewrite Hpat. }
    apply rbind_ok. exists us. split; [exact Hus|]. apply check_ok, negb_true_iff, orb_false_iff. split.
    + apply not_true_iff_false. intros Hs%prefix_slash_in. rewrite Hpat in Hs; [done|set_solver].
    + destruct c as [|a [|b r]]; [done|done|]. apply bool_decide_eq_false. intros ->. by apply (Habs a r).
Qed.

Lemma load_hash prompt_path aid ver h c : load prompt_path aid ver h = Ok c → sha256_hex c = h.
Proof.
  unfold load. intros H. apply rbind_ok in H as ([] & _ & H). apply rbind_ok in H as ([] & _ & H).
  destruct (prompt_path aid ver) as [| | |bytes]; try done. apply rbind_ok in H as (? & Hh & H).
  case_decide as Hhash; [done|]. apply rbind_ok in H as (? & _ & H). apply rbind_ok in H as (? & _ & H).
  by injection H as <-.
Qed.

Lemma load_text prompt_path aid ver h c :
  load prompt_path aid ver h = Ok c → ∃ bytes, prompt_path aid ver = PromptText bytes.
Proof.
  unfold load. intros H. apply rbind_ok in H as ([] & _ & H). apply rbind_ok in H as ([] & _ & H).
  destruct (prompt_path aid ver) as [| | |bytes]; try done. by exists bytes.
Qed.

(** C38: a prompt is handed to an agent exactly when both path components are clean, the
    file resolves inside the prompt directory, and its text, after newline translation,
    has the expected SHA-256, holds every required section and matches no secret
    pattern in any letter case; the text returned is that text. *)
Theorem load_iff prompt_path aid ver h c :
  load prompt_path aid ver h = Ok c ↔
  clean_component aid ∧ clean_component ver ∧
  ∃ bytes, prompt_path aid ver = PromptText bytes ∧ c = universal_newlines bytes ∧
    sha256_hex c = h ∧ (∀ s, s ∈ REQUIRED_SECTIONS → str_in s c = true) ∧
    ¬ secret_match (str_lower c).
Proof.
  unfold load.
  assert (Hsec : ∀ d, missing_sections d = [] ↔ ∀ s, s ∈ REQUIRED_SECTIONS → str_in s d = true).
  { intros d. unfold missing_sections. split.
    - intros Hn s Hs. apply not_false_iff_true. intros Hf.
      apply (not_elem_of_nil s). rewrite <- Hn. by apply list_elem_of_filter.
    - intros Hall. apply elem_of_nil_inv. intros s [Hf Hs]%list_elem_of_filter.
      rewrite Hall in Hf; done. }
  split.
  - intros H. apply rbind_ok in H as ([] & Ha & H). apply rbind_ok in H as ([] & Hv & H).
    apply validate_component_ok in Ha, Hv.
    split; [done|]. split; [done|]. destruct (prompt_path aid ver) as [| | |bytes]; try done.
    exists bytes. split; [done|]. apply rbind_ok in H as (? & Hh & H).
    case_decide as Hhash; [done|].
    apply rbind_ok in H as (? & Hs & H). apply rbind_ok in H as (? & Hk & H). injection H as <-.
    split; [done|]. split; [done|]. unfold _validate_sections, _check_secrets in *. split.
    + apply Hsec. by destruct (missing_sections _).
    + intros Hm%secret_search_iff. by rewrite Hm in Hk.
  - intros (Ha & Hv & bytes & Hp & -> & <- & Hs%Hsec & Hk).
    apply rbind_ok. exists tt. split; [by apply validate_component_ok|].
    apply rbind_ok. exists tt. split; [by apply validate_component_ok|].
    rewrite Hp, decide_False by (intros Hx; by apply Hx). simpl. unfold _validate_sections, _check_secrets.
    rewrite Hs. simpl. destruct (secret_search _) eqn:Hm; [|done]. by apply secret_search_iff in Hm.
Qed.

(** A prompt whose recorded hash is that of the file's bytes does not load once its
    lines end in CR LF: the store hashes the translated text. *)
Example crlf_prompt_refused :
  let bytes := "## Purpose" ++ String cr (String lf "body") in
  load (λ _ _, PromptText bytes) "A01" "v1" (sha256_hex bytes) =
  Raise (Exn PromptIntegrityError
    ("Prompt hash mismatch for A01/v1: expected " ++ sha256_hex bytes ++ ", got " ++
     sha256_hex ("## Purpose" ++ String lf "body"))).
Proof. vm_compute. reflexivity. Qed.

(** ** Prompt references *)

(** The prompt reference parser and the reference format are inverse: a reference
    parses to an agent and a version exactly when it is [agent://agent/system/version]
    with both parts non-empty and free of slashes. *)
Theorem parse_system_prompt_reference_iff ref a v :
  parse_system_prompt_reference ref = Ok (a, v) ↔
  ref = "agent://" ++ a ++ "/system/" ++ v ∧ a ≠ "" ∧ v ≠ "" ∧
  str_has slash a = false ∧ str_has slash v = false.
Proof.
  unfold parse_system_prompt_reference. split.
  - destruct (strip_prefix "agent://" ref) as [r|] eqn:Hp; [|done].
    apply strip_prefix_Some in Hp as ->. destruct (str_split slash r) as [|p [|q [|w [|]]]] eqn:Hs; try done.
    apply str_split_cons in Hs as (Hp & r1 & -> & Hs). apply str_split_cons in Hs as (_ & r2 & -> & Hs).
    apply str_split_cons in Hs as (Hw & ->). case_decide as Hq; [done|]. subst q.
    destruct (str_truth p && str_truth w) eqn:Ht; [|done]. intros [= <- <-].
    apply andb_true_iff in Ht as [Ht1 Ht2].
    split; [done|]. split; [intros ->; done|]. split; [intros ->; done|done].
  - intros (-> & Ha & Hv & Hsa & Hsv). rewrite strip_prefix_app.
    change ("/system/" ++ v) with (String slash ("system" ++ String slash v)).
    rewrite str_split_app, str_split_app, str_split_free by done. rewrite decide_False by (intros Hx; by apply Hx).
    unfold str_truth. by rewrite !decide_False.
Qed.
