(* ===== verification/Tools.v ===== *)
(** * Tools and review subagents

    [agents/tool_registry.py] and [agents/review_subagent.py]: the tool catalogue with
    its allow-list check, the narrower gate for review subagents, and the coordinator
    that bounds the reviews of one run. *)

From S2P Require Import Prelude PyText PyLines Enums Errors Tables WorkflowsConfig Agents.
Open Scope string_scope.
Open Scope Z_scope.

(** ** The catalogue *)

Record ToolDefinition := {
  tl_tool_id : string;
  tl_side_effect_class : SideEffectClass;
  tl_description : string
}.

Definition REVIEW_ALLOWED_NONE_TOOLS : list string :=
  ["workflow.inspect"; "configuration.read"; "database.read"; "provider.check_openai";
   "provider.check_anthropic"; "provider.check_notion"; "provider.check_etsy"].
Definition REVIEW_PERMITTED_SIDE_EFFECTS : list SideEffectClass :=
  [SideEffectClass.NONE; SideEffectClass.EXTERNAL_READ].

Definition tool (i : string) (c : SideEffectClass) (d : string) : ToolDefinition :=
  {| tl_tool_id := i; tl_side_effect_class := c; tl_description := d |}.

Definition CANONICAL_TOOLS : list ToolDefinition :=
  [tool "job.create" SideEffectClass.NONE "Create a typed successor job";
   tool "workflow.inspect" SideEffectClass.NONE "Read workflow state and history";
   tool "job.retry" SideEffectClass.NONE "Requeue a failed job within retry policy";
   tool "configuration.read" SideEffectClass.NONE "Read shop and agent configuration";
   tool "database.read" SideEffectClass.NONE "Query durable orchestration state";
   tool "database.write_orchestration" SideEffectClass.NONE "Write orchestration-only workflow and job state";
   tool "provider.check_openai" SideEffectClass.EXTERNAL_READ "Test OpenAI connection without credential exposure";
   tool "provider.check_anthropic" SideEffectClass.EXTERNAL_READ "Test Anthropic connection without credential exposure";
   tool "provider.check_notion" SideEffectClass.EXTERNAL_READ "Test Notion connection without credential exposure";
   tool "provider.check_etsy" SideEffectClass.EXTERNAL_READ "Test Etsy connection without credential exposure";
   tool "provider.provision_workspace" SideEffectClass.EXTERNAL_WRITE "Create provider workspace resources when holder authorized";
   tool "database.write_accounts" SideEffectClass.NONE "Persist integration readiness status";
   tool "incident.create" SideEffectClass.NONE "Create a structured incident record";
   tool "etsy.read_listing" SideEffectClass.EXTERNAL_READ "Read one Etsy listing";
   tool "etsy.search_listings" SideEffectClass.EXTERNAL_READ "Search Etsy listings for research";
   tool "browser.navigate" SideEffectClass.EXTERNAL_READ "Navigate browser read-only";
   tool "storage.write_blob" SideEffectClass.NONE "Persist research capture blob";
   tool "etsy.purchase_listing" SideEffectClass.EXTERNAL_SPEND "Purchase competitor listing for teardown";
   tool "notion.create_page" SideEffectClass.EXTERNAL_WRITE "Create Notion page";
   tool "notion.upload_asset" SideEffectClass.EXTERNAL_WRITE "Upload asset to Notion";
   tool "notion.update_page" SideEffectClass.EXTERNAL_WRITE "Update Notion page";
   tool "notion.link_publish" SideEffectClass.EXTERNAL_WRITE "Publish Notion variant links";
   tool "notion.read_page" SideEffectClass.EXTERNAL_READ "Read Notion page content";
   tool "notion.read_links" SideEffectClass.EXTERNAL_READ "Read Notion link targets";
   tool "renderer.generate_asset" SideEffectClass.NONE "Generate deterministic local render artifact";
   tool "etsy.read_draft" SideEffectClass.EXTERNAL_READ "Read Etsy draft listing";
   tool "etsy.publish_listing" SideEffectClass.EXTERNAL_WRITE "Publish Etsy listing";
   tool "etsy.update_listing" SideEffectClass.EXTERNAL_WRITE "Update Etsy listing";
   tool "etsy.deactivate_listing" SideEffectClass.EXTERNAL_WRITE "Deactivate Etsy listing";
   tool "etsy.upload_media" SideEffectClass.EXTERNAL_WRITE "Upload Etsy listing media";
   tool "etsy.read_shop_stats" SideEffectClass.EXTERNAL_READ "Read Etsy shop statistics";
   tool "etsy.list_transactions" SideEffectClass.EXTERNAL_READ "List Etsy shop transactions";
   tool "etsy.read_messages" SideEffectClass.EXTERNAL_READ "Read Etsy messages";
   tool "etsy.send_message" SideEffectClass.EXTERNAL_MESSAGE "Send Etsy customer message"].

(** ** [ToolRegistry] *)

(** A mapping as the handlers return it, in insertion order. *)
Abbreviation mapping := (list (string * json)).

(** A handler called with [tool_id], [agent_id] and further keyword arguments. *)
Abbreviation ToolHandler := (string → string → mapping → result exn mapping).

Record ToolRegistry := {
  tr_definitions : gmap string ToolDefinition;
  tr_handlers : gmap string ToolHandler
}.

Definition _simulated_handler : ToolHandler := λ tool_id _ _,
  Ok [("tool_id", JStr tool_id); ("simulated", JBool true); ("status", JStr "ok")].

Definition register (definition : ToolDefinition) (handler : ToolHandler) (r : ToolRegistry)
    : ToolRegistry :=
  {| tr_definitions := <[tl_tool_id definition := definition]> (tr_definitions r);
     tr_handlers := <[tl_tool_id definition := handler]> (tr_handlers r) |}.

Definition canonical : ToolRegistry :=
  foldl (λ r d, register d _simulated_handler r) {| tr_definitions := ∅; tr_handlers := ∅ |}
    CANONICAL_TOOLS.

(** [str] of a [KeyError] is the [repr] of its argument. *)
Definition get_tool (r : ToolRegistry) (tool_id : string) : result exn ToolDefinition :=
  match tr_definitions r !! tool_id with
  | Some d => Ok d
  | None => Raise (Exn ToolNotFoundError (str_repr ("Unknown tool: " ++ tool_id)))
  end.

Definition known_tool_ids (r : ToolRegistry) : gset string := dom (tr_definitions r).

(** [{**m, k: v}] *)
Definition dict_set (k : string) (v : json) (m : mapping) : mapping :=
  if existsb (λ kv, bool_decide (kv.1 = k)) m
  then (λ kv, if decide (kv.1 = k) then (k, v) else kv) <$> m
  else m ++ [(k, v)].

Definition list_repr_sorted (s : gset string) : string :=
  "[" ++ String.concat ", " (str_repr <$> merge_sort (λ a b, String.leb a b = true) (elements s)) ++ "]".

(** [AgentRegistry.validate_tool_allowlists]: the first agent, in id order, that
    names a tool which is not known. *)
Definition validate_tool_allowlists (registry : AgentRegistry) (known : gset string) : result exn unit :=
  do? traverse (λ d,
        let unknown := list_to_set (ad_allowed_tools d) ∖ known in
        if decide (unknown = ∅) then Ok tt
        else Raise (Exn AgentRegistryError ("agent " ++ ad_agent_id d ++ " references unknown tools: " ++
               list_repr_sorted unknown)))
      (roster registry);
  Ok tt.

Definition invoke (r : ToolRegistry) (tool_id : string) (allowed_tools : gset string)
    (agent_id : string) (kwargs : mapping) : result exn mapping :=
  if decide (tool_id ∉ allowed_tools) then
    Raise (Exn ToolPermissionError ("Agent " ++ agent_id ++ " is not allowed to invoke tool '" ++
      tool_id ++ "'. Allowed: " ++ list_repr_sorted allowed_tools))
  else
    let? definition := get_tool r tool_id in
    match tr_handlers r !! tool_id with
    | None => Raise (Exn ToolNotFoundError (str_repr ("No handler registered for tool: " ++ tool_id)))
    | Some handler =>
        let? res := handler tool_id agent_id kwargs in
        Ok (dict_set "side_effect_class"
          (JStr (SideEffectClass.SideEffectClass_value (tl_side_effect_class definition))) res)
    end.

Definition invoke_for_review (r : ToolRegistry) (tool_id : string) (allowed_tools : gset string)
    (agent_id : string) (kwargs : mapping) : result exn mapping :=
  if decide (tool_id ∉ allowed_tools) then
    Raise (Exn ToolPermissionError ("Agent " ++ agent_id ++ " is not allowed to invoke tool '" ++
      tool_id ++ "' during review. Allowed: " ++ list_repr_sorted allowed_tools))
  else
    let? definition := get_tool r tool_id in
    let c := tl_side_effect_class definition in
    if decide (c ∉ REVIEW_PERMITTED_SIDE_EFFECTS) then
      Raise (Exn ToolPermissionError ("Review subagent for agent " ++ agent_id ++
        " cannot invoke mutating tool '" ++ tool_id ++ "' (side_effect_class=" ++
        SideEffectClass.SideEffectClass_value c ++ ")"))
    else if decide (c = SideEffectClass.NONE ∧ tool_id ∉ REVIEW_ALLOWED_NONE_TOOLS) then
      Raise (Exn ToolPermissionError ("Review subagent for agent " ++ agent_id ++
        " cannot invoke write tool '" ++ tool_id ++ "' during review"))
    else invoke r tool_id allowed_tools agent_id kwargs.

(** ** [ReviewSubagentCoordinator] *)

Definition DEFAULT_MAX_REVIEWS_PER_JOB : Z := 3.
Definition DEFAULT_MAX_TOKENS_PER_REVIEW : Z := 4096.

Record ReviewSubagentBounds := {
  rb_max_reviews_per_job : Z;
  rb_max_tokens_per_review : Z
}.

Definition bounds_from_definition (d : AgentDefinition) : ReviewSubagentBounds :=
  let per_review_timeout := Z.max 1 (ad_timeout_seconds d / DEFAULT_MAX_REVIEWS_PER_JOB) in
  {| rb_max_reviews_per_job := DEFAULT_MAX_REVIEWS_PER_JOB;
     rb_max_tokens_per_review := Z.min DEFAULT_MAX_TOKENS_PER_REVIEW (per_review_timeout * 32) |}.

Record ReviewSubagentRequest := {
  rq_specialist_role : string;
  rq_subject_summary : string;
  rq_review_prompt : string
}.

(** What [LLMProvider.complete_structured] returns for a review: the structured content,
    the model name and the token count. *)
Record ReviewResponse := {
  rr_content : json;
  rr_model : option string;
  rr_total_tokens : option Z
}.

Record ReviewSubagentArtifact := {
  ra_review_number : Z;
  ra_specialist_role : string;
  ra_result : json;
  ra_model : option string;
  ra_token_count : option Z
}.

(** The mutable fields of the coordinator. *)
Record ReviewState := {
  rv_review_count : Z;
  rv_artifacts : list ReviewSubagentArtifact
}.

Definition no_reviews : ReviewState := {| rv_review_count := 0; rv_artifacts := [] |}.

Section coordinator.
Context (job_id : uuid) (agent_id : string) (allowed_tools : gset string)
  (tool_registry : ToolRegistry) (bounds : ReviewSubagentBounds).

(** The two messages and the prompt version of the provider call. *)
Definition review_messages (request : ReviewSubagentRequest) : list (string * string) :=
  let nl := String lf EmptyString in
  [("system", "You are a bounded internal review specialist. " ++
              "Return structured findings and a verdict only. " ++
              "Do not mutate external providers.");
   ("user", "Specialist role: " ++ rq_specialist_role request ++ nl ++
            "Subject: " ++ rq_subject_summary request ++ nl ++
            "Review focus:" ++ nl ++ rq_review_prompt request)].

Definition request_review
    (complete_structured : list (string * string) → string → result exn ReviewResponse)
    (request : ReviewSubagentRequest) : M ReviewState exn ReviewSubagentArtifact :=
  let* count := gets rv_review_count in
  if rb_max_reviews_per_job bounds <=? count then
    pyraise (Exn ReviewSubagentBudgetError ("review budget exhausted for job " ++ uuid_str job_id ++
      ": max " ++ pretty (rb_max_reviews_per_job bounds) ++ " reviews per job"))
  else
    let* response := lift_result (complete_structured (review_messages request)
                                    ("review:" ++ rq_specialist_role request)) in
    do* match rr_total_tokens response with
        | Some n =>
            if rb_max_tokens_per_review bounds <? n then
              pyraise (Exn ReviewSubagentBudgetError ("review token budget exceeded for job " ++
                uuid_str job_id ++ ": " ++ pretty n ++ " > " ++
                pretty (rb_max_tokens_per_review bounds)))
            else pyret tt
        | None => pyret tt
        end;
    let artifact := {| ra_review_number := count + 1; ra_specialist_role := rq_specialist_role request;
      ra_result := rr_content response; ra_model := rr_model response;
      ra_token_count := rr_total_tokens response |} in
    do* modify (λ s, {| rv_review_count := count + 1; rv_artifacts := rv_artifacts s ++ [artifact] |});
    pyret artifact.

Definition invoke_review_tool (tool_id : string) (kwargs : mapping) : result exn mapping :=
  match invoke_for_review tool_registry tool_id allowed_tools agent_id kwargs with
  | Ok m => Ok m
  | Raise e =>
      if isa (exn_type e) ToolPermissionError || isa (exn_type e) ToolNotFoundError
      then Raise (Exn ReviewSubagentMutationError (exn_message e))
      else Raise e
  end.
End coordinator.

(** ** Tools *)

Definition tool_class (r : ToolRegistry) (tool_id : string) : option SideEffectClass :=
  tl_side_effect_class <$> tr_definitions r !! tool_id.

(** Tools that are registered together with a handler that answers. *)
Definition total_handlers (r : ToolRegistry) : Prop :=
  ∀ t, is_Some (tr_definitions r !! t) →
    ∃ h, tr_handlers r !! t = Some h ∧ ∀ a k, ∃ m, h t a k = Ok m.

(** The gate of a review, as a predicate. *)
Definition review_permitted (r : ToolRegistry) (allowed : gset string) (tool_id : string) : Prop :=
  tool_id ∈ allowed ∧
  (tool_class r tool_id = Some SideEffectClass.EXTERNAL_READ ∨
   tool_class r tool_id = Some SideEffectClass.NONE ∧ tool_id ∈ REVIEW_ALLOWED_NONE_TOOLS).

Lemma permitted_effects c : c ∈ REVIEW_PERMITTED_SIDE_EFFECTS ↔
  c = SideEffectClass.NONE ∨ c = SideEffectClass.EXTERNAL_READ.
Proof. unfold REVIEW_PERMITTED_SIDE_EFFECTS. set_solver. Qed.

Lemma invoke_for_review_ok r t allowed a k m :
  invoke_for_review r t allowed a k = Ok m → review_permitted r allowed t.
Proof.
  unfold invoke_for_review, review_permitted, tool_class, get_tool. case_decide as Ht; [done|].
  destruct (tr_definitions r !! t) as [d|]; simpl; [|done].
  case_decide as Hc; [done|]. apply permitted_effects in Hc.
  case_decide as Hn; [done|]. intros _. split; [done|].
  destruct Hc as [Hc|Hc]; rewrite Hc in *; [right|by left].
  split; [done|]. destruct (decide (t ∈ REVIEW_ALLOWED_NONE_TOOLS)); [done|]. by destruct Hn.
Qed.

Lemma invoke_for_review_runs r t allowed a k :
  total_handlers r → review_permitted r allowed t → ∃ m, invoke_for_review r t allowed a k = Ok m.
Proof.
  intros Htot [Hin Hc]. unfold invoke_for_review, invoke, get_tool, tool_class in *.
  rewrite !decide_False by (intros Hx; by apply Hx).
  destruct (tr_definitions r !! t) as [d|] eqn:Hd; [|by destruct Hc as [|[]]].
  destruct (Htot t) as (h & Hh & Hok); [by eexists|]. simpl. rewrite decide_False.
  2: { intros Hx. apply Hx, permitted_effects. destruct Hc as [[= ->]|[[= ->] _]]; auto. }
  rewrite decide_False.
  2: { intros [E Hx]. destruct Hc as [[= Hc]|[_ Hc]]; [congruence|done]. }
  rewrite Hh. destruct (Hok a k) as (m & ->). by eexists.
Qed.

Lemma invoke_for_review_raises r t allowed a k e :
  total_handlers r → invoke_for_review r t allowed a k = Raise e →
  exn_type e = ToolPermissionError ∨ exn_type e = ToolNotFoundError.
Proof.
  intros Htot. unfold invoke_for_review, invoke, get_tool. case_decide; [intros [= <-]; by left|].
  destruct (tr_definitions r !! t) as [d|] eqn:Hd; simpl; [|intros [= <-]; by right].
  case_decide; [intros [= <-]; by left|]. case_decide; [intros [= <-]; by left|].
  destruct (Htot t) as (h & -> & Hok); [by eexists|]. by destruct (Hok a k) as (m & ->).
Qed.

Lemma canonical_total : total_handlers canonical.
Proof.
  unfold canonical. generalize CANONICAL_TOOLS. intros l.
  assert (H : ∀ t, is_Some (tr_definitions (foldl (λ r d, register d _simulated_handler r)
      {| tr_definitions := ∅; tr_handlers := ∅ |} l) !! t) →
    tr_handlers (foldl (λ r d, register d _simulated_handler r)
      {| tr_definitions := ∅; tr_handlers := ∅ |} l) !! t = Some _simulated_handler).
  { induction l as [|d l IH] using rev_ind; intros t; [by intros [? ?]|].
    rewrite foldl_snoc. cbn [register tr_definitions tr_handlers].
    destruct (decide (tl_tool_id d = t)) as [<-|Hne]; [by rewrite !lookup_insert_eq|].
    rewrite !lookup_insert_ne by done. apply IH. }
  intros t Ht. exists _simulated_handler. split; [by apply H|]. intros a k. by eexists.
Qed.

(** Of the tools on the review list three are internal; the others are external reads. *)
Lemma review_permitted_canonical allowed t :
  review_permitted canonical allowed t ↔
  t ∈ allowed ∧ (tool_class canonical t = Some SideEffectClass.EXTERNAL_READ ∨
                 t ∈ ["workflow.inspect"; "configuration.read"; "database.read"]).
Proof.
  unfold review_permitted. apply and_iff_compat_l.
  assert (Hlist : ∀ t, t ∈ REVIEW_ALLOWED_NONE_TOOLS → tool_class canonical t = Some SideEffectClass.NONE ↔
    t ∈ ["workflow.inspect"; "configuration.read"; "database.read"]).
  { assert (Hb : forallb (λ t, Bool.eqb (bool_decide (tool_class canonical t = Some SideEffectClass.NONE))
      (bool_decide (t ∈ ["workflow.inspect"; "configuration.read"; "database.read"])))
      REVIEW_ALLOWED_NONE_TOOLS = true) by (vm_compute; reflexivity).
    rewrite forallb_elem_of in Hb. intros u Hu. specialize (Hb u Hu). apply Bool.eqb_prop in Hb.
    split; intros Hx; [apply (bool_decide_eq_true _); rewrite <- Hb|
      apply (bool_decide_eq_true _); rewrite Hb]; by apply bool_decide_eq_true. }
  assert (Hsub : ∀ t, t ∈ ["workflow.inspect"; "configuration.read"; "database.read"] →
    t ∈ REVIEW_ALLOWED_NONE_TOOLS) by (intros u; unfold REVIEW_ALLOWED_NONE_TOOLS; set_solver).
  split; intros [?|H]; auto.
  - right. apply Hlist; apply H.
  - right. split; [by apply Hlist; auto|auto].
Qed.

(** The allowlists pass exactly when every agent names known tools only; the registry
    refuses them as the runtime refuses an unknown agent. *)
Lemma validate_tool_allowlists_iff registry known :
  validate_tool_allowlists registry known = Ok tt ↔
  ∀ k d t, registry !! k = Some d → t ∈ ad_allowed_tools d → t ∈ known.
Proof.
  unfold validate_tool_allowlists. rewrite rbind_ok. split.
  - intros (us & Hus & _) k d t Hk Ht. apply traverse_Forall2 in Hus.
    assert (Hin : d ∈ roster registry) by (apply elem_of_roster; eauto).
    apply list_elem_of_lookup_1 in Hin as [i Hi].
    destruct (Forall2_lookup_l _ _ _ _ _ Hus Hi) as (u & _ & Hu). cbv beta zeta in Hu.
    case_decide as He; [|done]. set_solver.
  - intros Hall. exists (replicate (length (roster registry)) tt). split; [|done].
    apply traverse_Forall2, Forall2_replicate_r; [done|]. apply Forall_forall. intros d Hd.
    apply elem_of_roster in Hd as (k & Hk). cbv beta zeta. unfold flip. rewrite decide_True; [done|].
    apply set_eq. intros t. specialize (Hall k d t Hk). set_solver.
Qed.

(** A review subagent can only read.  A review tool call succeeds exactly when the
    owning agent is allowed the tool and the tool is an external read or one of the
    internal reads on the review list; every other call of the canonical catalogue is
    refused with [ReviewSubagentMutationError], whatever the arguments, so no write,
    spend or message tool is ever reached. *)
Theorem review_tools_read_only allowed a t k :
  (∃ m, invoke_review_tool a allowed canonical t k = Ok m) ∧
    t ∈ allowed ∧ (tool_class canonical t = Some SideEffectClass.EXTERNAL_READ ∨
                   t ∈ ["workflow.inspect"; "configuration.read"; "database.read"])
  ∨ (∃ m, invoke_review_tool a allowed canonical t k = Raise (Exn ReviewSubagentMutationError m)) ∧
    ¬ (t ∈ allowed ∧ (tool_class canonical t = Some SideEffectClass.EXTERNAL_READ ∨
                      t ∈ ["workflow.inspect"; "configuration.read"; "database.read"])).
Proof.
  setoid_rewrite <- review_permitted_canonical. unfold invoke_review_tool.
  destruct (invoke_for_review canonical t allowed a k) as [m|e] eqn:Hi.
  - left. split; [by eexists|]. by eapply invoke_for_review_ok.
  - right. split.
    + destruct (invoke_for_review_raises _ _ _ _ _ _ canonical_total Hi) as [-> | ->]; by eexists.
    + intros Hp. destruct (invoke_for_review_runs canonical t allowed a k canonical_total Hp) as (m & Hm).
      congruence.
Qed.

(** ** Reviews *)

(** A coordinator that has accepted [rv_review_count] reviews: they are numbered from
    one, fit the token bound and never exceed the review bound. *)
Record reviews_ok (b : ReviewSubagentBounds) (s : ReviewState) : Prop := {
  ro_count : rv_review_count s = Z.of_nat (length (rv_artifacts s));
  ro_bound : rv_review_count s <= Z.max 0 (rb_max_reviews_per_job b);
  ro_numbers : ∀ i x, rv_artifacts s !! i = Some x → ra_review_number x = Z.of_nat i + 1;
  ro_tokens : Forall (λ x, from_option (λ n, n <= rb_max_tokens_per_review b) True (ra_token_count x))
                (rv_artifacts s)
}.

Lemma request_review_ok jid b prov rq s :
  reviews_ok b s → reviews_ok b (request_review jid b prov rq s).2.
Proof.
  intros [Hc Hb Hn Ht]. unfold request_review, gets, pybind, lift_result.
  destruct (Z.leb_spec (rb_max_reviews_per_job b) (rv_review_count s)) as [Hle|Hlt]; [by split|].
  destruct (prov _ _) as [resp|e]; [|by split].
  assert (Hok : ∀ a, ra_review_number a = rv_review_count s + 1 →
    from_option (λ n, n <= rb_max_tokens_per_review b) True (ra_token_count a) →
    reviews_ok b {| rv_review_count := rv_review_count s + 1; rv_artifacts := rv_artifacts s ++ [a] |}).
  { intros a Ha Hta. split; simpl.
    - rewrite length_app. simpl. lia.
    - lia.
    - intros i x [Hi|[Hi Hx]]%lookup_app_Some; [by apply Hn|].
      destruct (i - length (rv_artifacts s))%nat eqn:Hk; simplify_eq/=. lia.
    - apply Forall_app. by repeat constructor. }
  destruct (rr_total_tokens resp) as [n|] eqn:Hr; [destruct (Z.ltb_spec (rb_max_tokens_per_review b) n)|].
  - by split.
  - by apply Hok.
  - by apply Hok.
Qed.

(** The requests of a run, each against its own provider answer; a refused request
    raises and the run goes on with the next. *)
Fixpoint run_reviews (jid : uuid) (b : ReviewSubagentBounds)
    (rs : list ((list (string * string) → string → result exn ReviewResponse) * ReviewSubagentRequest))
    (s : ReviewState) : ReviewState :=
  match rs with
  | [] => s
  | (prov, rq) :: rs => run_reviews jid b rs (request_review jid b prov rq s).2
  end.

(** Whatever a run requests and the provider answers, the recorded reviews stay
    within both budgets of the agent's definition: at most three reviews, numbered one
    by one, none with more tokens than the definition's timeout grants, and never more
    than 4096. *)
Theorem reviews_stay_bounded jid d rs :
  let b := bounds_from_definition d in
  let s := run_reviews jid b rs no_reviews in
  (length (rv_artifacts s) <= 3)%nat ∧
  (∀ i x, rv_artifacts s !! i = Some x → ra_review_number x = Z.of_nat i + 1) ∧
  Forall (λ x, from_option (λ n, n <= 4096 ∧ n <= 32 * Z.max 1 (ad_timeout_seconds d / 3)) True
             (ra_token_count x)) (rv_artifacts s).
Proof.
  intros b s. assert (Hok : reviews_ok b s).
  { unfold s. assert (reviews_ok b no_reviews) as H0 by (split; simpl; [done|lia|done|constructor]).
    revert H0. generalize no_reviews. induction rs as [|[prov rq] rs IH]; intros s0 H0; [done|].
    apply IH. by apply request_review_ok. }
  destruct Hok as [Hc Hb Hn Ht]. change (rb_max_reviews_per_job b) with 3 in Hb. split; [lia|]. split; [done|].
  change (rb_max_tokens_per_review b) with (Z.min 4096 (Z.max 1 (ad_timeout_seconds d / 3) * 32)) in Ht.
  eapply Forall_impl; [exact Ht|]. intros x. cbv beta. set (m := Z.max 1 _).
  destruct (ra_token_count x); cbn [from_option]; [lia|done].
Qed.

(** The review budget counts accepted reviews only.  A review whose answer costs
    more tokens than the bound is refused after the provider was called and leaves the
    coordinator as it was, so such calls can be repeated without limit. *)
Theorem costly_reviews_are_not_counted n jid b prov rq s tokens resp :
  rv_review_count s < rb_max_reviews_per_job b →
  (∀ ms v, prov ms v = Ok resp) → rr_total_tokens resp = Some tokens →
  rb_max_tokens_per_review b < tokens →
  run_reviews jid b (replicate n (prov, rq)) s = s ∧
  exn_type <$> (match request_review jid b prov rq s with (Raise e, _) => Some e | _ => None end) =
    Some ReviewSubagentBudgetError.
Proof.
  intros Hc Hp Ht Hb.
  assert (E : ∃ m, request_review jid b prov rq s = (Raise (Exn ReviewSubagentBudgetError m), s)).
  { unfold request_review, gets, pybind, lift_result. rewrite (proj2 (Z.leb_gt _ _)), Hp, Ht by lia.
    rewrite (proj2 (Z.ltb_lt _ _)) by lia. by eexists. }
  destruct E as (m & E). split; [|by rewrite E].
  induction n as [|n IH]; simpl; [done|]. by rewrite E.
Qed.

Lemma costly_reviews_are_not_counted_witness :
  let b := {| rb_max_reviews_per_job := 3; rb_max_tokens_per_review := 100 |} in
  let resp := {| rr_content := JDict []; rr_model := None; rr_total_tokens := Some 5000 |} in
  let rq := {| rq_specialist_role := "copy"; rq_subject_summary := "s"; rq_review_prompt := "p" |} in
  run_reviews 1%N b (replicate 1000 (λ _ _, Ok resp, rq)) no_reviews = no_reviews.
Proof.
  intros b resp rq.
  exact (proj1 (costly_reviews_are_not_counted 1000 1%N b (λ _ _, Ok resp) rq no_reviews 5000 resp
    eq_refl (λ _ _, eq_refl) eq_refl eq_refl)).
Defined.
