(* ===== verification/Evolution.v ===== *)
(** * How the database may evolve

    The contract every orchestration operation keeps, in two parts.

    [db_ok] is the invariant of a database at rest: the schema's unique and check
    constraints, and of every job that a lease is held exactly while it runs and
    that a job which may still execute has an attempt left.

    [db_evolves] relates two databases: job rows are never deleted and move only
    along the job transition table, their immutable columns stay, attempts and
    versions never decrease, rows that appear were inserted as fresh [PENDING]
    jobs, events and receipts are append-only, reservations keep their key, and
    workflows move along the product table.

    [contract] says that from an [db_ok] database the operation reaches an
    [db_ok] database it evolves to.  It is a preorder, so it composes over
    sequences, loops and handlers; each component proves [within contract] of
    its operations. *)

From S2P Require Import Prelude PyText Enums Errors TransitionGuard Tables.
Open Scope Z_scope.
Import JobStatus.

(** ** Jobs *)

(** The columns no operation assigns. *)
Definition job_envelope (j : Job) :=
  (j_workflow_id j, j_type j, j_object_type j, j_object_id j, j_owner_agent_id j, j_input j,
   j_success_contract j, j_max_attempts j, j_idempotency_key j, j_side_effect_class j,
   j_retry_class j, j_allowed_mode j, j_created_at j).

(** A lease is held exactly while the job runs. *)
Definition lease_consistent (j : Job) : Prop :=
  if decide (j_status j = RUNNING)
  then is_Some (j_lease_owner j) ∧ is_Some (j_lease_expires_at j) ∧ is_Some (j_heartbeat_at j)
  else j_lease_owner j = None ∧ j_lease_expires_at j = None ∧ j_heartbeat_at j = None.

(** A job that may still execute has an attempt left. *)
Definition within_budget (j : Job) : Prop :=
  0 <= j_attempt j <= j_max_attempts j ∧ 0 < j_max_attempts j ∧
  (j_status j ∈ [PENDING; READY; RUNNING] → j_attempt j < j_max_attempts j).

Definition job_wf (j : Job) : Prop := lease_consistent j ∧ within_budget j.

#[export] Instance lease_consistent_dec j : Decision (lease_consistent j).
Proof. unfold lease_consistent. destruct (decide _); apply _. Defined.
#[export] Instance within_budget_dec j : Decision (within_budget j).
Proof. unfold within_budget. apply _. Defined.
#[export] Instance job_wf_dec j : Decision (job_wf j).
Proof. unfold job_wf. apply _. Defined.

Record job_evolves (j j' : Job) : Prop := {
  je_envelope : job_envelope j' = job_envelope j;
  je_status : rtc job_edge (j_status j) (j_status j');
  je_attempt : j_attempt j <= j_attempt j';
  je_version : j_version j <= j_version j'
}.

#[export] Instance job_evolves_preorder : PreOrder job_evolves.
Proof.
  split.
  - intros j. split; try done; lia.
  - intros j1 j2 j3 [] []. split; [congruence|by etrans|lia|lia].
Qed.

(** A job as the factories insert it. *)
Definition fresh_job (j : Job) : Prop :=
  j_status j = PENDING ∧ j_attempt j = 0 ∧ 0 < j_max_attempts j ∧ j_lease_owner j = None ∧
  j_lease_expires_at j = None ∧ j_heartbeat_at j = None.

Lemma fresh_job_wf j : fresh_job j → job_wf j.
Proof.
  intros (Hs & Ha & Hm & ? & ? & ?). unfold job_wf, lease_consistent, within_budget.
  rewrite Hs. split; [by rewrite decide_False|]. lia.
Qed.

(** The lease columns follow the status. *)
Lemma lease_held_running j w : job_wf j → j_lease_owner j = Some w → j_status j = RUNNING.
Proof.
  intros [Hl _] Hw. unfold lease_consistent in Hl. case_decide; [done|].
  destruct Hl as [Hn _]. congruence.
Qed.

Lemma lease_free j : job_wf j → j_status j ≠ RUNNING →
  j_lease_owner j = None ∧ j_lease_expires_at j = None ∧ j_heartbeat_at j = None.
Proof. intros [Hl _] Hs. unfold lease_consistent in Hl. by rewrite decide_False in Hl. Qed.

Lemma lease_idle j :
  j_status j ≠ RUNNING → j_lease_owner j = None → j_lease_expires_at j = None →
  j_heartbeat_at j = None → lease_consistent j.
Proof. intros. unfold lease_consistent. by rewrite decide_False. Qed.

Lemma lease_running j w t h :
  j_status j = RUNNING → j_lease_owner j = Some w → j_lease_expires_at j = Some t →
  j_heartbeat_at j = Some h → lease_consistent j.
Proof. intros Hs Hw Ht Hh. unfold lease_consistent. rewrite decide_True, Hw, Ht, Hh by done. eauto. Qed.

(** ** Databases *)

(** No two rows share a unique key. *)
Definition unique_key {A} (key : A → string) (t : gmap uuid A) : Prop :=
  ∀ i1 i2 a1 a2, t !! i1 = Some a1 → t !! i2 = Some a2 → key a1 = key a2 → i1 = i2.

Definition job_ok (j : Job) : Prop := job_wf j ∧ job_check j = true.

Record db_ok (db : DB) : Prop := {
  ok_events : unique_key ev_dedupe_key (events db);
  ok_reservations : unique_key idem_key (idempotency_records db);
  ok_keys : unique_key j_idempotency_key (jobs db);
  ok_triggers : unique_key trig_key (scheduled_triggers db);
  ok_jobs : map_Forall (λ _ j, job_ok j) (jobs db);
  ok_owner : map_Forall (λ _ j, is_Some (workflow_runs db !! j_workflow_id j)) (jobs db)
}.

Record workflow_evolves (w w' : WorkflowRun) : Prop := {
  we_shop : wf_shop_id w' = wf_shop_id w;
  we_state : rtc product_edge (wf_product_state w) (wf_product_state w');
  we_completed : is_Some (wf_completed_at w) → is_Some (wf_completed_at w')
}.

#[export] Instance workflow_evolves_preorder : PreOrder workflow_evolves.
Proof.
  split; [intros w; by split|].
  intros w1 w2 w3 [] []. split; [congruence|by etrans|auto].
Qed.

(** Reservations keep their key and owner. *)
Definition same_reservation (r r' : IdempotencyRecord) : Prop :=
  idem_key r' = idem_key r ∧ idem_job_id r' = idem_job_id r.

#[export] Instance same_reservation_preorder : PreOrder same_reservation.
Proof. split; [by intros r; split|]. intros r1 r2 r3 [] []. split; congruence. Qed.

(** Rows related pairwise by [R]; none disappears. *)
Definition rows_evolve {A} (R : relation A) (t t' : gmap uuid A) : Prop :=
  ∀ k a, t !! k = Some a → ∃ a', t' !! k = Some a' ∧ R a a'.

Lemma rows_evolve_refl {A} (R : relation A) `{!Reflexive R} t : rows_evolve R t t.
Proof. intros k a Hk. eauto. Qed.

Lemma rows_evolve_trans {A} (R : relation A) `{!Transitive R} t1 t2 t3 :
  rows_evolve R t1 t2 → rows_evolve R t2 t3 → rows_evolve R t1 t3.
Proof.
  intros H12 H23 k a Hk. destruct (H12 k a Hk) as (b & Hb & Hab).
  destruct (H23 k b Hb) as (c & Hc & Hbc). exists c. split; [done|by etrans].
Qed.

Lemma rows_evolve_insert {A} (R : relation A) `{!Reflexive R} t k a :
  (∀ b, t !! k = Some b → R b a) → rows_evolve R t (<[k := a]> t).
Proof.
  intros HR i b Hi. destruct (decide (i = k)) as [->|].
  - exists a. split; [by rewrite lookup_insert_eq|auto].
  - exists b. split; [by rewrite lookup_insert_ne|done].
Qed.

(** Job rows that appear were inserted fresh. *)
Definition new_jobs_fresh (t t' : gmap uuid Job) : Prop :=
  ∀ k j', t !! k = None → t' !! k = Some j' → ∃ j0, fresh_job j0 ∧ job_evolves j0 j'.

Record db_evolves (db db' : DB) : Prop := {
  de_jobs : rows_evolve job_evolves (jobs db) (jobs db');
  de_new : new_jobs_fresh (jobs db) (jobs db');
  de_workflows : rows_evolve workflow_evolves (workflow_runs db) (workflow_runs db');
  de_events : events db ⊆ events db';
  de_receipts : receipts db ⊆ receipts db';
  de_reservations : rows_evolve same_reservation (idempotency_records db) (idempotency_records db')
}.

#[export] Instance db_evolves_preorder : PreOrder db_evolves.
Proof.
  split.
  - intros db. split; try (apply rows_evolve_refl; apply _); try done.
    intros k j' Hn Hs. congruence.
  - intros d1 d2 d3 [] []. split; try (by eapply rows_evolve_trans; [apply _|..]);
      try (by etrans); auto.
    intros k j' Hn Hs. destruct (jobs d2 !! k) as [j2|] eqn:H2; [|by eapply de_new1].
    destruct (de_new0 k j2 Hn H2) as (j0 & Hf & He).
    destruct (de_jobs1 k j2 H2) as (j3 & H3 & He'). simplify_eq.
    exists j0. split; [done|by etrans].
Qed.

Definition contract (db db' : DB) : Prop := db_ok db → db_ok db' ∧ db_evolves db db'.

#[export] Instance contract_preorder : PreOrder contract.
Proof.
  split.
  - intros db Hok. split; [done|reflexivity].
  - intros d1 d2 d3 H12 H23 Hok. destruct (H12 Hok) as [Hok2 He].
    destruct (H23 Hok2) as [Hok3 He']. split; [done|by etrans].
Qed.

#[global] Typeclasses Opaque contract.

(** ** The session primitives keep the contract *)

(** What an operation that leaves the jobs table alone has to show. *)
Lemma contract_no_jobs db db' :
  jobs db' = jobs db →
  rows_evolve workflow_evolves (workflow_runs db) (workflow_runs db') →
  events db ⊆ events db' → receipts db ⊆ receipts db' →
  rows_evolve same_reservation (idempotency_records db) (idempotency_records db') →
  (unique_key ev_dedupe_key (events db) → unique_key ev_dedupe_key (events db')) →
  (unique_key idem_key (idempotency_records db) →
    unique_key idem_key (idempotency_records db')) →
  (unique_key trig_key (scheduled_triggers db) →
    unique_key trig_key (scheduled_triggers db')) →
  contract db db'.
Proof.
  intros Hj Hw He Hr Hi Hue Hui Hut []. split; split; rewrite ?Hj; auto.
  - intros k j Hk. destruct (ok_owner0 k j Hk) as [w Hwk].
    destruct (Hw _ _ Hwk) as (w' & -> & _). done.
  - apply rows_evolve_refl. apply _.
  - intros k j' Hn Hs. congruence.
Qed.

Lemma unique_key_insert {A} (key : A → string) t k a :
  table_any t (λ b, bool_decide (key b = key a)) = false →
  unique_key key t → unique_key key (<[k := a]> t).
Proof.
  rewrite table_any_false. intros Hn Hu i1 i2 a1 a2 H1 H2 Hk.
  apply lookup_insert_Some in H1 as [[<- <-]|[? H1]];
    apply lookup_insert_Some in H2 as [[<- <-]|[? H2]]; try done; [| |by eauto].
  - specialize (Hn _ _ H2). apply bool_decide_eq_false in Hn. congruence.
  - specialize (Hn _ _ H1). apply bool_decide_eq_false in Hn. congruence.
Qed.

(** Rewriting a row without touching its unique column. *)
Lemma unique_key_update {A} (key : A → string) t t' :
  (∀ k a', t' !! k = Some a' → ∃ a, t !! k = Some a ∧ key a' = key a) →
  unique_key key t → unique_key key t'.
Proof.
  intros Hback Hu i1 i2 a1 a2 H1 H2 Hk.
  apply Hback in H1 as (b1 & H1 & E1). apply Hback in H2 as (b2 & H2 & E2).
  eapply Hu; [exact H1|exact H2|congruence].
Qed.

Ltac db_frame :=
  apply contract_no_jobs; simpl; try done; try (apply rows_evolve_refl; apply _).

Section primitives.
Context `{Backend}.

Lemma insert_event_contract e : within contract (insert_event e).
Proof.
  intros db. unfold insert_event. case_match eqn:Hc; simpl; [|reflexivity].
  rewrite !andb_true_iff, negb_true_iff in Hc. destruct Hc as [[Hk _] _].
  db_frame.
  - apply insert_subseteq. apply not_elem_of_dom, uuid4_fresh.
  - by apply unique_key_insert.
Qed.

Lemma insert_idempotency_contract r : within contract (insert_idempotency r).
Proof.
  intros db. unfold insert_idempotency. case_match eqn:Hc; simpl; [|reflexivity].
  rewrite andb_true_iff, negb_true_iff in Hc. destruct Hc as [Hk _].
  db_frame.
  - apply rows_evolve_insert; [apply _|]. intros b Hb.
    apply elem_of_dom_2 in Hb. by apply uuid4_fresh in Hb.
  - by apply unique_key_insert.
Qed.

Lemma insert_effect_attempt_contract e : within contract (insert_effect_attempt e).
Proof. intros db. unfold insert_effect_attempt. case_match; simpl; [db_frame|reflexivity]. Qed.

Lemma flush_effect_attempt_contract i e : within contract (flush_effect_attempt i e).
Proof. intros db. unfold flush_effect_attempt. case_match; simpl; [db_frame|reflexivity]. Qed.

Lemma insert_receipt_contract r : within contract (insert_receipt r).
Proof.
  intros db. unfold insert_receipt. case_match; simpl; [|reflexivity].
  db_frame. apply insert_subseteq. apply not_elem_of_dom, uuid4_fresh.
Qed.

Lemma insert_trigger_contract t : within contract (insert_trigger t).
Proof.
  intros db. unfold insert_trigger. case_match eqn:Hc; simpl; [|reflexivity].
  rewrite andb_true_iff, negb_true_iff in Hc. destruct Hc as [Hk _].
  db_frame. by apply unique_key_insert.
Qed.

Lemma insert_workflow_contract wid w : within contract (insert_workflow wid w).
Proof.
  intros db. unfold insert_workflow. case_match eqn:Hc; simpl; [|reflexivity].
  rewrite !andb_true_iff, bool_decide_eq_true in Hc. destruct Hc as [[[Hk _] _] _].
  db_frame. apply rows_evolve_insert; [apply _|]. intros b Hb. congruence.
Qed.

Lemma insert_job_contract jid j : fresh_job j → within contract (insert_job jid j).
Proof.
  intros Hf db. unfold insert_job. case_match eqn:Hc; simpl; [|reflexivity].
  rewrite !andb_true_iff, negb_true_iff, bool_decide_eq_true in Hc.
  destruct Hc as [[[Hn Hk] Hfk] Hchk]. apply bool_decide_eq_true in Hfk.
  intros []. split; split; simpl; try done; try (apply rows_evolve_refl; apply _).
  - by apply unique_key_insert.
  - apply map_Forall_insert_2; [|done]. split; [by apply fresh_job_wf|done].
  - by apply map_Forall_insert_2.
  - apply rows_evolve_insert; [apply _|]. intros b Hb. congruence.
  - intros k j' Hk1 Hk2. apply lookup_insert_Some in Hk2 as [[<- <-]|[? ?]]; [|congruence].
    exists j. split; [done|reflexivity].
Qed.

Lemma store_workflow_contract db wid w :
  (∀ old, workflow_runs db !! wid = Some old → workflow_evolves old w) →
  contract db (store_workflow db wid w).
Proof.
  intros Hw. unfold store_workflow. destruct (workflow_runs db !! wid) as [old|] eqn:Ho;
    [|reflexivity]. case_decide; [reflexivity|]. db_frame.
  apply rows_evolve_insert; [apply _|]. intros b Hb. simplify_eq.
  destruct (Hw _ eq_refl). by split.
Qed.
End primitives.

(** The edit of a job row that a flush may store. *)
Definition edit_ok (old new : Job) : Prop := job_evolves old new ∧ job_wf new.

Lemma stored_evolves old new : job_evolves old new → job_evolves old (stored old new).
Proof.
  intros []. unfold stored. case_decide; [reflexivity|].
  split; simpl; try done; lia.
Qed.

(** Flushing rows that each evolve from what the table holds. *)
Lemma store_jobs_contract db rows :
  NoDup rows.*1 → (∀ k j, (k, j) ∈ rows → job_check j = true) →
  (∀ k j old, (k, j) ∈ rows → jobs db !! k = Some old → job_ok old → edit_ok old j) →
  contract db (foldl store_job db rows).
Proof.
  intros Hnd Hchk Hrows [].
  assert (Hback : ∀ k a', jobs (foldl store_job db rows) !! k = Some a' →
            ∃ a, jobs db !! k = Some a ∧ job_evolves a a' ∧ job_ok a').
  { intros k a' Hk. rewrite foldl_store_lookup in Hk by done.
    destruct (list_to_map rows !! k) as [j|] eqn:Hj;
      [|exists a'; split; [done|split; [reflexivity|by eapply ok_jobs0]]].
    destruct (jobs db !! k) as [old|] eqn:Ho; simplify_eq/=.
    apply elem_of_list_to_map_2 in Hj.
    destruct (Hrows k j old Hj Ho) as [He Hwf]; [by eapply ok_jobs0|].
    exists old. split; [done|]. split; [by apply stored_evolves|].
    unfold stored. case_decide; [by eapply ok_jobs0|].
    split; [exact Hwf|exact (Hchk k j Hj)]. }
  assert (Hdom : ∀ k a, jobs db !! k = Some a → is_Some (jobs (foldl store_job db rows) !! k)).
  { intros k a Hk. rewrite foldl_store_lookup by done.
    destruct (list_to_map rows !! k); rewrite Hk; eauto. }
  rewrite foldl_store_frame in *. simpl in *.
  split; split; simpl; try done; try (apply rows_evolve_refl; apply _).
  - eapply unique_key_update; [|exact ok_keys0]. intros k a' Hk.
    destruct (Hback _ _ Hk) as (a & ? & [Henv] & _). exists a. split; [done|].
    unfold job_envelope in Henv. by injection Henv.
  - intros k a' Hk. by destruct (Hback _ _ Hk) as (a & ? & ? & ?).
  - intros k a' Hk. destruct (Hback _ _ Hk) as (a & Ha & [Henv] & _).
    unfold job_envelope in Henv. injection Henv as -> _. by eapply ok_owner0.
  - intros k a Hk. destruct (Hdom k a Hk) as [a' Ha']. exists a'. split; [done|].
    destruct (Hback k a' Ha') as (? & ? & ? & _). by simplify_eq.
  - intros k j' Hn Hs. destruct (Hback _ _ Hs) as (? & ? & ?). congruence.
Qed.

Lemma flush_jobs_contract db rows :
  NoDup rows.*1 →
  (∀ k j old, (k, j) ∈ rows → jobs db !! k = Some old → job_ok old → edit_ok old j) →
  contract db (flush_jobs rows db).2.
Proof.
  intros Hnd Hrows. destruct (flush_jobs_cases rows db) as [[Hc ->]|[_ ->]]; simpl;
    [|reflexivity]. apply store_jobs_contract; try done.
  rewrite forallb_forall in Hc. intros k j Hin%list_elem_of_In. exact (Hc (k, j) Hin).
Qed.

Lemma flush_job_contract db k j :
  (∀ old, jobs db !! k = Some old → job_ok old → edit_ok old j) →
  contract db (flush_jobs [(k, j)] db).2.
Proof.
  intros Hj. apply flush_jobs_contract; [apply NoDup_singleton|].
  intros k' j' old Hin Hold. apply list_elem_of_singleton in Hin. simplify_eq. auto.
Qed.

(** ** Loops over selected rows *)

(** A loop body on the job of a row. *)
Definition on_row (f : Job → result exn Job) (r : uuid * Job) : result exn (uuid * Job) :=
  let? j := f r.2 in Ok (r.1, j).

(** A loop whose body never raises maps the rows. *)
Lemma traverse_on_row f g (rows : list (uuid * Job)) :
  (∀ j, f j = Ok (g j)) → traverse (on_row f) rows = Ok (prod_map id g <$> rows).
Proof.
  intros Hf. induction rows as [|[k j] rows IH]; [done|].
  simpl. unfold on_row at 1. simpl. rewrite Hf. simpl. by rewrite IH.
Qed.

Lemma fmap_rows_fst (g : Job → Job) (rows : list (uuid * Job)) :
  (prod_map id g <$> rows).*1 = rows.*1.
Proof. rewrite <- list_fmap_compose. by apply list_fmap_ext; intros ? []. Qed.

(** Storing an edit of each selected row. *)
Lemma store_edits_lookup (g : Job → Job) rows db k :
  NoDup rows.*1 →
  (∀ k j, (k, j) ∈ rows →
    jobs db !! k = Some j ∧ stored j (g j) = set_j_version (j_version j + 1) (g j)) →
  jobs (foldl store_job db (prod_map id g <$> rows)) !! k =
  if decide (k ∈ rows.*1) then (λ j, set_j_version (j_version j + 1) (g j)) <$> jobs db !! k
  else jobs db !! k.
Proof.
  intros Hnd Hrows. rewrite foldl_store_lookup by (by rewrite fmap_rows_fst). case_decide as Hk.
  - apply list_elem_of_fmap in Hk as ([k0 j] & -> & Hin). simpl.
    rewrite (elem_of_list_to_map_1 _ k0 (g j)).
    + apply Hrows in Hin as [-> Hs]. simpl. by rewrite Hs.
    + by rewrite fmap_rows_fst.
    + apply list_elem_of_fmap. by exists (k0, j).
  - rewrite not_elem_of_list_to_map_1; [done|]. by rewrite fmap_rows_fst.
Qed.

Lemma flush_edits_ok (g : Job → Job) rows db :
  (∀ k j, (k, j) ∈ rows → job_check (g j) = true) →
  flush_jobs (prod_map id g <$> rows) db =
  (Ok tt, foldl store_job db (prod_map id g <$> rows)).
Proof.
  intros Hc. unfold flush_jobs.
  assert (forallb (λ r, job_check r.2) (prod_map id g <$> rows) = true) as ->; [|done].
  apply forallb_forall. intros [k j'] Hin%list_elem_of_In.
  apply list_elem_of_fmap in Hin as ([k0 j] & [= -> ->] & Hin). by eapply Hc.
Qed.

Lemma flush_edits_contract (g : Job → Job) rows db :
  NoDup rows.*1 → (∀ k j, (k, j) ∈ rows → jobs db !! k = Some j ∧ (job_ok j → edit_ok j (g j))) →
  contract db (flush_jobs (prod_map id g <$> rows) db).2.
Proof.
  intros Hnd Hrows. apply flush_jobs_contract; [by rewrite fmap_rows_fst|].
  intros k j' old Hin Hold Hok. apply list_elem_of_fmap in Hin as ([k0 j] & [= -> ->] & Hin).
  apply Hrows in Hin as [Hk He]. simplify_eq. auto.
Qed.

(** A single-row flush of an existing row that passes the checks. *)
Lemma flush_job_ok db k j old :
  jobs db !! k = Some old → job_check j = true →
  ∃ db', flush_jobs [(k, j)] db = (Ok tt, db') ∧
    db' = set_jobs (<[k := stored old j]> (jobs db)) db.
Proof.
  intros Hk Hc. unfold flush_jobs. simpl. rewrite Hc. simpl. eexists. split; [done|].
  unfold store_job, stored. simpl. rewrite Hk. case_decide; [|done].
  rewrite insert_id by done. by destruct db.
Qed.

#[export] Hint Resolve insert_event_contract insert_idempotency_contract
  insert_effect_attempt_contract flush_effect_attempt_contract insert_receipt_contract
  insert_trigger_contract insert_workflow_contract insert_job_contract : orch.

(** Status, lease and budget obligations of an edit. *)
Ltac solve_edit :=
  match goal with |- edit_ok ?old ?new =>
    split;
    [split; simpl;
      [reflexivity
      |first [by apply rtc_refl | apply rtc_once; by eauto with orch
             |eapply rtc_l; [|apply rtc_once]; by eauto with orch]
      |lia|lia]
    |unfold job_wf, lease_consistent, within_budget in *; simpl in *]
  end.

