(* ===== verification/Samples.v ===== *)
(** * Concrete rows

    Rows and databases on which the worked examples of the other files evaluate
    the handlers, and a boolean test for [db_ok] so that they do so by
    computation. *)

From S2P Require Import Prelude PyText Enums Errors TransitionGuard Tables Evolution.
Open Scope string_scope.
Open Scope Z_scope.

Definition unique_keyb {A} (key : A → string) (t : gmap uuid A) : bool :=
  bool_decide (NoDup ((λ r : uuid * A, key r.2) <$> map_to_list t)).

Lemma unique_keyb_sound {A} (key : A → string) t : unique_keyb key t = true → unique_key key t.
Proof.
  unfold unique_keyb. rewrite bool_decide_eq_true. intros Hnd i1 i2 a1 a2 H1 H2 Hk.
  apply elem_of_map_to_list, list_elem_of_lookup_1 in H1 as [n1 H1].
  apply elem_of_map_to_list, list_elem_of_lookup_1 in H2 as [n2 H2].
  assert (n1 = n2) as ->; [|by simplify_eq].
  eapply (NoDup_lookup _ _ _ (key a1)); [exact Hnd|..]; rewrite list_lookup_fmap.
  - by rewrite H1.
  - rewrite H2. simpl. by rewrite Hk.
Qed.

Definition job_okb (j : Job) : bool := bool_decide (job_wf j) && job_check j.

Definition db_okb (db : DB) : bool :=
  unique_keyb ev_dedupe_key (events db) && unique_keyb idem_key (idempotency_records db) &&
  unique_keyb j_idempotency_key (jobs db) && unique_keyb trig_key (scheduled_triggers db) &&
  forallb (λ r, job_okb r.2 && bool_decide (is_Some (workflow_runs db !! j_workflow_id r.2)))
    (map_to_list (jobs db)).

Lemma db_okb_sound db : db_okb db = true → db_ok db.
Proof.
  unfold db_okb. rewrite !andb_true_iff. intros [[[[He Hi] Hk] Ht] Hj].
  split; try (by apply unique_keyb_sound).
  all: intros k j Hkj; rewrite forallb_forall in Hj.
  all: assert (Hin : In (k, j) (map_to_list (jobs db)))
    by (by apply list_elem_of_In, elem_of_map_to_list).
  all: specialize (Hj _ Hin); unfold job_okb in Hj;
    rewrite !andb_true_iff, !bool_decide_eq_true in Hj; apply Hj.
Qed.

(** A job of workflow 100 with the given key, status and schedule. *)
Definition sample_job (key : string) (st : JobStatus) (at_ : Z) : Job :=
  {| j_workflow_id := 100; j_type := "BuildJob"; j_object_type := "products"; j_object_id := 7;
     j_owner_agent_id := "A01"; j_status := st; j_input := JDict [];
     j_success_contract := JDict []; j_scheduled_at := at_; j_attempt := 0; j_max_attempts := 3;
     j_idempotency_key := key; j_side_effect_class := SideEffectClass.NONE;
     j_retry_class := RetryClass.SAFE; j_allowed_mode := AutonomyMode.SIMULATION;
     j_lease_owner := None; j_lease_expires_at := None; j_heartbeat_at := None;
     j_created_at := 0; j_updated_at := 0; j_version := 1 |}.

(** The same job, running under worker [w] until [t]. *)
Definition sample_running (key w : string) (t : Z) : Job :=
  set_j_heartbeat_at (Some 0) (set_j_lease_expires_at (Some t)
    (set_j_lease_owner (Some w) (sample_job key JobStatus.RUNNING 0))).

Definition sample_workflow : WorkflowRun :=
  {| wf_shop_id := 1; wf_type := "ProductLifecycleWorkflow"; wf_workflow_version := 1;
     wf_product_state := ProductLifecycleState.BUILDING; wf_parent_workflow_id := None;
     wf_parent_decision_id := None; wf_batch_id := None; wf_started_at := 0;
     wf_completed_at := None; wf_version := 1 |}.

Definition sample_db (rows : list (uuid * Job)) : DB :=
  set_jobs (list_to_map rows)
    (set_workflow_runs {[100%N := sample_workflow]} (empty_db {[1%N]} 0)).

Ltac solve_db_ok := apply db_okb_sound; vm_compute; reflexivity.
