(* ===== verification/Tracking.v ===== *)
(** * What an operation may do to the rows

    Where [contract] says what the operations keep of a database in order, this file says
    what they do to any database at all.

    [schema_ok] is what the schema itself enforces.  [spares] relates two databases when
    reservations and effect attempts only grow, and an attempt that found nothing appears
    under the given keys alone.  [tracked] adds the moves the job rows make and the
    statuses in which job rows are born, as a [Footprint] lists them; it is a preorder when
    the footprint is closed, so it composes over sequences, loops and handlers. *)

From S2P Require Import Prelude PyText Enums Errors TransitionGuard Tables Evolution.
Open Scope Z_scope.
Import JobStatus.

(** ** The schema *)

(** Unique keys, check constraints and the foreign key of a job. *)
Record schema_ok (db : DB) : Prop := {
  sk_events : unique_key ev_dedupe_key (events db);
  sk_reservations : unique_key idem_key (idempotency_records db);
  sk_keys : unique_key j_idempotency_key (jobs db);
  sk_triggers : unique_key trig_key (scheduled_triggers db);
  sk_checks : map_Forall (λ _ j, job_check j = true) (jobs db);
  sk_owner : map_Forall (λ _ j, is_Some (workflow_runs db !! j_workflow_id j)) (jobs db)
}.

(** ** Reservations and effect attempts *)

Record spares (K : list string) (db db' : DB) : Prop := {
  sp_reservations : ∀ i r, idempotency_records db !! i = Some r →
    ∃ r', idempotency_records db' !! i = Some r' ∧ idem_key r' = idem_key r ∧
      (is_Some (idem_completed_at r) → is_Some (idem_completed_at r'));
  sp_attempts : ∀ i a, effect_attempts db !! i = Some a →
    ∃ a', effect_attempts db' !! i = Some a' ∧ eff_key a' = eff_key a ∧
      eff_reconciliation_attempt a <= eff_reconciliation_attempt a';
  sp_absent : ∀ i a, effect_attempts db' !! i = Some a → eff_state a = EffectState.ABSENT →
    eff_key a ∈ K ∨ effect_attempts db !! i = Some a
}.

#[export] Instance spares_preorder K : PreOrder (spares K).
Proof.
  split.
  - intros db. split; eauto. intros i a Ha. exists a. split_and!; [done..|lia].
  - intros d1 d2 d3 [R1 A1 N1] [R2 A2 N2]. split.
    + intros i r Hr. destruct (R1 i r Hr) as (r2 & H2 & K2 & C2). destruct (R2 i r2 H2) as (r3 & H3 & K3 & C3).
      exists r3. split_and!; [done|congruence|auto].
    + intros i a Ha. destruct (A1 i a Ha) as (a2 & H2 & K2 & C2). destruct (A2 i a2 H2) as (a3 & H3 & K3 & C3).
      exists a3. split_and!; [done|congruence|lia].
    + intros i a Ha Hs. destruct (N2 i a Ha Hs) as [?|H2]; [by left|]. by apply N1.
Qed.

(** Two databases with the same reservations and attempts. *)
Lemma spares_same K db db' :
  idempotency_records db' = idempotency_records db → effect_attempts db' = effect_attempts db → spares K db db'.
Proof.
  intros Hi He. split; rewrite ?Hi, ?He; eauto. intros i a Ha. exists a. split_and!; [done..|lia].
Qed.

(** ** Footprints *)

Record Footprint := {
  fp_moves : list (JobStatus * JobStatus);
  fp_births : list JobStatus;
  fp_absent : list string
}.

Definition may_move (f : Footprint) (s t : JobStatus) : Prop := s = t ∨ (s, t) ∈ fp_moves f.

(** Two moves in a row are none or one, and a job that moves after its birth could have been
    born there. *)
Definition closedb (f : Footprint) : bool :=
  forallb (λ m1, forallb (λ m2,
      negb (bool_decide (m1.2 = m2.1)) || bool_decide (m1.1 = m2.2) ||
      bool_decide ((m1.1, m2.2) ∈ fp_moves f)) (fp_moves f)) (fp_moves f) &&
  forallb (λ s, forallb (λ m, negb (bool_decide (m.1 = s)) || bool_decide (m.2 ∈ fp_births f)) (fp_moves f))
    (fp_births f).

Class Closed (f : Footprint) : Prop := closed_footprint : closedb f = true.

Section footprint.
Context (f : Footprint) `{Hclosed : !Closed f}.

Lemma may_move_trans s t u : may_move f s t → may_move f t u → may_move f s u.
Proof.
  intros [->|H1] [<-|H2]; [by left|by right|by right|].
  pose proof (closed_footprint (f := f)) as Hc. unfold closedb in Hc. apply andb_true_iff in Hc as [Hc _].
  rewrite forallb_elem_of in Hc. specialize (Hc _ H1). rewrite forallb_elem_of in Hc. specialize (Hc _ H2).
  simpl in Hc. rewrite !orb_true_iff, negb_true_iff, bool_decide_eq_false, !bool_decide_eq_true in Hc.
  destruct Hc as [[?|?]|?]; [done|by left|by right].
Qed.

Lemma may_move_birth s t : s ∈ fp_births f → may_move f s t → t ∈ fp_births f.
Proof.
  intros Hs [<-|Hm]; [done|]. pose proof (closed_footprint (f := f)) as Hc. unfold closedb in Hc.
  apply andb_true_iff in Hc as [_ Hc]. rewrite forallb_elem_of in Hc. specialize (Hc _ Hs).
  rewrite forallb_elem_of in Hc. specialize (Hc _ Hm). simpl in Hc.
  rewrite orb_true_iff, negb_true_iff, bool_decide_eq_false, bool_decide_eq_true in Hc. by destruct Hc.
Qed.

Record tracked (db db' : DB) : Prop := {
  tk_schema : schema_ok db → schema_ok db';
  tk_moves : ∀ k j, jobs db !! k = Some j →
    ∃ j', jobs db' !! k = Some j' ∧ may_move f (j_status j) (j_status j');
  tk_births : ∀ k j', jobs db !! k = None → jobs db' !! k = Some j' → j_status j' ∈ fp_births f;
  tk_spares : spares (fp_absent f) db db'
}.

#[export] Instance tracked_preorder : PreOrder tracked.
Proof.
  split.
  - intros db. split; [done| |intros k j' Hn Hs; congruence|reflexivity].
    intros k j Hj. exists j. split; [done|by left].
  - intros d1 d2 d3 [S1 M1 B1 P1] [S2 M2 B2 P2]. split; [auto| | |by etrans].
    + intros k j Hj. destruct (M1 k j Hj) as (j2 & H2 & Hm2). destruct (M2 k j2 H2) as (j3 & H3 & Hm3).
      exists j3. split; [done|by eapply may_move_trans].
    + intros k j3 Hn H3. destruct (jobs d2 !! k) as [j2|] eqn:H2; [|by eapply B2].
      destruct (M2 k j2 H2) as (j3' & H3' & Hm3). simplify_eq. eapply may_move_birth; [by eapply B1|done].
Qed.
End footprint.

#[global] Arguments tracked_preorder f {_}.

(** ** The session primitives *)

(** What an operation that leaves the jobs table alone has to show. *)
Lemma tracked_no_jobs f db db' :
  jobs db' = jobs db →
  (∀ k, is_Some (workflow_runs db !! k) → is_Some (workflow_runs db' !! k)) →
  (unique_key ev_dedupe_key (events db) → unique_key ev_dedupe_key (events db')) →
  (unique_key idem_key (idempotency_records db) → unique_key idem_key (idempotency_records db')) →
  (unique_key trig_key (scheduled_triggers db) → unique_key trig_key (scheduled_triggers db')) →
  spares (fp_absent f) db db' → tracked f db db'.
Proof.
  intros Hj Hw He Hi Ht Hs. split; [|intros k j Hk; exists j; rewrite Hj; split; [done|by left]|
    intros k j' Hn Hk; rewrite Hj in Hk; congruence|done].
  intros []. split; rewrite ?Hj; auto. intros k j Hk. by apply Hw, (sk_owner0 k j).
Qed.

Ltac tracked_frame := apply tracked_no_jobs; simpl; try done; try (by apply spares_same).
