(* ===== verification/AgentRuntime.v ===== *)
(** * Agent runtime

    [agents/runtime.py] with the run observer of [observability/agent_runs.py] and the
    agent repositories: one execution of an agent for a job, gated on commissioning,
    bound to a verified prompt, and recorded as one row of [agent_runs].

    The agent itself (a language-model program behind [BaseAgent.execute]) is an
    argument that returns a result or raises.  Structured logs, telemetry and the
    columns only they use (model, tokens, cost, input hash) are left out. *)

From S2P Require Import Prelude PyText PyLines Sha256 Enums Errors Tables WorkflowsConfig Contracts Agents.
From S2P Require Import Evolution Samples.
Open Scope string_scope.
Open Scope Z_scope.
Import AgentRunStatus.

(** ** Tables *)

Record AgentDefinitionRow := {
  dr_agent_id : string;
  dr_contract_version : Z
}.

#[export] Instance AgentDefinitionRow_eq_dec : EqDecision AgentDefinitionRow.
Proof. solve_decision. Defined.

Record PromptVersion := {
  pv_prompt_reference : string;
  pv_version : Z;
  pv_sha256 : string
}.

Record AgentRun := {
  run_job_id : uuid;
  run_agent_definition_id : uuid;
  run_agent_id : string;
  run_agent_definition_version : Z;
  run_prompt_version_id : uuid;
  run_prompt_reference : string;
  run_prompt_sha256 : string;
  run_number : Z;
  run_status : AgentRunStatus;
  run_output : json;
  run_error : option ContractError;
  run_started_at : datetime;
  run_completed_at : datetime
}.

(** The database with the agent tables beside the orchestrator's. *)
Record Host := {
  h_db : DB;
  h_definitions : gmap uuid AgentDefinitionRow;
  h_prompts : gmap uuid PromptVersion;
  h_runs : gmap uuid AgentRun
}.

Definition set_h_db (x : DB) (h : Host) : Host :=
  {| h_db := x; h_definitions := h_definitions h; h_prompts := h_prompts h; h_runs := h_runs h |}.
Definition set_h_runs (x : gmap uuid AgentRun) (h : Host) : Host :=
  {| h_db := h_db h; h_definitions := h_definitions h; h_prompts := h_prompts h; h_runs := x |}.

(** An orchestrator operation inside the same transaction. *)
Definition on_db {A} (m : Session A) : M Host exn A := λ h,
  let '(r, db) := m (h_db h) in (r, set_h_db db h).

(** Foreign keys (the job, the definition and prompt identities) and checks of
    [agent_runs]. *)
Definition agent_run_check (h : Host) (r : AgentRun) : bool :=
  bool_decide (is_Some (jobs (h_db h) !! run_job_id r)) &&
  bool_decide (h_definitions h !! run_agent_definition_id r =
    Some {| dr_agent_id := run_agent_id r; dr_contract_version := run_agent_definition_version r |}) &&
  match h_prompts h !! run_prompt_version_id r with
  | Some p => bool_decide (pv_prompt_reference p = run_prompt_reference r ∧
                           pv_sha256 p = run_prompt_sha256 r)
  | None => false
  end &&
  bool_decide (run_agent_id r ∈ agent_ids) &&
  Nat.eqb (String.length (run_prompt_sha256 r)) 64 &&
  Bool.eqb (bool_decide (run_status r = SUCCESS)) (negb (given (run_error r))) &&
  (run_started_at r <=? run_completed_at r) && (1 <=? run_number r).

(** ** Contracts of one execution *)

(** [AgentContext], less the handles to the provider, the tools and the reviews. *)
Record AgentContext := {
  cx_job : JobEnvelope;
  cx_definition : AgentDefinition;
  cx_run_id : uuid;
  cx_prompt_text : string;
  cx_prompt_reference : string;
  cx_prompt_sha256 : string;
  cx_prompt_version : Z;
  cx_run_at : datetime
}.

Abbreviation Agent := (AgentContext → result exn AgentResult).

Record AgentRunReceipt := {
  rc_run_id : uuid;
  rc_run : AgentRun
}.

(** [ContractError(code=..., message=str(error), retryable=False)]: the message is
    stripped and must not be empty. *)
Definition execution_failed (error : exn) : result exn ContractError :=
  let message := str_strip (exn_message error) in
  if str_truth message then
    Ok {| ce_code := "AGENT_EXECUTION_FAILED"; ce_message := message; ce_retryable := false;
          ce_blocker_action := None; ce_safe_detail := JDict [] |}
  else Raise (Exn ValidationError "1 validation error for ContractError").

Section runtime.
Context `{Backend} (registry : AgentRegistry) (prompt_path : string → string → PromptPath).

Definition definition_for_job (job : JobEnvelope) : result exn AgentDefinition :=
  registry_get registry (je_owner_agent_id job).

(** [AgentDefinitionRepository.by_agent_id]: the row of the highest contract version. *)
Definition by_agent_id (agent_id : string) (h : Host) : option (uuid * AgentDefinitionRow) :=
  head (order_by (λ r : uuid * AgentDefinitionRow, - dr_contract_version r.2)
    (filter (λ r, dr_agent_id r.2 = agent_id) (map_to_list (h_definitions h)))).

(** [PromptVersionRepository.by_reference]: the highest version of a reference. *)
Definition by_reference (reference : string) (h : Host) : option (uuid * PromptVersion) :=
  head (order_by (λ r : uuid * PromptVersion, - pv_version r.2)
    (filter (λ r, pv_prompt_reference r.2 = reference) (map_to_list (h_prompts h)))).

Definition _load_database_definition (d : AgentDefinition) : M Host exn (uuid * AgentDefinitionRow) :=
  let* row := gets (by_agent_id (ad_agent_id d)) in
  match row with
  | None => pyraise (Exn AgentRegistryError ("agent definition row missing for " ++ ad_agent_id d))
  | Some r =>
      if decide (dr_contract_version r.2 ≠ ad_contract_version d) then
        pyraise (Exn AgentRegistryError ("database contract version " ++
          pretty (dr_contract_version r.2) ++ " does not match config " ++
          pretty (ad_contract_version d) ++ " for " ++ ad_agent_id d))
      else pyret r
  end.

Definition _load_prompt_version (d : AgentDefinition) : M Host exn (uuid * PromptVersion) :=
  let* row := gets (by_reference (ad_system_prompt_reference d)) in
  match row with
  | None => pyraise (Exn AgentRegistryError ("prompt version missing for " ++ ad_system_prompt_reference d))
  | Some r => pyret r
  end.

(** [AgentRunObserver.next_run_number] *)
Definition next_run_number (job_id : uuid) (h : Host) : Z :=
  match run_number ∘ snd <$> filter (λ r, run_job_id r.2 = job_id) (map_to_list (h_runs h)) with
  | [] => 1
  | n :: ns => foldl Z.max n ns + 1
  end.

(** The insert of [AgentRunObserver.finalize_run]. *)
Definition insert_agent_run (run_id : uuid) (run : AgentRun) : M Host exn unit := λ h,
  if bool_decide (h_runs h !! run_id = None) && agent_run_check h run
  then (Ok tt, set_h_runs (<[run_id := run]> (h_runs h)) h)
  else (Raise integrity_error, h).

(** What the runner has resolved before it calls the agent. *)
Record Prepared := {
  pr_started_at : datetime;
  pr_definition : AgentDefinition;
  pr_row : uuid * AgentDefinitionRow;
  pr_prompt : uuid * PromptVersion;
  pr_prompt_text : string;
  pr_number : Z;
  pr_run_id : uuid
}.

(** [execute] up to the agent call: definition, commissioning gate, database rows,
    prompt reference and prompt text, then [begin_run] with a fresh run id. *)
Definition prepare (job : JobEnvelope) (production : bool) (run_at : option datetime)
    : M Host exn Prepared :=
  let* started_at := gets (λ h, default (db_clock (h_db h)) run_at) in
  let* definition := lift_result (definition_for_job job) in
  do* (if production then lift_result (assert_production_executable definition) else pyret tt);
  let* db_definition := _load_database_definition definition in
  let* prompt_version := _load_prompt_version definition in
  let* prompt := lift_result (parse_system_prompt_reference (ad_system_prompt_reference definition)) in
  if decide (prompt.1 ≠ ad_agent_id definition) then
    pyraise (Exn AgentRegistryError ("prompt reference agent " ++ prompt.1 ++
      " does not match definition agent " ++ ad_agent_id definition))
  else
    let* prompt_text := lift_result (load prompt_path prompt.1 prompt.2 (pv_sha256 prompt_version.2)) in
    let* number := gets (next_run_number (je_job_id job)) in
    let* run_id := gets (λ h, uuid4 (dom (h_runs h))) in
    pyret {| pr_started_at := started_at; pr_definition := definition; pr_row := db_definition;
             pr_prompt := prompt_version; pr_prompt_text := prompt_text; pr_number := number;
             pr_run_id := run_id |}.

Definition context_of (job : JobEnvelope) (p : Prepared) : AgentContext :=
  {| cx_job := job; cx_definition := pr_definition p; cx_run_id := pr_run_id p;
     cx_prompt_text := pr_prompt_text p; cx_prompt_reference := pv_prompt_reference (pr_prompt p).2;
     cx_prompt_sha256 := pv_sha256 (pr_prompt p).2; cx_prompt_version := pv_version (pr_prompt p).2;
     cx_run_at := pr_started_at p |}.

(** The row of a finished run; its end is never before its start. *)
Definition finished_run (job : JobEnvelope) (p : Prepared) (status : AgentRunStatus) (output : json)
    (error : option ContractError) (now : datetime) : AgentRun :=
  {| run_job_id := je_job_id job; run_agent_definition_id := (pr_row p).1;
     run_agent_id := ad_agent_id (pr_definition p);
     run_agent_definition_version := dr_contract_version (pr_row p).2;
     run_prompt_version_id := (pr_prompt p).1;
     run_prompt_reference := pv_prompt_reference (pr_prompt p).2;
     run_prompt_sha256 := pv_sha256 (pr_prompt p).2; run_number := pr_number p;
     run_status := status; run_output := output; run_error := error;
     run_started_at := pr_started_at p;
     run_completed_at := if now <? pr_started_at p then pr_started_at p else now |}.

(** [AgentRunObserver.finalize_run] and the receipt of its row. *)
Definition finalize_run (job : JobEnvelope) (p : Prepared) (status : AgentRunStatus) (output : json)
    (error : option ContractError) : M Host exn AgentRunReceipt :=
  let* now := gets (λ h, db_clock (h_db h)) in
  let run := finished_run job p status output error now in
  do* insert_agent_run (pr_run_id p) run;
  pyret {| rc_run_id := pr_run_id p; rc_run := run |}.

Definition failure_result (job : JobEnvelope) (p : Prepared) (e : ContractError) : AgentResult :=
  {| rs_job_id := je_job_id job; rs_agent_run_id := pr_run_id p;
     rs_agent_id := ad_agent_id (pr_definition p);
     rs_agent_definition_version := ad_contract_version (pr_definition p);
     rs_prompt_reference := pv_prompt_reference (pr_prompt p).2;
     rs_prompt_sha256 := pv_sha256 (pr_prompt p).2; rs_status := FAILURE;
     rs_output := JDict []; rs_artifacts := []; rs_evidence := [];
     rs_emitted_events := []; rs_effects := []; rs_error := Some e |}.

Definition execute (job : JobEnvelope) (agent : Agent) (production : bool) (run_at : option datetime)
    : M Host exn (AgentResult * AgentRunReceipt) :=
  let* p := prepare job production run_at in
  match agent (context_of job p) with
  | Raise error =>
      if isa (exn_type error) AgentNotCommissionedError then pyraise error else
      let* contract_error := lift_result (execution_failed error) in
      let* receipt := finalize_run job p FAILURE (JDict []) (Some contract_error) in
      pyret (failure_result job p contract_error, receipt)
  | Ok res =>
      if decide (rs_agent_run_id res ≠ pr_run_id p) then
        pyraise (Exn AgentRegistryError "agent result must cite the run id assigned by AgentRunner")
      else if decide (rs_job_id res ≠ je_job_id job) then
        pyraise (Exn AgentRegistryError "agent result job_id must match the job envelope")
      else
        let* receipt := finalize_run job p (rs_status res) (rs_output res) (rs_error res) in
        pyret (res, receipt)
  end.

(** ** What an execution leaves behind *)

Lemma prepare_reads job prod at_ h : (prepare job prod at_ h).2 = h.
Proof.
  unfold prepare, _load_database_definition, _load_prompt_version, gets, pybind, lift_result, pyret, pyraise.
  destruct (definition_for_job job) as [d|e]; [|done].
  destruct prod; [destruct (assert_production_executable d); [|done]|].
  all: repeat (case_match; simplify_eq/=; try done).
Qed.

(** The facts a prepared run rests on. *)
Record prepared_ok (job : JobEnvelope) (prod : bool) (h : Host) (p : Prepared) : Prop := {
  po_definition : definition_for_job job = Ok (pr_definition p);
  po_gate : prod = true → allows_production_execution (pr_definition p) = true;
  po_row : by_agent_id (ad_agent_id (pr_definition p)) h = Some (pr_row p);
  po_prompt : by_reference (ad_system_prompt_reference (pr_definition p)) h = Some (pr_prompt p);
  po_text : ∃ version, parse_system_prompt_reference (ad_system_prompt_reference (pr_definition p)) =
                Ok (ad_agent_id (pr_definition p), version) ∧
              load prompt_path (ad_agent_id (pr_definition p)) version (pv_sha256 (pr_prompt p).2) =
                Ok (pr_prompt_text p);
  po_number : pr_number p = next_run_number (je_job_id job) h;
  po_run_id : pr_run_id p = uuid4 (dom (h_runs h))
}.

Lemma prepare_ok job prod at_ h p h' : prepare job prod at_ h = (Ok p, h') → h' = h ∧ prepared_ok job prod h p.
Proof.
  intros E. split; [by pose proof (prepare_reads job prod at_ h) as Hr; rewrite E in Hr|].
  unfold prepare, _load_database_definition, _load_prompt_version, gets, pybind, lift_result, pyret, pyraise in E.
  destruct (definition_for_job job) as [d|e] eqn:Hd; [|done].
  assert (Hgate : prod = true → allows_production_execution d = true).
  { intros ->. unfold assert_production_executable in E. by destruct (allows_production_execution d). }
  assert (Hd' : ∀ r : result exn unit, (if prod then assert_production_executable d else Ok tt) = r → r = Ok tt).
  { intros r <-. destruct prod; [|done]. unfold assert_production_executable. by rewrite Hgate. }
  destruct prod; [rewrite (Hd' _ eq_refl) in E|].
  all: destruct (by_agent_id (ad_agent_id d) h) as [row|] eqn:Hrow; [|done].
  all: case_decide; [done|].
  all: destruct (by_reference (ad_system_prompt_reference d) h) as [pv|] eqn:Hpv; [|done].
  all: destruct (parse_system_prompt_reference _) as [[aid ver]|] eqn:Hparse; [|done]; simpl in E.
  all: case_decide as Haid; [done|]; subst aid.
  all: destruct (load _ _ _ _) as [text|] eqn:Hload; [|done]; simplify_eq/=.
  all: split; simpl; eauto.
Qed.

Lemma next_run_number_above job h k r :
  h_runs h !! k = Some r → run_job_id r = job → run_number r < next_run_number job h.
Proof.
  intros Hk Hj. unfold next_run_number.
  assert (Hin : run_number r ∈ run_number ∘ snd <$> filter (λ r, run_job_id r.2 = job) (map_to_list (h_runs h))).
  { apply list_elem_of_fmap. exists (k, r). split; [done|]. apply list_elem_of_filter.
    split; [done|]. by apply elem_of_map_to_list. }
  destruct (run_number ∘ snd <$> _) as [|n ns]; [by apply elem_of_nil in Hin|].
  assert (Hmax : ∀ l m, m <= foldl Z.max m l ∧ ∀ x, x ∈ l → x <= foldl Z.max m l).
  { induction l as [|y l IH]; intros m; simpl; [split; [lia|]; intros x Hx; by apply elem_of_nil in Hx|].
    destruct (IH (Z.max m y)) as [H1 H2]. split; [lia|].
    intros x [->|Hx]%elem_of_cons; [lia|auto]. }
  destruct (Hmax ns n) as [H1 H2]. apply elem_of_cons in Hin as [->|Hin]; [lia|]. specialize (H2 _ Hin). lia.
Qed.

Lemma finalize_ok job p st out err h rc h' :
  finalize_run job p st out err h = (Ok rc, h') →
  rc = {| rc_run_id := pr_run_id p; rc_run := finished_run job p st out err (db_clock (h_db h)) |} ∧
  h' = set_h_runs (<[rc_run_id rc := rc_run rc]> (h_runs h)) h ∧ h_runs h !! rc_run_id rc = None.
Proof.
  unfold finalize_run, insert_agent_run, gets, pybind, pyret.
  destruct (_ && _) eqn:Hc; [|done]. apply andb_true_iff in Hc as [Hn _].
  apply bool_decide_eq_true in Hn. intros E. by simplify_eq/=.
Qed.

Lemma finalize_raise job p st out err h e h' :
  finalize_run job p st out err h = (Raise e, h') → h' = h.
Proof.
  unfold finalize_run, insert_agent_run, gets, pybind, pyret. destruct (_ && _); [done|].
  intros E. by simplify_eq/=.
Qed.

(** What the agent did with the context it was given, as the result and the row report it:
    the agent's own result, or the failure of an agent that raised. *)
Definition reported (agent : Agent) (cx : AgentContext) (res : AgentResult) (run : AgentRun) : Prop :=
  match agent cx with
  | Ok r => res = r ∧ run_output run = rs_output r ∧ run_error run = rs_error r
  | Raise e => isa (exn_type e) AgentNotCommissionedError = false ∧
      ∃ ce, execution_failed e = Ok ce ∧ rs_status res = FAILURE ∧ rs_error res = Some ce ∧
        run_output run = JDict [] ∧ run_error run = Some ce
  end.

(** A completed execution: the row that was added and the result it returned. *)
Record recorded (job : JobEnvelope) (agent : Agent) (prod : bool) (h h' : Host) (res : AgentResult)
    (rc : AgentRunReceipt) : Prop := {
  rd_prepared : ∃ p, prepared_ok job prod h p ∧ rc_run_id rc = pr_run_id p ∧
    rc_run rc = finished_run job p (rs_status res) (run_output (rc_run rc)) (run_error (rc_run rc))
                  (db_clock (h_db h)) ∧
    reported agent (context_of job p) res (rc_run rc);
  rd_host : h' = set_h_runs (<[rc_run_id rc := rc_run rc]> (h_runs h)) h;
  rd_new : h_runs h !! rc_run_id rc = None;
  rd_cites : rs_job_id res = je_job_id job ∧ rs_agent_run_id res = rc_run_id rc
}.

Lemma execute_cases job agent prod at_ h :
  match execute job agent prod at_ h with
  | (Ok (res, rc), h') => recorded job agent prod h h' res rc
  | (Raise _, h') => h' = h
  end.
Proof.
  unfold execute, pybind. pose proof (prepare_reads job prod at_ h) as Hr.
  destruct (prepare job prod at_ h) as [[p|e] h1] eqn:Hp; simpl in Hr; subst h1; [|done].
  apply prepare_ok in Hp as [_ Hok]. destruct (agent (context_of job p)) as [res|e] eqn:Ha.
  - case_decide as Hid; [done|]. case_decide as Hj; [done|].
    destruct (finalize_run job p _ _ _ h) as [[rc|e] h1] eqn:Hf; [|by apply finalize_raise in Hf].
    apply finalize_ok in Hf as (-> & -> & Hn). split; [|done|done|done]. exists p. unfold reported. by rewrite Ha.
  - destruct (isa (exn_type e) AgentNotCommissionedError) eqn:Hc; [done|]. unfold lift_result.
    destruct (execution_failed e) as [ce|] eqn:Hce; [|done].
    destruct (finalize_run job p _ _ _ h) as [[rc|e'] h1] eqn:Hf; [|by apply finalize_raise in Hf].
    apply finalize_ok in Hf as (-> & -> & Hn). split; [|done|done|done]. exists p. unfold reported. rewrite Ha.
    split_and!; [done..|]. by exists ce.
Qed.

(** C18: an execution that returns has added exactly one [agent_runs] row, for this job,
    under a fresh id and a number above every earlier run of the job, ending no earlier
    than it started and with the status of the result that cites it; its agent was
    [TESTED] or [COMMISSIONED] if the run was a production run.  The agent was called with
    this job, its definition, the id of the row, and as its prompt a stored prompt text with
    exactly the SHA-256 recorded in the row; the result and the row report what that call
    returned, or the error it raised.  An execution that raises has recorded nothing. *)
Theorem execute_spec job agent prod at_ h :
  match execute job agent prod at_ h with
  | (Ok (res, rc), h') =>
      h' = set_h_runs (<[rc_run_id rc := rc_run rc]> (h_runs h)) h ∧ h_runs h !! rc_run_id rc = None ∧
      run_job_id (rc_run rc) = je_job_id job ∧ run_status (rc_run rc) = rs_status res ∧
      rs_job_id res = je_job_id job ∧ rs_agent_run_id res = rc_run_id rc ∧
      run_started_at (rc_run rc) <= run_completed_at (rc_run rc) ∧
      (∀ k r, h_runs h !! k = Some r → run_job_id r = je_job_id job → run_number r < run_number (rc_run rc)) ∧
      ∃ cx version, reported agent cx res (rc_run rc) ∧
        cx_job cx = job ∧ cx_run_id cx = rc_run_id rc ∧ definition_for_job job = Ok (cx_definition cx) ∧
        run_agent_id (rc_run rc) = ad_agent_id (cx_definition cx) ∧
        (prod = true → ad_commissioning_state (cx_definition cx) ∈
           [AgentCommissioningState.TESTED; AgentCommissioningState.COMMISSIONED]) ∧
        parse_system_prompt_reference (ad_system_prompt_reference (cx_definition cx)) =
          Ok (ad_agent_id (cx_definition cx), version) ∧
        load prompt_path (ad_agent_id (cx_definition cx)) version (run_prompt_sha256 (rc_run rc)) =
          Ok (cx_prompt_text cx) ∧
        sha256_hex (cx_prompt_text cx) = run_prompt_sha256 (rc_run rc) ∧
        cx_prompt_sha256 cx = run_prompt_sha256 (rc_run rc) ∧
        cx_prompt_reference cx = run_prompt_reference (rc_run rc)
  | (Raise _, h') => h' = h
  end.
Proof.
  pose proof (execute_cases job agent prod at_ h) as Hc.
  destruct (execute job agent prod at_ h) as [[[res rc]|e] h']; [|done].
  destruct Hc as [(p & [Hd Hg Hrow Hpv (ver & Hparse & Hload) Hnum Hid] & Hrid & Hrun & Hrep) -> Hn [Hcj Hcr]].
  assert (Hrep' := Hrep). rewrite Hrun in Hrep'.
  do 2 (split; [done|]). rewrite Hrun in *. simpl in *.
  do 4 (split; [done|]). split; [destruct (Z.ltb_spec (db_clock (h_db h)) (pr_started_at p)); lia|]. split.
  - intros k r Hk Hj. rewrite Hnum. by eapply next_run_number_above.
  - exists (context_of job p), ver. split; [exact Hrep|]. simpl.
    do 4 (split; [done|]). split; [|split; [done|split; [done|]]].
    + intros Hp. specialize (Hg Hp). by apply bool_decide_eq_true in Hg.
    + apply load_hash in Hload. done.
Qed.

(** An agent that fails without a message is not recorded as a failure.  In the same
    setting in which an exception with a message becomes a [FAILURE] result and a run
    row, one whose message is blank makes the construction of the contract error itself
    fail: the runner raises [ValidationError] and records nothing. *)
Theorem blank_failure_escapes job k prod at_ h m m' res rc h1 :
  isa k AgentNotCommissionedError = false → str_strip m' = "" →
  execute job (λ _, Raise (Exn k m)) prod at_ h = (Ok (res, rc), h1) →
  rs_status res = FAILURE ∧
  ∃ msg, execute job (λ _, Raise (Exn k m')) prod at_ h = (Raise (Exn ValidationError msg), h).
Proof.
  intros Hk Hm'. unfold execute, pybind. destruct (prepare job prod at_ h) as [[p|e] h0] eqn:Hp; [|done].
  apply prepare_ok in Hp as [-> _]. simpl. rewrite Hk. unfold lift_result, execution_failed. simpl.
  rewrite Hm'. destruct (str_truth (str_strip m)); [|done].
  destruct (finalize_run job p _ _ _ h) as [[rc0|e] h2]; [|done]. intros [= <- <- <-].
  split; [done|]. by eexists.
Qed.
End runtime.

(** ** A sample host *)

Definition sample_prompt : string :=
  Eval vm_compute in String.concat (String lf EmptyString) REQUIRED_SECTIONS.
Definition sample_prompt_hash : string := Eval vm_compute in sha256_hex sample_prompt.

Definition sample_definition (agent_id : string) (st : AgentCommissioningState.AgentCommissioningState)
    : AgentDefinition :=
  {| ad_agent_id := agent_id; ad_name := "Shop orchestrator"; ad_contract_version := 1;
     ad_system_prompt_reference := "agent://" ++ agent_id ++ "/system/v1"; ad_input_contracts := [];
     ad_output_contracts := []; ad_allowed_tools := []; ad_default_side_effect_class := "NONE";
     ad_timeout_seconds := 300; ad_commissioning_state := st; ad_commissioning_evidence := [];
     ad_database_id := None |}.

Definition sample_registry : AgentRegistry :=
  {["A01" := sample_definition "A01" AgentCommissioningState.TESTED]}.

Definition sample_host (rows : list (uuid * Job)) : Host :=
  {| h_db := sample_db rows;
     h_definitions := {[1%N := {| dr_agent_id := "A01"; dr_contract_version := 1 |}]};
     h_prompts := {[1%N := {| pv_prompt_reference := "agent://A01/system/v1"; pv_version := 1;
                              pv_sha256 := sample_prompt_hash |}]};
     h_runs := ∅ |}.

Definition sample_prompts : string → string → PromptPath := λ _ _, PromptText sample_prompt.

Definition sample_envelope (jid : uuid) (j : Job) : JobEnvelope :=
  {| je_job_id := jid; je_workflow_id := j_workflow_id j; je_object_id := j_object_id j;
     je_job_type := j_type j; je_object_type := j_object_type j;
     je_owner_agent_id := j_owner_agent_id j; je_job_status := j_status j; je_input := JDict [];
     je_required_artifacts := []; je_scheduled_at := j_scheduled_at j; je_job_attempt := j_attempt j;
     je_max_attempts := j_max_attempts j; je_idempotency_key := j_idempotency_key j;
     je_side_effect_class := j_side_effect_class j; je_retry_class := j_retry_class j;
     je_success_contract := {| sc_output_model := "AgentResult"; sc_required_artifact_roles := [];
                               sc_required_events := [] |} |}.

Lemma blank_failure_escapes_witness :
  let h := sample_host [(1%N, sample_running "a" "w" 50)] in
  let job := sample_envelope 1%N (sample_running "a" "w" 50) in
  ∃ msg, @execute reference_backend sample_registry sample_prompts job
    (λ _, Raise (Exn RuntimeError "")) true (Some 10) h = (Raise (Exn ValidationError msg), h).
Proof.
  intros h job.
  eassert (E : @execute reference_backend sample_registry sample_prompts job
    (λ _, Raise (Exn RuntimeError "boom")) true (Some 10) h = (Ok (_, _), _)) by (vm_compute; reflexivity).
  exact (proj2 (@blank_failure_escapes reference_backend sample_registry sample_prompts job RuntimeError true
    (Some 10) h "boom" "" _ _ _ eq_refl eq_refl E)).
Defined.
