(* ===== verification/Leases.v ===== *)
(** * Leases

    [orchestration/leases.py]: exclusive claims with [FOR UPDATE SKIP LOCKED],
    heartbeats, releases, and the reclaim of expired leases.  [locked] is the set
    of job rows other transactions hold locks on when the statement runs. *)

From S2P Require Import Prelude PyText Enums Errors TransitionGuard Tables Evolution Samples.
Open Scope string_scope.
Open Scope Z_scope.
Import JobStatus.

Definition _LEGAL_RELEASE_STATUSES : list JobStatus :=
  [SUCCEEDED; FAILED; BLOCKED; UNCERTAIN_EXTERNAL_EFFECT].

(** [str] of a nullable column. *)
Definition str_opt (o : option string) : string := default "None" o.

(** ** Claiming *)

Definition ready_due (locked : gset uuid) (now : datetime) (jid : uuid) (j : Job) : bool :=
  bool_decide (j_status j = READY) && (j_scheduled_at j <=? now) &&
  negb (bool_decide (jid ∈ locked)).

(** The assignments of a successful claim. *)
Definition claimed (worker_id : string) (now : datetime) (lease_duration : timedelta) (j : Job)
    : Job :=
  set_j_updated_at now (set_j_heartbeat_at (Some now)
    (set_j_lease_expires_at (Some (now + lease_duration))
      (set_j_lease_owner (Some worker_id) (set_j_status RUNNING j)))).

Section ops.
Context `{Backend}.

Definition claim_ready_job (locked : gset uuid) (worker_id : string) (now : datetime)
    (lease_duration : timedelta) : Session (option (uuid * Job)) :=
  let* rows := gets (select jobs (ready_due locked now) (λ r, j_scheduled_at r.2)) in
  match take 1 rows with
  | [] => pyret None
  | (jid, job) :: _ =>
      do* lift_result (require_job_transition READY RUNNING);
      let job := claimed worker_id now lease_duration job in
      do* flush_jobs [(jid, job)];
      let* r := refreshed (jid, job) in
      pyret (Some r)
  end.

(** ** Heartbeat and release *)

Definition beaten (now : datetime) (lease_extension : option timedelta) (j : Job) : Job :=
  let j := set_j_updated_at now (set_j_heartbeat_at (Some now) j) in
  match lease_extension with
  | Some d => set_j_lease_expires_at (Some (now + d)) j
  | None => j
  end.

Definition not_held (job_id : uuid) (job : Job) (worker_id : string) : exn :=
  Exn LeaseNotHeldError ("Job " ++ uuid_str job_id ++ " is owned by " ++
    str_opt (j_lease_owner job) ++ ", not " ++ worker_id).

Definition heartbeat (job_id : uuid) (worker_id : string) (now : datetime)
    (lease_extension : option timedelta) : Session unit :=
  let* found := get_job job_id in
  match found with
  | None => pyraise (Exn LeaseNotHeldError ("Job " ++ uuid_str job_id ++ " not found"))
  | Some job =>
      if decide (j_lease_owner job ≠ Some worker_id) then pyraise (not_held job_id job worker_id)
      else if match j_lease_expires_at job with Some t => t <? now | None => false end then
        pyraise (Exn LeaseExpiredError ("Lease for job " ++ uuid_str job_id ++ " expired at " ++
          from_option datetime_str "None" (j_lease_expires_at job)))
      else flush_jobs [(job_id, beaten now lease_extension job)]
  end.

Definition released (final_status : JobStatus) (now : datetime) (j : Job) : Job :=
  set_j_updated_at now (set_j_heartbeat_at None (set_j_lease_expires_at None
    (set_j_lease_owner None (set_j_status final_status j)))).

(** The set is printed in declaration order; Python leaves the order open. *)
Definition release_lease (job_id : uuid) (worker_id : string) (now : datetime)
    (final_status : JobStatus) : Session unit :=
  if decide (final_status ∉ _LEGAL_RELEASE_STATUSES) then
    pyraise (Exn ValueError ("Cannot release to " ++ JobStatus_value final_status ++
      "; legal from RUNNING: " ++ String.concat ", " (JobStatus_value <$> _LEGAL_RELEASE_STATUSES)))
  else
    let* found := get_job job_id in
    match found with
    | None => pyraise (Exn LeaseNotHeldError ("Job " ++ uuid_str job_id ++ " not found"))
    | Some job =>
        if decide (j_lease_owner job ≠ Some worker_id)
        then pyraise (not_held job_id job worker_id)
        else
          do* lift_result (require_job_transition RUNNING final_status);
          flush_jobs [(job_id, released final_status now job)]
    end.

(** ** Reclaim *)

Definition lease_expired (locked : gset uuid) (now : datetime) (jid : uuid) (j : Job) : bool :=
  bool_decide (j_status j = RUNNING) &&
  match j_lease_expires_at j with Some t => t <=? now | None => false end &&
  negb (bool_decide (jid ∈ locked)).

(** One pass of the loop: [RUNNING → FAILED], then what the retry class says. *)
Definition reclaim_one (now : datetime) (job : Job) : result exn Job :=
  do? require_job_transition RUNNING FAILED;
  let job := set_j_status FAILED job in
  let job := set_j_attempt (j_attempt job + 1) job in
  let job := set_j_lease_owner None job in
  let job := set_j_lease_expires_at None job in
  let job := set_j_heartbeat_at None job in
  let job := set_j_updated_at now job in
  match j_retry_class job with
  | RetryClass.NEVER =>
      do? require_job_transition FAILED TERMINAL_FAILURE;
      Ok (set_j_status TERMINAL_FAILURE job)
  | RetryClass.MANUAL_RESUME => Ok job
  | RetryClass.SAFE | RetryClass.IDEMPOTENT | RetryClass.RECONCILE_FIRST =>
      if j_max_attempts job <=? j_attempt job then
        do? require_job_transition FAILED TERMINAL_FAILURE;
        Ok (set_j_status TERMINAL_FAILURE job)
      else
        do? require_job_transition FAILED READY;
        Ok (set_j_status READY job)
  end.

Definition reclaim_expired_leases (locked : gset uuid) (now : datetime) (limit : nat)
    : Session (list (uuid * Job)) :=
  let* rows := gets (select jobs (lease_expired locked now)
                       (λ r, default 0 (j_lease_expires_at r.2))) in
  let* edited := lift_result (traverse (on_row (reclaim_one now)) (take limit rows)) in
  do* flush_jobs edited;
  gets (λ db, (λ r, (r.1, default r.2 (jobs db !! r.1))) <$> edited).
End ops.

Definition deterministic_worker_id (worker_index : Z) : string :=
  "worker-" ++ pretty worker_index.

(** ** Edits of the lease operations *)

Lemma claimed_ok w now d j : j_status j = READY → job_ok j → edit_ok j (claimed w now d j).
Proof.
  intros Hs [[Hl (Ha & Hm & Hb)] _]. split.
  - split; simpl; [reflexivity| |lia|lia]. rewrite Hs. apply rtc_once. auto with orch.
  - split; [by eapply lease_running|]. split; [exact Ha|]. split; [exact Hm|]. intros _.
    simpl. apply Hb. rewrite Hs. set_solver.
Qed.

Lemma beaten_ok w now ext j :
  j_lease_owner j = Some w → job_ok j → edit_ok j (beaten now ext j).
Proof.
  intros Hw [Hwf _]. pose proof (lease_held_running _ _ Hwf Hw) as Hs.
  destruct Hwf as [Hl Hb]. unfold lease_consistent in Hl. rewrite decide_True in Hl by done.
  split; [split; destruct ext; simpl; try reflexivity; lia|].
  split; [|destruct ext; exact Hb]. unfold lease_consistent.
  destruct ext; simpl; rewrite decide_True by done; naive_solver.
Qed.

Lemma released_ok w now st j :
  st ∈ _LEGAL_RELEASE_STATUSES → j_lease_owner j = Some w → job_ok j →
  edit_ok j (released st now j).
Proof.
  intros Hst Hw [Hwf _]. pose proof (lease_held_running _ _ Hwf Hw) as Hs.
  destruct Hwf as [_ (Ha & Hm & _)].
  assert (Hne : st ≠ PENDING ∧ st ≠ READY ∧ st ≠ RUNNING) by (by destruct st; set_solver).
  split.
  - split; simpl; [reflexivity| |lia|lia]. rewrite Hs. apply rtc_once.
    unfold job_edge. simpl. set_solver.
  - split; [unfold lease_consistent; simpl; by rewrite decide_False by naive_solver|].
    split; [exact Ha|]. split; [exact Hm|]. simpl. set_solver.
Qed.

(** Where an expired lease leaves a job. *)
Definition reclaim_status (j : Job) : JobStatus :=
  match j_retry_class j with
  | RetryClass.NEVER => TERMINAL_FAILURE
  | RetryClass.MANUAL_RESUME => FAILED
  | _ => if j_attempt j + 1 <? j_max_attempts j then READY else TERMINAL_FAILURE
  end.

Definition reclaimed (now : datetime) (j : Job) : Job :=
  set_j_attempt (j_attempt j + 1) (released (reclaim_status j) now j).

Lemma reclaim_one_spec now j : reclaim_one now j = Ok (reclaimed now j).
Proof.
  unfold reclaim_one, reclaimed, reclaim_status. simpl.
  destruct (j_retry_class j); simpl; try done;
    destruct (Z.leb_spec (j_max_attempts j) (j_attempt j + 1));
    destruct (Z.ltb_spec (j_attempt j + 1) (j_max_attempts j)); try lia; done.
Qed.

Lemma reclaimed_ok now j : j_status j = RUNNING → job_ok j → edit_ok j (reclaimed now j).
Proof.
  intros Hs [[_ (Ha & Hm & Hb)] _].
  assert (j_attempt j < j_max_attempts j) by (apply Hb; rewrite Hs; set_solver).
  split.
  - split; simpl; [reflexivity| |lia|lia]. rewrite Hs. unfold reclaim_status.
    destruct (j_retry_class j); try destruct (_ <? _); first
      [apply rtc_once; by auto with orch
      |eapply (rtc_l _ _ FAILED); [|apply rtc_once]; by auto with orch].
  - split; [|split; [simpl; lia|split; [exact Hm|]]].
    + unfold lease_consistent, reclaimed, reclaim_status. simpl.
      destruct (j_retry_class j); simpl; try done; by destruct (_ <? _).
    + unfold reclaimed, reclaim_status. simpl.
      destruct (j_retry_class j); simpl; try set_solver;
        destruct (Z.ltb_spec (j_attempt j + 1) (j_max_attempts j)); try done; set_solver.
Qed.

Section facts.
Context `{Backend}.

Lemma elem_of_ready_due locked now db k j :
  (k, j) ∈ select jobs (ready_due locked now) (λ r, j_scheduled_at r.2) db ↔
  jobs db !! k = Some j ∧ j_status j = READY ∧ j_scheduled_at j <= now ∧ k ∉ locked.
Proof.
  rewrite elem_of_select. unfold ready_due. simpl.
  rewrite !andb_true_iff, negb_true_iff, bool_decide_eq_true, bool_decide_eq_false, Z.leb_le.
  tauto.
Qed.

Lemma elem_of_expired locked now key db k j :
  (k, j) ∈ select jobs (lease_expired locked now) key db ↔
  jobs db !! k = Some j ∧ j_status j = RUNNING ∧
  (∃ t, j_lease_expires_at j = Some t ∧ t <= now) ∧ k ∉ locked.
Proof.
  rewrite elem_of_select. unfold lease_expired. simpl.
  rewrite !andb_true_iff, negb_true_iff, bool_decide_eq_true, bool_decide_eq_false.
  destruct (j_lease_expires_at j) as [t|]; [rewrite Z.leb_le|]; naive_solver.
Qed.

Lemma claim_ready_job_contract locked w now d : within contract (claim_ready_job locked w now d).
Proof.
  apply within_gets_bind. intros db.
  destruct (select _ _ _ db) as [|[k j] rows] eqn:Hsel; simpl; [reflexivity|].
  assert (Hin : (k, j) ∈ select jobs (ready_due locked now) (λ r, j_scheduled_at r.2) db)
    by (rewrite Hsel; left).
  apply elem_of_ready_due in Hin as (Hk & Hs & _).
  unfold lift_result, pybind at 1. simpl.
  assert (Hfl : contract db (flush_jobs [(k, claimed w now d j)] db).2).
  { apply flush_job_contract. intros old Hold Hok. simplify_eq. by apply claimed_ok. }
  unfold pybind. by destruct (flush_jobs _ db) as [[]].
Qed.

Lemma heartbeat_contract jid w now ext : within contract (heartbeat jid w now ext).
Proof.
  apply within_gets_bind. intros db. destruct (jobs db !! jid) as [j|] eqn:Hj; [|reflexivity].
  case_decide as Hw; [reflexivity|]. case_match; [reflexivity|].
  apply flush_job_contract. intros old Hold Hok. simplify_eq. by apply (beaten_ok w).
Qed.

Lemma release_lease_contract jid w now st : within contract (release_lease jid w now st).
Proof.
  unfold release_lease. case_decide as Hst; [apply within_raise; apply _|].
  apply within_gets_bind. intros db. destruct (jobs db !! jid) as [j|] eqn:Hj; [|reflexivity].
  case_decide as Hw; [reflexivity|].
  unfold lift_result, pybind. destruct (require_job_transition _ _); simpl; [|reflexivity].
  apply flush_job_contract. intros old Hold Hok. simplify_eq. by apply (released_ok w).
Qed.

(** The loop of [reclaim_expired_leases] as one flush. *)
Lemma reclaim_unfold locked now limit db :
  let rows := prod_map id (reclaimed now) <$> take limit
    (select jobs (lease_expired locked now) (λ r, default 0 (j_lease_expires_at r.2)) db) in
  reclaim_expired_leases locked now limit db =
  (do* flush_jobs rows; gets (λ db, (λ r, (r.1, default r.2 (jobs db !! r.1))) <$> rows)) db.
Proof.
  unfold reclaim_expired_leases. unfold gets at 1, pybind at 1. unfold pybind at 1, lift_result.
  by rewrite (traverse_on_row _ (reclaimed now)) by (intros; apply reclaim_one_spec).
Qed.

Lemma reclaim_contract locked now limit : within contract (reclaim_expired_leases locked now limit).
Proof.
  intros db. rewrite reclaim_unfold.
  assert (Hfl : contract db (flush_jobs (prod_map id (reclaimed now) <$> take limit
    (select jobs (lease_expired locked now) (λ r, default 0 (j_lease_expires_at r.2)) db)) db).2).
  { apply flush_edits_contract; [apply take_NoDup_fst, select_NoDup|].
    intros k j (Hk & Hs & _)%elem_of_take_1%elem_of_expired. split; [done|]. by apply reclaimed_ok. }
  unfold pybind. by destruct (flush_jobs _ db) as [[]].
Qed.
End facts.

#[export] Hint Resolve claim_ready_job_contract heartbeat_contract release_lease_contract
  reclaim_contract : orch.

(** ** What the lease operations promise *)

(** The claimable jobs at [now]. *)
Definition due (now : datetime) (j : Job) : Prop := j_status j = READY ∧ j_scheduled_at j <= now.

#[export] Instance due_dec now j : Decision (due now j).
Proof. unfold due. apply _. Defined.

Definition due_set (now : datetime) (db : DB) : gset uuid :=
  dom (filter (λ kj : uuid * Job, due now kj.2) (jobs db)).

Lemma elem_of_due_set now db k :
  k ∈ due_set now db ↔ ∃ j, jobs db !! k = Some j ∧ due now j.
Proof. unfold due_set. rewrite elem_of_dom. unfold is_Some. by setoid_rewrite map_lookup_filter_Some. Qed.

(** The row a claim stores. *)
Definition claimed_row (w : string) (now : datetime) (d : timedelta) (j : Job) : Job :=
  set_j_version (j_version j + 1) (claimed w now d j).

Section claims.
Context `{Backend}.

Lemma claimed_stored w now d j : j_status j = READY → stored j (claimed w now d j) = claimed_row w now d j.
Proof.
  intros Hs. unfold stored. rewrite decide_False; [done|].
  unfold job_mutable. simpl. congruence.
Qed.

(** The two outcomes of a claim. *)
Lemma claim_cases locked w now d db :
  db_ok db →
  (claim_ready_job locked w now d db = (Ok None, db) ∧ (∀ k, k ∈ due_set now db → k ∈ locked)) ∨
  (∃ k j, claim_ready_job locked w now d db =
      (Ok (Some (k, claimed_row w now d j)),
       set_jobs (<[k := claimed_row w now d j]> (jobs db)) db) ∧
    jobs db !! k = Some j ∧ due now j ∧ k ∉ locked ∧
    (∀ k2 j2, jobs db !! k2 = Some j2 → due now j2 → k2 ∉ locked →
      j_scheduled_at j <= j_scheduled_at j2)).
Proof.
  intros Hok. unfold claim_ready_job, gets, pybind, lift_result, pyret.
  pose proof (select_sorted jobs (ready_due locked now) (λ r, j_scheduled_at r.2) db) as Hsort.
  pose proof (elem_of_ready_due locked now db) as Hin.
  destruct (select _ _ _ db) as [|[k j] rows].
  - left. split; [done|]. intros k (j & Hk & Hs & Ht)%elem_of_due_set.
    destruct (decide (k ∈ locked)) as [|Hl]; [done|].
    destruct (not_elem_of_nil _ (proj2 (Hin k j) ltac:(done))).
  - right. destruct (proj1 (Hin k j)) as (Hk & Hs & Ht & Hl); [left|]. exists k, j.
    destruct (flush_job_ok db k (claimed w now d j) j Hk) as (db' & Hfl & ->).
    { apply (ok_jobs _ Hok k j Hk). }
    cbn [take]. rewrite (proj2 (require_job_transition_ok READY RUNNING)) by auto with orch.
    rewrite Hfl. unfold refreshed, gets. simpl. rewrite lookup_insert_eq. simpl.
    rewrite claimed_stored by done. do 4 (split; [done|]).
    intros k2 j2 Hk2 [Hs2 Ht2] Hl2.
    pose proof (proj2 (Hin k2 j2) ltac:(done)) as Hx.
    apply elem_of_cons in Hx as [Hx|Hx]; [by simplify_eq|].
    apply StronglySorted_inv in Hsort as [_ Hall]. by eapply (proj1 (Forall_forall _ _) Hall) in Hx.
Qed.

(** A claim never raises on a valid database.  It returns [None], changing
    nothing, exactly when no unlocked job is ready and due; otherwise it takes an
    unlocked ready job whose [scheduled_at] is the oldest of all of them, and the
    only change is that row, now [RUNNING] with the worker's lease. *)
Theorem claim_takes_oldest_due locked w now d db :
  db_ok db →
  match claim_ready_job locked w now d db with
  | (Ok None, db') => db' = db ∧ due_set now db ⊆ locked
  | (Ok (Some (k, j')), db') => ∃ j,
      jobs db !! k = Some j ∧ due now j ∧ k ∉ locked ∧
      j' = set_j_version (j_version j + 1) (set_j_updated_at now (set_j_heartbeat_at (Some now)
        (set_j_lease_expires_at (Some (now + d)) (set_j_lease_owner (Some w) (set_j_status RUNNING j))))) ∧
      db' = set_jobs (<[k := j']> (jobs db)) db ∧
      (∀ k2 j2, jobs db !! k2 = Some j2 → due now j2 → k2 ∉ locked →
        j_scheduled_at j <= j_scheduled_at j2)
  | (Raise _, _) => False
  end.
Proof.
  intros Hok. destruct (claim_cases locked w now d db Hok) as [[-> Hn]|(k & j & -> & Hk & Hd & Hl & Hmin)].
  - split; [done|]. intros k. apply Hn.
  - exists j. by repeat split; try apply Hd.
Qed.

(** C4: two transactions never claim the same job: neither while the first still
    holds its row lock (the second skips it), nor after it has committed. *)
Theorem claim_exclusive locked1 locked2 w1 w2 now1 now2 d1 d2 db db1 k1 j1 :
  db_ok db →
  claim_ready_job locked1 w1 now1 d1 db = (Ok (Some (k1, j1)), db1) →
  (∀ k2 j2 db2, claim_ready_job (locked2 ∪ {[k1]}) w2 now2 d2 db = (Ok (Some (k2, j2)), db2) →
    k2 ≠ k1) ∧
  (∀ k2 j2 db2, claim_ready_job locked2 w2 now2 d2 db1 = (Ok (Some (k2, j2)), db2) → k2 ≠ k1).
Proof.
  intros Hok H1.
  pose proof (claim_ready_job_contract locked1 w1 now1 d1 db Hok) as [Hok1 _].
  rewrite H1 in Hok1. simpl in Hok1.
  destruct (claim_cases locked1 w1 now1 d1 db Hok) as [[E _]|(k & j & E & Hk & Hd & Hl & _)];
    rewrite E in H1; simplify_eq. split.
  - intros k2 j2 db2 H2 ->.
    destruct (claim_cases (locked2 ∪ {[k1]}) w2 now2 d2 db Hok) as [[E2 _]|(? & ? & E2 & _ & _ & Hl2 & _)];
      rewrite E2 in H2; simplify_eq. set_solver.
  - intros k2 j2 db2 H2 ->.
    destruct (claim_cases locked2 w2 now2 d2 _ Hok1) as [[E2 _]|(? & ? & E2 & Hk2 & [Hs2 _] & _)];
      rewrite E2 in H2; simplify_eq. simpl in Hk2. rewrite lookup_insert_eq in Hk2.
    by simplify_eq.
Qed.

(** Claims by one worker until nothing is due. *)
Fixpoint claim_all (fuel : nat) (w : string) (now : datetime) (d : timedelta)
    : Session (list uuid) :=
  match fuel with
  | O => pyret []
  | S fuel =>
      let* c := claim_ready_job ∅ w now d in
      match c with
      | None => pyret []
      | Some (k, _) => let* ks := claim_all fuel w now d in pyret (k :: ks)
      end
  end.

Definition scheduled (db : DB) (k : uuid) : Z := from_option j_scheduled_at 0 (jobs db !! k).

(** A claim removes exactly its job from the queue. *)
Lemma claim_due_set w now d db k j :
  jobs db !! k = Some j → 
  due_set now (set_jobs (<[k := claimed_row w now d j]> (jobs db)) db) = due_set now db ∖ {[k]}.
Proof.
  intros Hk. apply set_eq. intros i. rewrite elem_of_difference, !elem_of_due_set,
    elem_of_singleton. simpl. split.
  - intros (ji & Hi & Hd). apply lookup_insert_Some in Hi as [[<- <-]|[? ?]];
      [by destruct Hd|]. split; [by exists ji|done].
  - intros [(ji & Hi & Hd) Hne]. exists ji. by rewrite lookup_insert_ne.
Qed.

(** C21: repeated claims drain the queue: with as many rounds as there are due jobs
    they hand out every due job exactly once, oldest schedule first, and leave no
    job ready and due. *)
Theorem claims_drain_the_queue w now d db :
  db_ok db →
  ∃ l db', claim_all (size (due_set now db)) w now d db = (Ok l, db') ∧
    NoDup l ∧ list_to_set l = due_set now db ∧
    StronglySorted (λ a b, scheduled db a <= scheduled db b) l ∧ due_set now db' = ∅.
Proof.
  remember (size (due_set now db)) as n eqn:Hn. revert db Hn.
  induction n as [|n IH]; intros db Hn Hok; simpl.
  - symmetry in Hn. apply size_empty_inv, leibniz_equiv in Hn.
    exists [], db. rewrite Hn. repeat split; constructor.
  - unfold pybind at 1.
    pose proof (claim_ready_job_contract ∅ w now d db Hok) as [Hok' _].
    destruct (claim_cases ∅ w now d db Hok) as [[E He]|(k & j & E & Hk & Hd & _ & Hmin)];
      rewrite E in *; simpl in Hok'.
    + assert (due_set now db = ∅) as Hz by (apply set_eq; set_solver).
      rewrite Hz, size_empty in Hn. done.
    + pose proof (claim_due_set w now d db k j Hk) as Hds.
      assert (Hin : k ∈ due_set now db) by (apply elem_of_due_set; eauto).
      set (db1 := set_jobs _ db) in *.
      destruct (IH db1) as (l & db' & Hl & Hnd & Hset & Hso & Hend); [|done|].
      { rewrite Hds, size_difference, size_singleton by set_solver. lia. }
      exists (k :: l), db'. unfold pybind. rewrite Hl. split; [done|].
      assert (Hsub : ∀ i, i ∈ l → i ∈ due_set now db ∧ i ≠ k).
      { intros i Hi. apply (elem_of_list_to_set (C := gset uuid)) in Hi.
        rewrite Hset, Hds in Hi. set_solver. }
      assert (Hsch : ∀ i, scheduled db1 i = scheduled db i).
      { intros i. unfold scheduled, db1. simpl. destruct (decide (i = k)) as [->|].
        - by rewrite lookup_insert_eq, Hk.
        - by rewrite lookup_insert_ne. }
      split; [constructor; [|done]; intros Hkl; by destruct (Hsub k Hkl)|]. split.
      { rewrite list_to_set_cons, Hset, Hds. symmetry. apply union_difference_singleton_L. done. }
      split; [|done]. constructor.
      * eapply StronglySorted_impl; [exact Hso|]. intros a b. cbn beta. by rewrite !Hsch.
      * apply Forall_forall. intros i Hi. destruct (Hsub i Hi) as [(ji & Hji & Hdi)%elem_of_due_set _].
        unfold scheduled. rewrite Hk, Hji. simpl. eapply Hmin; [done|done|set_solver].
Qed.
End claims.

Lemma claim_takes_oldest_due_witness :
  let db := sample_db [(1%N, sample_job "a" READY 5); (2%N, sample_job "b" READY 3)] in
  ∃ j j' db', @claim_ready_job reference_backend ∅ "worker-1" 10 100 db = (Ok (Some (2%N, j')), db') ∧
    jobs db !! 2%N = Some j ∧ due 10 j ∧ j_scheduled_at j <= 5.
Proof.
  intros db. assert (Hok : db_ok db) by solve_db_ok.
  pose proof (@claim_takes_oldest_due reference_backend ∅ "worker-1" 10 100 db Hok) as Hc.
  eassert (E : @claim_ready_job reference_backend ∅ "worker-1" 10 100 db = (Ok (Some (2%N, _)), _))
    by (vm_compute; reflexivity).
  rewrite E in Hc. destruct Hc as (j & Hj & Hd & _ & _ & _ & Hmin).
  exists j. do 2 eexists. split; [exact E|]. split; [exact Hj|]. split; [exact Hd|].
  apply (Hmin 1%N (sample_job "a" READY 5)); [reflexivity|split; [reflexivity|discriminate]|set_solver].
Defined.

Lemma claim_exclusive_witness :
  let db := sample_db [(1%N, sample_job "a" READY 5); (2%N, sample_job "b" READY 3)] in
  ∃ j1 db1 j2 db2,
    @claim_ready_job reference_backend ∅ "worker-1" 10 100 db = (Ok (Some (2%N, j1)), db1) ∧
    @claim_ready_job reference_backend ∅ "worker-2" 10 100 db1 = (Ok (Some (1%N, j2)), db2) ∧
    1%N ≠ 2%N.
Proof.
  intros db. do 4 eexists. split; [vm_compute; reflexivity|].
  split; [vm_compute; reflexivity|].
  refine (proj2 (@claim_exclusive reference_backend ∅ ∅ "worker-1" "worker-2" 10 10 100 100
    db _ 2%N _ _ _) 1%N _ _ _); [solve_db_ok|vm_compute; reflexivity|vm_compute; reflexivity].
Defined.

Lemma claims_drain_the_queue_witness :
  let db := sample_db [(1%N, sample_job "a" READY 5); (2%N, sample_job "b" READY 3);
                       (3%N, sample_job "c" READY 99)] in
  ∃ l db', @claim_all reference_backend (size (due_set 10 db)) "worker-1" 10 100 db = (Ok l, db') ∧
    NoDup l ∧ list_to_set l = due_set 10 db ∧ due_set 10 db' = ∅.
Proof.
  intros db.
  destruct (@claims_drain_the_queue reference_backend "worker-1" 10 100 db) as
    (l & db' & Hl & Hnd & Hs & _ & He); [solve_db_ok|].
  exists l, db'. repeat split; assumption.
Defined.

Section promises.
Context `{Backend}.

Lemma not_held_type jid j w : exn_type (not_held jid j w) = LeaseNotHeldError.
Proof. done. Qed.

(** Only the holder of a live lease heartbeats.  The holder of a lease that has
    not passed its expiry has its heartbeat set to [now] and, when an extension is
    given, its expiry to [now + extension]; a holder past expiry gets
    [LeaseExpiredError], anyone else [LeaseNotHeldError], and both change nothing. *)
Theorem heartbeat_spec jid w now ext db :
  db_ok db →
  match jobs db !! jid with
  | Some j =>
      if decide (j_lease_owner j = Some w) then
        if from_option (λ t, now <=? t) false (j_lease_expires_at j) then
          heartbeat jid w now ext db =
            (Ok tt, set_jobs (<[jid := stored j (beaten now ext j)]> (jobs db)) db)
        else ∃ m, heartbeat jid w now ext db = (Raise (Exn LeaseExpiredError m), db)
      else ∃ m, heartbeat jid w now ext db = (Raise (Exn LeaseNotHeldError m), db)
  | None => ∃ m, heartbeat jid w now ext db = (Raise (Exn LeaseNotHeldError m), db)
  end.
Proof.
  intros Hok. unfold heartbeat, get_job, gets, pybind.
  destruct (jobs db !! jid) as [j|] eqn:Hj; [|by eexists].
  destruct (ok_jobs _ Hok jid j Hj) as [Hwf Hchk].
  destruct (decide (j_lease_owner j = Some w)) as [Hw|Hw];
    [rewrite decide_False by naive_solver|rewrite decide_True by done; by eexists].
  pose proof (lease_held_running _ _ Hwf Hw) as Hs. destruct Hwf as [Hl _].
  unfold lease_consistent in Hl. rewrite decide_True in Hl by done.
  destruct Hl as (_ & [t Ht] & _). rewrite Ht. simpl.
  destruct (Z.ltb_spec t now); destruct (Z.leb_spec now t); try lia; [by eexists|].
  destruct (flush_job_ok db jid (beaten now ext j) j Hj) as (db' & -> & ->); [|done].
  by destruct ext.
Qed.

(** The release of a held lease, in the form the compositions use. *)
Lemma release_run jid w now st db j :
  db_ok db → job_edge RUNNING st → jobs db !! jid = Some j → j_lease_owner j = Some w →
  release_lease jid w now st db =
    (Ok tt, set_jobs (<[jid := set_j_version (j_version j + 1) (released st now j)]> (jobs db)) db).
Proof.
  intros Hok Hst Hj Hw. destruct (ok_jobs _ Hok jid j Hj) as [Hwf Hchk].
  unfold release_lease. rewrite decide_False by (intros Hn; by apply Hn).
  unfold get_job, gets, pybind, lift_result. rewrite Hj, decide_False by naive_solver.
  rewrite (proj2 (require_job_transition_ok RUNNING st)) by done.
  destruct (flush_job_ok db jid (released st now j) j Hj) as (db' & -> & ->); [exact Hchk|].
  do 4 f_equal. unfold stored. rewrite decide_False; [done|]. unfold job_mutable. simpl. congruence.
Qed.

(** A release is refused with [ValueError] unless the final status is one that
    the table allows from [RUNNING], and with [LeaseNotHeldError] unless the caller
    holds the lease; a refusal changes nothing.  Otherwise the row is moved to the
    final status with its lease columns cleared, also when the lease has expired. *)
Theorem release_lease_spec jid w now st db :
  db_ok db →
  if decide (job_edge RUNNING st) then
    match jobs db !! jid with
    | Some j =>
        if decide (j_lease_owner j = Some w) then
          j_status j = RUNNING ∧
          release_lease jid w now st db =
            (Ok tt, set_jobs (<[jid := set_j_version (j_version j + 1) (set_j_updated_at now (set_j_heartbeat_at None
              (set_j_lease_expires_at None (set_j_lease_owner None (set_j_status st j)))))]>
                       (jobs db)) db)
        else ∃ m, release_lease jid w now st db = (Raise (Exn LeaseNotHeldError m), db)
    | None => ∃ m, release_lease jid w now st db = (Raise (Exn LeaseNotHeldError m), db)
    end
  else ∃ m, release_lease jid w now st db = (Raise (Exn ValueError m), db).
Proof.
  intros Hok. destruct (decide (job_edge RUNNING st)) as [Hst|Hst].
  2: { unfold release_lease. rewrite decide_True; [by eexists|exact Hst]. }
  destruct (jobs db !! jid) as [j|] eqn:Hj; [destruct (decide (j_lease_owner j = Some w)) as [Hw|Hw]|].
  { split; [apply (lease_held_running _ w); [apply (ok_jobs _ Hok jid j Hj)|done]|].
    by apply release_run. }
  all: unfold release_lease; rewrite decide_False by (intros Hn; by apply Hn);
    unfold get_job, gets, pybind; rewrite Hj, ?decide_True by done; by eexists.
Qed.

(** The rows of a reclaim. *)
Definition expired_rows (locked : gset uuid) (now : datetime) (db : DB) : list (uuid * Job) :=
  select jobs (lease_expired locked now) (λ r, default 0 (j_lease_expires_at r.2)) db.

Lemma reclaimed_check now j : job_ok j → j_status j = RUNNING → job_check (reclaimed now j) = true.
Proof.
  intros [[_ (_ & _ & Hb)] Hc] Hs. unfold job_check in *. simpl.
  rewrite !andb_true_iff in *. destruct Hc as [[_ Hm] Ho]. repeat split; [|done|done].
  apply Z.leb_le. assert (j_attempt j < j_max_attempts j); [|lia]. apply Hb. rewrite Hs. set_solver.
Qed.

Lemma reclaimed_stored now j :
  j_status j = RUNNING → stored j (reclaimed now j) = set_j_version (j_version j + 1) (reclaimed now j).
Proof.
  intros Hs. unfold stored. rewrite decide_False; [done|]. unfold job_mutable. simpl.
  intros [= _ Ha]. lia.
Qed.

Lemma reclaim_runs locked now limit db :
  db_ok db →
  let rows := take limit (expired_rows locked now db) in
  ∃ out, reclaim_expired_leases locked now limit db =
    (Ok out, foldl store_job db (prod_map id (reclaimed now) <$> rows)) ∧ out.*1 = rows.*1.
Proof.
  intros Hok rows. rewrite reclaim_unfold. fold (expired_rows locked now db). fold rows.
  unfold pybind. rewrite flush_edits_ok.
  - eexists. split; [done|]. rewrite <- list_fmap_compose.
    transitivity ((prod_map id (reclaimed now) <$> rows).*1); [done|apply fmap_rows_fst].
  - intros k j (Hk & Hs & _)%elem_of_take_1%elem_of_expired.
    apply reclaimed_check; [|done]. by apply (ok_jobs _ Hok k).
Qed.

Lemma reclaim_lookup locked now limit db k :
  let rows := take limit (expired_rows locked now db) in
  jobs (foldl store_job db (prod_map id (reclaimed now) <$> rows)) !! k =
  if decide (k ∈ rows.*1) then
    (λ j, set_j_version (j_version j + 1) (reclaimed now j)) <$> jobs db !! k
  else jobs db !! k.
Proof.
  intros rows. apply store_edits_lookup; [apply take_NoDup_fst, select_NoDup|].
  intros k' j (Hk & Hs & _)%elem_of_take_1%elem_of_expired. by rewrite reclaimed_stored.
Qed.

(** C19: a reclaim takes at most [limit] of the unlocked running jobs whose lease
    has expired, the earliest expiries first, and touches no other row.  Each taken
    job has one more attempt, no lease, and the status its retry class says:
    [TERMINAL_FAILURE] for [NEVER] or an exhausted budget, [FAILED] for
    [MANUAL_RESUME], and [READY] otherwise.  When nothing is locked and the limit is
    not reached, no expired lease is left. *)
Theorem reclaim_expired_leases_spec locked now limit db :
  db_ok db →
  ∃ out db', reclaim_expired_leases locked now limit db = (Ok out, db') ∧
    out.*1 = take limit (expired_rows locked now db).*1 ∧
    (∀ k, jobs db' !! k = if decide (k ∈ out.*1)
       then (λ j, set_j_version (j_version j + 1) (set_j_attempt (j_attempt j + 1)
              (released (reclaim_status j) now j))) <$> jobs db !! k
       else jobs db !! k) ∧
    (∀ k j, (k, j) ∈ expired_rows locked now db ↔ jobs db !! k = Some j ∧ j_status j = RUNNING ∧
       (∃ t, j_lease_expires_at j = Some t ∧ t <= now) ∧ k ∉ locked) ∧
    StronglySorted (λ a b, default 0 (j_lease_expires_at a.2) <= default 0 (j_lease_expires_at b.2))
      (expired_rows locked now db) ∧
    (length (expired_rows locked now db) <= limit → expired_rows locked now db' = [])%nat.
Proof.
  intros Hok. destruct (reclaim_runs locked now limit db Hok) as (out & Hrun & Hout).
  pose proof (reclaim_lookup locked now limit db) as Hlook. simpl in Hlook.
  set (db' := foldl store_job db _) in *.
  exists out, db'. split; [done|]. split; [by rewrite Hout, fmap_take|].
  split; [by intros k; rewrite Hlook, Hout|].
  split; [intros k j; apply elem_of_expired|]. split; [apply select_sorted|].
  intros Hlen. apply elem_of_nil_inv. intros [k j] Hin.
  apply elem_of_expired in Hin as (Hk & Hs & (t & Ht & Hle) & Hl).
  rewrite Hlook, take_ge in Hk by done. case_decide as Hd.
  - destruct (jobs db !! k) as [j0|]; simplify_eq/=.
  - apply Hd, list_elem_of_fmap. exists (k, j). split; [done|].
    apply elem_of_expired. do 2 (split; [done|]). split; [by exists t|done].
Qed.

(** Without the lease, neither operation does anything. *)
Lemma heartbeat_refused jid w now ext db :
  (∀ j, jobs db !! jid = Some j → j_lease_owner j ≠ Some w) →
  ∃ m, heartbeat jid w now ext db = (Raise (Exn LeaseNotHeldError m), db).
Proof.
  intros Hn. unfold heartbeat, get_job, gets, pybind.
  destruct (jobs db !! jid) as [j|]; [|by eexists].
  rewrite decide_True by (by apply Hn). by eexists.
Qed.

Lemma release_refused jid w now st db :
  job_edge RUNNING st → (∀ j, jobs db !! jid = Some j → j_lease_owner j ≠ Some w) →
  ∃ m, release_lease jid w now st db = (Raise (Exn LeaseNotHeldError m), db).
Proof.
  intros Hst Hn. unfold release_lease. rewrite decide_False by (intros Hx; by apply Hx).
  unfold get_job, gets, pybind. destruct (jobs db !! jid) as [j|]; [|by eexists].
  rewrite decide_True by (by apply Hn). by eexists.
Qed.

(** C20: after a reclaim the previous holder is fenced off: a late heartbeat or
    release of a reclaimed job, by any worker, raises [LeaseNotHeldError] and
    changes nothing. *)
Theorem reclaimed_holder_is_fenced locked now limit db out db' k w later ext st :
  db_ok db →
  reclaim_expired_leases locked now limit db = (Ok out, db') →
  k ∈ out.*1 → job_edge RUNNING st →
  (∃ m, heartbeat k w later ext db' = (Raise (Exn LeaseNotHeldError m), db')) ∧
  (∃ m, release_lease k w later st db' = (Raise (Exn LeaseNotHeldError m), db')).
Proof.
  intros Hok Hrun Hk Hst. destruct (reclaim_runs locked now limit db Hok) as (out' & E & Hout).
  rewrite E in Hrun. simplify_eq.
  rewrite Hout in Hk.
  assert (Hn : ∀ j, jobs (foldl store_job db (prod_map id (reclaimed now) <$>
                  take limit (expired_rows locked now db))) !! k = Some j →
                j_lease_owner j ≠ Some w).
  { intros j Hj. rewrite reclaim_lookup, decide_True in Hj by done.
    destruct (jobs db !! k) as [j0|]; simplify_eq/=. done. }
  split; [by apply heartbeat_refused|by apply release_refused].
Qed.
End promises.

(** Two running jobs, the first with an expired lease. *)
Definition lease_sample : DB :=
  sample_db [(1%N, sample_running "a" "worker-1" 50); (2%N, sample_running "b" "worker-2" 500)].

Lemma lease_sample_ok : db_ok lease_sample.
Proof. solve_db_ok. Defined.

Lemma heartbeat_spec_witness :
  ∃ db', heartbeat 2%N "worker-2" 100 (Some 60) lease_sample = (Ok tt, db').
Proof.
  eexists. exact (heartbeat_spec 2%N "worker-2" 100 (Some 60) lease_sample lease_sample_ok).
Defined.

Lemma release_lease_spec_witness :
  ∃ db', release_lease 1%N "worker-1" 100 SUCCEEDED lease_sample = (Ok tt, db').
Proof.
  eexists.
  exact (proj2 (release_lease_spec 1%N "worker-1" 100 SUCCEEDED lease_sample lease_sample_ok)).
Defined.

Lemma reclaim_expired_leases_spec_witness :
  ∃ out db', @reclaim_expired_leases reference_backend ∅ 100 50 lease_sample = (Ok out, db') ∧
    @expired_rows reference_backend ∅ 100 db' = [].
Proof.
  destruct (@reclaim_expired_leases_spec reference_backend ∅ 100 50 lease_sample lease_sample_ok)
    as (out & db' & Hr & _ & _ & _ & _ & He).
  exists out, db'. split; [exact Hr|]. apply He. apply Nat.leb_le. vm_compute. reflexivity.
Defined.

Lemma reclaimed_holder_is_fenced_witness :
  ∃ db' m, (@reclaim_expired_leases reference_backend ∅ 100 50 lease_sample).2 = db' ∧
    release_lease 1%N "worker-1" 101 SUCCEEDED db' = (Raise (Exn LeaseNotHeldError m), db').
Proof.
  destruct (@reclaim_expired_leases reference_backend ∅ 100 50 lease_sample) as [r db'] eqn:E.
  pose proof E as E'. vm_compute in E'. injection E' as Hr _.
  destruct r as [out|e]; [|discriminate].
  destruct (@reclaimed_holder_is_fenced reference_backend ∅ 100 50 lease_sample out db' 1%N
    "worker-1" 101 None SUCCEEDED lease_sample_ok E) as [_ [m Hm]].
  - injection Hr as <-. left.
  - by_decide.
  - exists db', m. split; [reflexivity|exact Hm].
Defined.
