(* ===== verification/Repositories.v ===== *)
(** * Repositories

    [persistence/repositories/events.py] and [jobs.py]: the append-only event log,
    the reservation and effect-attempt lookups, and the read-only job queries. *)

From S2P Require Import Prelude PyText Enums Errors TransitionGuard Tables Evolution.
Open Scope string_scope.
Open Scope Z_scope.

(** [datetime.now(UTC)] when the caller gives no time. *)
Definition now_or (now : option datetime) : Session datetime :=
  gets (λ db, default (db_clock db) now).

(** [x or {}] of an optional JSON object. *)
Definition dict_or_empty (x : option json) : json :=
  match x with
  | None | Some (JDict []) => JDict []
  | Some d => d
  end.

Module EventRepository.
Section repo.
Context `{Backend}.

Definition by_dedupe_key (dedupe_key : string) : Session (option (uuid * Event)) :=
  let* rows := gets (select events (λ _ e, bool_decide (ev_dedupe_key e = dedupe_key)) unordered) in
  lift_result (one_or_none rows).

Definition append (event_name : EventName) (aggregate_type : string) (aggregate_id : uuid)
    (dedupe_key : string) (occurred_at : datetime) (workflow_id job_id agent_run_id : option uuid)
    (payload : option json) : Session (uuid * Event) :=
  let* existing := by_dedupe_key dedupe_key in
  match existing with
  | Some _ =>
      pyraise (Exn EventAppendError ("event " ++ dedupe_key ++ " is already recorded"))
  | None =>
      let* recorded := clock_now in
      let event := {| ev_name := event_name; ev_aggregate_type := aggregate_type;
        ev_aggregate_id := aggregate_id; ev_workflow_id := workflow_id; ev_job_id := job_id;
        ev_agent_run_id := agent_run_id; ev_payload := dict_or_empty payload;
        ev_dedupe_key := dedupe_key; ev_occurred_at := occurred_at; ev_recorded_at := recorded |} in
      let* eid := insert_event event in
      pyret (eid, event)
  end.

(** [ORDER BY occurred_at, recorded_at] *)
Definition occurrence_order (a b : uuid * Event) : Prop :=
  ev_occurred_at a.2 < ev_occurred_at b.2 ∨
  ev_occurred_at a.2 = ev_occurred_at b.2 ∧ ev_recorded_at a.2 <= ev_recorded_at b.2.

#[local] Instance occurrence_order_dec a b : Decision (occurrence_order a b).
Proof. unfold occurrence_order. apply _. Defined.

Definition for_aggregate (aggregate_id : uuid) : Session (list (uuid * Event)) :=
  gets (λ db, merge_sort occurrence_order
    (select events (λ _ e, bool_decide (ev_aggregate_id e = aggregate_id)) unordered db)).
End repo.
End EventRepository.

Module IdempotencyRepository.
Section repo.
Context `{Backend}.

Definition by_key (key : string) : Session (option (uuid * IdempotencyRecord)) :=
  let* rows := gets (select idempotency_records (λ _ r, bool_decide (idem_key r = key)) unordered) in
  lift_result (one_or_none rows).

Definition reserve (idempotency_key : string) (job_id : uuid) (operation : string)
    (side_effect_class : SideEffectClass) : Session (uuid * IdempotencyRecord) :=
  let* reserved := clock_now in
  let record := {| idem_key := idempotency_key; idem_job_id := job_id;
    idem_operation := operation; idem_side_effect_class := side_effect_class;
    idem_reserved_at := reserved; idem_completed_at := None |} in
  let* rid := insert_idempotency record in
  pyret (rid, record).
End repo.
End IdempotencyRepository.

Module EffectAttemptRepository.
Section repo.
Context `{Backend}.

(** The attempts that satisfy [P], highest reconciliation attempt first. *)
Definition newest_attempts (P : EffectAttempt → bool) (db : DB) : list (uuid * EffectAttempt) :=
  select effect_attempts (λ _ e, P e) (λ r, - eff_reconciliation_attempt r.2) db.

Definition latest_for_key (key : string) : Session (option (uuid * EffectAttempt)) :=
  let* rows := gets (newest_attempts (λ e, bool_decide (eff_key e = key))) in
  lift_result (one_or_none (take 1 rows)).

Definition unresolved : Session (list (uuid * EffectAttempt)) :=
  gets (select effect_attempts (λ _ e, bool_decide (eff_state e = EffectState.UNKNOWN)) unordered).
End repo.
End EffectAttemptRepository.

Module JobRepository.
Section repo.
Context `{Backend}.

Definition by_idempotency_key (key : string) : Session (option (uuid * Job)) :=
  let* rows := gets (select jobs (λ _ j, bool_decide (j_idempotency_key j = key)) unordered) in
  lift_result (one_or_none rows).

Definition ready_due (now : datetime) (limit : nat) : Session (list (uuid * Job)) :=
  gets (λ db, take limit (select jobs (λ _ j, bool_decide (j_status j = JobStatus.READY) &&
    (j_scheduled_at j <=? now)) (λ r, j_scheduled_at r.2) db)).

Definition in_workflow (workflow_id : uuid) : Session (list (uuid * Job)) :=
  gets (select jobs (λ _ j, bool_decide (j_workflow_id j = workflow_id)) (λ r, j_created_at r.2)).

Definition unsatisfied_dependencies (job_id : uuid) : Session (list (uuid * JobDependency)) :=
  gets (select job_dependencies (λ _ d, bool_decide (dep_job_id d = job_id) &&
    bool_decide (dep_satisfied_at d = None)) unordered).
End repo.
End JobRepository.

(** ** Unique-key lookups *)

Section unique.
Context `{Backend} {A : Type} (table : DB → gmap uuid A) (key : A → string).

(** On a unique column the lookup returns the row that holds the key, or none. *)
Lemma unique_select (k : string) db :
  unique_key key (table db) →
  let rows := select table (λ _ a, bool_decide (key a = k)) unordered db in
  (∃ i a, table db !! i = Some a ∧ key a = k ∧ rows = [(i, a)]) ∨
  ((∀ i a, table db !! i = Some a → key a ≠ k) ∧ rows = []).
Proof.
  intros Hu rows.
  assert (Hin : ∀ i a, (i, a) ∈ rows ↔ table db !! i = Some a ∧ key a = k).
  { intros i a. unfold rows. rewrite elem_of_select. simpl. by rewrite bool_decide_eq_true. }
  assert (Hnd : NoDup rows.*1) by apply select_NoDup.
  destruct rows as [|[i a] [|[i' a'] rows]].
  - right. split; [|done]. intros i a Hi Hk. by apply (not_elem_of_nil (i, a)), Hin.
  - left. exists i, a. destruct (proj1 (Hin i a)); [left|done].
  - exfalso. destruct (proj1 (Hin i a)) as [H1 K1]; [left|].
    destruct (proj1 (Hin i' a')) as [H2 K2]; [right; left|].
    assert (i = i') as -> by (eapply Hu; [exact H1|exact H2|congruence]).
    apply NoDup_cons in Hnd as [Hn _]. apply Hn. left.
Qed.
End unique.

Section log.
Context `{Backend}.
Import EventRepository.

Lemma by_dedupe_key_spec k db :
  db_ok db →
  (∃ i e, events db !! i = Some e ∧ ev_dedupe_key e = k ∧
     by_dedupe_key k db = (Ok (Some (i, e)), db)) ∨
  ((∀ i e, events db !! i = Some e → ev_dedupe_key e ≠ k) ∧ by_dedupe_key k db = (Ok None, db)).
Proof.
  intros Hok. unfold by_dedupe_key, gets, pybind, lift_result.
  destruct (unique_select events ev_dedupe_key k db (ok_events _ Hok)) as
    [(i & e & Hi & Hk & ->)|[Hn ->]]; [left; by exists i, e|by right].
Qed.

Lemma by_dedupe_key_contract k : within contract (by_dedupe_key k).
Proof. unfold by_dedupe_key. solve_within. Qed.
#[local] Hint Resolve by_dedupe_key_contract : orch.

Lemma append_contract n at_ ai k t w j r p : within contract (append n at_ ai k t w j r p).
Proof.
  unfold append, clock_now. solve_within.
Qed.
End log.

#[export] Hint Resolve by_dedupe_key_contract append_contract : orch.
