(* ===== verification/Idempotency.v ===== *)
(** * Idempotency reservations and the effect ledger

    [orchestration/idempotency.py]: a key is reserved before an external write, the
    attempts at the effect are tracked in [effect_attempts], and the committed
    effect is written once to [receipts]. *)

From S2P Require Import Prelude PyText Enums Errors TransitionGuard Tables Evolution Samples.
From S2P Require Import Repositories.
From Stdlib Require Import QArith.QArith_base.
Close Scope Q_scope.
Open Scope string_scope.
Open Scope Z_scope.

Record IdempotencyReservation := {
  res_record_id : uuid;
  res_idempotency_key : string;
  res_job_id : uuid;
  res_reserved_at : datetime
}.

Section ops.
Context `{Backend}.

Definition reserve_idempotency_key (idempotency_key : string) (job_id : uuid) (operation : string)
    (side_effect_class : SideEffectClass) (now : option datetime) : Session IdempotencyReservation :=
  let* now := now_or now in
  let record := {| idem_key := idempotency_key; idem_job_id := job_id;
    idem_operation := operation; idem_side_effect_class := side_effect_class;
    idem_reserved_at := now; idem_completed_at := None |} in
  let* rid := try_except (insert_idempotency record) (λ e,
    if isa (exn_type e) IntegrityError then
      pyraise (Exn IdempotencyKeyReservedError
        ("idempotency key " ++ str_repr idempotency_key ++ " already reserved"))
    else pyraise e) in
  pyret {| res_record_id := rid; res_idempotency_key := idempotency_key; res_job_id := job_id;
           res_reserved_at := now |}.

Definition get_idempotency_record (idempotency_key : string)
    : Session (option (uuid * IdempotencyRecord)) :=
  let* rows := gets (select idempotency_records
                       (λ _ r, bool_decide (idem_key r = idempotency_key)) unordered) in
  lift_result (one_or_none rows).

Definition mark_idempotency_completed (idempotency_key : string) (now : option datetime)
    : Session unit :=
  let* now := now_or now in
  let* rows := gets (select idempotency_records
                       (λ _ r, bool_decide (idem_key r = idempotency_key)) unordered) in
  let* found := lift_result (one_or_none rows) in
  match found with
  | None => pyraise (Exn ValueError ("idempotency key " ++ str_repr idempotency_key ++ " not found"))
  | Some (rid, record) =>
      modify (λ db, set_idempotency_records
        (<[rid := set_idem_completed_at (Some now) record]> (idempotency_records db)) db)
  end.

Definition get_latest_effect_attempt (idempotency_key : string)
    : Session (option (uuid * EffectAttempt)) :=
  gets (λ db, head (take 1 (EffectAttemptRepository.newest_attempts
    (λ e, bool_decide (eff_key e = idempotency_key)) db))).

Definition record_effect_attempt (idempotency_key : string) (job_id : uuid)
    (agent_run_id : option uuid) (provider operation : string) (effect_state : EffectState)
    (provider_object_id : option string) (reconciliation_attempt : Z) (now : option datetime)
    : Session (uuid * EffectAttempt) :=
  let* now := now_or now in
  let attempt := {| eff_key := idempotency_key; eff_job_id := job_id;
    eff_agent_run_id := agent_run_id; eff_provider := provider; eff_operation := operation;
    eff_state := effect_state; eff_provider_object_id := provider_object_id;
    eff_reconciliation_attempt := reconciliation_attempt; eff_observed_at := now;
    eff_recorded_at := now |} in
  let* eid := insert_effect_attempt attempt in
  pyret (eid, attempt).

Definition record_receipt (job_id : uuid) (idempotency_key provider operation : string)
    (side_effect_class : SideEffectClass) (autonomy_mode : AutonomyMode)
    (effect_state : EffectState) (provider_object_id : option string) (amount : option Q)
    (currency : option string) (safe_detail : option json) (now : option datetime)
    : Session (uuid * Receipt) :=
  let* now := now_or now in
  let receipt := {| rc_job_id := job_id; rc_key := idempotency_key; rc_provider := provider;
    rc_operation := operation; rc_side_effect_class := side_effect_class;
    rc_autonomy_mode := autonomy_mode; rc_effect_state := effect_state;
    rc_provider_object_id := provider_object_id; rc_amount := amount; rc_currency := currency;
    rc_safe_detail := dict_or_empty safe_detail; rc_recorded_at := now |} in
  let* rid := insert_receipt receipt in
  pyret (rid, receipt).

(** [effect_state in ("CONFIRMED", "ABSENT")] *)
Definition effect_resolved (e : EffectAttempt) : bool :=
  bool_decide (eff_state e ∈ [EffectState.CONFIRMED; EffectState.ABSENT]).

Definition is_reconciliation_resolved (idempotency_key : string) : Session bool :=
  let* latest := get_latest_effect_attempt idempotency_key in
  match latest with
  | None => pyret false
  | Some (_, e) => pyret (effect_resolved e)
  end.
End ops.

Definition derive_idempotency_key (job_type : string) (workflow_id object_id : uuid)
    (operation : string) : string :=
  job_type ++ ":" ++ uuid_str workflow_id ++ ":" ++ uuid_str object_id ++ ":" ++ operation.

(** ** Contracts *)

Section contracts.
Context `{Backend}.

Lemma reserve_contract k j o c now : within contract (reserve_idempotency_key k j o c now).
Proof. unfold reserve_idempotency_key, now_or. solve_within. Qed.

Lemma record_effect_attempt_contract k j r p o s i n now :
  within contract (record_effect_attempt k j r p o s i n now).
Proof. unfold record_effect_attempt, now_or. solve_within. Qed.

Lemma record_receipt_contract j k p o c m s i a u d now :
  within contract (record_receipt j k p o c m s i a u d now).
Proof. unfold record_receipt, now_or. solve_within. Qed.

Lemma mark_completed_contract k now : within contract (mark_idempotency_completed k now).
Proof.
  intros db. unfold mark_idempotency_completed, now_or, gets, lift_result, pybind.
  set (t := default _ now).
  destruct (one_or_none _) as [[[rid r]|]|e] eqn:Ho; simpl; try reflexivity.
  assert (Hr : idempotency_records db !! rid = Some r).
  { destruct (select _ _ _ db) as [|x [|]] eqn:Hs; simplify_eq/=.
    assert (Hin : (rid, r) ∈ [(rid, r)]) by left. rewrite <- Hs in Hin.
    by apply elem_of_select in Hin as [Hin _]. }
  db_frame.
  - apply rows_evolve_insert; [apply _|]. intros b Hb. simplify_eq. by split.
  - apply unique_key_update. intros k' a' Hk'. apply lookup_insert_Some in Hk' as [[<- <-]|[_ ?]];
      eauto.
Qed.
End contracts.

#[export] Hint Resolve reserve_contract record_effect_attempt_contract record_receipt_contract
  mark_completed_contract : orch.

(** ** At-most-once *)

Section at_most_once.
Context `{Backend}.

Definition key_reserved (k : string) (db : DB) : Prop :=
  ∃ i r, idempotency_records db !! i = Some r ∧ idem_key r = k.

Lemma key_reserved_any k db :
  table_any (idempotency_records db) (λ r, bool_decide (idem_key r = k)) = true ↔
  key_reserved k db.
Proof. rewrite table_any_true. unfold key_reserved. by setoid_rewrite bool_decide_eq_true. Qed.

Lemma key_reserved_evolves k db db' : db_evolves db db' → key_reserved k db → key_reserved k db'.
Proof.
  intros He (i & r & Hi & Hk). destruct (de_reservations _ _ He i r Hi) as (r' & Hi' & Hr' & _).
  exists i, r'. split; [done|congruence].
Qed.

Lemma reserve_cases k j o c now db :
  (¬ key_reserved k db ∧ is_Some (jobs db !! j) ∧
    ∃ r db', reserve_idempotency_key k j o c now db = (Ok r, db') ∧ key_reserved k db' ∧
      jobs db' = jobs db ∧ res_idempotency_key r = k ∧ res_job_id r = j) ∨
  ((key_reserved k db ∨ jobs db !! j = None) ∧
    ∃ m, reserve_idempotency_key k j o c now db = (Raise (Exn IdempotencyKeyReservedError m), db)).
Proof.
  unfold reserve_idempotency_key, now_or, gets, pybind, try_except, insert_idempotency. simpl.
  pose proof (key_reserved_any k db) as Hany.
  destruct (table_any _ _).
  - right. split; [left; by apply Hany|]. simpl. by eexists.
  - destruct (jobs db !! j) as [job|]; simpl.
    + left. split; [naive_solver|]. split; [done|]. do 2 eexists. split; [done|]. simpl.
      split; [|done]. eexists _, _. simpl. by rewrite lookup_insert_eq.
    + right. split; [by right|]. by eexists.
Qed.

(** C8: at most one reservation per key, for good.  Reserving succeeds exactly when
    the key is free and the job exists; and once it has succeeded, no reservation
    of the same key, by any job, succeeds in any database the orchestrator can
    evolve to: each raises [IdempotencyKeyReservedError] and changes nothing. *)
Theorem reservation_at_most_once k j o c now db :
  (∀ r db1, reserve_idempotency_key k j o c now db = (Ok r, db1) →
    ∀ db2 j2 o2 c2 now2, db_evolves db1 db2 →
    ∃ m, reserve_idempotency_key k j2 o2 c2 now2 db2 =
      (Raise (Exn IdempotencyKeyReservedError m), db2)) ∧
  ((∃ r db1, reserve_idempotency_key k j o c now db = (Ok r, db1)) ↔
    ¬ key_reserved k db ∧ is_Some (jobs db !! j)).
Proof.
  destruct (reserve_cases k j o c now db) as
    [(Hf & Hj & r & db' & E & Hres & _)|(Hf & m & E)]; rewrite E.
  - split; [|naive_solver]. intros r1 db1 [= <- <-] db2 j2 o2 c2 now2 He.
    destruct (reserve_cases k j2 o2 c2 now2 db2) as [(Hn & _)|(_ & m & ->)]; [|by eexists].
    destruct Hn. by eapply key_reserved_evolves.
  - split; [naive_solver|]. split; [naive_solver|]. intros [? [? ?]]. naive_solver.
Qed.

(** The reservation is resolved exactly when the attempt with the highest
    reconciliation number recorded for the key is [CONFIRMED] or [ABSENT]; with no
    attempt recorded it is not, and the query changes nothing. *)
Theorem is_reconciliation_resolved_spec k db :
  ∃ b, is_reconciliation_resolved k db = (Ok b, db) ∧
  ((∀ i e, effect_attempts db !! i = Some e → eff_key e ≠ k) → b = false) ∧
  (∀ i e, effect_attempts db !! i = Some e → eff_key e = k →
    (∀ i' e', effect_attempts db !! i' = Some e' → eff_key e' = k → i' ≠ i →
      eff_reconciliation_attempt e' < eff_reconciliation_attempt e) →
    b = bool_decide (eff_state e = EffectState.CONFIRMED ∨ eff_state e = EffectState.ABSENT)).
Proof.
  unfold is_reconciliation_resolved, get_latest_effect_attempt, gets, pybind.
  pose proof (elem_of_select effect_attempts (λ _ e, bool_decide (eff_key e = k))
    (λ r, - eff_reconciliation_attempt r.2) db) as Hin.
  pose proof (select_sorted effect_attempts (λ _ e, bool_decide (eff_key e = k))
    (λ r, - eff_reconciliation_attempt r.2) db) as Hsort.
  fold (EffectAttemptRepository.newest_attempts (λ e, bool_decide (eff_key e = k)) db) in *.
  destruct (EffectAttemptRepository.newest_attempts _ db) as [|[i0 e0] rows]; simpl.
  - eexists. split; [done|]. split; [done|]. intros i e Hi Hk _. exfalso.
    apply (not_elem_of_nil (i, e)), Hin. by rewrite bool_decide_eq_true.
  - destruct (proj1 (Hin (i0, e0))) as [H0 K0]; [left|]. simpl in H0, K0.
    apply bool_decide_eq_true in K0.
    eexists. split; [done|]. split; [naive_solver|]. intros i e Hi Hk Hmax.
    assert (i = i0) as ->.
    { destruct (decide (i = i0)) as [|Hne]; [done|].
      assert (Hx : (i, e) ∈ (i0, e0) :: rows) by (apply Hin; by rewrite bool_decide_eq_true).
      apply elem_of_cons in Hx as [Hx|Hx]; [by simplify_eq|].
      apply StronglySorted_inv in Hsort as [_ Hall].
      apply (proj1 (Forall_forall _ _) Hall) in Hx. simpl in Hx.
      assert (i0 ≠ i) as Hne' by done.
      specialize (Hmax i0 e0 H0 K0 Hne'). lia. }
    simplify_eq. unfold effect_resolved. apply bool_decide_ext. set_solver.
Qed.
End at_most_once.

(** For job types without a colon the derived key determines the job type, the
    workflow, the object and the operation; different effects never share a key. *)
Theorem derive_idempotency_key_inj t1 t2 w1 w2 o1 o2 p1 p2 :
  str_free colon t1 = true → str_free colon t2 = true →
  uuid_ok w1 → uuid_ok w2 → uuid_ok o1 → uuid_ok o2 →
  derive_idempotency_key t1 w1 o1 p1 = derive_idempotency_key t2 w2 o2 p2 →
  t1 = t2 ∧ w1 = w2 ∧ o1 = o2 ∧ p1 = p2.
Proof.
  intros F1 F2 W1 W2 O1 O2 Hk. unfold derive_idempotency_key in Hk.
  apply str_field_inj in Hk as [-> Hk]; [|done|done].
  apply str_field_inj in Hk as [Hw Hk]; [|apply uuid_str_no_colon..].
  apply str_field_inj in Hk as [Ho ->]; [|apply uuid_str_no_colon..].
  apply uuid_str_inj in Hw; [|done|done]. apply uuid_str_inj in Ho; [|done|done]. done.
Qed.

Lemma derive_idempotency_key_inj_witness :
  derive_idempotency_key "PublishListingJob" 1 2 "publish" ≠
  derive_idempotency_key "PublishListingJob" 1 3 "publish".
Proof.
  intros Hk. apply derive_idempotency_key_inj in Hk as (_ & _ & Ho & _);
    [discriminate|reflexivity..].
Defined.

(** A colon in the job type lets two effects share a key. *)
Example derive_idempotency_key_colon :
  derive_idempotency_key ("a:" ++ uuid_str 1) 2 3 "x" =
  derive_idempotency_key "a" 1 2 (uuid_str 3 ++ ":x").
Proof. vm_compute. reflexivity. Qed.
