(* ===== verification/DependencyResolver.v ===== *)
(** * Dependency resolution

    [orchestration/dependency_resolver.py]: when a [PENDING] job may become [READY],
    the promotion, and the propagation of success and failure along
    [job_dependencies].  Reasons are kept as text because the promotion picks its
    exception class from the words in them. *)

From S2P Require Import Prelude PyText Enums Errors TransitionGuard Tables Evolution Samples.
From S2P Require Import Leases.
Open Scope string_scope.
Open Scope Z_scope.
Import JobStatus.

(** SQL's [status <> 'SUCCEEDED'] of the predecessor; a missing row compares as NULL. *)
Definition predecessor_unfinished (db : DB) (pid : uuid) : bool :=
  match jobs db !! pid with
  | Some p => negb (bool_decide (j_status p = SUCCEEDED))
  | None => false
  end.

Definition check_dependencies_satisfied (job_id : uuid) : Session bool :=
  gets (λ db, negb (table_any (job_dependencies db) (λ d,
    bool_decide (dep_job_id d = job_id) &&
    (bool_decide (dep_satisfied_at d = None) ||
     predecessor_unfinished db (dep_depends_on_job_id d))))).

Definition check_workflow_active (workflow_id : uuid) : Session bool :=
  let* workflow := get_workflow workflow_id in
  match workflow with
  | None => pyret false
  | Some w => pyret (bool_decide (wf_completed_at w = None))
  end.

Definition check_idempotency_collision (job_id : uuid) (idempotency_key : string) : Session bool :=
  gets (λ db, table_any (idempotency_records db) (λ r,
    bool_decide (idem_key r = idempotency_key) && negb (bool_decide (idem_job_id r = job_id)))).

Definition terminal_states : list ProductLifecycleState :=
  [ProductLifecycleState.REJECTED; ProductLifecycleState.DEACTIVATED].

Definition check_product_lifecycle_valid (workflow_id : uuid) : Session bool :=
  let* workflow := get_workflow workflow_id in
  match workflow with
  | None => pyret false
  | Some w => pyret (negb (bool_decide (wf_product_state w ∈ terminal_states)))
  end.

Definition evaluate_job_readiness (job_id : uuid) (now : datetime) : Session (bool * string) :=
  let* found := get_job job_id in
  match found with
  | None => pyret (false, "Job " ++ uuid_str job_id ++ " not found")
  | Some job =>
      if decide (j_status job ≠ PENDING) then
        pyret (false, "Job is " ++ JobStatus_value (j_status job) ++ ", not PENDING")
      else if now <? j_scheduled_at job then
        pyret (false, "Job scheduled for " ++ datetime_str (j_scheduled_at job) ++
                      ", now is " ++ datetime_str now)
      else
        let* deps_satisfied := check_dependencies_satisfied job_id in
        if negb deps_satisfied then pyret (false, "Dependencies not satisfied") else
        let* workflow_active := check_workflow_active (j_workflow_id job) in
        if negb workflow_active then pyret (false, "Workflow is no longer active") else
        let* lifecycle_valid := check_product_lifecycle_valid (j_workflow_id job) in
        if negb lifecycle_valid then
          pyret (false, "Product lifecycle is terminal (REJECTED or DEACTIVATED)") else
        let* collision :=
          (if str_truth (j_idempotency_key job)
           then check_idempotency_collision job_id (j_idempotency_key job) else pyret false) in
        if collision then
          pyret (false, "Idempotency key " ++ j_idempotency_key job ++ " already reserved")
        else pyret (true, "All conditions satisfied")
  end.

(** The exception the promotion raises for a reason. *)
Definition promotion_error (reason : string) : exn :=
  if str_in "dependencies" (str_lower reason) then Exn DependencyNotSatisfiedError reason
  else if str_in "workflow" (str_lower reason) then Exn WorkflowInactiveError reason
  else if str_in "idempotency" (str_lower reason) then Exn IdempotencyCollisionError reason
  else Exn DependencyResolutionError reason.

Definition promoted (now : datetime) (j : Job) : Job := set_j_updated_at now (set_j_status READY j).

Definition promote_pending_to_ready (job_id : uuid) (now : datetime) : Session (uuid * Job) :=
  let* found := get_job job_id in
  match found with
  | None => pyraise (Exn DependencyResolutionError ("Job " ++ uuid_str job_id ++ " not found"))
  | Some job =>
      if decide (j_status job ≠ PENDING) then
        pyraise (Exn DependencyResolutionError
          ("Job is " ++ JobStatus_value (j_status job) ++ ", not PENDING"))
      else
        let* r := evaluate_job_readiness job_id now in
        if negb r.1 then pyraise (promotion_error r.2)
        else
          do* lift_result (require_job_transition PENDING READY);
          let job := promoted now job in
          do* flush_jobs [(job_id, job)];
          refreshed (job_id, job)
  end.

Definition blocked (now : datetime) (j : Job) : Job := set_j_updated_at now (set_j_status BLOCKED j).

Definition block_one (now : datetime) (j : Job) : result exn Job :=
  do? require_job_transition PENDING BLOCKED;
  Ok (blocked now j).

Section ops.
Context `{Backend}.

(** The join: [job_dependencies] holds at most one row per pair of jobs, so it lists
    each dependent job once. *)
Definition pending_dependent (failed_job_id : uuid) (db : DB) (jid : uuid) (j : Job) : bool :=
  bool_decide (j_status j = PENDING) &&
  table_any (job_dependencies db) (λ d,
    bool_decide (dep_job_id d = jid) && bool_decide (dep_depends_on_job_id d = failed_job_id)).

Definition propagate_dependency_failure (failed_job_id : uuid) (now : datetime)
    : Session (list uuid) :=
  let* dependent_jobs := gets (λ db, select jobs (pending_dependent failed_job_id db) unordered db) in
  let* edited := lift_result (traverse (on_row (block_one now)) dependent_jobs) in
  do* flush_jobs edited;
  pyret edited.*1.

Definition satisfy_dependency (succeeded_job_id : uuid) (now : datetime) : Session nat :=
  let* dependencies := gets (select job_dependencies (λ _ d,
    bool_decide (dep_depends_on_job_id d = succeeded_job_id) &&
    bool_decide (dep_satisfied_at d = None)) unordered) in
  do* modify (λ db, set_job_dependencies
    (foldl (λ t r, <[r.1 := set_dep_satisfied_at (Some now) r.2]> t)
       (job_dependencies db) dependencies) db);
  pyret (length dependencies).
End ops.

(** ** Readiness *)

(** What the documentation asks of a job before it may run. *)
Record ready_conditions (db : DB) (jid : uuid) (now : datetime) (job : Job) : Prop := {
  rc_pending : j_status job = PENDING;
  rc_due : j_scheduled_at job <= now;
  rc_deps : ∀ i d, job_dependencies db !! i = Some d → dep_job_id d = jid →
    is_Some (dep_satisfied_at d) ∧
    ∀ p, jobs db !! dep_depends_on_job_id d = Some p → j_status p = SUCCEEDED;
  rc_workflow : ∃ w, workflow_runs db !! j_workflow_id job = Some w ∧ wf_completed_at w = None ∧
    wf_product_state w ∉ terminal_states;
  rc_key_free : j_idempotency_key job ≠ "" →
    ∀ i r, idempotency_records db !! i = Some r → idem_key r = j_idempotency_key job →
    idem_job_id r = jid
}.

Lemma deps_satisfied_iff db jid :
  negb (table_any (job_dependencies db) (λ d, bool_decide (dep_job_id d = jid) &&
    (bool_decide (dep_satisfied_at d = None) ||
     predecessor_unfinished db (dep_depends_on_job_id d)))) = true ↔
  ∀ i d, job_dependencies db !! i = Some d → dep_job_id d = jid →
    is_Some (dep_satisfied_at d) ∧
    ∀ p, jobs db !! dep_depends_on_job_id d = Some p → j_status p = SUCCEEDED.
Proof.
  rewrite negb_true_iff, table_any_false. unfold predecessor_unfinished. split.
  - intros Hn i d Hi <-. specialize (Hn i d Hi). rewrite bool_decide_true in Hn by done.
    simpl in Hn. apply orb_false_iff in Hn as [Hs Hp]. apply bool_decide_eq_false in Hs.
    split; [by apply not_eq_None_Some|]. intros p Hpj. rewrite Hpj in Hp.
    by apply negb_false_iff, bool_decide_eq_true in Hp.
  - intros Hall i d Hi. destruct (decide (dep_job_id d = jid)) as [Hd|Hd];
      [|by rewrite bool_decide_false].
    rewrite bool_decide_true by done. destruct (Hall i d Hi Hd) as [[t Ht] Hp]. rewrite Ht. simpl.
    destruct (jobs db !! dep_depends_on_job_id d) as [p|]; [|done].
    by rewrite (Hp p eq_refl), bool_decide_true.
Qed.

Lemma collision_iff db jid key :
  table_any (idempotency_records db) (λ r, bool_decide (idem_key r = key) &&
    negb (bool_decide (idem_job_id r = jid))) = false ↔
  ∀ i r, idempotency_records db !! i = Some r → idem_key r = key → idem_job_id r = jid.
Proof.
  rewrite table_any_false. split.
  - intros Hn i r Hi Hk. specialize (Hn i r Hi). rewrite bool_decide_true in Hn by done.
    by apply negb_false_iff, bool_decide_eq_true in Hn.
  - intros Hall i r Hi. destruct (decide (idem_key r = key)) as [Hk|Hk];
      [|by rewrite bool_decide_false].
    by rewrite (Hall i r Hi Hk), !bool_decide_true.
Qed.

(** The reading is pure and decides the conditions. *)
Lemma evaluate_job_readiness_iff jid now db job :
  jobs db !! jid = Some job →
  ∃ b why, evaluate_job_readiness jid now db = (Ok (b, why), db) ∧
    (b = true ↔ ready_conditions db jid now job).
Proof.
  intros Hj. unfold evaluate_job_readiness, get_job, gets, pybind. rewrite Hj.
  case_decide as Hs; [do 2 eexists; split; [done|]; split; [done|by intros []]|].
  destruct (Z.ltb_spec now (j_scheduled_at job));
    [do 2 eexists; split; [done|]; split; [done|intros []; lia]|].
  unfold check_dependencies_satisfied, gets. pose proof (deps_satisfied_iff db jid) as Hdeps.
  destruct (negb (table_any (job_dependencies db) _)); cbn [negb];
    [|do 2 eexists; split; [done|]; split; [done|intros []; naive_solver]].
  unfold check_workflow_active, check_product_lifecycle_valid, get_workflow, gets, pybind, pyret.
  destruct (workflow_runs db !! j_workflow_id job) as [w|] eqn:Hw; cbn [negb];
    [|do 2 eexists; split; [done|]; split; [done|intros []; naive_solver]].
  case_bool_decide as Hc; cbn [negb];
    [|do 2 eexists; split; [done|]; split; [done|intros []; naive_solver]].
  rewrite Hw. case_bool_decide as Ht; cbn [negb];
    [do 2 eexists; split; [done|]; split; [done|intros []; naive_solver]|].
  unfold check_idempotency_collision, gets, str_truth.
  pose proof (collision_iff db jid (j_idempotency_key job)) as Hcol.
  case_decide as Hk.
  - do 2 eexists. split; [done|]. split; [|done]. intros _. split; try done; naive_solver.
  - destruct (table_any (idempotency_records db) _).
    + do 2 eexists. split; [done|]. split; [done|]. intros []. naive_solver.
    + do 2 eexists. split; [done|]. split; [|done]. intros _. split; try done; naive_solver.
Qed.

Lemma promotion_error_isa why : isa (exn_type (promotion_error why)) DependencyResolutionError = true.
Proof. unfold promotion_error. by repeat case_match. Qed.

Lemma promoted_ok now j : j_status j = PENDING → job_ok j → edit_ok j (promoted now j).
Proof.
  intros Hs [Hwf _]. pose proof (lease_free _ Hwf) as Hl. rewrite Hs in Hl.
  destruct Hwf as [_ (Ha & Hm & Hb)]. split.
  - split; simpl; [reflexivity| |lia|lia]. rewrite Hs. apply rtc_once. auto with orch.
  - split; [unfold lease_consistent; simpl; by apply Hl|]. split; [exact Ha|]. split; [exact Hm|].
    intros _. simpl. apply Hb. rewrite Hs. left.
Qed.

Lemma blocked_ok now j : j_status j = PENDING → job_ok j → edit_ok j (blocked now j).
Proof.
  intros Hs [Hwf _]. pose proof (lease_free _ Hwf) as Hl. rewrite Hs in Hl.
  destruct Hwf as [_ (Ha & Hm & Hb)]. split.
  - split; simpl; [reflexivity| |lia|lia]. rewrite Hs. apply rtc_once. auto with orch.
  - split; [unfold lease_consistent; simpl; by apply Hl|]. split; [exact Ha|]. split; [exact Hm|].
    simpl. set_solver.
Qed.

(** The outcomes of a promotion. *)
Lemma promote_cases jid now db :
  db_ok db →
  (∃ job, jobs db !! jid = Some job ∧ ready_conditions db jid now job ∧
    let job' := set_j_version (j_version job + 1) (promoted now job) in
    promote_pending_to_ready jid now db =
      (Ok (jid, job'), set_jobs (<[jid := job']> (jobs db)) db)) ∨
  ((∀ job, jobs db !! jid = Some job → ¬ ready_conditions db jid now job) ∧
    ∃ e, promote_pending_to_ready jid now db = (Raise e, db) ∧
      isa (exn_type e) DependencyResolutionError = true).
Proof.
  intros Hok. unfold promote_pending_to_ready, get_job, gets, pybind, lift_result.
  destruct (jobs db !! jid) as [job|] eqn:Hj;
    [|right; split; [done|]; eexists; split; [done|reflexivity]].
  case_decide as Hs.
  { right. split; [intros ? [= <-] []; done|]. eexists. split; [done|reflexivity]. }
  destruct (evaluate_job_readiness_iff jid now db job Hj) as ([] & why & E & Hb);
    rewrite E; cbn [negb fst snd].
  - left. exists job. split; [done|]. split; [by apply Hb|].
    rewrite (proj2 (require_job_transition_ok PENDING READY)) by auto with orch.
    destruct (flush_job_ok db jid (promoted now job) job Hj) as (db' & -> & ->);
      [apply (ok_jobs _ Hok jid job Hj)|].
    unfold refreshed, gets. simpl. rewrite lookup_insert_eq. simpl.
    assert (stored job (promoted now job) =
      set_j_version (j_version job + 1) (promoted now job)) as ->; [|done].
    unfold stored. rewrite decide_False; [done|]. unfold job_mutable. simpl. congruence.
  - right. split; [intros ? [= <-] Hr; by apply Hb in Hr|]. eexists. split; [done|].
    apply promotion_error_isa.
Qed.

Lemma promote_contract jid now : within contract (promote_pending_to_ready jid now).
Proof.
  intros db Hok. destruct (promote_cases jid now db Hok) as [(job & Hj & Hr & E)|(_ & e & E & _)];
    simpl in E; rewrite E; simpl; [|split; [done|reflexivity]].
  assert (Hc : contract db (flush_jobs [(jid, promoted now job)] db).2).
  { apply flush_job_contract. intros old Ho Hjo. simplify_eq. apply promoted_ok; [|done].
    apply Hr. }
  destruct (flush_job_ok db jid (promoted now job) job Hj) as (db' & E' & ->);
    [apply (ok_jobs _ Hok jid job Hj)|].
  rewrite E' in Hc. simpl in Hc. unfold stored in Hc. rewrite decide_False in Hc; [by apply Hc|].
  unfold job_mutable. simpl. destruct Hr. congruence.
Qed.
#[export] Hint Resolve promote_contract : orch.

(** C22: a promotion succeeds exactly when the job is pending and due, every
    dependency is marked satisfied and its predecessor succeeded, the workflow is
    active with a live product, and no other job holds its idempotency key.  It then
    sets that row [READY] and nothing else; otherwise it raises a
    [DependencyResolutionError] and changes nothing. *)
Theorem promote_pending_to_ready_spec jid now db :
  db_ok db →
  match promote_pending_to_ready jid now db with
  | (Ok r, db') => ∃ job, jobs db !! jid = Some job ∧ ready_conditions db jid now job ∧
      r = (jid, set_j_version (j_version job + 1) (set_j_updated_at now (set_j_status READY job))) ∧
      db' = set_jobs (<[jid := r.2]> (jobs db)) db
  | (Raise e, db') => db' = db ∧ isa (exn_type e) DependencyResolutionError = true ∧
      ∀ job, jobs db !! jid = Some job → ¬ ready_conditions db jid now job
  end.
Proof.
  intros Hok. destruct (promote_cases jid now db Hok) as [(job & Hj & Hr & E)|(Hn & e & E & He)];
    simpl in E; rewrite E; [by exists job|done].
Qed.

(** Job 1 waits on job 2, which succeeded. *)
Definition dependency_sample : DB :=
  set_job_dependencies {[9%N := {| dep_job_id := 1; dep_depends_on_job_id := 2;
                                   dep_satisfied_at := Some 5 |}]}
    (sample_db [(1%N, sample_job "a" PENDING 5); (2%N, sample_job "b" SUCCEEDED 0)]).

Lemma promote_pending_to_ready_spec_witness :
  match promote_pending_to_ready 1 10 dependency_sample with
  | (Ok r, _) => j_status r.2 = READY
  | (Raise _, _) => False
  end.
Proof.
  assert (Hok : db_ok dependency_sample) by solve_db_ok.
  pose proof (promote_pending_to_ready_spec 1 10 dependency_sample Hok) as Hp.
  destruct (promote_pending_to_ready 1 10 dependency_sample) as [[r|e] db'] eqn:E.
  - destruct Hp as (job & _ & _ & -> & _). reflexivity.
  - vm_compute in E. discriminate.
Defined.

(** A reserved key whose text contains "workflow" is reported as an inactive
    workflow, and a terminal product as a plain [DependencyResolutionError]. *)
Example promotion_error_misclassified :
  exn_type (promotion_error ("Idempotency key " ++ "ENTRY:workflow-setup:1" ++ " already reserved"))
    = WorkflowInactiveError ∧
  exn_type (promotion_error "Product lifecycle is terminal (REJECTED or DEACTIVATED)")
    = DependencyResolutionError.
Proof. vm_compute. split; reflexivity. Qed.

Section propagation.
Context `{Backend}.

Lemma elem_of_pending_dependent fid db k j :
  (k, j) ∈ select jobs (pending_dependent fid db) unordered db ↔
  jobs db !! k = Some j ∧ j_status j = PENDING ∧
  ∃ i d, job_dependencies db !! i = Some d ∧ dep_job_id d = k ∧ dep_depends_on_job_id d = fid.
Proof.
  rewrite elem_of_select. unfold pending_dependent. simpl.
  rewrite andb_true_iff, bool_decide_eq_true, table_any_true.
  setoid_rewrite andb_true_iff. setoid_rewrite bool_decide_eq_true. naive_solver.
Qed.

Lemma propagate_unfold fid now db :
  let rows := prod_map id (blocked now) <$> select jobs (pending_dependent fid db) unordered db in
  propagate_dependency_failure fid now db = (do* flush_jobs rows; pyret rows.*1) db.
Proof.
  unfold propagate_dependency_failure, lift_result, gets, pybind.
  by rewrite (traverse_on_row _ (blocked now)).
Qed.

Lemma propagate_contract fid now : within contract (propagate_dependency_failure fid now).
Proof.
  intros db. rewrite propagate_unfold.
  assert (Hc : contract db (flush_jobs (prod_map id (blocked now) <$>
    select jobs (pending_dependent fid db) unordered db) db).2).
  { apply flush_edits_contract; [apply select_NoDup|].
    intros k j (Hk & Hs & _)%elem_of_pending_dependent. split; [done|]. by apply blocked_ok. }
  unfold pybind. by destruct (flush_jobs _ db) as [[]].
Qed.

Lemma satisfy_contract sid now : within contract (satisfy_dependency sid now).
Proof. intros db. unfold satisfy_dependency, gets, modify, pybind, pyret. simpl. db_frame. Qed.

(** When a job fails for good, exactly its direct [PENDING] dependents become
    [BLOCKED]: they are the jobs returned, every other job row is untouched, and a
    blocked job is never promoted afterwards. *)
Theorem propagate_dependency_failure_spec fid now db :
  db_ok db →
  ∃ ids db', propagate_dependency_failure fid now db = (Ok ids, db') ∧
    (∀ k, k ∈ ids ↔ ∃ j i d, jobs db !! k = Some j ∧ j_status j = PENDING ∧
       job_dependencies db !! i = Some d ∧ dep_job_id d = k ∧ dep_depends_on_job_id d = fid) ∧
    (∀ k, jobs db' !! k = if decide (k ∈ ids)
       then (λ j, set_j_version (j_version j + 1) (set_j_updated_at now (set_j_status BLOCKED j))) <$> jobs db !! k
       else jobs db !! k) ∧
    (∀ k later, k ∈ ids → ∃ e, promote_pending_to_ready k later db' = (Raise e, db')).
Proof.
  intros Hok. rewrite propagate_unfold.
  set (sel := select jobs (pending_dependent fid db) unordered db).
  assert (Hsel : ∀ k j, (k, j) ∈ sel ↔ _) by apply elem_of_pending_dependent.
  assert (Hnd : NoDup sel.*1) by apply select_NoDup.
  epose proof (λ k, store_edits_lookup (blocked now) sel db k Hnd _) as Hlook.
  Unshelve. 2: { intros k' j (Hk & Hs & _)%Hsel. split; [done|].
    unfold stored. rewrite decide_False; [done|]. unfold job_mutable. simpl. congruence. }
  unfold pybind. rewrite flush_edits_ok.
  2: { intros k j (Hk & _)%Hsel. apply (ok_jobs _ Hok k j Hk). }
  do 2 eexists. split; [done|]. rewrite fmap_rows_fst. split; [|split; [done|]].
  - intros k. rewrite list_elem_of_fmap. split.
    + intros ([k0 j] & -> & (Hk & Hs & i & d & Hd)%Hsel). naive_solver.
    + intros (j & i & d & Hk & Hs & Hd). exists (k, j). split; [done|]. apply Hsel. naive_solver.
  - intros k later Hk. unfold promote_pending_to_ready, get_job, gets, pybind.
    rewrite Hlook, decide_True by done. destruct (jobs db !! k) as [j|]; simpl; by eexists.
Qed.

(** One pass over the selected dependency rows. *)
Lemma foldl_satisfy_lookup now (rows : list (uuid * JobDependency))
    (t : gmap uuid JobDependency) i :
  foldl (λ t r, <[r.1 := set_dep_satisfied_at (Some now) r.2]> t) t rows !! i =
  match (list_to_map (reverse rows) : gmap uuid JobDependency) !! i with
  | Some d => Some (set_dep_satisfied_at (Some now) d)
  | None => t !! i
  end.
Proof.
  revert t. induction rows as [|[k d] rows IH] using rev_ind; intros t; [done|].
  rewrite foldl_app, reverse_app. simpl. destruct (decide (i = k)) as [->|Hne].
  - by rewrite !lookup_insert_eq.
  - rewrite !lookup_insert_ne by done. apply IH.
Qed.

(** Marking a success satisfies exactly the open dependencies on that job.  If
    they were the last ones its dependents waited for (every other predecessor
    already succeeded and was marked), the dependents' check passes afterwards. *)
Theorem satisfy_dependency_spec sid now db :
  ∃ n db', satisfy_dependency sid now db = (Ok n, db') ∧ jobs db' = jobs db ∧
    (∀ i, job_dependencies db' !! i =
       (λ d, if decide (dep_depends_on_job_id d = sid ∧ dep_satisfied_at d = None)
             then set_dep_satisfied_at (Some now) d else d) <$> job_dependencies db !! i) ∧
    (∀ s jid, jobs db !! sid = Some s → j_status s = SUCCEEDED →
      (∀ i d, job_dependencies db !! i = Some d → dep_job_id d = jid →
        dep_depends_on_job_id d ≠ sid → is_Some (dep_satisfied_at d) ∧
        ∀ p, jobs db !! dep_depends_on_job_id d = Some p → j_status p = SUCCEEDED) →
      check_dependencies_satisfied jid db' = (Ok true, db')).
Proof.
  unfold satisfy_dependency, gets, modify, pybind, pyret.
  set (rows := select job_dependencies _ unordered db).
  assert (Hrows : ∀ i d, (i, d) ∈ rows ↔ job_dependencies db !! i = Some d ∧
    dep_depends_on_job_id d = sid ∧ dep_satisfied_at d = None).
  { intros i d. unfold rows. rewrite elem_of_select. simpl.
    by rewrite andb_true_iff, !bool_decide_eq_true. }
  assert (Hnd : NoDup (reverse rows).*1).
  { rewrite fmap_reverse, reverse_Permutation. apply select_NoDup. }
  do 2 eexists. split; [done|]. split; [done|].
  match goal with |- (∀ i, job_dependencies ?db' !! i = _) ∧ _ =>
    assert (Hdeps : ∀ i, job_dependencies db' !! i =
       (λ d, if decide (dep_depends_on_job_id d = sid ∧ dep_satisfied_at d = None)
             then set_dep_satisfied_at (Some now) d else d) <$> job_dependencies db !! i) end.
  { intros i. simpl. rewrite foldl_satisfy_lookup.
    destruct (list_to_map (reverse rows) !! i) as [d|] eqn:Hi.
    - apply elem_of_list_to_map_2, elem_of_reverse, Hrows in Hi as [Hd Hc]. rewrite Hd. simpl.
      by rewrite decide_True.
    - destruct (job_dependencies db !! i) as [d|] eqn:Hd; simpl; [|done].
      rewrite decide_False; [done|]. intros Hc.
      apply not_elem_of_list_to_map_2 in Hi. apply Hi, list_elem_of_fmap.
      exists (i, d). split; [done|]. apply elem_of_reverse, Hrows. done. }
  split; [exact Hdeps|]. intros s jid Hs Hst Hother.
  unfold check_dependencies_satisfied, gets. f_equal. f_equal.
  apply deps_satisfied_iff. intros i d Hi Hd. rewrite Hdeps in Hi. simpl.
  destruct (job_dependencies db !! i) as [d0|] eqn:Hd0; simplify_eq/=.
  destruct (decide (dep_depends_on_job_id d0 = sid)) as [<-|Hne].
  - case_decide as Hc; simpl.
    + split; [done|]. intros p Hp. by simplify_eq.
    + split; [|intros p Hp; by simplify_eq]. apply not_eq_None_Some. naive_solver.
  - rewrite decide_False in * by naive_solver. by eapply Hother.
Qed.
End propagation.

Lemma propagate_dependency_failure_spec_witness :
  ∃ ids db', @propagate_dependency_failure reference_backend 2 10 dependency_sample = (Ok ids, db') ∧
    1%N ∈ ids.
Proof.
  destruct (@propagate_dependency_failure_spec reference_backend 2 10 dependency_sample)
    as (ids & db' & E & Hids & _); [solve_db_ok|].
  exists ids, db'. split; [exact E|]. apply Hids.
  exists (sample_job "a" PENDING 5), 9%N, {| dep_job_id := 1; dep_depends_on_job_id := 2;
    dep_satisfied_at := Some 5 |}. repeat split.
Defined.

#[export] Hint Resolve propagate_contract satisfy_contract : orch.
