(* ===== verification/Scheduler.v ===== *)
(** * Scheduler

    [orchestration/scheduler.py]: promotion of due jobs, detection of stalled jobs,
    durable timers, and the scheduler cycle that composes them with the reclaim of
    expired leases. *)

From S2P Require Import Prelude PyText Enums Errors TransitionGuard Tables Evolution Samples.
From S2P Require Import Leases DependencyResolver.
Open Scope string_scope.
Open Scope Z_scope.
Import JobStatus.

Definition minutes (n : Z) : timedelta := n * 60000000.

Definition DEFAULT_STALL_THRESHOLD : timedelta := minutes 5.

Section ops.
Context `{Backend}.

(** ** Promotion of due jobs *)

Definition pending_due (now : datetime) (_ : uuid) (j : Job) : bool :=
  bool_decide (j_status j = PENDING) && (j_scheduled_at j <=? now).

(** The loop body: a promotion that is refused is skipped. *)
Definition promote_or_skip (now : datetime) (promoted : list (uuid * Job)) (row : uuid * Job)
    : Session (list (uuid * Job)) :=
  try_except
    (let* promoted_job := promote_pending_to_ready row.1 now in pyret (promoted ++ [promoted_job])%list)
    (λ error, if isa (exn_type error) DependencyResolutionError then pyret promoted
              else pyraise error).

Definition promote_due_jobs (now : datetime) (limit : nat) : Session (list (uuid * Job)) :=
  let* rows := gets (select jobs (pending_due now) (λ r, j_scheduled_at r.2)) in
  for_fold (promote_or_skip now) (take limit rows) [].

(** ** Stalled jobs *)

Definition stalled (locked : gset uuid) (now stall_cutoff : datetime) (jid : uuid) (j : Job) : bool :=
  bool_decide (j_status j = RUNNING) &&
  match j_heartbeat_at j with Some t => t <? stall_cutoff | None => false end &&
  match j_lease_expires_at j with Some t => now <? t | None => false end &&
  negb (bool_decide (jid ∈ locked)).

Definition stall_one (now : datetime) (job : Job) : result exn Job :=
  do? require_job_transition RUNNING FAILED;
  let job := set_j_status FAILED job in
  let job := set_j_attempt (j_attempt job + 1) job in
  let job := set_j_lease_owner None job in
  let job := set_j_lease_expires_at None job in
  let job := set_j_heartbeat_at None job in
  Ok (set_j_updated_at now job).

(** The [JOB_STALLED] event of a row as it was before the edit. *)
Definition stall_event (now : datetime) (stall_threshold : timedelta) (recorded : datetime)
    (row : uuid * Job) : Event :=
  {| ev_name := EventName.JOB_STALLED; ev_aggregate_type := "Job"; ev_aggregate_id := row.1;
     ev_workflow_id := Some (j_workflow_id row.2); ev_job_id := Some row.1;
     ev_agent_run_id := None;
     ev_payload := JDict
       [("job_type", JStr (j_type row.2));
        ("stall_threshold_seconds", JInt (Z.quot stall_threshold 1000000));
        ("last_heartbeat_at", from_option (λ t, JStr (isoformat t)) JNull (j_heartbeat_at row.2))];
     ev_dedupe_key := "job_stalled:" ++ uuid_str row.1 ++ ":" ++ isoformat now;
     ev_occurred_at := now; ev_recorded_at := recorded |}.

Definition insert_events (es : list Event) : Session unit :=
  for_fold (λ _ e, let* _ := insert_event e in pyret tt) es tt.

Definition detect_stalled_jobs (locked : gset uuid) (now : datetime) (stall_threshold : timedelta)
    (limit : nat) : Session (list (uuid * Job)) :=
  let stall_cutoff := now - stall_threshold in
  let* rows := gets (select jobs (stalled locked now stall_cutoff)
                       (λ r, default 0 (j_heartbeat_at r.2))) in
  let stalled_jobs := take limit rows in
  let* edited := lift_result (traverse (on_row (stall_one now)) stalled_jobs) in
  let* recorded := clock_now in
  do* atomically
    (do* flush_jobs edited;
     insert_events (stall_event now stall_threshold recorded <$> stalled_jobs));
  gets (λ db, (λ r, (r.1, default r.2 (jobs db !! r.1))) <$> edited).

(** ** Timers *)

Definition schedule_maturity_timer (workflow_id : uuid) (maturity_date now : datetime)
    : Session (option (uuid * Job)) :=
  let* workflow := get_workflow workflow_id in
  match workflow with
  | None => pyraise (Exn ValueError ("Workflow " ++ uuid_str workflow_id ++ " not found"))
  | Some w =>
      if decide (wf_completed_at w ≠ None) then pyret None
      else
        let* jid := gets (λ db, uuid4 (dom (jobs db))) in
        let job := {| j_workflow_id := workflow_id; j_type := "maturity_check";
          j_object_type := "workflow_runs"; j_object_id := workflow_id; j_owner_agent_id := "A01";
          j_status := PENDING; j_input := JDict []; j_success_contract := JDict [];
          j_scheduled_at := maturity_date; j_attempt := 0; j_max_attempts := 3;
          j_idempotency_key := "MATURITY_CHECK:" ++ uuid_str workflow_id;
          j_side_effect_class := SideEffectClass.NONE; j_retry_class := RetryClass.SAFE;
          j_allowed_mode := AutonomyMode.SIMULATION; j_lease_owner := None;
          j_lease_expires_at := None; j_heartbeat_at := None; j_created_at := now;
          j_updated_at := now; j_version := 1 |} in
        do* insert_job jid job;
        pyret (Some (jid, job))
  end.

(** [updated_at] is not a column of [scheduled_triggers]; that assignment stores nothing. *)
Definition schedule_weekly_timer (shop_id : uuid) (trigger_key : string) (next_fire_at : datetime)
    (cron_expression : string) (now : datetime) : Session unit :=
  let* rows := gets (select scheduled_triggers
                       (λ _ t, bool_decide (trig_key t = trigger_key)) unordered) in
  match rows with
  | (tid, existing) :: _ =>
      modify (λ db, set_scheduled_triggers
        (<[tid := set_trig_next_fire_at next_fire_at existing]> (scheduled_triggers db)) db)
  | [] =>
      let* _ := insert_trigger {| trig_shop_id := shop_id; trig_kind := "WEEKLY_REVIEW";
        trig_key := trigger_key; trig_cron_expression := cron_expression;
        trig_next_fire_at := next_fire_at; trig_last_fired_at := None; trig_active := true;
        trig_created_at := now |} in
      pyret tt
  end.

(** ** The cycle *)

Record cycle_counts := { promoted_count : nat; reclaimed_count : nat; stalled_count : nat }.

(** [locked1] and [locked2] are the rows locked elsewhere at each of the two
    [SKIP LOCKED] statements. *)
Definition run_scheduler_cycle (locked1 locked2 : gset uuid) (now : datetime)
    (promote_limit reclaim_limit stall_limit : nat) : Session cycle_counts :=
  let* reclaimed := reclaim_expired_leases locked1 now reclaim_limit in
  let* stalled := detect_stalled_jobs locked2 now DEFAULT_STALL_THRESHOLD stall_limit in
  let* promoted := promote_due_jobs now promote_limit in
  pyret {| promoted_count := length promoted; reclaimed_count := length reclaimed;
           stalled_count := length stalled |}.
End ops.

(** ** Contracts *)

(** A stalled job's row. *)
Definition stalled_row (now : datetime) (j : Job) : Job :=
  set_j_attempt (j_attempt j + 1) (released FAILED now j).

Lemma stall_one_spec now j : stall_one now j = Ok (stalled_row now j).
Proof. done. Qed.

Lemma stalled_row_ok now j : j_status j = RUNNING → job_ok j → edit_ok j (stalled_row now j).
Proof.
  intros Hs [[_ (Ha & Hm & Hb)] _].
  assert (j_attempt j < j_max_attempts j) by (apply Hb; rewrite Hs; set_solver).
  split.
  - split; simpl; [reflexivity| |lia|lia]. rewrite Hs. apply rtc_once. auto with orch.
  - split; [by apply lease_idle|]. split; [simpl; lia|]. split; [exact Hm|]. simpl. set_solver.
Qed.

Section contracts.
Context `{Backend}.

Lemma promote_due_jobs_contract now limit : within contract (promote_due_jobs now limit).
Proof. unfold promote_due_jobs, promote_or_skip. solve_within. Qed.

Lemma insert_events_contract es : within contract (insert_events es).
Proof. unfold insert_events. solve_within. Qed.

Lemma elem_of_stalled locked now cut key db k j :
  (k, j) ∈ select jobs (stalled locked now cut) key db ↔
  jobs db !! k = Some j ∧ j_status j = RUNNING ∧ k ∉ locked ∧
  (∃ t, j_heartbeat_at j = Some t ∧ t < cut) ∧ (∃ t, j_lease_expires_at j = Some t ∧ now < t).
Proof.
  rewrite elem_of_select. unfold stalled. simpl.
  rewrite !andb_true_iff, negb_true_iff, bool_decide_eq_true, bool_decide_eq_false.
  destruct (j_heartbeat_at j) as [h|], (j_lease_expires_at j) as [t|];
    rewrite ?Z.ltb_lt; naive_solver.
Qed.

(** The selection of [detect_stalled_jobs]. *)
Definition stalled_rows (locked : gset uuid) (now : datetime) (thr : timedelta) (limit : nat)
    (db : DB) : list (uuid * Job) :=
  take limit (select jobs (stalled locked now (now - thr)) (λ r, default 0 (j_heartbeat_at r.2)) db).

Lemma stalled_rows_NoDup locked now thr limit db : NoDup (stalled_rows locked now thr limit db).*1.
Proof. apply take_NoDup_fst, select_NoDup. Qed.

Lemma stalled_rows_elem locked now thr limit db k j :
  (k, j) ∈ stalled_rows locked now thr limit db → jobs db !! k = Some j ∧ j_status j = RUNNING.
Proof. intros Hin. apply elem_of_take_1, elem_of_stalled in Hin as (? & ? & _). done. Qed.

Lemma detect_unfold locked now thr limit db :
  let rows := stalled_rows locked now thr limit db in
  let edited := prod_map id (stalled_row now) <$> rows in
  detect_stalled_jobs locked now thr limit db =
  (do* atomically (do* flush_jobs edited;
     insert_events (stall_event now thr (db_clock db) <$> rows));
   gets (λ db, (λ r, (r.1, default r.2 (jobs db !! r.1))) <$> edited)) db.
Proof.
  intros rows edited. unfold detect_stalled_jobs, lift_result, clock_now.
  unfold pybind at 1, gets at 1. fold rows.
  unfold pybind at 1. rewrite (traverse_on_row _ (stalled_row now)) by (intros; apply stall_one_spec).
  done.
Qed.

Lemma detect_stalled_contract locked now thr limit :
  within contract (detect_stalled_jobs locked now thr limit).
Proof.
  intros db. rewrite detect_unfold.
  set (rows := stalled_rows locked now thr limit db).
  set (edited := prod_map id (stalled_row now) <$> rows).
  assert (Hc : contract db (flush_jobs edited db).2).
  { apply flush_edits_contract; [apply stalled_rows_NoDup|].
    intros k j [Hk Hs]%stalled_rows_elem. split; [done|]. by apply stalled_row_ok. }
  pose proof (insert_events_contract (stall_event now thr (db_clock db) <$> rows)
    (flush_jobs edited db).2) as Hi.
  unfold atomically, pybind, gets.
  destruct (flush_jobs edited db) as [[[]|e] db1]; simpl in *; [|reflexivity].
  destruct (insert_events _ db1) as [[[]|e] db2]; simpl in *; [by etrans|reflexivity].
Qed.

Lemma schedule_maturity_timer_contract wid t now :
  within contract (schedule_maturity_timer wid t now).
Proof.
  unfold schedule_maturity_timer, get_workflow. within_step; [solve_within|].
  repeat within_step. apply insert_job_contract. by repeat split.
Qed.

Lemma schedule_weekly_timer_contract s k n c now :
  within contract (schedule_weekly_timer s k n c now).
Proof.
  unfold schedule_weekly_timer. apply within_gets_bind. intros db.
  destruct (select _ _ _ db) as [|[tid t] rows] eqn:Hs.
  - apply within_bind; [apply _|auto with orch|]. intros ?. apply within_ret. apply _.
  - assert (Hin : (tid, t) ∈ (tid, t) :: rows) by left. rewrite <- Hs in Hin.
    apply elem_of_select in Hin as [Hin _]. simpl in Hin |- *. db_frame.
    apply unique_key_update. intros k' a' Hk'.
    apply lookup_insert_Some in Hk' as [[<- <-]|[_ ?]]; eauto.
Qed.
End contracts.

#[export] Hint Resolve promote_due_jobs_contract detect_stalled_contract
  schedule_maturity_timer_contract schedule_weekly_timer_contract : orch.

Lemma run_scheduler_cycle_contract `{Backend} l1 l2 now p r s :
  within contract (run_scheduler_cycle l1 l2 now p r s).
Proof. unfold run_scheduler_cycle. solve_within. Qed.
#[export] Hint Resolve run_scheduler_cycle_contract : orch.

(** ** Promotion of due jobs *)

Definition promotable (db : DB) (now : datetime) (k : uuid) : Prop :=
  ∃ job, jobs db !! k = Some job ∧ ready_conditions db k now job.

Definition promoted_row (now : datetime) (j : Job) : Job :=
  set_j_version (j_version j + 1) (promoted now j).

(** Promoting one job changes the readiness of no other. *)
Lemma ready_frame db k j j' now k2 job :
  jobs db !! k = Some j → j_status j ≠ SUCCEEDED → j_status j' ≠ SUCCEEDED →
  ready_conditions (set_jobs (<[k := j']> (jobs db)) db) k2 now job ↔
  ready_conditions db k2 now job.
Proof.
  intros Hk Hs Hs'. split; intros [Hp Hd Hdeps Hw Hf]; split; try done; simpl in *;
    intros i d Hi Hj; destruct (Hdeps i d Hi Hj) as [Hsat Hpred]; (split; [done|]);
    intros p Hpp; destruct (decide (dep_depends_on_job_id d = k)) as [E|E].
  - specialize (Hpred j'). rewrite E, lookup_insert_eq in Hpred. by destruct Hs'; apply Hpred.
  - apply Hpred. by rewrite lookup_insert_ne.
  - destruct Hs. apply Hpred. by rewrite E.
  - apply Hpred. by rewrite lookup_insert_ne in Hpp.
Qed.

Lemma promotable_frame db k j now k2 :
  jobs db !! k = Some j → j_status j = PENDING → k2 ≠ k →
  promotable (set_jobs (<[k := promoted_row now j]> (jobs db)) db) now k2 ↔ promotable db now k2.
Proof.
  intros Hk Hs Hne. unfold promotable. simpl.
  setoid_rewrite (ready_frame db k j (promoted_row now j) now k2); [|done|by rewrite Hs|done].
  by rewrite lookup_insert_ne.
Qed.

Section theorems.
Context `{Backend}.

Lemma promote_loop now rows acc db :
  db_ok db → NoDup rows.*1 →
  ∃ out db', for_fold (promote_or_skip now) rows acc db = (Ok (acc ++ out)%list, db') ∧
    db' = set_jobs (jobs db') db ∧
    (∀ k, k ∈ out.*1 ↔ k ∈ rows.*1 ∧ promotable db now k) ∧
    (∀ k, k ∈ out.*1 → jobs db' !! k = promoted_row now <$> jobs db !! k) ∧
    (∀ k, k ∉ out.*1 → jobs db' !! k = jobs db !! k).
Proof.
  revert acc db. induction rows as [|[k j] rows IH]; intros acc db Hok Hnd.
  - exists [], db. rewrite app_nil_r. split; [done|]. split; [by destruct db|]. set_solver.
  - apply NoDup_cons in Hnd as [Hk Hnd]. simpl in Hk. cbn [for_fold].
    unfold promote_or_skip at 1, try_except. unfold pybind at 1 2. simpl.
    pose proof (promote_contract k now db Hok) as [Hok1 _].
    destruct (promote_cases k now db Hok) as [(job & Hj & Hr & E)|(Hn & e & E & He)];
      simpl in E; rewrite E in *; simpl in Hok1 |- *.
    + fold (promoted_row now job) in *. set (db1 := set_jobs _ db) in *.
      destruct (IH (acc ++ [(k, promoted_row now job)])%list db1 Hok1 Hnd) as
        (out & db' & Hrun & Hfr & Hout & Hin & Hun).
      assert (Hko : k ∉ out.*1) by (rewrite Hout; tauto).
      exists ((k, promoted_row now job) :: out), db'. rewrite Hrun, <- app_assoc.
      split; [done|]. split; [rewrite Hfr; by destruct db|]. simpl.
      assert (Hpf : ∀ k2, k2 ≠ k → promotable db1 now k2 ↔ promotable db now k2).
      { intros k2. apply promotable_frame; [done|apply Hr]. }
      split; [|split].
      * intros k2. rewrite !elem_of_cons, Hout. destruct (decide (k2 = k)) as [->|Hne].
        -- split; [|by left]. intros _. split; [by left|]. by exists job.
        -- rewrite Hpf by done. tauto.
      * intros k2. rewrite elem_of_cons. intros [->|Hk2].
        -- rewrite Hun by done. simpl. by rewrite lookup_insert_eq, Hj.
        -- rewrite Hin by done. simpl. rewrite lookup_insert_ne; [done|]. by intros ->.
      * intros k2. rewrite not_elem_of_cons. intros [Hne Hk2]. rewrite Hun by done. simpl.
        by rewrite lookup_insert_ne.
    + rewrite He. simpl. destruct (IH acc db Hok Hnd) as (out & db' & Hrun & Hfr & Hout & Hrest).
      exists out, db'. split; [done|]. split; [done|]. split; [|done].
      intros k2. rewrite elem_of_cons, Hout. split; [tauto|]. intros [[->|?] Hp]; [|done].
      destruct Hp as (job & Hj & Hr). by destruct (Hn job Hj).
Qed.

(** One promotion pass looks at the [limit] oldest pending due jobs and sets
    [READY] exactly those whose readiness conditions hold in the database it started
    from: a refused promotion stops nothing, no other row changes, and the pass never
    raises. *)
Theorem promote_due_jobs_spec now limit db :
  db_ok db →
  let seen := take limit (select jobs (pending_due now) (λ r, j_scheduled_at r.2) db) in
  ∃ out db', promote_due_jobs now limit db = (Ok out, db') ∧
    db' = set_jobs (jobs db') db ∧
    (∀ k, k ∈ out.*1 ↔ k ∈ seen.*1 ∧
       ∃ job, jobs db !! k = Some job ∧ ready_conditions db k now job) ∧
    (∀ k, k ∈ out.*1 → jobs db' !! k =
       (λ j, set_j_version (j_version j + 1) (set_j_updated_at now (set_j_status READY j))) <$> jobs db !! k) ∧
    (∀ k, k ∉ out.*1 → jobs db' !! k = jobs db !! k) ∧
    (length (select jobs (pending_due now) (λ r, j_scheduled_at r.2) db) <= limit →
       ∀ k job, jobs db !! k = Some job → ready_conditions db k now job → k ∈ out.*1)%nat.
Proof.
  intros Hok seen. unfold promote_due_jobs, gets, pybind. fold seen.
  destruct (promote_loop now seen [] db Hok) as (out & db' & Hrun & Hfr & Hout & Hin & Hun).
  { apply take_NoDup_fst, select_NoDup. }
  exists out, db'. split; [exact Hrun|]. do 4 (split; [done|]).
  intros Hlen k job Hk Hr. apply Hout. split; [|by exists job].
  apply list_elem_of_fmap. exists (k, job). split; [done|]. unfold seen. rewrite take_ge by done.
  apply elem_of_select. split; [done|]. unfold pending_due. destruct Hr. simpl.
  by rewrite bool_decide_true, (proj2 (Z.leb_le _ _)).
Qed.

(** ** Stalled jobs *)

Lemma stalled_row_stored now j :
  j_status j = RUNNING →
  stored j (stalled_row now j) = set_j_version (j_version j + 1) (stalled_row now j).
Proof.
  intros Hs. unfold stored. rewrite decide_False; [done|]. unfold job_mutable. simpl.
  intros [= _ Ha]. lia.
Qed.

Lemma stalled_check now j : job_ok j → j_status j = RUNNING → job_check (stalled_row now j) = true.
Proof.
  intros [[_ (_ & _ & Hb)] Hc] Hs. unfold job_check in *. simpl.
  rewrite !andb_true_iff in *. destruct Hc as [[_ Hm] Ho]. repeat split; [|done|done].
  apply Z.leb_le. assert (j_attempt j < j_max_attempts j); [|lia]. apply Hb. rewrite Hs. set_solver.
Qed.

(** Inserting events whose keys are new and distinct succeeds and adds each once. *)
Lemma insert_events_run es db :
  NoDup (ev_dedupe_key <$> es) →
  (∀ e, e ∈ es → (∀ i e', events db !! i = Some e' → ev_dedupe_key e' ≠ ev_dedupe_key e) ∧
    fk_opt (workflow_runs db) (ev_workflow_id e) = true ∧ fk_opt (jobs db) (ev_job_id e) = true) →
  ∃ db', insert_events es db = (Ok tt, db') ∧ db' = set_events (events db') db ∧
    events db ⊆ events db' ∧ size (events db') = (size (events db) + length es)%nat ∧
    (∀ e, e ∈ es → ∃ i, events db' !! i = Some e).
Proof.
  unfold insert_events. revert db. induction es as [|e es IH]; intros db Hnd Hes.
  - exists db. split; [done|]. split; [by destruct db|]. split; [done|]. split; [simpl; lia|set_solver].
  - apply NoDup_cons in Hnd as [Hke Hnd]. destruct (Hes e) as (Hf & Hw & Hj); [left|].
    cbn [for_fold]. unfold pybind at 1 2, insert_event.
    assert (table_any (events db) (λ k, bool_decide (ev_dedupe_key k = ev_dedupe_key e)) = false) as ->.
    { apply table_any_false. intros i e' Hi. apply bool_decide_eq_false. by eapply Hf. }
    rewrite Hw, Hj. simpl. set (u := uuid4 (dom (events db))).
    assert (Hu : events db !! u = None) by apply not_elem_of_dom, uuid4_fresh.
    set (db1 := set_events _ db).
    destruct (IH db1) as (db' & Hrun & Hfr & Hsub & Hsz & Hall); [done|..].
    { intros e2 He2. destruct (Hes e2) as (Hf2 & ? & ?); [by right|]. split; [|done].
      intros i e' Hi. simpl in Hi. apply lookup_insert_Some in Hi as [[<- <-]|[_ Hi]]; [|by eapply Hf2].
      intros Heq. apply Hke. rewrite Heq. by apply list_elem_of_fmap_2. }
    exists db'. split; [done|]. split; [rewrite Hfr; by destruct db|].
    assert (Hsub0 : events db ⊆ events db1) by by apply insert_subseteq.
    split; [by etrans|]. split.
    + rewrite Hsz. simpl. rewrite map_size_insert_None by done. lia.
    + intros e2 [->|He2]%elem_of_cons; [|by apply Hall].
      exists u. eapply lookup_weaken; [|exact Hsub]. simpl. by rewrite lookup_insert_eq.
Qed.

Lemma stall_keys now thr c rows :
  NoDup rows.*1 → Forall (λ r : uuid * Job, uuid_ok r.1) rows →
  NoDup (ev_dedupe_key <$> (stall_event now thr c <$> rows)).
Proof.
  intros Hnd Hids. rewrite <- list_fmap_compose.
  induction rows as [|r rows IH]; [constructor|]. simpl.
  apply NoDup_cons in Hnd as [Hr Hnd]. apply Forall_cons in Hids as [Hid Hids].
  constructor; [|by apply IH]. rewrite list_elem_of_fmap. intros (r2 & Heq & Hin).
  apply (str_app_inj_len "job_stalled:" "job_stalled:") in Heq as [_ Heq]; [|done].
  apply str_field_inj in Heq as [Heq _]; [|apply uuid_str_no_colon..].
  rewrite Forall_forall in Hids. apply uuid_str_inj in Heq; [|done|by apply Hids].
  apply Hr. rewrite Heq. by apply list_elem_of_fmap_2.
Qed.

(** A stall check takes at most [limit] unlocked running jobs whose last
    heartbeat is older than the threshold and whose lease has not expired.  Each
    becomes [FAILED] with one more attempt and no lease, and exactly one
    [JOB_STALLED] event is appended for it; nothing else changes.  It returns as long
    as no event of the same job and instant was logged before. *)
Theorem detect_stalled_jobs_spec locked now thr limit db :
  db_ok db → (∀ k j, jobs db !! k = Some j → uuid_ok k) →
  (∀ i e k, events db !! i = Some e → ev_dedupe_key e ≠ "job_stalled:" ++ uuid_str k ++ ":" ++ isoformat now) →
  ∃ out db', detect_stalled_jobs locked now thr limit db = (Ok out, db') ∧
    (length out <= limit)%nat ∧
    (∀ k, k ∈ out.*1 → ∃ j, jobs db !! k = Some j ∧ j_status j = RUNNING ∧ k ∉ locked ∧
       (∃ t, j_heartbeat_at j = Some t ∧ t < now - thr) ∧
       (∃ t, j_lease_expires_at j = Some t ∧ now < t) ∧
       (∃ i e, events db' !! i = Some e ∧ ev_name e = EventName.JOB_STALLED ∧ ev_job_id e = Some k)) ∧
    (∀ k, jobs db' !! k = if decide (k ∈ out.*1)
       then (λ j, set_j_version (j_version j + 1) (set_j_attempt (j_attempt j + 1)
               (released FAILED now j))) <$> jobs db !! k
       else jobs db !! k) ∧
    events db ⊆ events db' ∧ size (events db') = (size (events db) + length out)%nat ∧
    db' = set_jobs (jobs db') (set_events (events db') db).
Proof.
  intros Hok Hids Hfree. rewrite detect_unfold.
  set (rows := stalled_rows locked now thr limit db).
  set (edited := prod_map id (stalled_row now) <$> rows).
  assert (Hnd : NoDup rows.*1) by apply stalled_rows_NoDup.
  assert (Hrow : ∀ k j, (k, j) ∈ rows → jobs db !! k = Some j ∧ j_status j = RUNNING)
    by apply stalled_rows_elem.
  assert (Hfl : flush_jobs edited db = (Ok tt, foldl store_job db edited)).
  { apply flush_edits_ok. intros k j [Hk Hs]%Hrow. apply stalled_check; [|done].
    by apply (ok_jobs _ Hok k). }
  set (db1 := foldl store_job db edited) in *.
  assert (Hfr1 : db1 = set_jobs (jobs db1) db) by apply foldl_store_frame.
  epose proof (λ k, store_edits_lookup (stalled_row now) rows db k Hnd _) as Hlook.
  Unshelve. 2: { intros k' j [Hk Hs]%Hrow.
    by rewrite stalled_row_stored. }
  fold edited db1 in Hlook.
  destruct (insert_events_run (stall_event now thr (db_clock db) <$> rows) db1) as
    (db2 & Hrun & Hfr2 & Hsub & Hsz & Hall).
  { apply stall_keys; [done|]. apply Forall_forall. intros [k j] Hin.
    apply Hrow in Hin as [Hk _]. by eapply Hids. }
  { intros e He. apply list_elem_of_fmap in He as ([k j] & -> & Hin). apply Hrow in Hin as [Hk Hs].
    rewrite Hfr1. simpl. split; [|split].
    - intros i e' Hi. by eapply Hfree.
    - apply bool_decide_eq_true. by apply (ok_owner _ Hok k j).
    - apply bool_decide_eq_true. rewrite Hlook, Hk. by case_decide. }
  unfold atomically, gets, pybind. rewrite Hfl. fold db1. rewrite Hrun.
  assert (Hj2 : jobs db2 = jobs db1) by (by rewrite Hfr2).
  rewrite Hfr1 in Hsub, Hsz. simpl in Hsub, Hsz. rewrite length_fmap in Hsz.
  do 2 eexists. split; [done|]. rewrite <- list_fmap_compose.
  replace ((fst ∘ (λ r : uuid * Job, (r.1, default r.2 (jobs db2 !! r.1)))) <$> edited) with rows.*1
    by (symmetry; apply fmap_rows_fst).
  rewrite length_fmap. unfold edited. rewrite length_fmap.
  split; [unfold rows, stalled_rows; rewrite length_take; lia|]. split; [|split; [|split; [done|split; [done|]]]].
  - intros k Hk. apply list_elem_of_fmap in Hk as ([k0 j] & -> & Hin). exists j. simpl.
    pose proof Hin as Hin'. apply elem_of_take_1, elem_of_stalled in Hin as (? & ? & ? & ? & ?).
    do 5 (split; [done|]).
    destruct (Hall (stall_event now thr (db_clock db) (k0, j))) as [i Hi];
      [by apply list_elem_of_fmap_2|]. by exists i, (stall_event now thr (db_clock db) (k0, j)).
  - intros k. by rewrite Hj2, Hlook.
  - rewrite Hfr2 at 1. rewrite Hj2, Hfr1. by destruct db.
Qed.
End theorems.

(** ** What the cycle leaves alone *)

(** A job that neither waits nor runs keeps its row. *)
Definition settled_kept (k : uuid) (db db' : DB) : Prop :=
  ∀ j, jobs db !! k = Some j → j_status j ∉ [PENDING; RUNNING] → jobs db' !! k = Some j.

#[export] Instance settled_kept_preorder k : PreOrder (settled_kept k).
Proof.
  split; [by intros db j|]. intros d1 d2 d3 H12 H23 j Hj Hs. apply H23; [by apply H12|done].
Qed.

(** Flushing edits of other rows. *)
Lemma settled_flush k rows db :
  NoDup rows.*1 → (∀ j, (k, j) ∈ rows → ∃ old, jobs db !! k = Some old ∧ j_status old ∈ [PENDING; RUNNING]) →
  settled_kept k db (flush_jobs rows db).2.
Proof.
  intros Hnd Hrows j Hj Hs. destruct (flush_jobs_cases rows db) as [[_ ->]|[_ ->]]; [|done].
  simpl. rewrite foldl_store_lookup by done.
  destruct (list_to_map rows !! k) as [j'|] eqn:Hk; [|done].
  apply elem_of_list_to_map_2, Hrows in Hk as (old & Ho & Hst). by simplify_eq.
Qed.

Section settled.
Context `{Backend} (k : uuid).

Lemma reclaim_settled locked now limit :
  within (settled_kept k) (reclaim_expired_leases locked now limit).
Proof.
  intros db. rewrite reclaim_unfold.
  assert (Hs : settled_kept k db (flush_jobs (prod_map id (reclaimed now) <$> take limit
    (select jobs (lease_expired locked now) (λ r, default 0 (j_lease_expires_at r.2)) db)) db).2).
  { apply settled_flush; [rewrite fmap_rows_fst; apply take_NoDup_fst, select_NoDup|].
    intros j' Hin. apply list_elem_of_fmap in Hin as ([k0 j] & [= <- ->] & Hin).
    apply elem_of_take_1, elem_of_expired in Hin as (Hk & Hs & _). exists j. rewrite Hs.
    split; [done|set_solver]. }
  unfold pybind. by destruct (flush_jobs _ db) as [[]].
Qed.

Lemma insert_events_settled es : within (settled_kept k) (insert_events es).
Proof.
  unfold insert_events. apply within_fold; [apply _|]. intros [] e.
  apply within_bind; [apply _| |intros ?; apply within_ret; apply _].
  intros db j Hj Hs. unfold insert_event. by case_match.
Qed.

Lemma detect_settled locked now thr limit :
  within (settled_kept k) (detect_stalled_jobs locked now thr limit).
Proof.
  intros db. rewrite detect_unfold.
  set (rows := stalled_rows locked now thr limit db).
  set (edited := prod_map id (stalled_row now) <$> rows).
  assert (Hs : settled_kept k db (flush_jobs edited db).2).
  { apply settled_flush; [unfold edited; rewrite fmap_rows_fst; apply stalled_rows_NoDup|].
    intros j' Hin. apply list_elem_of_fmap in Hin as ([k0 j] & [= <- ->] & Hin).
    apply stalled_rows_elem in Hin as [Hk Hs]. exists j. rewrite Hs. split; [done|set_solver]. }
  pose proof (insert_events_settled (stall_event now thr (db_clock db) <$> rows)
    (flush_jobs edited db).2) as Hi.
  unfold atomically, pybind, gets.
  destruct (flush_jobs edited db) as [[[]|e] db1]; simpl in *; [|reflexivity].
  destruct (insert_events _ db1) as [[[]|e] db2]; simpl in *; [by etrans|reflexivity].
Qed.

Lemma promote_settled jid now : within (settled_kept k) (promote_pending_to_ready jid now).
Proof.
  unfold promote_pending_to_ready. apply within_gets_bind. intros db.
  destruct (jobs db !! jid) as [job|] eqn:Hj; [|done]. case_decide as Hs; [done|].
  destruct (evaluate_job_readiness_iff jid now db job Hj) as ([] & why & E & _);
    unfold pybind, lift_result; rewrite E; simpl; [|done].
  assert (Hf : settled_kept k db (flush_jobs [(jid, promoted now job)] db).2).
  { apply settled_flush; [apply NoDup_singleton|]. intros j' Hin.
    apply list_elem_of_singleton in Hin. simplify_eq. exists job. rewrite Hs.
    split; [done|set_solver]. }
  by destruct (flush_jobs _ db) as [[]].
Qed.

Lemma promote_due_settled now limit : within (settled_kept k) (promote_due_jobs now limit).
Proof.
  unfold promote_due_jobs. apply within_bind; [apply _|apply within_gets; apply _|]. intros rows.
  apply within_fold; [apply _|]. intros acc [i j]. apply within_try; [apply _| |].
  - apply within_bind; [apply _|apply promote_settled|]. intros ?. apply within_ret. apply _.
  - intros e. case_match; [apply within_ret|apply within_raise]; apply _.
Qed.

(** A scheduler cycle touches only jobs that wait or run.  In particular a job
    that a stall check left [FAILED] keeps its row through every later cycle: the
    promotion pass never retries it, only an explicit retry does. *)
Theorem scheduler_never_touches_settled l1 l2 now p r s db j :
  jobs db !! k = Some j → j_status j ∉ [PENDING; RUNNING] →
  jobs (run_scheduler_cycle l1 l2 now p r s db).2 !! k = Some j.
Proof.
  intros Hj Hs. assert (Hw : within (settled_kept k) (run_scheduler_cycle l1 l2 now p r s)).
  { unfold run_scheduler_cycle. apply within_bind; [apply _|apply reclaim_settled|]. intros ?.
    apply within_bind; [apply _|apply detect_settled|]. intros ?.
    apply within_bind; [apply _|apply promote_due_settled|]. intros ?. apply within_ret. apply _. }
  by apply Hw.
Qed.
End settled.

(** ** Timers *)

(** A maturity timer is durable and unique.  Without the workflow it is a
    [ValueError]; for a completed workflow nothing is scheduled; otherwise the first
    call inserts one fresh job at the maturity date, and a call for a workflow that
    already has its timer raises [IntegrityError]; failures change nothing. *)
Theorem schedule_maturity_timer_spec `{Backend} wid t now db :
  match schedule_maturity_timer wid t now db with
  | (Ok (Some (k, j)), db') => jobs db !! k = None ∧ db' = set_jobs (<[k := j]> (jobs db)) db ∧
      fresh_job j ∧ j_scheduled_at j = t ∧ j_workflow_id j = wid ∧
      (∃ w, workflow_runs db !! wid = Some w ∧ wf_completed_at w = None) ∧
      (∀ t2 now2, schedule_maturity_timer wid t2 now2 db' = (Raise integrity_error, db'))
  | (Ok None, db') => db' = db ∧
      ∃ w, workflow_runs db !! wid = Some w ∧ is_Some (wf_completed_at w)
  | (Raise e, db') => db' = db ∧
      (workflow_runs db !! wid = None ∧ exn_type e = ValueError ∨
       (∃ k j, jobs db !! k = Some j ∧ j_idempotency_key j = "MATURITY_CHECK:" ++ uuid_str wid) ∧
       e = integrity_error)
  end.
Proof.
  unfold schedule_maturity_timer, get_workflow, gets, pybind.
  destruct (workflow_runs db !! wid) as [w|] eqn:Hw; [|split; [done|by left]].
  case_decide as Hc; [split; [done|]; exists w; split; [done|by apply not_eq_None_Some]|].
  set (u := uuid4 (dom (jobs db))).
  assert (Hu : jobs db !! u = None) by apply not_elem_of_dom, uuid4_fresh.
  unfold insert_job. cbn [j_idempotency_key j_workflow_id].
  rewrite (bool_decide_true (jobs db !! u = None)), (bool_decide_true (is_Some (workflow_runs db !! wid)))
    by (done || by rewrite Hw).
  destruct (table_any (jobs db) _) eqn:Hany; cbn [negb andb].
  - split; [done|]. right. split; [|done]. apply table_any_true in Hany as (k & j & Hk & HP).
    exists k, j. by apply bool_decide_eq_true in HP.
  - split; [done|]. split; [done|]. split; [by repeat split|]. do 2 (split; [done|]).
    split; [by exists w|]. intros t2 now2. cbn [workflow_runs set_jobs].
    rewrite Hw, decide_False by (intros Hn; by apply Hn).
    match goal with |- context [table_any ?t ?P] => assert (table_any t P = true) as -> end.
    { apply table_any_true. eexists u, _. cbn [jobs set_jobs]. rewrite lookup_insert_eq.
      split; [done|]. by apply bool_decide_eq_true. }
    cbn [negb]. by rewrite andb_false_r.
Qed.

(** ** Worked examples *)

Lemma promote_due_jobs_spec_witness :
  ∃ out db', @promote_due_jobs reference_backend 10 50 dependency_sample = (Ok out, db') ∧
    1%N ∈ out.*1.
Proof.
  destruct (@promote_due_jobs_spec reference_backend 10 50 dependency_sample)
    as (out & db' & E & _ & Hout & _); [solve_db_ok|].
  exists out, db'. split; [exact E|]. vm_compute in E. injection E as <- _. left.
Defined.

(** Job 2 has not been heard of for ten minutes; its lease is still live. *)
Definition stall_sample : DB :=
  sample_db [(1%N, sample_job "a" FAILED 0); (2%N, sample_running "b" "worker-2" (minutes 20))].

Lemma detect_stalled_jobs_spec_witness :
  ∃ out db', @detect_stalled_jobs reference_backend ∅ (minutes 10) (minutes 5) 50 stall_sample =
    (Ok out, db') ∧ size (events db') = 1%nat.
Proof.
  destruct (@detect_stalled_jobs_spec reference_backend ∅ (minutes 10) (minutes 5) 50 stall_sample)
    as (out & db' & E & _ & _ & _ & _ & Hsz & _); [solve_db_ok| | |].
  - intros k j Hk. apply elem_of_map_to_list in Hk. apply list_elem_of_In in Hk.
    vm_compute in Hk. destruct Hk as [[= <- _]|[[= <- _]|[]]]; reflexivity.
  - intros i e k Hi. vm_compute in Hi. destruct i; discriminate.
  - exists out, db'. split; [exact E|]. rewrite Hsz. vm_compute in E. injection E as <- _. reflexivity.
Defined.

Lemma scheduler_never_touches_settled_witness :
  jobs (@run_scheduler_cycle reference_backend ∅ ∅ (minutes 10) 50 50 50 stall_sample).2 !! 1%N =
  Some (sample_job "a" FAILED 0).
Proof.
  apply scheduler_never_touches_settled; [reflexivity|].
  apply (bool_decide_unpack (FAILED ∉ [PENDING; RUNNING])). vm_compute. exact I.
Defined.
