(* ===== verification/Reconciliation.v ===== *)
(** * Reconciliation of uncertain effects

    [orchestration/reconciliation.py]: a job in [UNCERTAIN_EXTERNAL_EFFECT] is
    resolved by reading the provider's state.  The provider is not part of this
    program: one call of [ProviderReconciler.query_effect_state] is the argument
    [query] of the handler, so successive calls may answer differently or raise. *)

From S2P Require Import Prelude PyText Enums Errors TransitionGuard Tables Evolution Samples.
From S2P Require Import Repositories Idempotency.
Open Scope string_scope.
Open Scope Z_scope.
Import JobStatus.

Record ReconciliationResult := {
  rr_effect_state : EffectState;
  rr_next_job_status : JobStatus;
  rr_reconciliation_attempt : Z;
  rr_provider_object_id : option string;
  rr_reason : string
}.

(** [query_effect_state idempotency_key operation] *)
Abbreviation Query := (string → string → result exn (EffectState * option string)).

Definition dot : Ascii.ascii := Ascii.ascii_of_N 46.

Definition _extract_provider (operation : string) : string :=
  if str_in "." operation then str_before dot operation else operation.

(** Where an observed effect state sends the job. *)
Definition next_status (effect_state : EffectState) (next_reconciliation max_attempts : Z)
    : JobStatus * string :=
  match effect_state with
  | EffectState.CONFIRMED =>
      (SUCCEEDED, "reconciled as CONFIRMED (attempt " ++ pretty next_reconciliation ++ ")")
  | EffectState.ABSENT =>
      (FAILED, "reconciled as ABSENT (attempt " ++ pretty next_reconciliation ++ ")")
  | EffectState.UNKNOWN =>
      if max_attempts <=? next_reconciliation then
        (BLOCKED, "reconciliation budget exhausted after " ++ pretty next_reconciliation ++ " attempts")
      else
        (UNCERTAIN_EXTERNAL_EFFECT, "still UNKNOWN after " ++ pretty next_reconciliation ++ " attempts")
  end.

Section ops.
Context `{Backend}.

Definition reconcile_uncertain_effect (job_id : uuid) (query : Query)
    (max_reconciliation_attempts : Z) (now : option datetime) : Session ReconciliationResult :=
  let* now := now_or now in
  let* found := get_job job_id in
  match found with
  | None => pyraise (Exn ValueError ("job " ++ uuid_str job_id ++ " not found"))
  | Some job =>
  if decide (j_status job ≠ UNCERTAIN_EXTERNAL_EFFECT) then
    pyraise (Exn ValueError ("job " ++ uuid_str job_id ++ " is " ++ JobStatus_value (j_status job) ++
      ", expected UNCERTAIN_EXTERNAL_EFFECT"))
  else
  let* record := get_idempotency_record (j_idempotency_key job) in
  match record with
  | None => pyraise (Exn ValueError ("no idempotency record for job " ++ uuid_str job_id ++
      " key " ++ str_repr (j_idempotency_key job)))
  | Some (_, idempotency_record) =>
  let* latest_attempt := get_latest_effect_attempt (j_idempotency_key job) in
  let current_reconciliation :=
    match latest_attempt with None => 0 | Some (_, e) => eff_reconciliation_attempt e end in
  let next_reconciliation := current_reconciliation + 1 in
  if max_reconciliation_attempts <? next_reconciliation then
    pyraise (Exn ReconciliationBudgetExhausted ("job " ++ uuid_str job_id ++
      " reconciliation budget exhausted (" ++ pretty next_reconciliation ++ "/" ++
      pretty max_reconciliation_attempts ++ ")"))
  else
  let* answer := lift_result (query (j_idempotency_key job) (idem_operation idempotency_record)) in
  let* _ := record_effect_attempt (j_idempotency_key job) job_id None
    (_extract_provider (idem_operation idempotency_record)) (idem_operation idempotency_record)
    answer.1 answer.2 next_reconciliation (Some now) in
  let ns := next_status answer.1 next_reconciliation max_reconciliation_attempts in
  pyret {| rr_effect_state := answer.1; rr_next_job_status := ns.1;
           rr_reconciliation_attempt := next_reconciliation;
           rr_provider_object_id := answer.2; rr_reason := ns.2 |}
  end
  end.

Definition moved (st : JobStatus) (now : datetime) (j : Job) : Job :=
  set_j_updated_at now (set_j_status st j).

Definition apply_reconciliation_result (job_id : uuid) (result : ReconciliationResult)
    (now : option datetime) : Session unit :=
  let* now := now_or now in
  let* found := get_job job_id in
  match found with
  | None => pyraise (Exn ValueError ("job " ++ uuid_str job_id ++ " not found"))
  | Some job =>
      if decide (j_status job = rr_next_job_status result ∧
                 rr_next_job_status result = UNCERTAIN_EXTERNAL_EFFECT) then pyret tt
      else
        do* lift_result (require_job_transition (j_status job) (rr_next_job_status result));
        flush_jobs [(job_id, moved (rr_next_job_status result) now job)]
  end.
End ops.

(** ** Contracts *)

Lemma moved_ok st now j :
  j_status j = UNCERTAIN_EXTERNAL_EFFECT → job_edge UNCERTAIN_EXTERNAL_EFFECT st → job_ok j →
  edit_ok j (moved st now j).
Proof.
  intros Hs He [Hwf _]. pose proof (lease_free _ Hwf) as Hl. rewrite Hs in Hl.
  destruct Hl as (? & ? & ?); [done|].
  assert (Hst : st ≠ PENDING ∧ st ≠ READY ∧ st ≠ RUNNING)
    by (unfold job_edge in He; simpl in He; by destruct st; set_solver).
  destruct Hwf as [_ (Ha & Hm & _)]. split.
  - split; simpl; [reflexivity| |lia|lia]. rewrite Hs. by apply rtc_once.
  - split; [apply lease_idle; simpl; naive_solver|]. split; [exact Ha|]. split; [exact Hm|].
    simpl. set_solver.
Qed.

Section contracts.
Context `{Backend}.

Lemma reconcile_contract jid q mx now : within contract (reconcile_uncertain_effect jid q mx now).
Proof.
  unfold reconcile_uncertain_effect, now_or, get_job, get_idempotency_record,
    get_latest_effect_attempt. solve_within.
Qed.

(** The result is applied to a job that is still uncertain. *)
Lemma apply_contract jid r now db :
  (∀ j, jobs db !! jid = Some j → j_status j = UNCERTAIN_EXTERNAL_EFFECT) →
  contract db (apply_reconciliation_result jid r now db).2.
Proof.
  intros Hunc. unfold apply_reconciliation_result, now_or, get_job, gets, pybind, lift_result.
  destruct (jobs db !! jid) as [j|] eqn:Hj; [|reflexivity].
  case_decide; [reflexivity|]. specialize (Hunc j eq_refl).
  destruct (require_job_transition _ _) as [[]|e] eqn:Hr; [|reflexivity].
  apply flush_job_contract. intros old Ho Hok. simplify_eq.
  apply moved_ok; [done|..|done]. rewrite Hunc in Hr. by apply require_job_transition_ok.
Qed.
End contracts.

#[export] Hint Resolve reconcile_contract : orch.

(** On a job that is not uncertain the guard alone decides: a [RUNNING] job is moved
    to [FAILED] and keeps its lease. *)
Example apply_leaks_lease :
  let db := sample_db [(1%N, sample_running "a" "worker-1" 50)] in
  let r := {| rr_effect_state := EffectState.ABSENT; rr_next_job_status := FAILED;
              rr_reconciliation_attempt := 1; rr_provider_object_id := None; rr_reason := "" |} in
  let db' := (apply_reconciliation_result 1 r (Some 9) db).2 in
  (λ j, (j_status j, j_lease_owner j)) <$> jobs db' !! 1%N = Some (FAILED, Some "worker-1").
Proof. vm_compute. reflexivity. Qed.

(** ** The reconciliation budget *)

Section budget.
Context `{Backend}.

(** The number of the newest attempt recorded for a key, 0 when there is none. *)
Definition latest_number (key : string) (db : DB) : Z :=
  match EffectAttemptRepository.newest_attempts (λ e, bool_decide (eff_key e = key)) db with
  | (_, e) :: _ => eff_reconciliation_attempt e
  | [] => 0
  end.

Definition attempts_below (key : string) (n : Z) (db : DB) : Prop :=
  ∀ i e, effect_attempts db !! i = Some e → eff_key e = key → eff_reconciliation_attempt e <= n.

Lemma latest_number_spec key db :
  (attempts_below key (latest_number key db) db ∧
   ∃ i e, effect_attempts db !! i = Some e ∧ eff_key e = key ∧
     eff_reconciliation_attempt e = latest_number key db) ∨
  ((∀ i e, effect_attempts db !! i = Some e → eff_key e ≠ key) ∧ latest_number key db = 0).
Proof.
  unfold latest_number, EffectAttemptRepository.newest_attempts.
  pose proof (elem_of_select effect_attempts (λ _ e, bool_decide (eff_key e = key))
    (λ r, - eff_reconciliation_attempt r.2) db) as Hin.
  pose proof (select_sorted effect_attempts (λ _ e, bool_decide (eff_key e = key))
    (λ r, - eff_reconciliation_attempt r.2) db) as Hsort.
  destruct (select _ _ _ db) as [|[i0 e0] rows].
  - right. split; [|done]. intros i e Hi Hk. apply (not_elem_of_nil (i, e)), Hin.
    by rewrite bool_decide_eq_true.
  - left. destruct (proj1 (Hin (i0, e0))) as [H0 K0]; [left|]. apply bool_decide_eq_true in K0.
    split; [|by exists i0, e0]. intros i e Hi Hk.
    assert (Hx : (i, e) ∈ (i0, e0) :: rows) by (apply Hin; by rewrite bool_decide_eq_true).
    apply elem_of_cons in Hx as [Hx|Hx]; [by simplify_eq|].
    apply StronglySorted_inv in Hsort as [_ Hall].
    apply (proj1 (Forall_forall _ _) Hall) in Hx. simpl in Hx. lia.
Qed.

Lemma latest_number_unique key n db i e :
  attempts_below key n db → effect_attempts db !! i = Some e → eff_key e = key →
  eff_reconciliation_attempt e = n → latest_number key db = n.
Proof.
  intros Hb Hi Hk Hn. destruct (latest_number_spec key db) as
    [[Hl (i2 & e2 & Hi2 & Hk2 & Hn2)]|[Hnone _]]; [|by destruct (Hnone i e Hi)].
  specialize (Hl i e Hi Hk). specialize (Hb i2 e2 Hi2 Hk2). lia.
Qed.

(** An answer carries the evidence its state requires. *)
Definition evidence_ok (a : EffectState * option string) : bool :=
  match a with
  | (EffectState.CONFIRMED, Some _) | (EffectState.ABSENT, None) | (EffectState.UNKNOWN, _) => true
  | _ => false
  end.

(** A job waiting for reconciliation under a reserved key. *)
Definition awaiting (db : DB) (jid : uuid) (job : Job) : Prop :=
  db_ok db ∧ jobs db !! jid = Some job ∧ j_status job = UNCERTAIN_EXTERNAL_EFFECT ∧
  ∃ i r, idempotency_records db !! i = Some r ∧ idem_key r = j_idempotency_key job.

Lemma get_record_run k db i r :
  db_ok db → idempotency_records db !! i = Some r → idem_key r = k →
  get_idempotency_record k db = (Ok (Some (i, r)), db).
Proof.
  intros Hok Hi Hk. unfold get_idempotency_record, gets, pybind, lift_result.
  destruct (unique_select idempotency_records idem_key k db (ok_reservations _ Hok)) as
    [(i2 & r2 & Hi2 & Hk2 & ->)|[Hn _]]; [|by destruct (Hn i r Hi)].
  assert (i2 = i) as -> by (eapply (ok_reservations _ Hok); [done|done|congruence]).
  by simplify_eq/=.
Qed.

Lemma latest_attempt_number k db :
  ∃ o, get_latest_effect_attempt k db = (Ok o, db) ∧
    match o with None => 0 | Some (_, e) => eff_reconciliation_attempt e end = latest_number k db.
Proof.
  unfold get_latest_effect_attempt, latest_number, gets.
  destruct (EffectAttemptRepository.newest_attempts _ db) as [|[i e] rows]; eexists; by split.
Qed.

(** One reconciliation inside the budget. *)
Lemma reconcile_run db jid job a mx now :
  awaiting db jid job → evidence_ok a = true →
  let n := latest_number (j_idempotency_key job) db in
  0 <= n → n + 1 <= mx →
  ∃ db', reconcile_uncertain_effect jid (λ _ _, Ok a) mx now db =
      (Ok {| rr_effect_state := a.1; rr_next_job_status := (next_status a.1 (n + 1) mx).1;
             rr_reconciliation_attempt := n + 1; rr_provider_object_id := a.2;
             rr_reason := (next_status a.1 (n + 1) mx).2 |}, db') ∧
    db' = set_effect_attempts (effect_attempts db') db ∧
    latest_number (j_idempotency_key job) db' = n + 1.
Proof.
  intros (Hok & Hj & Hs & i & r & Hi & Hk) Ha n Hn Hmx.
  unfold reconcile_uncertain_effect, now_or, get_job, gets, pybind, lift_result. rewrite Hj.
  rewrite decide_False by naive_solver. rewrite (get_record_run _ db i r Hok Hi Hk).
  destruct (latest_attempt_number (j_idempotency_key job) db) as (o & -> & ->). fold n.
  rewrite (proj2 (Z.ltb_ge _ _)) by lia.
  unfold record_effect_attempt, now_or, gets, pybind, insert_effect_attempt.
  match goal with |- context [table_any ?t ?P] => assert (table_any t P = false) as Hfree end.
  { apply table_any_false. intros i' e' Hi'. simpl.
    destruct (decide (eff_key e' = j_idempotency_key job)) as [Hke|Hke];
      [|by rewrite bool_decide_false].
    destruct (latest_number_spec (j_idempotency_key job) db) as [[Hb _]|[Hnone _]];
      [|by destruct (Hnone i' e' Hi')].
    specialize (Hb i' e' Hi' Hke). fold n in Hb.
    rewrite (proj2 (Z.eqb_neq _ _)) by lia. by rewrite andb_false_r. }
  rewrite Hfree. cbn [eff_job_id negb]. rewrite bool_decide_true by (rewrite Hj; done).
  match goal with |- context [effect_check ?e] => assert (effect_check e = true) as -> end.
  { unfold effect_check. simpl. rewrite (proj2 (Z.leb_le 0 (n + 1))) by lia.
    by destruct a as [[] []]. }
  cbn [andb]. eexists. split; [done|]. split; [by destruct db|].
  eapply latest_number_unique; [|simpl; by rewrite lookup_insert_eq|done|done].
  intros i' e' Hi' Hke. simpl in Hi'. apply lookup_insert_Some in Hi' as [[<- <-]|[_ Hi']]; [done|].
  destruct (latest_number_spec (j_idempotency_key job) db) as [[Hb _]|[Hnone _]];
    [|by destruct (Hnone i' e' Hi')].
  specialize (Hb i' e' Hi' Hke). fold n in Hb. lia.
Qed.

(** A reconciliation outside the budget is refused with
    [ReconciliationBudgetExhausted] and changes nothing, without asking the
    provider; inside the budget it records exactly one further attempt, numbered one
    above the newest, and reports [CONFIRMED] as [SUCCEEDED], [ABSENT] as [FAILED],
    and [UNKNOWN] as [BLOCKED] on the last attempt and as still uncertain before. *)
Theorem reconcile_uncertain_effect_spec db jid job a mx now :
  awaiting db jid job → evidence_ok a = true →
  let n := latest_number (j_idempotency_key job) db in
  0 <= n →
  (mx <= n → ∀ query, ∃ m, reconcile_uncertain_effect jid query mx now db =
     (Raise (Exn ReconciliationBudgetExhausted m), db)) ∧
  (n < mx → ∃ res db', reconcile_uncertain_effect jid (λ _ _, Ok a) mx now db = (Ok res, db') ∧
     rr_reconciliation_attempt res = n + 1 ∧
     latest_number (j_idempotency_key job) db' = n + 1 ∧
     db' = set_effect_attempts (effect_attempts db') db ∧
     rr_next_job_status res =
       match a.1 with
       | EffectState.CONFIRMED => SUCCEEDED
       | EffectState.ABSENT => FAILED
       | EffectState.UNKNOWN => if n + 1 <? mx then UNCERTAIN_EXTERNAL_EFFECT else BLOCKED
       end).
Proof.
  intros Haw Ha n Hn. split.
  - intros Hmx query. destruct Haw as (Hok & Hj & Hs & i & r & Hi & Hk).
    unfold reconcile_uncertain_effect, now_or, get_job, gets, pybind. rewrite Hj.
    rewrite decide_False by naive_solver. rewrite (get_record_run _ db i r Hok Hi Hk).
    destruct (latest_attempt_number (j_idempotency_key job) db) as (o & -> & ->). fold n.
    rewrite (proj2 (Z.ltb_lt _ _)) by lia. by eexists.
  - intros Hmx. destruct (reconcile_run db jid job a mx now Haw Ha) as (db' & E & Hfr & Hl);
      [done|lia|]. do 2 eexists. split; [exact E|]. do 3 (split; [done|]). simpl. unfold next_status.
    destruct a.1; simpl; try done. fold n.
    destruct (Z.leb_spec mx (n + 1)); destruct (Z.ltb_spec (n + 1) mx); done || lia.
Qed.

(** The caller's loop: reconcile and apply until the job is no longer uncertain. *)
Fixpoint reconcile_until (answers : list (EffectState * option string)) (jid : uuid) (mx : Z)
    (now : datetime) : Session (option JobStatus) :=
  match answers with
  | [] => pyret None
  | a :: answers =>
      let* r := reconcile_uncertain_effect jid (λ _ _, Ok a) mx (Some now) in
      do* apply_reconciliation_result jid r (Some now);
      if decide (rr_next_job_status r = UNCERTAIN_EXTERNAL_EFFECT)
      then reconcile_until answers jid mx now
      else pyret (Some (rr_next_job_status r))
  end.

(** What the answers inside the budget say: the first that knows, or nothing. *)
Fixpoint verdict (fuel : nat) (answers : list (EffectState * option string)) : JobStatus :=
  match fuel, answers with
  | S fuel, (EffectState.CONFIRMED, _) :: _ => SUCCEEDED
  | S fuel, (EffectState.ABSENT, _) :: _ => FAILED
  | S fuel, (EffectState.UNKNOWN, _) :: answers => verdict fuel answers
  | _, _ => BLOCKED
  end.

Lemma apply_run db jid job r now :
  awaiting db jid job → job_edge UNCERTAIN_EXTERNAL_EFFECT (rr_next_job_status r) →
  apply_reconciliation_result jid r (Some now) db =
  (Ok tt, set_jobs (<[jid := set_j_version (j_version job + 1)
    (moved (rr_next_job_status r) now job)]> (jobs db)) db).
Proof.
  intros (Hok & Hj & Hs & _) He.
  assert (Hne : rr_next_job_status r ≠ UNCERTAIN_EXTERNAL_EFFECT).
  { intros E. rewrite E in He. unfold job_edge in He. simpl in He. set_solver. }
  unfold apply_reconciliation_result, now_or, get_job, gets, pybind, lift_result. rewrite Hj.
  rewrite decide_False by naive_solver. rewrite Hs.
  rewrite (proj2 (require_job_transition_ok _ _)) by done. simpl default.
  destruct (flush_job_ok db jid (moved (rr_next_job_status r) now job) job Hj) as (db' & -> & ->);
    [apply (ok_jobs _ Hok jid job Hj)|].
  unfold stored. rewrite decide_False; [done|]. unfold job_mutable. simpl. congruence.
Qed.

(** The job keeps waiting while the attempt is recorded. *)
Lemma awaiting_reconciled db db1 jid job a mx now r :
  awaiting db jid job →
  reconcile_uncertain_effect jid (λ _ _, Ok a) mx (Some now) db = (Ok r, db1) →
  db1 = set_effect_attempts (effect_attempts db1) db → awaiting db1 jid job.
Proof.
  intros (Hok & Hj & Hs & Hr) E Hfr.
  pose proof (reconcile_contract jid (λ _ _, Ok a) mx (Some now) db) as Hc.
  rewrite E in Hc. destruct (Hc Hok) as [Hok1 _]. split; [exact Hok1|]. rewrite Hfr. by repeat split.
Qed.

(** Nothing is applied while the job stays uncertain. *)
Lemma apply_still db jid job r now :
  awaiting db jid job → rr_next_job_status r = UNCERTAIN_EXTERNAL_EFFECT →
  apply_reconciliation_result jid r (Some now) db = (Ok tt, db).
Proof.
  intros (Hok & Hj & Hs & _) Hr.
  unfold apply_reconciliation_result, now_or, get_job, gets, pybind. rewrite Hj.
  by rewrite decide_True by (rewrite Hs, Hr; done).
Qed.

(** One round of the loop, when the answer settles the job. *)
Lemma reconcile_settles db jid job a answers mx now :
  awaiting db jid job → evidence_ok a = true →
  let n := latest_number (j_idempotency_key job) db in
  let st := (next_status a.1 (n + 1) mx).1 in
  0 <= n → n < mx → job_edge UNCERTAIN_EXTERNAL_EFFECT st →
  ∃ db', reconcile_until (a :: answers) jid mx now db = (Ok (Some st), db') ∧
    (∃ job', jobs db' !! jid = Some job' ∧ j_status job' = st ∧ j_lease_owner job' = None) ∧
    latest_number (j_idempotency_key job) db' <= mx.
Proof.
  intros Haw Ha n st Hn Hlt He.
  destruct (reconcile_run db jid job a mx (Some now) Haw Ha) as (db1 & E & Hfr & Hl);
    [done|fold n; lia|]. fold n st in E, Hl.
  pose proof (awaiting_reconciled db db1 jid job a mx now _ Haw E Hfr) as Haw1.
  cbn [reconcile_until]. unfold pybind. rewrite E. erewrite apply_run; [|exact Haw1|exact He].
  cbn [rr_next_job_status]. rewrite decide_False.
  2: { intros Hx. rewrite Hx in He. unfold job_edge in He. simpl in He. set_solver. }
  eexists. split; [done|]. split.
  - eexists. simpl. rewrite lookup_insert_eq. split; [done|]. split; [done|]. simpl.
    destruct Haw as (Hok & Hj & Hs & _). destruct (ok_jobs _ Hok jid job Hj) as [Hwf _].
    apply (lease_free _ Hwf). by rewrite Hs.
  - change (latest_number (j_idempotency_key job) db1 <= mx). rewrite Hl. lia.
Qed.

(** C24: reconciliation ends.  With at least as many provider answers as attempts are
    left in the budget, and whatever they say, the loop stops with the job moved out
    of [UNCERTAIN_EXTERNAL_EFFECT]: to [SUCCEEDED] or [FAILED] as the first answer
    that knows says, or to [BLOCKED] when every answer inside the budget is
    [UNKNOWN]; at most the budgeted number of attempts is recorded. *)
Theorem reconciliation_terminates answers db jid job mx now :
  awaiting db jid job → Forall (λ a, evidence_ok a = true) answers →
  let n := latest_number (j_idempotency_key job) db in
  0 <= n → n < mx → mx - n <= Z.of_nat (length answers) →
  ∃ db', reconcile_until answers jid mx now db =
      (Ok (Some (verdict (Z.to_nat (mx - n)) answers)), db') ∧
    (∃ job', jobs db' !! jid = Some job' ∧
      j_status job' = verdict (Z.to_nat (mx - n)) answers ∧ j_lease_owner job' = None) ∧
    latest_number (j_idempotency_key job) db' <= mx.
Proof.
  revert db. induction answers as [|a answers IH]; intros db Haw Hev n Hn Hlt Hlen;
    [simpl in Hlen; lia|].
  apply Forall_cons in Hev as [Ha Hev].
  destruct (Z.to_nat (mx - n)) as [|f] eqn:Hf; [lia|].
  pose proof (reconcile_settles db jid job a answers mx now Haw Ha Hn Hlt) as Hset.
  fold n in Hset. unfold next_status in Hset. destruct a as [[] oid]; simpl in Hset.
  - by apply Hset; auto with orch.
  - by apply Hset; auto with orch.
  - destruct (Z.leb_spec mx (n + 1)).
    + assert (f = 0%nat) as -> by lia. cbn [verdict]. by apply Hset; auto with orch.
    + destruct (reconcile_run db jid job (EffectState.UNKNOWN, oid) mx (Some now) Haw Ha)
        as (db1 & E & Hfr & Hl); [done|fold n; lia|]. fold n in E, Hl.
      pose proof (awaiting_reconciled db db1 jid job _ mx now _ Haw E Hfr) as Haw1.
      destruct (IH db1 Haw1 Hev) as (db' & E' & Hres); [rewrite Hl; lia|rewrite Hl; lia|
        rewrite Hl; simpl in Hlen; lia|].
      rewrite Hl in E', Hres. replace (Z.to_nat (mx - (n + 1))) with f in E', Hres by lia.
      exists db'. split; [|exact Hres]. cbn [reconcile_until verdict]. unfold pybind. rewrite E.
      rewrite (apply_still db1 jid job _ now Haw1);
        [|simpl; by rewrite (proj2 (Z.leb_gt _ _)) by lia].
      simpl. rewrite (proj2 (Z.leb_gt _ _)) by lia. simpl. exact E'.
Qed.
End budget.

(** Job 1 is uncertain under a reserved key with one recorded attempt. *)
Definition uncertain_sample : DB :=
  set_idempotency_records {[5%N := {| idem_key := "a"; idem_job_id := 1;
      idem_operation := "etsy.create_draft"; idem_side_effect_class := SideEffectClass.EXTERNAL_WRITE;
      idem_reserved_at := 0; idem_completed_at := None |}]}
  (set_effect_attempts {[6%N := {| eff_key := "a"; eff_job_id := 1; eff_agent_run_id := None;
      eff_provider := "etsy"; eff_operation := "etsy.create_draft";
      eff_state := EffectState.UNKNOWN; eff_provider_object_id := None;
      eff_reconciliation_attempt := 0; eff_observed_at := 0; eff_recorded_at := 0 |}]}
  (sample_db [(1%N, sample_job "a" UNCERTAIN_EXTERNAL_EFFECT 0)])).

Lemma uncertain_sample_awaiting :
  awaiting uncertain_sample 1 (sample_job "a" UNCERTAIN_EXTERNAL_EFFECT 0).
Proof.
  split; [solve_db_ok|]. split; [reflexivity|]. split; [reflexivity|].
  exists 5%N. eexists. split; reflexivity.
Defined.

Lemma reconcile_uncertain_effect_spec_witness :
  ∃ res db', @reconcile_uncertain_effect reference_backend 1
    (λ _ _, Ok (EffectState.CONFIRMED, Some "listing-9")) 3 None uncertain_sample = (Ok res, db') ∧
    rr_next_job_status res = SUCCEEDED.
Proof.
  destruct (@reconcile_uncertain_effect_spec reference_backend uncertain_sample 1 _
    (EffectState.CONFIRMED, Some "listing-9") 3 None uncertain_sample_awaiting eq_refl) as [_ Hrun].
  - apply Z.leb_le. vm_compute. reflexivity.
  - destruct Hrun as (res & db' & E & _ & _ & _ & Hs); [apply Z.ltb_lt; vm_compute; reflexivity|].
    exists res, db'. split; [exact E|exact Hs].
Defined.

Lemma reconciliation_terminates_witness :
  ∃ db', @reconcile_until reference_backend
    [(EffectState.UNKNOWN, None); (EffectState.UNKNOWN, None); (EffectState.UNKNOWN, None)]
    1 3 100 uncertain_sample = (Ok (Some BLOCKED), db').
Proof.
  destruct (@reconciliation_terminates reference_backend
    [(EffectState.UNKNOWN, None); (EffectState.UNKNOWN, None); (EffectState.UNKNOWN, None)]
    uncertain_sample 1 _ 3 100 uncertain_sample_awaiting) as (db' & E & _).
  - repeat constructor.
  - apply Z.leb_le. vm_compute. reflexivity.
  - apply Z.ltb_lt. vm_compute. reflexivity.
  - apply Z.leb_le. vm_compute. reflexivity.
  - exists db'. exact E.
Defined.
