(* ===== verification/SuccessorFactory.v ===== *)
(** * Successor factory

    [orchestration/successor_factory.py]: which jobs an event spawns, with their
    deterministic identifiers, and the MULTIPLY boundary that turns a winning
    product into a new workflow.  The configuration that [load_workflows_config]
    reads and caches is the argument [cfg]. *)

From S2P Require Import Prelude PyText Sha256 Enums Errors TransitionGuard Tables.
From S2P Require Import WorkflowsConfig Contracts Evolution Samples.
Open Scope string_scope.
Open Scope Z_scope.
Import JobStatus.

(** [repr] of a list of strings. *)
Definition list_repr (l : list string) : string :=
  "[" ++ String.concat ", " (str_repr <$> l) ++ "]".

Definition sort_strings (l : list string) : list string :=
  merge_sort (λ a b, String.leb a b = true) l.

(** [dict.get] on the event map. *)
Definition mapped_successors (cfg : WorkflowsConfig) (event_key : string) : option (list string) :=
  (λ r, r.2.2) <$> list_find (λ kv, kv.1 = event_key) (wc_event_successor_map cfg).

(** The first configured job of that type, workflow by workflow. *)
Definition find_job_def (cfg : WorkflowsConfig) (job_type : string) : option WorkflowJobDefinition :=
  snd <$> list_find (λ j, wj_job_type j = job_type) (wc_workflows cfg ≫= wd_jobs).

(** ** Identifiers *)

Definition derive_product_job_id (product_id : uuid) (job_type : string) : uuid :=
  sha256_uuid (uuid_str product_id ++ ":" ++ job_type).

Definition _derive_successor_job_id (workflow_id : uuid) (parent_job_id : option uuid)
    (job_type : string) : uuid :=
  sha256_uuid (uuid_str workflow_id ++ ":" ++ uuid_or "none" parent_job_id ++ ":" ++ job_type).

Definition _derive_job_id (workflow_id spec_id : uuid) (job_type : string) : uuid :=
  sha256_uuid (uuid_str workflow_id ++ ":" ++ uuid_str spec_id ++ ":" ++ job_type).

Definition _infer_object_type (job_type : string) : string :=
  let has s := str_in s (str_lower job_type) in
  if has "dedupe" || has "spec" || has "niche" then "product_specs"
  else if has "build" || has "qa" || has "variant" then "products"
  else if has "decision" || has "evaluation" || has "slot" then "decisions"
  else if has "research" || has "collection" then "research_runs"
  else if has "listing" || has "copy" || has "asset" then "listing_versions"
  else if has "incident" || has "repair" then "incidents"
  else if has "metric" || has "review" then "metrics_snapshots"
  else "workflow_runs".

(** A row as the factories add it: unset columns take their defaults. *)
Definition new_job (workflow_id : uuid) (job_type object_type : string) (object_id : uuid)
    (owner : string) (input : json) (output_model : string) (scheduled_at : datetime)
    (key : string) (sec : SideEffectClass) (rc : RetryClass) (mode : AutonomyMode)
    (stamp : datetime) : Job :=
  {| j_workflow_id := workflow_id; j_type := job_type; j_object_type := object_type;
     j_object_id := object_id; j_owner_agent_id := owner; j_status := PENDING; j_input := input;
     j_success_contract := JDict [("output_model", JStr output_model)];
     j_scheduled_at := scheduled_at; j_attempt := 0; j_max_attempts := 3;
     j_idempotency_key := key; j_side_effect_class := sec; j_retry_class := rc;
     j_allowed_mode := mode; j_lease_owner := None; j_lease_expires_at := None;
     j_heartbeat_at := None; j_created_at := stamp; j_updated_at := stamp; j_version := 1 |}.

Lemma new_job_fresh w t ot o ow i m s k sec rc md st :
  fresh_job (new_job w t ot o ow i m s k sec rc md st).
Proof. by repeat split. Qed.

Section factory.
Context (cfg : WorkflowsConfig).

(** Insert one configured job under an identifier and key. *)
Definition insert_successor (workflow_id : uuid) (parent_job_id : option uuid) (job_type : string)
    (occurred_at : datetime) (job_def : WorkflowJobDefinition) (job_id : uuid) (key : string)
    : Session uuid :=
  let* stamp := clock_now in
  do* insert_job job_id (new_job workflow_id job_type (_infer_object_type job_type) workflow_id
    (wj_owner_agent_id job_def)
    (JDict [("parent_job_id", from_option (λ p, JStr (uuid_str p)) JNull parent_job_id)])
    (default "AgentResult" (head (wj_output_contracts job_def))) occurred_at key
    (wj_side_effect_class job_def) (wj_retry_class job_def)
    (default AutonomyMode.SIMULATION (head (wj_allowed_modes job_def))) stamp);
  pyret job_id.

Definition _create_successor_job (workflow_id : uuid) (parent_job_id aggregate_id : option uuid)
    (job_type : string) (occurred_at : datetime) : Session uuid :=
  match find_job_def cfg job_type with
  | None => pyraise (Exn ValueError
      ("Job type '" ++ job_type ++ "' not found in workflow configuration"))
  | Some job_def =>
      if decide (job_type = "DraftListingJob") then
        match aggregate_id with
        | None => pyraise (Exn ValueError "DraftListingJob requires the product aggregate")
        | Some aggregate_id =>
            let job_id := derive_product_job_id aggregate_id job_type in
            let* existing := get_job job_id in
            match existing with
            | Some _ => pyret job_id
            | None => insert_successor workflow_id parent_job_id job_type occurred_at job_def job_id
                        (job_type ++ ":" ++ uuid_str aggregate_id)
            end
        end
      else
        insert_successor workflow_id parent_job_id job_type occurred_at job_def
          (_derive_successor_job_id workflow_id parent_job_id job_type)
          (job_type ++ ":" ++ uuid_str workflow_id ++ ":" ++ uuid_or "none" parent_job_id)
  end.

(** One pass of the loop: a [Job] aggregate never inserts the draft job. *)
Definition spawn_one (workflow_id : uuid) (parent_job_id aggregate_id : option uuid)
    (aggregate_type : option string) (occurred_at : datetime) (created : list uuid)
    (job_type : string) : Session (list uuid) :=
  if decide (job_type = "DraftListingJob" ∧ aggregate_type = Some "Job") then pyret created
  else
    let* job_id := _create_successor_job workflow_id parent_job_id aggregate_id job_type occurred_at in
    pyret (created ++ [job_id])%list.

Definition create_successors (event_name : EventName) (workflow_id : uuid)
    (parent_job_id aggregate_id : option uuid) (aggregate_type : option string)
    (occurred_at : option datetime) : Session (list uuid) :=
  let* occurred_at := gets (λ db, default (db_clock db) occurred_at) in
  let event_key := EventName.EventName_value event_name in
  match mapped_successors cfg event_key with
  | None => pyraise (Exn ValueError ("Unknown event '" ++ event_key ++
      "' not found in event_successor_map. Cannot determine successors. Known events: " ++
      list_repr (sort_strings (wc_event_successor_map cfg).*1)))
  | Some successor_job_types =>
      for_fold (spawn_one workflow_id parent_job_id aggregate_id aggregate_type occurred_at)
        successor_job_types []
  end.

(** ** MULTIPLY *)

Definition _create_successor_workflow (parent_workflow_id : uuid)
    (parent_state : ProductLifecycleState) (parent_decision_id successor_workflow_id shop_id : uuid)
    : Session uuid :=
  let* entry := lift_result (require_successor_spawn parent_state parent_workflow_id
                               successor_workflow_id) in
  let* stamp := clock_now in
  do* insert_workflow successor_workflow_id
    {| wf_shop_id := shop_id; wf_type := "ProductLifecycleWorkflow"; wf_workflow_version := 1;
       wf_product_state := entry; wf_parent_workflow_id := Some parent_workflow_id;
       wf_parent_decision_id := Some parent_decision_id; wf_batch_id := None;
       wf_started_at := stamp; wf_completed_at := None; wf_version := 1 |};
  pyret successor_workflow_id.

Definition entry_job (workflow_id spec_id : uuid) (occurred_at stamp : datetime) : Job :=
  new_job workflow_id "DedupeJob" "product_specs" spec_id "A06"
    (JDict [("successor_spec_id", JStr (uuid_str spec_id))]) "DedupeResult" occurred_at
    ("DEDUPE:" ++ uuid_str spec_id) SideEffectClass.NONE RetryClass.SAFE AutonomyMode.SIMULATION
    stamp.

Definition _create_successor_entry_job (successor_workflow_id successor_spec_id : uuid)
    (occurred_at : datetime) : Session uuid :=
  let job_id := _derive_job_id successor_workflow_id successor_spec_id "DedupeJob" in
  let* stamp := clock_now in
  do* insert_job job_id (entry_job successor_workflow_id successor_spec_id occurred_at stamp);
  pyret job_id.

(** A [MULTIPLY] decision that passed its validator names a successor workflow and
    spec; the branch without them does not arise. *)
Definition create_multiply_successor (decision : PortfolioDecision) (parent_job_id : uuid)
    (occurred_at : option datetime) : Session (list uuid) :=
  let* occurred_at := gets (λ db, default (db_clock db) occurred_at) in
  if decide (pd_decision decision ≠ DecisionType.MULTIPLY) then pyret []
  else
    let* parent := get_workflow (pd_workflow_id decision) in
    match parent with
    | None => pyraise (Exn ValueError
        ("parent workflow " ++ uuid_str (pd_workflow_id decision) ++ " not found"))
    | Some parent_workflow =>
        match pd_successor_workflow_id decision, pd_successor_spec_id decision with
        | Some successor_id, Some spec_id =>
            let current_state := wf_product_state parent_workflow in
            let* _ := lift_result (require_successor_spawn current_state (pd_workflow_id decision)
                                     successor_id) in
            do* lift_result (require_product_transition current_state ProductLifecycleState.OBSERVING);
            do* flush_workflow (pd_workflow_id decision)
              (set_wf_product_state ProductLifecycleState.OBSERVING parent_workflow);
            let* wid := _create_successor_workflow (pd_workflow_id decision) current_state
              (pd_decision_id decision) successor_id (wf_shop_id parent_workflow) in
            let* jid := _create_successor_entry_job wid spec_id occurred_at in
            pyret [jid]
        | _, _ => pyraise (Exn ValueError "MULTIPLY requires successor_workflow_id")
        end
    end.
End factory.

(** ** Contracts *)

Lemma require_product_transition_ok s t :
  require_product_transition s t = Ok tt ↔ product_edge s t.
Proof. unfold require_product_transition, product_edge. case_decide; naive_solver. Qed.

Lemma insert_successor_contract w p t o d i k : within contract (insert_successor w p t o d i k).
Proof.
  unfold insert_successor, clock_now. repeat within_step. apply insert_job_contract, new_job_fresh.
Qed.
#[export] Hint Resolve insert_successor_contract : orch.

Lemma create_successor_job_contract cfg w p a t o :
  within contract (_create_successor_job cfg w p a t o).
Proof. unfold _create_successor_job, get_job. solve_within. Qed.
#[export] Hint Resolve create_successor_job_contract : orch.

Lemma create_successors_contract cfg e w p a at_ o :
  within contract (create_successors cfg e w p a at_ o).
Proof. unfold create_successors, spawn_one. solve_within. Qed.

Lemma create_entry_job_contract w s o : within contract (_create_successor_entry_job w s o).
Proof.
  unfold _create_successor_entry_job, clock_now. repeat within_step.
  apply insert_job_contract, new_job_fresh.
Qed.
#[export] Hint Resolve create_successors_contract create_entry_job_contract : orch.

Lemma create_workflow_contract p st d s sh :
  within contract (_create_successor_workflow p st d s sh).
Proof. unfold _create_successor_workflow, clock_now. solve_within. Qed.
#[export] Hint Resolve create_workflow_contract : orch.

Lemma create_multiply_contract d p o : within contract (create_multiply_successor d p o).
Proof.
  intros db. unfold create_multiply_successor, gets at 1, pybind at 1. case_decide; [reflexivity|].
  unfold get_workflow, gets, pybind at 1.
  destruct (workflow_runs db !! pd_workflow_id d) as [w|] eqn:Hw; [|reflexivity].
  destruct (pd_successor_workflow_id d) as [sid|]; [|reflexivity].
  destruct (pd_successor_spec_id d) as [spec|]; [|reflexivity].
  unfold pybind at 1, lift_result at 1. destruct (require_successor_spawn _ _ _); [|reflexivity].
  unfold pybind at 1, lift_result at 1.
  destruct (require_product_transition _ _) as [[]|] eqn:Hr; [|reflexivity].
  apply require_product_transition_ok in Hr.
  unfold pybind at 1, flush_workflow, modify.
  transitivity (store_workflow db (pd_workflow_id d)
    (set_wf_product_state ProductLifecycleState.OBSERVING w)).
  - apply store_workflow_contract. intros old Ho. simplify_eq. split; simpl; [done| |done].
    by apply rtc_once.
  - match goal with |- contract ?s (?m ?s).2 => cut (within contract m); [intros Hm; apply Hm|] end.
    solve_within.
Qed.
#[export] Hint Resolve create_multiply_contract : orch.

(** ** What a spawn leaves behind *)

(** The identifier the factory gives a successor. *)
Definition successor_id (workflow_id : uuid) (parent_job_id aggregate_id : option uuid)
    (job_type : string) : uuid :=
  match aggregate_id with
  | Some a => if decide (job_type = "DraftListingJob") then derive_product_job_id a job_type
              else _derive_successor_job_id workflow_id parent_job_id job_type
  | None => _derive_successor_job_id workflow_id parent_job_id job_type
  end.

Lemma successor_id_draft w p a :
  successor_id w p (Some a) "DraftListingJob" = derive_product_job_id a "DraftListingJob".
Proof. unfold successor_id. by rewrite decide_True. Qed.

#[global] Opaque sha256_uuid.

Lemma insert_job_run jid j db r db' :
  insert_job jid j db = (Ok r, db') →
  jobs db !! jid = None ∧ db' = set_jobs (<[jid := j]> (jobs db)) db.
Proof.
  unfold insert_job. case_match eqn:Hc; [|done]. rewrite !andb_true_iff, bool_decide_eq_true in Hc.
  intros [= <-]. by destruct Hc as [[[? _] _] _].
Qed.

Lemma insert_successor_run w p t o d i k db r db' :
  insert_successor w p t o d i k db = (Ok r, db') →
  r = i ∧ jobs db !! i = None ∧ ∃ j, db' = set_jobs (<[i := j]> (jobs db)) db ∧
    j_type j = t ∧ j_workflow_id j = w ∧ j_idempotency_key j = k ∧ j_status j = PENDING ∧
    j_owner_agent_id j = wj_owner_agent_id d ∧ j_scheduled_at j = o.
Proof.
  unfold insert_successor, clock_now, gets, pybind, pyret.
  destruct (insert_job _ _ db) as [[[]|e] db1] eqn:E; [|done]. intros [= <- <-].
  apply insert_job_run in E as [Hn ->]. split; [done|]. split; [done|]. eexists. by repeat split.
Qed.

(** A spawned job has its row, and no row is lost. *)
Lemma create_job_run cfg w p a t o db i db' :
  _create_successor_job cfg w p a t o db = (Ok i, db') →
  i = successor_id w p a t ∧ is_Some (jobs db' !! i) ∧ jobs db ⊆ jobs db' ∧
  ∃ d, find_job_def cfg t = Some d ∧
    (jobs db !! i = None → ∃ j, jobs db' !! i = Some j ∧ j_type j = t ∧ j_workflow_id j = w ∧
       j_status j = PENDING ∧ j_owner_agent_id j = wj_owner_agent_id d ∧ j_scheduled_at j = o).
Proof.
  unfold _create_successor_job. destruct (find_job_def cfg t) as [d|]; [|done].
  assert (Hins : ∀ i0 k, insert_successor w p t o d i0 k db = (Ok i, db') →
    i = i0 ∧ is_Some (jobs db' !! i) ∧ jobs db ⊆ jobs db' ∧ ∃ d0, Some d = Some d0 ∧
    (jobs db !! i = None → ∃ j, jobs db' !! i = Some j ∧ j_type j = t ∧ j_workflow_id j = w ∧
       j_status j = PENDING ∧ j_owner_agent_id j = wj_owner_agent_id d0 ∧ j_scheduled_at j = o)).
  { intros i0 k H. apply insert_successor_run in H as (-> & Hn & j & -> & ? & ? & ? & ? & ? & ?).
    simpl. rewrite lookup_insert_eq. split; [done|]. split; [done|].
    split; [by apply insert_subseteq|]. exists d. split; [done|]. intros _. by exists j. }
  unfold successor_id. case_decide as Ht.
  - destruct a as [a|]; [|done]. unfold get_job, gets, pybind.
    destruct (jobs db !! derive_product_job_id a t) as [j|] eqn:Hj.
    + intros [= <- <-]. split; [done|]. rewrite Hj. split; [done|]. split; [done|].
      exists d. split; [done|]. intros ?. congruence.
    + apply Hins.
  - intros H. apply Hins in H as (-> & Hrest). split; [by destruct a|done].
Qed.

(** The job types of the loop that are not skipped. *)
Definition spawned_types (aggregate_type : option string) (ts : list string) : list string :=
  filter (λ t, ¬ (t = "DraftListingJob" ∧ aggregate_type = Some "Job")) ts.

Lemma spawn_loop cfg w p a ty o ts acc db ids db' :
  for_fold (spawn_one cfg w p a ty o) ts acc db = (Ok ids, db') →
  ids = (acc ++ (successor_id w p a <$> spawned_types ty ts))%list ∧ jobs db ⊆ jobs db' ∧
  (∀ t, t ∈ spawned_types ty ts → is_Some (find_job_def cfg t) ∧
     is_Some (jobs db' !! successor_id w p a t)).
Proof.
  revert acc db. induction ts as [|t ts IH]; intros acc db; cbn [for_fold].
  - intros [= <- <-]. rewrite app_nil_r. split; [done|]. split; [done|].
    intros t Ht. by apply not_elem_of_nil in Ht.
  - unfold spawn_one at 1, spawned_types. rewrite filter_cons. unfold pybind.
    case_decide as Hs.
    + rewrite decide_False by naive_solver. apply IH.
    + rewrite decide_True by done.
      destruct (_create_successor_job cfg w p a t o db) as [[i|e] db1] eqn:E; [|done].
      unfold pyret. intros H. apply create_job_run in E as (-> & [j Hi] & Hsub & d & Hd & _).
      apply IH in H as (-> & Hsub' & Hall). split; [by rewrite fmap_cons, <- app_assoc|].
      split; [by etrans|]. intros t' [->|Ht']%elem_of_cons; [|by apply Hall].
      rewrite Hd. split; [done|]. exists j. by eapply lookup_weaken.
Qed.

(** A successful spawn returns, in the order of the event map, one deterministic
    identifier for every mapped job type (a [Job] aggregate skips the draft job);
    each is configured, each has its job row afterwards, and no existing job row is
    changed.  An event outside the map, or mapped to an unconfigured type, is never a
    silent success. *)
Theorem create_successors_spec cfg e w p a ty o db ids db' :
  create_successors cfg e w p a ty o db = (Ok ids, db') →
  ∃ ts, mapped_successors cfg (EventName.EventName_value e) = Some ts ∧
    ids = successor_id w p a <$> spawned_types ty ts ∧ jobs db ⊆ jobs db' ∧
    ∀ t, t ∈ spawned_types ty ts → is_Some (find_job_def cfg t) ∧
      is_Some (jobs db' !! successor_id w p a t).
Proof.
  unfold create_successors, gets, pybind.
  destruct (mapped_successors cfg _) as [ts|]; [|done]. intros H.
  apply spawn_loop in H as (-> & Hsub & Hall). by exists ts.
Qed.

Lemma create_successors_spec_witness :
  ∃ ids db', create_successors canonical_workflows EventName.SCREENSHOTS_CAPTURED 100 (Some 5%N)
    (Some 5%N) (Some "Job") None (sample_db []) = (Ok ids, db') ∧ length ids = 3%nat.
Proof.
  destruct (create_successors canonical_workflows EventName.SCREENSHOTS_CAPTURED 100 (Some 5%N)
    (Some 5%N) (Some "Job") None (sample_db [])) as [[ids|e] db'] eqn:E.
  - exists ids, db'. split; [reflexivity|].
    destruct (create_successors_spec _ _ _ _ _ _ _ _ _ _ E) as (ts & Hts & -> & _).
    vm_compute in Hts. injection Hts as <-. reflexivity.
  - exfalso. vm_compute in E. discriminate.
Defined.

(** There is one draft-listing job per product.  Once a [DraftListingJob] has been
    created for a product, creating it again for the same product, from any workflow
    and parent and in any database the orchestrator can evolve to, returns the same
    identifier and inserts nothing. *)
Theorem draft_listing_job_once cfg w p a o db i db1 :
  _create_successor_job cfg w p (Some a) "DraftListingJob" o db = (Ok i, db1) →
  ∀ db2 w2 p2 o2, db_evolves db1 db2 →
  _create_successor_job cfg w2 p2 (Some a) "DraftListingJob" o2 db2 = (Ok i, db2).
Proof.
  intros H db2 w2 p2 o2 He. apply create_job_run in H as (-> & [j Hj] & _ & d & Hd & _).
  destruct (de_jobs _ _ He _ _ Hj) as (j' & Hj' & _).
  rewrite successor_id_draft in Hj' |- *.
  unfold _create_successor_job. rewrite Hd, decide_True by done.
  unfold get_job, gets, pybind. by rewrite Hj'.
Qed.

Lemma draft_listing_job_once_witness :
  ∃ i db1, _create_successor_job canonical_workflows 100 None (Some 7%N) "DraftListingJob" 0 (sample_db [])
      = (Ok i, db1) ∧
    _create_successor_job canonical_workflows 101 (Some 3%N) (Some 7%N) "DraftListingJob" 9 db1 = (Ok i, db1).
Proof.
  destruct (_create_successor_job canonical_workflows 100 None (Some 7%N) "DraftListingJob" 0
    (sample_db [])) as [[i|e] db1] eqn:E; [|exfalso; vm_compute in E; discriminate].
  exists i, db1. split; [reflexivity|]. apply (draft_listing_job_once _ _ _ _ _ _ _ _ E). reflexivity.
Defined.

(** The MULTIPLY boundary.  A successful spawn starts from a parent in
    [SUCCESSOR_SPEC], leaves it [OBSERVING], and creates a different, new workflow at
    the dedupe gate, linked to the parent and of the same shop, with one pending
    dedupe job of the successor spec.  A parent in any other state, or a decision
    whose successor is the parent, is refused before anything is written. *)
Theorem multiply_boundary d p o db :
  validate_decision_path d = Ok tt → pd_decision d = DecisionType.MULTIPLY →
  match create_multiply_successor d p o db with
  | (Ok ids, db') => ∃ w sid spec,
      workflow_runs db !! pd_workflow_id d = Some w ∧
      wf_product_state w = ProductLifecycleState.SUCCESSOR_SPEC ∧
      pd_successor_workflow_id d = Some sid ∧ pd_successor_spec_id d = Some spec ∧
      sid ≠ pd_workflow_id d ∧ workflow_runs db !! sid = None ∧
      wf_product_state <$> workflow_runs db' !! pd_workflow_id d = Some ProductLifecycleState.OBSERVING ∧
      (∃ w', workflow_runs db' !! sid = Some w' ∧
        wf_product_state w' = ProductLifecycleState.DEDUPE_CHECK ∧
        wf_parent_workflow_id w' = Some (pd_workflow_id d) ∧
        wf_parent_decision_id w' = Some (pd_decision_id d) ∧ wf_shop_id w' = wf_shop_id w) ∧
      ids = [_derive_job_id sid spec "DedupeJob"] ∧
      ∃ j, jobs db' = <[_derive_job_id sid spec "DedupeJob" := j]> (jobs db) ∧
        jobs db !! _derive_job_id sid spec "DedupeJob" = None ∧ fresh_job j ∧
        j_workflow_id j = sid ∧ j_object_id j = spec
  | (Raise e, db') => db' = db ∨
      (e = integrity_error ∧ ∃ w, workflow_runs db !! pd_workflow_id d = Some w ∧
         wf_product_state w = ProductLifecycleState.SUCCESSOR_SPEC)
  end.
Proof.
  intros Hv Hm.
  assert (Hids : ∃ sid spec, pd_successor_workflow_id d = Some sid ∧ pd_successor_spec_id d = Some spec
    ∧ sid ≠ pd_workflow_id d).
  { unfold validate_decision_path in Hv. rewrite check_bind, Hm in Hv. solve_checks.
    destruct Hv as (_ & [sid Hs] & [spec Hp] & Hne & _). exists sid, spec. split; [done|].
    split; [done|]. congruence. }
  destruct Hids as (sid & spec & Hsid & Hspec & Hne).
  unfold create_multiply_successor, get_workflow, gets, pybind, lift_result, pyraise.
  rewrite decide_False by (intros Hx; by apply Hx).
  destruct (workflow_runs db !! pd_workflow_id d) as [w|] eqn:Hw; [|by left].
  rewrite Hsid, Hspec. unfold require_successor_spawn at 1.
  case_decide as Hst; [by left|]. case_decide as Heq; [by left|].
  unfold SUCCESSOR_SPAWN_SOURCE_STATE in Hst.
  rewrite (proj2 (require_product_transition_ok (wf_product_state w) ProductLifecycleState.OBSERVING))
    by (rewrite Hst; apply list_elem_of_In; simpl; tauto).
  unfold flush_workflow, modify.
  assert (Hdb1 : store_workflow db (pd_workflow_id d) (set_wf_product_state ProductLifecycleState.OBSERVING w) =
    set_workflow_runs (<[pd_workflow_id d := set_wf_version (wf_version w + 1)
      (set_wf_product_state ProductLifecycleState.OBSERVING w)]> (workflow_runs db)) db).
  { unfold store_workflow. rewrite Hw, decide_False; [done|]. simpl. congruence. }
  rewrite Hdb1. set (db1 := set_workflow_runs _ db).
  unfold _create_successor_workflow, clock_now, lift_result, pybind, gets, require_successor_spawn.
  rewrite decide_False by (unfold SUCCESSOR_SPAWN_SOURCE_STATE; naive_solver).
  rewrite decide_False by done. unfold insert_workflow.
  destruct (_ && _ && _ && _) eqn:Hc; [|right; split; [done|]; by exists w].
  rewrite !andb_true_iff, bool_decide_eq_true in Hc. destruct Hc as [[[Hfree _] _] _].
  unfold pyret, _create_successor_entry_job, clock_now, gets, pybind.
  set (db2 := set_workflow_runs _ db1).
  destruct (insert_job _ _ db2) as [[[]|e] db3] eqn:Hi; cycle 1.
  { right. unfold insert_job in Hi. case_match; simplify_eq. split; [done|]. by exists w. }
  apply insert_job_run in Hi as [Hjn ->].
  simpl in Hfree. rewrite lookup_insert_ne in Hfree by done.
  exists w, sid, spec. do 6 (split; [done|]). simpl. split; [|split; [|split; [done|]]].
  - rewrite lookup_insert_ne, lookup_insert_eq by done. done.
  - eexists. rewrite lookup_insert_eq. by repeat split.
  - eexists. split; [done|]. split; [done|]. split; [apply new_job_fresh|done].
Qed.

Definition multiply_sample : PortfolioDecision :=
  {| pd_decision_id := 70; pd_workflow_id := 100; pd_product_id := 71; pd_listing_id := 72;
     pd_decision := DecisionType.MULTIPLY; pd_metrics_snapshot_ids := [73%N];
     pd_cohort_reference := "c"; pd_rule_version := "r"; pd_explanation := "e"; pd_evidence := [];
     pd_repair_job_id := None; pd_deactivation_job_id := None; pd_successor_workflow_id := Some 200%N;
     pd_successor_spec_id := Some 300%N; pd_decided_at := 0 |}.

(** Workflow 100 is ready to multiply. *)
Definition winner_sample : DB :=
  set_workflow_runs {[100%N := set_wf_product_state ProductLifecycleState.SUCCESSOR_SPEC sample_workflow]}
    (sample_db []).

Lemma multiply_boundary_witness :
  ∃ db', create_multiply_successor multiply_sample 5 None winner_sample =
    (Ok [_derive_job_id 200 300 "DedupeJob"], db').
Proof.
  pose proof (multiply_boundary multiply_sample 5 None winner_sample eq_refl eq_refl) as Hb.
  destruct (create_multiply_successor multiply_sample 5 None winner_sample) as [[ids|e] db'] eqn:E.
  - destruct Hb as (w & sid & spec & _ & _ & [= <-] & [= <-] & _ & _ & _ & _ & -> & _).
    exists db'. reflexivity.
  - exfalso. vm_compute in E. discriminate.
Defined.
