(* ===== verification/EventDispatcher.v ===== *)
(** * Event dispatcher

    [orchestration/event_dispatcher.py]: an event is appended to the log under a
    semantic key and, only the first time, its successors are created; a portfolio
    decision spawns its successor workflow before its events are logged. *)

From S2P Require Import Prelude PyText Sha256 Enums Errors TransitionGuard Tables.
From S2P Require Import WorkflowsConfig Contracts Evolution Samples Repositories SuccessorFactory.
Open Scope string_scope.
Open Scope Z_scope.
Import EventName.

Definition _dedupe_key (event_name : EventName) (aggregate_id : uuid)
    (workflow_id job_id : option uuid) : string :=
  String.concat ":" [EventName_value event_name; uuid_str aggregate_id;
    uuid_or "null" workflow_id; uuid_or "null" job_id].

Section dispatcher.
Context `{Backend} (cfg : WorkflowsConfig).

(** The key of an event and whether an older row already stands for it. *)
Definition event_key (event_name : EventName) (aggregate_type : string) (aggregate_id : uuid)
    (workflow_id job_id : option uuid) : Session (string * bool) :=
  if decide (event_name = ASSETS_COMPLETED ∧ aggregate_type = "Job") then
    let* job := match job_id with Some j => get_job j | None => pyret None end in
    match job_id, job with
    | Some j, Some _ =>
        pyret (EventName_value event_name ++ ":" ++ uuid_str aggregate_id ++ ":job:" ++ uuid_str j, false)
    | _, _ => pyraise (Exn ValueError "worker ASSETS_COMPLETED requires a job")
    end
  else if decide (event_name = ASSETS_COMPLETED ∧ aggregate_type = "products") then
    let* legacy := EventRepository.by_dedupe_key
      (_dedupe_key event_name aggregate_id workflow_id None) in
    pyret (EventName_value event_name ++ ":" ++ uuid_str aggregate_id ++ ":product", given legacy)
  else pyret (_dedupe_key event_name aggregate_id workflow_id job_id, false).

(** Append, taking a duplicate key for the same event; says whether it existed. *)
Definition append_once (event_name : EventName) (aggregate_type : string) (aggregate_id : uuid)
    (workflow_id job_id : option uuid) (payload : json) (dedupe_key : string)
    (occurred_at : datetime) : Session bool :=
  try_except
    (let* _ := EventRepository.append event_name aggregate_type aggregate_id dedupe_key
       occurred_at workflow_id job_id None (Some payload) in pyret false)
    (λ error,
      if isa (exn_type error) EventAppendError then
        let* existing := EventRepository.by_dedupe_key dedupe_key in
        if given existing then pyret true else pyraise error
      else pyraise error).

Definition dispatch (event_name : EventName) (aggregate_type : string) (aggregate_id : uuid)
    (workflow_id job_id : option uuid) (payload : option json) (occurred_at : option datetime)
    : Session (list uuid) :=
  let* occurred_at := gets (λ db, default (db_clock db) occurred_at) in
  let* key := event_key event_name aggregate_type aggregate_id workflow_id job_id in
  let* event_already_existed :=
    (if key.2 then pyret true
     else append_once event_name aggregate_type aggregate_id workflow_id job_id
            (dict_or_empty payload) key.1 occurred_at) in
  match workflow_id with
  | Some wid =>
      if event_already_existed || bool_decide (event_name = SUCCESSOR_CREATED) then pyret []
      else create_successors cfg event_name wid job_id (Some aggregate_id) (Some aggregate_type)
             (Some occurred_at)
  | None => pyret []
  end.

Definition dispatch_decision (decision : PortfolioDecision) (parent_job_id : uuid)
    (occurred_at : option datetime) : Session (list uuid) :=
  let* occurred_at := gets (λ db, default (db_clock db) occurred_at) in
  let winner_dedupe_key := _dedupe_key WINNER_DETECTED (pd_decision_id decision)
    (Some (pd_workflow_id decision)) (Some parent_job_id) in
  let* existing_winner := EventRepository.by_dedupe_key winner_dedupe_key in
  if given existing_winner && bool_decide (pd_decision decision = DecisionType.MULTIPLY) then
    match pd_successor_workflow_id decision with
    | Some sid =>
        let* rows := gets (select jobs (λ _ j, bool_decide (j_workflow_id j = sid)) unordered) in
        pyret (take 1 rows).*1
    | None => pyret []
    end
  else
    let* successor_job_ids := create_multiply_successor decision parent_job_id (Some occurred_at) in
    let* _ := append_once WINNER_DETECTED "decisions" (pd_decision_id decision)
      (Some (pd_workflow_id decision)) (Some parent_job_id)
      (JDict [("decision", JStr (DecisionType.DecisionType_value (pd_decision decision)))])
      winner_dedupe_key occurred_at in
    match bool_decide (pd_decision decision = DecisionType.MULTIPLY), successor_job_ids with
    | true, successor_job_id :: _ =>
        (* a created successor has a specification id (create_multiply_successor requires it),
           so the default below is never taken *)
        let* _ := append_once SUCCESSOR_CREATED "product_specs"
          (default 0%N (pd_successor_spec_id decision))
          (pd_successor_workflow_id decision) (Some successor_job_id)
          (JDict [("parent_workflow_id", JStr (uuid_str (pd_workflow_id decision)));
                  ("parent_decision_id", JStr (uuid_str (pd_decision_id decision)))])
          ("SUCCESSOR_CREATED:" ++ uuid_str (pd_decision_id decision) ++ ":" ++
           uuid_or "None" (pd_successor_workflow_id decision) ++ ":" ++ uuid_str successor_job_id)
          occurred_at in
        pyret successor_job_ids
    | _, _ => pyret successor_job_ids
    end.

(** ** Contracts *)

Lemma event_key_contract n ty a w j : within contract (event_key n ty a w j).
Proof. unfold event_key, get_job. solve_within. Qed.
#[local] Hint Resolve event_key_contract : orch.

Lemma append_once_contract n ty a w j p k o : within contract (append_once n ty a w j p k o).
Proof. unfold append_once. solve_within. Qed.
#[local] Hint Resolve append_once_contract : orch.

Lemma dispatch_contract n ty a w j p o : within contract (dispatch n ty a w j p o).
Proof. unfold dispatch. solve_within. Qed.

Lemma dispatch_decision_contract d p o : within contract (dispatch_decision d p o).
Proof. unfold dispatch_decision. solve_within. Qed.
End dispatcher.

#[export] Hint Resolve event_key_contract append_once_contract dispatch_contract
  dispatch_decision_contract : orch.

(** ** Keys *)

Lemma event_value_no_colon n : str_free colon (EventName_value n) = true.
Proof. by destruct n. Qed.

Definition opt_uuid_ok (o : option uuid) : Prop := ∀ u, o = Some u → uuid_ok u.

(** The dedupe key is injective: two events share a key only if they have the same
    name, aggregate, workflow and job, absent identifiers included. *)
Theorem dedupe_key_inj n1 n2 a1 a2 w1 w2 j1 j2 :
  uuid_ok a1 → uuid_ok a2 → opt_uuid_ok w1 → opt_uuid_ok w2 → opt_uuid_ok j1 → opt_uuid_ok j2 →
  _dedupe_key n1 a1 w1 j1 = _dedupe_key n2 a2 w2 j2 → n1 = n2 ∧ a1 = a2 ∧ w1 = w2 ∧ j1 = j2.
Proof.
  intros A1 A2 W1 W2 J1 J2 Hk. unfold _dedupe_key in Hk. cbn [String.concat] in Hk.
  apply str_field_inj in Hk as [Hn Hk]; [|apply event_value_no_colon..].
  apply str_field_inj in Hk as [Ha Hk]; [|apply uuid_str_no_colon..].
  apply str_field_inj in Hk as [Hw Hk]; [|by apply uuid_or_no_colon..].
  apply EventName_value_inj in Hn. apply uuid_str_inj in Ha; [|done|done].
  apply uuid_or_inj in Hw; [|done|exact W1|exact W2].
  apply uuid_or_inj in Hk; [|done|exact J1|exact J2]. done.
Qed.

Lemma dedupe_key_inj_witness :
  _dedupe_key JOB_FAILED 1 None (Some 2%N) ≠ _dedupe_key JOB_FAILED 1 (Some 2%N) None.
Proof.
  intros Hk. apply dedupe_key_inj in Hk as (_ & _ & Hw & _); [discriminate|reflexivity|reflexivity|..];
    intros u Hu; inversion Hu; subst; reflexivity.
Defined.

(** ** Dispatching once *)

Definition logged (k : string) (db : DB) : Prop :=
  ∃ i e, events db !! i = Some e ∧ ev_dedupe_key e = k.

Lemma logged_mono k db db' : events db ⊆ events db' → logged k db → logged k db'.
Proof. intros Hsub (i & e & Hi & Hk). exists i, e. split; [|done]. by eapply lookup_weaken. Qed.

Section once.
Context `{Backend} (cfg : WorkflowsConfig).

Lemma by_key_logged k db :
  db_ok db → logged k db → ∃ r, EventRepository.by_dedupe_key k db = (Ok (Some r), db).
Proof.
  intros Hok (i & e & Hi & Hk). destruct (by_dedupe_key_spec k db Hok) as [(? & ? & _ & _ & ->)|[Hn _]];
    [by eexists|]. by destruct (Hn i e Hi).
Qed.

Lemma append_once_dup n ty a w j p k o db :
  db_ok db → logged k db → append_once n ty a w j p k o db = (Ok true, db).
Proof.
  intros Hok Hl. destruct (by_key_logged k db Hok Hl) as [r Hr].
  unfold append_once, try_except, EventRepository.append, pybind. rewrite Hr.
  unfold pyraise. cbn [exn_type]. replace (isa EventAppendError EventAppendError) with true by done.
  by rewrite Hr.
Qed.

Lemma append_once_logs n ty a w j p k o db b db' :
  db_ok db → append_once n ty a w j p k o db = (Ok b, db') → logged k db'.
Proof.
  intros Hok. unfold append_once, try_except, EventRepository.append, pybind.
  destruct (by_dedupe_key_spec k db Hok) as [(i & e & Hi & Hk & E)|[Hn E]]; rewrite E.
  - unfold pyraise. cbn [exn_type]. replace (isa EventAppendError EventAppendError) with true by done.
    rewrite E. unfold pyret. simpl. intros [= _ <-]. by exists i, e.
  - unfold clock_now, gets, insert_event. destruct (negb _ && _ && _); simpl; [|by intros ?].
    intros [= _ <-]. eexists _, _. simpl. by rewrite lookup_insert_eq.
Qed.

(** The key of a repeated dispatch: the same, unless an older row stands for it. *)
Lemma event_key_again n ty a w j db key db2 :
  db_ok db2 → rows_evolve job_evolves (jobs db) (jobs db2) → events db ⊆ events db2 →
  event_key n ty a w j db = (Ok key, db) → db_ok db →
  ∃ b, event_key n ty a w j db2 = (Ok (key.1, b), db2) ∧ (key.2 = true → b = true).
Proof.
  intros Hok2 Hj He Hk Hok. unfold event_key in *. case_decide as Hc1.
  - unfold get_job, gets, pybind, pyret, pyraise in *. destruct j as [j|]; [|done].
    destruct (jobs db !! j) as [job|] eqn:Hjob; [|done].
    destruct (Hj j job Hjob) as (job' & -> & _). simplify_eq. by eexists.
  - case_decide as Hc2; [|unfold pyret in *; simplify_eq; by eexists].
    unfold pybind, pyret in *.
    destruct (by_dedupe_key_spec (_dedupe_key n a w None) db2 Hok2) as [(? & ? & ? & ? & E2)|[Hn2 E2]];
      rewrite E2;
      destruct (by_dedupe_key_spec (_dedupe_key n a w None) db Hok) as [(i & e & Hi & Hkk & E1)|[Hn E1]];
      rewrite E1 in Hk; simplify_eq; eexists; (split; [done|]); simpl; try done.
    intros _. destruct (Hn2 i e); [by eapply lookup_weaken|done].
Qed.

(** C9: dispatching is idempotent.  After a dispatch has succeeded, dispatching the
    same event again, in any valid database the orchestrator can evolve to, appends
    nothing, creates no successor and returns no identifier: an event spawns its
    successors at most once. *)
Theorem dispatch_idempotent n ty a w j p o db ids db1 :
  db_ok db → dispatch cfg n ty a w j p o db = (Ok ids, db1) →
  ∀ db2 p2 o2, db_ok db2 → db_evolves db1 db2 →
  dispatch cfg n ty a w j p2 o2 db2 = (Ok [], db2).
Proof.
  intros Hok Hrun db2 p2 o2 Hok2 He2.
  assert (He : db_evolves db db2).
  { pose proof (dispatch_contract cfg n ty a w j p o db Hok) as [_ He]. rewrite Hrun in He. by etrans. }
  unfold dispatch in *. unfold gets, pybind in *.
  destruct (event_key n ty a w j db) as [[key|e] db0] eqn:Hk; [|done].
  assert (db0 = db) as ->.
  { revert Hk. unfold event_key, get_job, gets, pybind, pyret, pyraise, lift_result.
    unfold EventRepository.by_dedupe_key, gets, pybind, lift_result.
    repeat case_match; by intros; simplify_eq. }
  destruct (event_key_again n ty a w j db key db2 Hok2 (de_jobs _ _ He) (de_events _ _ He) Hk Hok)
    as (b & Hk2 & Hb). rewrite Hk2. cbn [fst snd].
  assert (Hlog : key.2 = false → logged key.1 db2).
  { intros Hf. rewrite Hf in Hrun. unfold pybind in Hrun.
    pose proof (append_once_contract n ty a w j (dict_or_empty p) key.1
      (default (db_clock db) o) db Hok) as [Hoka _].
    destruct (append_once _ _ _ _ _ _ _ _ db) as [[ex|e] dba] eqn:Ha; [|done].
    apply append_once_logs in Ha; [|done]. simpl in Hoka. eapply logged_mono; [apply He2|].
    destruct w as [wid|]; [|by unfold pyret in Hrun; simplify_eq].
    destruct (ex || _); [by unfold pyret in Hrun; simplify_eq|].
    eapply logged_mono; [|exact Ha].
    pose proof (create_successors_contract cfg n wid j (Some a) (Some ty)
      (Some (default (db_clock db) o)) dba Hoka) as [_ Hes].
    rewrite Hrun in Hes. apply Hes. }
  destruct b; [by destruct w|]. destruct key as [k []]; [by specialize (Hb eq_refl)|]. simpl in Hlog.
  simpl. rewrite append_once_dup by auto. by destruct w.
Qed.

(** The key under which a decision is known to have been dispatched. *)
Definition winner_key (d : PortfolioDecision) (p : uuid) : string :=
  _dedupe_key WINNER_DETECTED (pd_decision_id d) (Some (pd_workflow_id d)) (Some p).

(** What a successful spawn returns. *)
Lemma create_multiply_run d p o db ids db' :
  pd_decision d = DecisionType.MULTIPLY → create_multiply_successor d p o db = (Ok ids, db') →
  ∃ sid k j, pd_successor_workflow_id d = Some sid ∧ ids = [k] ∧ jobs db' !! k = Some j ∧
    j_workflow_id j = sid.
Proof.
  intros Hm. unfold create_multiply_successor.
  rewrite pybind_ok. intros (t & s & [= <- <-] & Hc). rewrite decide_False in Hc by (intros Hx; by apply Hx).
  apply pybind_ok in Hc as (w & s & [= <- <-] & Hc).
  destruct (workflow_runs db !! pd_workflow_id d) as [w|]; [|done].
  destruct (pd_successor_workflow_id d) as [sid|]; [|done].
  destruct (pd_successor_spec_id d) as [spec|]; [|done].
  apply pybind_ok in Hc as (? & s1 & _ & Hc). apply pybind_ok in Hc as (? & s2 & _ & Hc).
  apply pybind_ok in Hc as (? & s3 & _ & Hc). apply pybind_ok in Hc as (wid & s4 & Hw & Hc).
  apply pybind_ok in Hc as (k & s5 & Hj & Hc). apply pyret_ok in Hc as [<- <-].
  unfold _create_successor_workflow in Hw. apply pybind_ok in Hw as (? & ? & _ & Hw).
  apply pybind_ok in Hw as (? & ? & _ & Hw). apply pybind_ok in Hw as (? & ? & _ & Hw).
  apply pyret_ok in Hw as [<- _].
  unfold _create_successor_entry_job in Hj. apply pybind_ok in Hj as (st & ? & [= <- <-] & Hj).
  apply pybind_ok in Hj as (? & ? & Hi & Hj). apply pyret_ok in Hj as [<- <-]. apply insert_job_run in Hi as [_ ->].
  eexists sid, _, _. split; [reflexivity|]. split; [reflexivity|].
  split; [apply lookup_insert_eq|reflexivity].
Qed.

(** The first dispatch of a decision: one job of the successor workflow, and the
    winner is on record. *)
Lemma dispatch_decision_first d p o db ids db1 :
  db_ok db → pd_decision d = DecisionType.MULTIPLY → ¬ logged (winner_key d p) db →
  dispatch_decision d p o db = (Ok ids, db1) →
  logged (winner_key d p) db1 ∧
  ∃ sid k j, pd_successor_workflow_id d = Some sid ∧ ids = [k] ∧ jobs db1 !! k = Some j ∧
    j_workflow_id j = sid.
Proof.
  intros Hok Hm Hn Hrun. unfold dispatch_decision in Hrun.
  apply pybind_ok in Hrun as (t & s & [= <- <-] & Hrun). fold (winner_key d p) in Hrun.
  apply pybind_ok in Hrun as (w & s & Hw & Hrun).
  destruct (by_dedupe_key_spec (winner_key d p) db Hok) as [(i & e & Hi & Hk & _)|[_ E]];
    [destruct Hn; by exists i, e|]. rewrite E in Hw. injection Hw as <- <-. simpl in Hrun.
  apply pybind_ok in Hrun as (sids & dbm & Hmul & Hrun).
  pose proof (create_multiply_contract d p (Some (default (db_clock db) o)) db Hok) as [Hokm _].
  rewrite Hmul in Hokm. apply create_multiply_run in Hmul as (sid & k & j & Hsid & -> & Hj & Hwf); [|done].
  apply pybind_ok in Hrun as (b & dba & Ha & Hrun).
  epose proof (append_once_contract _ _ _ _ _ _ _ _ dbm Hokm) as [Hoka Hea]. rewrite Ha in Hoka, Hea.
  apply append_once_logs in Ha; [|done]. rewrite bool_decide_true in Hrun by done.
  apply pybind_ok in Hrun as (b2 & dbb & Hb & Hrun). apply pyret_ok in Hrun as [<- <-].
  epose proof (append_once_contract _ _ _ _ _ _ _ _ dba Hoka) as [_ Heb]. rewrite Hb in Heb.
  simpl in Hea, Heb. split; [eapply logged_mono; [apply Heb|done]|].
  assert (He : db_evolves dbm dbb) by (by etrans).
  destruct (de_jobs _ _ He k j Hj) as (j' & Hj' & [Henv]).
  exists sid, k, j'. do 3 (split; [done|]). unfold job_envelope in Henv. by injection Henv as ->.
Qed.

(** A MULTIPLY decision spawns one successor.  Its first dispatch returns the one
    entry job of the successor workflow.  Dispatching the same decision again, in any
    valid database the orchestrator can evolve to, changes nothing and returns one
    job of that workflow: the same one, as long as the workflow has no other. *)
Theorem dispatch_decision_idempotent d p o db ids db1 :
  db_ok db → pd_decision d = DecisionType.MULTIPLY → ¬ logged (winner_key d p) db →
  dispatch_decision d p o db = (Ok ids, db1) →
  ∃ k, ids = [k] ∧ ∀ db2 o2, db_ok db2 → db_evolves db1 db2 →
  ∃ k2 j2, dispatch_decision d p o2 db2 = (Ok [k2], db2) ∧ jobs db2 !! k2 = Some j2 ∧
    pd_successor_workflow_id d = Some (j_workflow_id j2) ∧
    ((∀ k' j', jobs db2 !! k' = Some j' → pd_successor_workflow_id d = Some (j_workflow_id j') → k' = k) →
     k2 = k).
Proof.
  intros Hok Hm Hn Hrun.
  destruct (dispatch_decision_first d p o db ids db1 Hok Hm Hn Hrun) as
    (Hlog & sid & k & j & Hsid & -> & Hj & Hw).
  exists k. split; [done|]. intros db2 o2 Hok2 He2.
  destruct (by_key_logged (winner_key d p) db2 Hok2) as [r Hr];
    [eapply logged_mono; [apply He2|done]|].
  unfold dispatch_decision, gets, pybind. fold (winner_key d p). rewrite Hr, bool_decide_true by done.
  simpl. rewrite Hsid. set (rows := select jobs _ unordered db2).
  assert (Hrows : ∀ k j, (k, j) ∈ rows ↔ jobs db2 !! k = Some j ∧ j_workflow_id j = sid).
  { intros k' j'. unfold rows. rewrite elem_of_select. simpl. by rewrite bool_decide_eq_true. }
  destruct rows as [|[k2 j2] rows'].
  - exfalso. destruct (de_jobs _ _ He2 k j Hj) as (j' & Hj' & [Henv]).
    apply (not_elem_of_nil (k, j')), Hrows. split; [done|].
    unfold job_envelope in Henv. injection Henv as -> _. done.
  - destruct (proj1 (Hrows k2 j2)) as [Hk2 <-]; [left|]. exists k2, j2. do 3 (split; [done|]).
    intros Honly. by eapply Honly.
Qed.
End once.

Lemma dispatch_idempotent_witness :
  let db := sample_db [(5%N, sample_job "a" JobStatus.SUCCEEDED 0)] in
  ∃ ids db1, @dispatch reference_backend canonical_workflows PREFLIGHT_PASSED "Job" 5 (Some 100%N)
      (Some 5%N) None None db = (Ok ids, db1) ∧
    @dispatch reference_backend canonical_workflows PREFLIGHT_PASSED "Job" 5 (Some 100%N) (Some 5%N)
      None None db1 = (Ok [], db1).
Proof.
  intros db.
  destruct (@dispatch reference_backend canonical_workflows PREFLIGHT_PASSED "Job" 5 (Some 100%N)
      (Some 5%N) None None db) as [[ids|e] db1] eqn:E; [|exfalso; vm_compute in E; discriminate].
  assert (Hok : db_ok db) by solve_db_ok.
  exists ids, db1. split; [reflexivity|].
  apply (@dispatch_idempotent reference_backend canonical_workflows _ _ _ _ _ _ _ db ids db1 Hok E).
  - pose proof (@dispatch_contract reference_backend canonical_workflows PREFLIGHT_PASSED "Job" 5
      (Some 100%N) (Some 5%N) None None db Hok) as [Hok1 _]. rewrite E in Hok1. exact Hok1.
  - reflexivity.
Defined.

(** The winning workflow with the job that decided. *)
Definition decision_sample : DB :=
  set_jobs {[5%N := sample_job "decide" JobStatus.SUCCEEDED 0]} winner_sample.

Lemma dispatch_decision_idempotent_witness :
  ∃ k db1, @dispatch_decision reference_backend multiply_sample 5 None decision_sample = (Ok [k], db1) ∧
    ∃ k2, @dispatch_decision reference_backend multiply_sample 5 None db1 = (Ok [k2], db1).
Proof.
  assert (Hok : db_ok decision_sample) by solve_db_ok.
  destruct (@dispatch_decision reference_backend multiply_sample 5 None decision_sample)
    as [[ids|e] db1] eqn:E; [|exfalso; vm_compute in E; discriminate].
  destruct (@dispatch_decision_idempotent reference_backend multiply_sample 5 None decision_sample ids
    db1 Hok eq_refl) as (k & -> & Hagain); [|exact E|].
  - intros (i & e & Hi & _). vm_compute in Hi. destruct i; discriminate.
  - exists k, db1. split; [reflexivity|].
    pose proof (@dispatch_decision_contract reference_backend multiply_sample 5 None
      decision_sample Hok) as [Hok1 _]. rewrite E in Hok1.
    destruct (Hagain db1 None Hok1) as (k2 & _ & Hk2 & _); [reflexivity|]. exists k2. exact Hk2.
Defined.
