(* ===== verification/Engine.v ===== *)
(** * Engine

    [orchestration/engine.py]: the operator commands that start and cancel workflows,
    retry failed jobs, settle uncertain effects by hand, and run one scheduler or
    worker step. *)

From S2P Require Import Prelude PyText Sha256 Enums Errors TransitionGuard Retry Tables.
From S2P Require Import WorkflowsConfig Contracts Evolution Samples Leases Repositories Idempotency.
From S2P Require Import DependencyResolver Scheduler Reconciliation SuccessorFactory.
Open Scope string_scope.
Open Scope Z_scope.
Import JobStatus.

(** ** Starting a workflow *)

Definition find_workflow_def (cfg : WorkflowsConfig) (workflow_type : string)
    : option WorkflowDefinition :=
  snd <$> list_find (λ w, wd_workflow_type w = workflow_type) (wc_workflows cfg).

Definition _infer_object_type_for_entry_job (job_type : string) : string :=
  if str_in "Provisioning" job_type || str_in "Environment" job_type then "shops"
  else if str_in "Schedule" job_type || str_in "Configuration" job_type then "workflow_runs"
  else "workflow_runs".

(** The loop body: the row of one entry job. *)
Definition entry_row (workflow_id : uuid) (workflow_type : string) (jobs : list WorkflowJobDefinition)
    (now stamp : datetime) (job_type : string) : result exn (uuid * Job) :=
  match list_find (λ j, wj_job_type j = job_type) jobs with
  | None => Raise (Exn ValueError ("Entry job type '" ++ job_type ++ "' not found in workflow '" ++
      workflow_type ++ "' configuration"))
  | Some (_, job_spec) =>
      Ok (sha256_uuid (uuid_str workflow_id ++ ":" ++ job_type ++ ":entry"),
          new_job workflow_id job_type (_infer_object_type_for_entry_job job_type) workflow_id
            (wj_owner_agent_id job_spec)
            (JDict [("entry", JBool true); ("workflow_type", JStr workflow_type)])
            (default "AgentResult" (head (wj_output_contracts job_spec))) now
            ("ENTRY:" ++ job_type ++ ":" ++ uuid_str workflow_id)
            (wj_side_effect_class job_spec) (wj_retry_class job_spec)
            (default AutonomyMode.SIMULATION (head (wj_allowed_modes job_spec))) stamp)
  end.

(** Rows added to the session go out in one flush. *)
Definition insert_jobs (rows : list (uuid * Job)) : Session unit :=
  atomically (for_fold (λ _ r, insert_job r.1 r.2) rows tt).

Section engine.
Context `{Backend} (cfg : WorkflowsConfig).

Definition _spawn_entry_jobs (workflow_id : uuid) (workflow_type : string)
    (entry_job_types : list string) (now : datetime) : Session (list uuid) :=
  match find_workflow_def cfg workflow_type with
  | None => pyraise (Exn ValueError ("Workflow type '" ++ workflow_type ++ "' not found"))
  | Some workflow_def =>
      let* stamp := clock_now in
      let* rows := lift_result (traverse (entry_row workflow_id workflow_type (wd_jobs workflow_def)
                                            now stamp) entry_job_types) in
      do* insert_jobs rows;
      pyret rows.*1
  end.

Definition start_workflow (workflow_type : string) (product_state : ProductLifecycleState)
    (shop_id : uuid) (now : datetime) : Session (uuid * WorkflowRun) :=
  match find_workflow_def cfg workflow_type with
  | None => pyraise (Exn ValueError
      ("Workflow type '" ++ workflow_type ++ "' not found in configuration"))
  | Some workflow_def =>
      if decide (wd_entry_job_types workflow_def = []) then
        pyraise (Exn ValueError ("Workflow '" ++ workflow_type ++ "' has no entry_job_types defined"))
      else
        let* wid := gets (λ db, uuid4 (dom (workflow_runs db))) in
        let workflow := {| wf_shop_id := shop_id; wf_type := workflow_type;
          wf_workflow_version := 1; wf_product_state := product_state;
          wf_parent_workflow_id := None; wf_parent_decision_id := None; wf_batch_id := None;
          wf_started_at := now; wf_completed_at := None; wf_version := 1 |} in
        do* insert_workflow wid workflow;
        do* _spawn_entry_jobs wid workflow_type (wd_entry_job_types workflow_def) now;
        pyret (wid, workflow)
  end.

(** ** Retry *)

(** The newest effect attempt of a job. *)
Definition latest_effect_of (job_id : uuid) (db : DB) : option (uuid * EffectAttempt) :=
  head (take 1 (EffectAttemptRepository.newest_attempts (λ e, bool_decide (eff_job_id e = job_id)) db)).

Definition retried (at_ now : datetime) (j : Job) : Job :=
  set_j_updated_at now (set_j_scheduled_at at_ (set_j_status READY j)).

Definition retry_failed_job (job_id : uuid) (now : datetime) : Session (uuid * Job) :=
  let* found := get_job job_id in
  match found with
  | None => pyraise (Exn JobNotFoundError ("Job " ++ uuid_str job_id ++ " not found"))
  | Some job =>
      if decide (j_status job ≠ FAILED) then
        pyraise (Exn InvalidRetryError ("Job is " ++ JobStatus_value (j_status job) ++ ", not FAILED"))
      else
        let* reconciliation_resolved :=
          (if decide (j_retry_class job = RetryClass.RECONCILE_FIRST)
           then gets (λ db, from_option (λ r, effect_resolved r.2) false (latest_effect_of job_id db))
           else pyret false) in
        let* decision := lift_result (evaluate_retry_default (j_retry_class job) (j_attempt job)
                           (j_max_attempts job) now reconciliation_resolved) in
        match can_retry decision, retry_scheduled_at decision with
        | true, Some at_ =>
            do* lift_result (require_job_transition FAILED READY);
            let job := retried at_ now job in
            do* flush_jobs [(job_id, job)];
            refreshed (job_id, job)
        | _, _ => pyraise (Exn InvalidRetryError ("Cannot retry: " ++ retry_reason decision))
        end
  end.

(** ** Cancellation *)

Definition cancellable (workflow_id : uuid) (_ : uuid) (j : Job) : bool :=
  bool_decide (j_workflow_id j = workflow_id) && bool_decide (j_status j ∈ [PENDING; READY]).

Definition cancelled (now : datetime) (j : Job) : Job :=
  set_j_updated_at now (set_j_status CANCELLED j).

Definition cancel_one (now : datetime) (j : Job) : result exn Job :=
  do? require_job_transition (j_status j) CANCELLED;
  Ok (cancelled now j).

Definition cancel_workflow (workflow_id : uuid) (now : datetime)
    : Session ((uuid * WorkflowRun) * nat) :=
  let* found := get_workflow workflow_id in
  match found with
  | None => pyraise (Exn WorkflowNotFoundError ("Workflow " ++ uuid_str workflow_id ++ " not found"))
  | Some workflow =>
      let workflow := set_wf_completed_at (Some now) workflow in
      let* rows := gets (select jobs (cancellable workflow_id) unordered) in
      let* edited := lift_result (traverse (on_row (cancel_one now)) rows) in
      do* atomically (do* flush_workflow workflow_id workflow; flush_jobs edited);
      let* w := gets (λ db, default workflow (workflow_runs db !! workflow_id)) in
      pyret ((workflow_id, w), length rows)
  end.

(** ** Manual reconciliation *)

Definition parse_outcome (effect_state : string) : option EffectState :=
  if decide (effect_state = "CONFIRMED") then Some EffectState.CONFIRMED
  else if decide (effect_state = "ABSENT") then Some EffectState.ABSENT
  else None.

Definition settle_uncertain_effect (job_id : uuid) (effect_state : string)
    (provider_object_id : option string) (now : datetime) : Session (uuid * EffectAttempt) :=
  match parse_outcome effect_state with
  | None => pyraise (Exn EngineError ("effect_state must be CONFIRMED or ABSENT, got " ++ effect_state))
  | Some st =>
  let* found := get_job job_id in
  match found with
  | None => pyraise (Exn JobNotFoundError ("Job " ++ uuid_str job_id ++ " not found"))
  | Some job =>
  if decide (j_status job ≠ UNCERTAIN_EXTERNAL_EFFECT) then
    pyraise (Exn EngineError ("Job " ++ uuid_str job_id ++ " is " ++ JobStatus_value (j_status job) ++
      ", expected UNCERTAIN_EXTERNAL_EFFECT"))
  else
  let* latest := gets (latest_effect_of job_id) in
  match latest with
  | None => pyraise (Exn EngineError ("No effect attempt found for job " ++ uuid_str job_id))
  | Some (eid, effect) =>
      let effect := set_eff_observed_at now
        (set_eff_provider_object_id provider_object_id (set_eff_state st effect)) in
      let target_status := if decide (effect_state = "CONFIRMED") then SUCCEEDED else FAILED in
      do* lift_result (require_job_transition (j_status job) target_status);
      do* atomically (do* flush_effect_attempt eid effect;
                      flush_jobs [(job_id, moved target_status now job)]);
      pyret (eid, effect)
  end
  end
  end.

(** ** One step by hand *)

Definition run_scheduler_once (locked1 locked2 : gset uuid) (now : datetime) : Session cycle_counts :=
  run_scheduler_cycle locked1 locked2 now 50 50 50.

Definition run_worker_once (locked : gset uuid) (worker_id : string) (now : datetime)
    : Session (option (uuid * Job)) :=
  claim_ready_job locked worker_id now (minutes 5).
End engine.

(** ** Contracts *)

Lemma cancel_one_spec now j :
  j_status j ∈ [PENDING; READY] → cancel_one now j = Ok (cancelled now j).
Proof.
  intros Hs. unfold cancel_one. rewrite (proj2 (require_job_transition_ok _ _)); [done|].
  repeat (apply elem_of_cons in Hs as [->|Hs]); auto with orch. by apply not_elem_of_nil in Hs.
Qed.

Lemma cancelled_ok now j : j_status j ∈ [PENDING; READY] → job_ok j → edit_ok j (cancelled now j).
Proof.
  intros Hs [Hwf _]. destruct (lease_free j Hwf) as (? & ? & ?); [intros E; rewrite E in Hs; set_solver|].
  destruct Hwf as [_ (Ha & Hm & _)]. split.
  - split; simpl; [reflexivity| |lia|lia]. apply rtc_once.
    repeat (apply elem_of_cons in Hs as [->|Hs]); auto with orch. by apply not_elem_of_nil in Hs.
  - split; [by apply lease_idle|]. split; [exact Ha|]. split; [exact Hm|]. simpl. set_solver.
Qed.

Lemma retried_ok at_ now j :
  j_status j = FAILED → j_attempt j < j_max_attempts j → job_ok j → edit_ok j (retried at_ now j).
Proof.
  intros Hs Hlt [Hwf _]. destruct (lease_free j Hwf) as (? & ? & ?); [by rewrite Hs|].
  destruct Hwf as [_ (Ha & Hm & _)]. split.
  - split; simpl; [reflexivity| |lia|lia]. rewrite Hs. apply rtc_once. auto with orch.
  - split; [by apply lease_idle|]. split; [exact Ha|]. split; [exact Hm|]. done.
Qed.

(** A loop that succeeds on the selected rows maps them. *)
Lemma traverse_rows f g (rows : list (uuid * Job)) :
  (∀ k j, (k, j) ∈ rows → f j = Ok (g j)) → traverse (on_row f) rows = Ok (prod_map id g <$> rows).
Proof.
  induction rows as [|[k j] rows IH]; intros Hf; [done|]. cbn [traverse]. unfold on_row at 1.
  cbn [snd]. rewrite (Hf k j) by left. simpl. rewrite IH; [done|]. intros k' j' Hin.
  eapply Hf. right. exact Hin.
Qed.

(** A retry is allowed only with an attempt left. *)
Lemma retry_allowed c a m now res d :
  evaluate_retry_default c a m now res = Ok d → can_retry d = true → a + 1 < m.
Proof.
  unfold evaluate_retry_default, evaluate_retry.
  destruct (m <=? 0); [done|]. destruct (Z.leb_spec m a); [done|].
  destruct (Z.leb_spec m (a + 1)); [by intros [= <-]|]. lia.
Qed.

Section contracts.
Context `{Backend} (cfg : WorkflowsConfig).

Lemma insert_jobs_contract rows :
  Forall (λ r : uuid * Job, fresh_job r.2) rows → within contract (insert_jobs rows).
Proof.
  intros Hf. unfold insert_jobs. apply within_atomically; [apply _|].
  generalize tt. induction Hf as [|r rows Hr _ IH]; intros u; cbn [for_fold]; [solve_within|].
  apply within_bind; [apply _|by apply insert_job_contract|]. intros ?. apply IH.
Qed.

Lemma entry_rows_fresh w t js now st ts rows :
  traverse (entry_row w t js now st) ts = Ok rows → Forall (λ r : uuid * Job, fresh_job r.2) rows.
Proof.
  intros Hr. apply traverse_Forall2 in Hr. induction Hr as [|ty r ts rows He _ IH]; constructor; [|done].
  unfold entry_row in He. destruct (list_find _ js) as [[i d]|]; [|done].
  injection He as <-. apply new_job_fresh.
Qed.

Lemma spawn_entry_jobs_contract w t ts now : within contract (_spawn_entry_jobs cfg w t ts now).
Proof.
  unfold _spawn_entry_jobs, clock_now. destruct (find_workflow_def cfg t) as [wd|]; [|solve_within].
  apply within_bind; [apply _|solve_within|]. intros st.
  apply within_lift_bind; [apply _|]. intros rows Hr.
  apply within_bind; [apply _|by eapply insert_jobs_contract, entry_rows_fresh|].
  intros ?. solve_within.
Qed.
#[local] Hint Resolve spawn_entry_jobs_contract : orch.

Lemma start_workflow_contract t st s now : within contract (start_workflow cfg t st s now).
Proof. unfold start_workflow. solve_within. Qed.

Lemma retry_failed_job_contract jid now : within contract (retry_failed_job jid now).
Proof.
  unfold retry_failed_job. apply within_gets_bind. intros db.
  destruct (jobs db !! jid) as [job|] eqn:Hj; [|reflexivity]. case_decide as Hs; [reflexivity|].
  match goal with |- contract _ (pybind ?m ?k _).2 => destruct (m db) as [[res|e] db0] eqn:Hm end.
  2: { unfold pybind. rewrite Hm. case_decide; unfold gets, pyret in Hm; by simplify_eq. }
  assert (db0 = db) as -> by (case_decide; unfold gets, pyret in Hm; by simplify_eq).
  unfold pybind at 1. rewrite Hm. unfold pybind at 1, lift_result at 1.
  destruct (evaluate_retry_default _ _ _ now res) as [d|e] eqn:Hd; [|reflexivity].
  destruct (can_retry d) eqn:Hcan; [|reflexivity]. destruct (retry_scheduled_at d) as [t|]; [|reflexivity].
  apply retry_allowed in Hd; [|done].
  assert (Hf : contract db (flush_jobs [(jid, retried t now job)] db).2).
  { apply flush_job_contract. intros old Ho Hok. simplify_eq. apply retried_ok; [done|lia|done]. }
  unfold pybind, lift_result. rewrite (proj2 (require_job_transition_ok FAILED READY)) by auto with orch.
  by destruct (flush_jobs _ db) as [[]].
Qed.

Lemma elem_of_cancellable wid db k j :
  (k, j) ∈ select jobs (cancellable wid) unordered db ↔
  jobs db !! k = Some j ∧ j_workflow_id j = wid ∧ j_status j ∈ [PENDING; READY].
Proof.
  rewrite elem_of_select. unfold cancellable. simpl. by rewrite andb_true_iff, !bool_decide_eq_true.
Qed.

(** The rows of a cancellation, edited. *)
Definition cancel_rows (wid : uuid) (now : datetime) (db : DB) : list (uuid * Job) :=
  prod_map id (cancelled now) <$> select jobs (cancellable wid) unordered db.

Lemma cancel_unfold wid now db w :
  workflow_runs db !! wid = Some w →
  let w' := set_wf_completed_at (Some now) w in
  cancel_workflow wid now db =
  (do* atomically (do* flush_workflow wid w'; flush_jobs (cancel_rows wid now db));
   let* w := gets (λ db, default w' (workflow_runs db !! wid)) in
   pyret ((wid, w), length (cancel_rows wid now db))) db.
Proof.
  intros Hw w'. unfold cancel_workflow, get_workflow. unfold pybind at 1, gets at 1. rewrite Hw.
  unfold pybind at 1, gets at 1. unfold pybind at 1, lift_result.
  rewrite (traverse_rows _ (cancelled now)).
  - fold (cancel_rows wid now db). unfold cancel_rows at 3. by rewrite length_fmap.
  - intros k j (_ & _ & Hs)%elem_of_cancellable. by apply cancel_one_spec.
Qed.

Lemma cancel_workflow_contract wid now : within contract (cancel_workflow wid now).
Proof.
  intros db. destruct (workflow_runs db !! wid) as [w|] eqn:Hw.
  2: { unfold cancel_workflow, get_workflow, gets, pybind. rewrite Hw. reflexivity. }
  rewrite (cancel_unfold wid now db w Hw). unfold atomically, flush_workflow, modify, gets, pybind, pyret.
  set (db1 := store_workflow db wid _).
  assert (H1 : contract db db1).
  { apply store_workflow_contract. intros old Ho. simplify_eq. split; simpl; done. }
  assert (Hj : jobs db1 = jobs db) by (unfold db1, store_workflow; by repeat case_match).
  assert (H2 : contract db1 (flush_jobs (cancel_rows wid now db) db1).2).
  { apply flush_edits_contract; [apply select_NoDup|]. intros k j (Hk & _ & Hs)%elem_of_cancellable.
    rewrite Hj. split; [done|]. by apply cancelled_ok. }
  destruct (flush_jobs _ db1) as [[[]|e] db2]; simpl in *; [by etrans|reflexivity].
Qed.

Lemma settle_contract jid st oid now : within contract (settle_uncertain_effect jid st oid now).
Proof.
  unfold settle_uncertain_effect. destruct (parse_outcome st) as [s|]; [|solve_within].
  apply within_gets_bind. intros db. destruct (jobs db !! jid) as [job|] eqn:Hj; [|reflexivity].
  case_decide as Hs; [reflexivity|]. unfold pybind at 1, gets.
  destruct (latest_effect_of jid db) as [[eid e]|]; [|reflexivity].
  set (target := if decide (st = "CONFIRMED") then _ else _).
  unfold pybind at 1, lift_result. destruct (require_job_transition _ target) as [[]|] eqn:Hr; [|reflexivity].
  apply require_job_transition_ok in Hr. rewrite Hs in Hr.
  unfold pybind, atomically.
  pose proof (flush_effect_attempt_contract eid (set_eff_observed_at now
    (set_eff_provider_object_id oid (set_eff_state s e))) db) as H1.
  destruct (flush_effect_attempt _ _ db) as [[[]|x] db1] eqn:He; simpl in *; [|reflexivity].
  assert (Hj1 : jobs db1 = jobs db) by (unfold flush_effect_attempt in He; case_match; by simplify_eq).
  assert (H2 : contract db1 (flush_jobs [(jid, moved target now job)] db1).2).
  { apply flush_job_contract. intros old Ho Hok. rewrite Hj1 in Ho. simplify_eq. by apply moved_ok. }
  destruct (flush_jobs _ db1) as [[[]|x] db2]; simpl in *; [by etrans|reflexivity].
Qed.
End contracts.

#[export] Hint Resolve start_workflow_contract retry_failed_job_contract cancel_workflow_contract
  settle_contract : orch.

(** ** What the commands promise *)

Section promises.
Context `{Backend}.

(** What the engine knows about a job's effect before a retry. *)
Definition effect_known (job_id : uuid) (j : Job) (db : DB) : bool :=
  bool_decide (j_retry_class j = RetryClass.RECONCILE_FIRST) &&
  from_option (λ r, effect_resolved r.2) false (latest_effect_of job_id db).

Lemma retry_unfold jid now db job :
  jobs db !! jid = Some job → j_status job = FAILED →
  retry_failed_job jid now db =
  (let* decision := lift_result (evaluate_retry_default (j_retry_class job) (j_attempt job)
                      (j_max_attempts job) now (effect_known jid job db)) in
   match can_retry decision, retry_scheduled_at decision with
   | true, Some at_ =>
       do* lift_result (require_job_transition FAILED READY);
       let job := retried at_ now job in
       do* flush_jobs [(jid, job)];
       refreshed (jid, job)
   | _, _ => pyraise (Exn InvalidRetryError ("Cannot retry: " ++ retry_reason decision))
   end) db.
Proof.
  intros Hj Hs. unfold retry_failed_job, get_job. unfold pybind at 1, gets at 1. rewrite Hj.
  rewrite decide_False by (intros Hx; by apply Hx). unfold pybind at 1, effect_known.
  case_decide as Hr; [rewrite bool_decide_true by done|rewrite bool_decide_false by done]; done.
Qed.

(** What the policy decides about an attempt inside the float range. *)
Lemma retry_decision c a m now res :
  0 <= a → a < 1024 →
  (m <= a → 0 < m → ∃ msg, evaluate_retry_default c a m now res = Raise (Exn ValueError msg)) ∧
  (a < m → let go := (a + 1 <? m) && class_retries c res in
    ∃ why, evaluate_retry_default c a m now res =
      Ok {| can_retry := go; next_attempt := a + 1;
            retry_scheduled_at := if go then Some (now + default_delay a * 1000000) else None;
            retry_reason := why |}).
Proof.
  intros Ha Hb. unfold evaluate_retry_default, evaluate_retry. split.
  - intros Hm Hp. rewrite (proj2 (Z.leb_gt _ _)), (proj2 (Z.leb_le _ _)) by lia. by eexists.
  - intros Hm. rewrite !(proj2 (Z.leb_gt _ _)) by lia. destruct (Z.leb_spec m (a + 1)).
    + rewrite (proj2 (Z.ltb_ge _ _)) by lia. by eexists.
    + rewrite (proj2 (Z.ltb_lt _ _)) by lia. destruct (default_backoff a ltac:(lia)) as (q & Hq & Hqz).
      assert (timedelta_seconds q = default_delay a * 1000000) as Ht
        by (apply Qround_even_Z; rewrite Hqz, QArith_base.inject_Z_mult; reflexivity).
      destruct c; simpl; try destruct res; simpl; unfold retry_after_backoff; rewrite ?Hq; simpl;
        rewrite ?Ht; by eexists.
Qed.

(** An allowed retry. *)
Lemma retry_run jid now db job :
  db_ok db → jobs db !! jid = Some job → j_status job = FAILED → j_attempt job < 1024 →
  j_attempt job + 1 < j_max_attempts job →
  class_retries (j_retry_class job) (effect_known jid job db) = true →
  let job' := set_j_version (j_version job + 1)
                (retried (now + default_delay (j_attempt job) * 1000000) now job) in
  retry_failed_job jid now db = (Ok (jid, job'), set_jobs (<[jid := job']> (jobs db)) db).
Proof.
  intros Hok Hj Hs Hb Hlt Hcl. rewrite (retry_unfold jid now db job Hj Hs).
  destruct (ok_jobs _ Hok jid job Hj) as [[_ ((Ha & _) & _ & _)] Hchk].
  destruct (retry_decision (j_retry_class job) (j_attempt job) (j_max_attempts job) now
    (effect_known jid job db)) as [_ Hgood]; [done|done|].
  unfold pybind, lift_result. destruct Hgood as [why ->]; [lia|].
  rewrite (proj2 (Z.ltb_lt _ _)), Hcl by lia. cbn [andb can_retry retry_scheduled_at].
  rewrite (proj2 (require_job_transition_ok FAILED READY)) by auto with orch.
  destruct (flush_job_ok db jid (retried (now + default_delay (j_attempt job) * 1000000) now job) job Hj)
    as (db' & -> & ->); [exact Hchk|].
  unfold refreshed, gets. simpl. rewrite lookup_insert_eq. simpl. unfold stored.
  rewrite decide_False; [done|]. unfold job_mutable. simpl. congruence.
Qed.

(** C23: in a valid database, a retry of a [FAILED] job with fewer than 1024 attempts (beyond
    that the backoff of the code overflows) succeeds exactly when one more attempt fits the
    budget and its class admits it ([RECONCILE_FIRST] only once its newest effect attempt is
    resolved); the job becomes [READY] after the capped exponential delay, with its attempt
    count unchanged. Every refusal changes nothing: [InvalidRetryError] in general, but
    [ValueError] once the attempts are used up. *)
Theorem retry_failed_job_spec jid now db job :
  db_ok db → jobs db !! jid = Some job → j_status job = FAILED → j_attempt job < 1024 →
  let a := j_attempt job in
  let allowed := (a + 1 <? j_max_attempts job) &&
                 class_retries (j_retry_class job) (effect_known jid job db) in
  if allowed then
    let job' := set_j_version (j_version job + 1)
                  (set_j_updated_at now (set_j_scheduled_at (now + Z.min (2 ^ (a + 1)) 300 * 1000000)
                     (set_j_status READY job))) in
    retry_failed_job jid now db = (Ok (jid, job'), set_jobs (<[jid := job']> (jobs db)) db)
  else if a <? j_max_attempts job then
    ∃ m, retry_failed_job jid now db = (Raise (Exn InvalidRetryError m), db)
  else ∃ m, retry_failed_job jid now db = (Raise (Exn ValueError m), db).
Proof.
  intros Hok Hj Hs Hb a allowed.
  destruct (ok_jobs _ Hok jid job Hj) as [[_ ((Ha & _) & Hm & _)] _]. fold a in Ha.
  destruct allowed eqn:Hal.
  - unfold allowed in Hal. apply andb_true_iff in Hal as [Hlt%Z.ltb_lt Hcl].
    by apply retry_run.
  - rewrite (retry_unfold jid now db job Hj Hs). unfold pybind, lift_result.
    destruct (retry_decision (j_retry_class job) a (j_max_attempts job) now (effect_known jid job db))
      as [Hbad Hgood]; [done|done|]. fold a. destruct (Z.ltb_spec a (j_max_attempts job)).
    + destruct Hgood as [why ->]; [lia|]. fold allowed. rewrite Hal. by eexists.
    + destruct Hbad as [msg ->]; [lia|done|]. by eexists.
Qed.

(** Cancelling a workflow completes it and cancels exactly its waiting jobs: they
    become [CANCELLED] and their number is returned, running and settled jobs and the
    jobs of other workflows keep their rows, and afterwards no job of the workflow can
    be promoted.  An unknown workflow is refused without a change. *)
Theorem cancel_workflow_spec wid now db :
  db_ok db →
  match workflow_runs db !! wid with
  | None => ∃ m, cancel_workflow wid now db = (Raise (Exn WorkflowNotFoundError m), db)
  | Some w => ∃ w' n db', cancel_workflow wid now db = (Ok ((wid, w'), n), db') ∧
      wf_completed_at w' = Some now ∧ workflow_runs db' !! wid = Some w' ∧
      n = length (filter (λ r, cancellable wid r.1 r.2 = true) (map_to_list (jobs db))) ∧
      (∀ k, jobs db' !! k = (λ j, if cancellable wid k j
         then set_j_version (j_version j + 1) (set_j_updated_at now (set_j_status CANCELLED j)) else j) <$> jobs db !! k) ∧
      (∀ k j later, jobs db' !! k = Some j → j_workflow_id j = wid →
         ∃ e, promote_pending_to_ready k later db' = (Raise e, db'))
  end.
Proof.
  intros Hok. destruct (workflow_runs db !! wid) as [w|] eqn:Hw.
  2: { unfold cancel_workflow, get_workflow, gets, pybind. rewrite Hw. by eexists. }
  pose proof (cancel_workflow_contract wid now db Hok) as [Hok' _].
  rewrite (cancel_unfold wid now db w Hw) in *.
  unfold atomically, flush_workflow, modify, gets, pybind, pyret in *.
  set (sel := select jobs (cancellable wid) unordered db) in *.
  set (db1 := store_workflow db wid _) in *.
  assert (Hdb1 : jobs db1 = jobs db ∧ ∃ w1, workflow_runs db1 !! wid = Some w1 ∧ wf_completed_at w1 = Some now).
  { unfold db1, store_workflow. rewrite Hw. case_decide as Hc.
    - split; [done|]. exists w. split; [done|]. simpl in Hc. congruence.
    - split; [done|]. eexists. simpl. by rewrite lookup_insert_eq. }
  destruct Hdb1 as (Hj1 & w1 & Hw1 & Hc1).
  assert (Hsel : ∀ k j, (k, j) ∈ sel → jobs db1 !! k = Some j ∧
    stored j (cancelled now j) = set_j_version (j_version j + 1) (cancelled now j)).
  { intros k j (Hk & _ & Hst)%elem_of_cancellable. rewrite Hj1. split; [done|]. unfold stored.
    rewrite decide_False; [done|]. unfold job_mutable. simpl. intros [= E _]. rewrite <- E in Hst. set_solver. }
  assert (Hfl : flush_jobs (cancel_rows wid now db) db1 =
    (Ok tt, foldl store_job db1 (cancel_rows wid now db))).
  { apply flush_edits_ok. intros k j (Hk & _)%elem_of_cancellable. apply (ok_jobs _ Hok k j Hk). }
  rewrite Hfl in *. simpl in Hok'. set (db2 := foldl store_job db1 _) in *.
  assert (Hlook : ∀ k, jobs db2 !! k = _) by
    (intros k; apply (store_edits_lookup (cancelled now) sel db1 k (select_NoDup _ _ _ _) Hsel)).
  assert (Hw2 : workflow_runs db2 !! wid = Some w1) by (unfold db2; rewrite foldl_store_frame; done).
  eexists _, _, db2. split; [done|]. rewrite Hw2. simpl. split; [done|]. split; [done|].
  split; [unfold cancel_rows, select; rewrite length_fmap; by rewrite order_by_perm|].
  assert (Hjobs : ∀ k, jobs db2 !! k = (λ j, if cancellable wid k j
     then set_j_version (j_version j + 1) (cancelled now j) else j) <$> jobs db !! k).
  { intros k. rewrite Hlook, Hj1. destruct (jobs db !! k) as [j|] eqn:Hk; simpl; [|by case_decide].
    destruct (cancellable wid k j) eqn:Hc.
    - rewrite decide_True; [done|]. apply list_elem_of_fmap. exists (k, j). split; [done|].
      by apply elem_of_select.
    - rewrite decide_False; [done|]. intros ([k0 j0] & -> & Hin)%list_elem_of_fmap.
      apply elem_of_select in Hin as [Hk0 Hc0]. simpl in *. congruence. }
  split; [exact Hjobs|]. intros k j later Hk Hwf.
  destruct (promote_cases k later db2 Hok') as [(job & Hj & Hr & _)|(_ & e & E & _)]; [|by exists e].
  exfalso. simplify_eq. destruct (rc_workflow _ _ _ _ Hr) as (w' & Hw' & Hcomp & _). congruence.
Qed.

(** ** Failures do not use up the budget *)

(** A worker claims the job (every other row being locked) and reports a failure,
    after the operator has retried it. *)
Definition fail_round (jid : uuid) (w : string) : Session unit :=
  let* now := clock_now in
  let* r := retry_failed_job jid now in
  let at_ := j_scheduled_at r.2 in
  let* locked := gets (λ db, dom (jobs db) ∖ {[jid]}) in
  let* _ := claim_ready_job locked w at_ (minutes 5) in
  release_lease jid w at_ FAILED.

(** The job after a round: the same row but for its times and version. *)
Definition still_failing (j j' : Job) : Prop :=
  j_status j' = FAILED ∧ j_attempt j' = j_attempt j ∧ j_max_attempts j' = j_max_attempts j ∧
  j_retry_class j' = j_retry_class j.

Lemma claim_only jid j w now d db :
  db_ok db → jobs db !! jid = Some j → due now j →
  let db' := set_jobs (<[jid := claimed_row w now d j]> (jobs db)) db in
  claim_ready_job (dom (jobs db) ∖ {[jid]}) w now d db = (Ok (Some (jid, claimed_row w now d j)), db') ∧
  db_ok db' ∧ jobs db' !! jid = Some (claimed_row w now d j).
Proof.
  intros Hok Hj Hd. pose proof (claim_ready_job_contract (dom (jobs db) ∖ {[jid]}) w now d db Hok) as [Hok2 _].
  destruct (claim_cases (dom (jobs db) ∖ {[jid]}) w now d db Hok) as [[_ Hnone]|(k & j0 & E & Hk & _ & Hlk & _)].
  { assert (Hin : jid ∈ dom (jobs db) ∖ {[jid]}) by (apply Hnone, elem_of_due_set; eauto). set_solver. }
  assert (k = jid) as ->.
  { destruct (decide (k = jid)); [done|]. destruct Hlk. apply elem_of_dom_2 in Hk. set_solver. }
  rewrite E in *. assert (j0 = j) as -> by congruence.
  split; [done|]. split; [done|]. apply lookup_insert_eq.
Qed.

Lemma fail_round_run jid w db job :
  db_ok db → jobs db !! jid = Some job → j_status job = FAILED →
  j_retry_class job = RetryClass.SAFE → j_attempt job + 1 < j_max_attempts job →
  j_attempt job < 1024 →
  ∃ db' job', fail_round jid w db = (Ok tt, db') ∧ db_ok db' ∧ jobs db' !! jid = Some job' ∧
    still_failing job job'.
Proof.
  intros Hok Hj Hs Hc Hlt Hb. set (at_ := db_clock db + default_delay (j_attempt job) * 1000000).
  assert (Hrun : retry_failed_job jid (db_clock db) db = (Ok (jid, _), _)) by (apply retry_run; by rewrite ?Hc).
  pose proof (retry_failed_job_contract jid (db_clock db) db Hok) as [Hok1 _].
  rewrite Hrun in Hok1. cbn [snd] in Hok1. fold at_ in Hrun, Hok1.
  set (j1 := set_j_version _ _) in *. set (db1 := set_jobs _ db) in *.
  assert (Hj1 : jobs db1 !! jid = Some j1) by apply lookup_insert_eq.
  assert (Hsch : j_scheduled_at j1 = at_) by done.
  assert (Hd1 : due at_ j1) by (split; [done|rewrite Hsch; lia]).
  assert (Hkeep : still_failing job (set_j_status FAILED j1)) by done. clearbody j1 db1.
  unfold fail_round, clock_now, gets, pybind. rewrite Hrun. cbn [snd]. rewrite Hsch.
  destruct (claim_only jid j1 w at_ (minutes 5) db1) as (E & Hok2 & Hj2); [done|done|done|].
  rewrite E. set (db2 := set_jobs _ db1) in *.
  pose proof (release_lease_contract jid w at_ FAILED db2 Hok2) as [Hok3 _].
  rewrite (release_run jid w at_ FAILED db2 (claimed_row w at_ (minutes 5) j1) Hok2) in * by (done || auto with orch).
  eexists _, _. split; [done|]. split; [exact Hok3|]. split; [apply lookup_insert_eq|].
  exact Hkeep.
Qed.

(** Failures reported by workers never use up the retry budget.  A [SAFE] job with
    an attempt to spare can be retried, claimed and failed any number of times: after
    [n] rounds it is [FAILED] with the attempt count it started with, so only lease
    expiry and stalls ever lead to [TERMINAL_FAILURE]. *)
Theorem failures_never_consume_budget n jid w db job :
  db_ok db → jobs db !! jid = Some job → j_status job = FAILED →
  j_retry_class job = RetryClass.SAFE → j_attempt job + 1 < j_max_attempts job →
  j_attempt job < 1024 →
  ∃ db' job', for_fold (λ _ _, fail_round jid w) (seq 0 n) tt db = (Ok tt, db') ∧
    jobs db' !! jid = Some job' ∧ j_status job' = FAILED ∧ j_attempt job' = j_attempt job.
Proof.
  intros Hok Hj Hs Hc Hlt Hb. generalize 0%nat. revert db job Hok Hj Hs Hc Hlt Hb.
  induction n as [|n IH]; intros db job Hok Hj Hs Hc Hlt Hb i.
  - exists db, job. done.
  - destruct (fail_round_run jid w db job) as (db1 & j1 & E & Hok1 & Hj1 & Hs1 & Ha1 & Hm1 & Hc1); try done.
    destruct (IH db1 j1 Hok1 Hj1 Hs1) with (n := S i) as (db' & j' & E' & Hj' & Hs' & Ha');
      [by rewrite Hc1|lia|lia|].
    exists db', j'. cbn [seq for_fold]. unfold pybind. rewrite E. split; [exact E'|].
    do 2 (split; [done|]). lia.
Qed.
End promises.

Definition failed_sample : DB := sample_db [(1%N, sample_job "a" FAILED 5)].

Lemma failed_sample_ok : db_ok failed_sample.
Proof. solve_db_ok. Qed.

Lemma retry_failed_job_spec_witness :
  ∃ j' db', @retry_failed_job reference_backend 1%N 10 failed_sample = (Ok (1%N, j'), db') ∧
    j_status j' = READY ∧ j_scheduled_at j' = 10 + 2 * 1000000.
Proof.
  pose proof (@retry_failed_job_spec reference_backend 1%N 10 failed_sample (sample_job "a" FAILED 5) failed_sample_ok
    eq_refl eq_refl eq_refl) as Hr.
  simpl in Hr. do 2 eexists. split; [exact Hr|]. split; reflexivity.
Defined.

Lemma cancel_workflow_spec_witness :
  let db := sample_db [(1%N, sample_job "a" PENDING 5); (2%N, sample_running "b" "w" 50)] in
  ∃ w' db', @cancel_workflow reference_backend 100%N 10 db = (Ok ((100%N, w'), 1%nat), db').
Proof.
  intros db. assert (Hok : db_ok db) by solve_db_ok.
  destruct (@cancel_workflow_spec reference_backend 100%N 10 db Hok) as (w' & n & db' & E & _ & _ & En & _).
  exists w', db'. rewrite E. rewrite En. reflexivity.
Defined.

Lemma failures_never_consume_budget_witness :
  ∃ db' job', for_fold (λ _ _, @fail_round reference_backend 1%N "w") (seq 0 10) tt failed_sample = (Ok tt, db') ∧
    jobs db' !! 1%N = Some job' ∧ j_status job' = FAILED ∧ j_attempt job' = 0.
Proof.
  exact (@failures_never_consume_budget reference_backend 10 1%N "w" failed_sample
    (sample_job "a" FAILED 5) failed_sample_ok eq_refl eq_refl eq_refl eq_refl eq_refl).
Defined.
