(* ===== verification/Worker.v ===== *)
(** * Worker

    [orchestration/worker.py] with [persistence/unit_of_work.py] and the exit codes of
    [orchestration/_foundation.py]: claim one job, run its agent, settle the job and
    dispatch the events of the result in one transaction, or roll everything back. *)

From S2P Require Import Prelude PyText PyLines Sha256 Enums Errors TransitionGuard Tables WorkflowsConfig.
From S2P Require Import Contracts Agents Evolution Samples AgentRuntime Leases Repositories Idempotency.
From S2P Require Import DependencyResolver Scheduler Reconciliation SuccessorFactory EventDispatcher Engine.
Open Scope string_scope.
Open Scope Z_scope.
Import JobStatus.

Definition LEASE_DURATION : timedelta := minutes 5.

(** ** The job envelope *)

(** [SuccessContract.model_validate] of the stored JSON.  The model is strict and
    forbids extra keys; a JSON array is not a tuple, so the two tuple fields can only
    be left out. *)
Definition success_contract_of (x : json) : result exn SuccessContract :=
  match x with
  | JDict kvs =>
      if forallb (λ kv, bool_decide (kv.1 ∈ ["schema_version"; "output_model"])) kvs &&
         match json_get "schema_version" kvs with
         | None | Some (JInt 1) => true
         | Some _ => false
         end
      then match json_get "output_model" kvs with
           | Some (JStr s) =>
               let? m := non_empty_str "SuccessContract" s in
               Ok {| sc_output_model := m; sc_required_artifact_roles := []; sc_required_events := [] |}
           | _ => validation_error "SuccessContract"
           end
      else validation_error "SuccessContract"
  | _ => validation_error "SuccessContract"
  end.

(** [dict(job.input or {})] of a JSON object column. *)
Definition input_dict (x : json) : result exn json :=
  match x with
  | JDict kvs => Ok (JDict kvs)
  | JNull => Ok (JDict [])
  | _ => Raise (Exn ValueError "")
  end.

Definition _job_envelope (jid : uuid) (job : Job) : result exn JobEnvelope :=
  let? input := input_dict (j_input job) in
  let? contract := success_contract_of (j_success_contract job) in
  let? job_type := non_empty_str "JobEnvelope" (j_type job) in
  let? object_type := non_empty_str "JobEnvelope" (j_object_type job) in
  let? key := non_empty_str "JobEnvelope" (j_idempotency_key job) in
  if bool_decide (j_owner_agent_id job ∈ agent_ids) && (0 <=? j_attempt job) &&
     (0 <? j_max_attempts job) then
    let envelope :=
      {| je_job_id := jid; je_workflow_id := j_workflow_id job; je_object_id := j_object_id job;
         je_job_type := job_type; je_object_type := object_type;
         je_owner_agent_id := j_owner_agent_id job; je_job_status := j_status job;
         je_input := input; je_required_artifacts := []; je_scheduled_at := j_scheduled_at job;
         je_job_attempt := j_attempt job; je_max_attempts := j_max_attempts job;
         je_idempotency_key := key; je_side_effect_class := j_side_effect_class job;
         je_retry_class := j_retry_class job; je_success_contract := contract |} in
    do? validate_attempt_budget envelope;
    Ok envelope
  else validation_error "JobEnvelope".

(** ** The unit of work *)

(** The committed state and the state of the open transaction. *)
Record UnitOfWork := {
  uow_saved : Host;
  uow_now : Host
}.

Definition commit : M UnitOfWork exn unit :=
  modify (λ u, {| uow_saved := uow_now u; uow_now := uow_now u |}).
Definition rollback : M UnitOfWork exn unit :=
  modify (λ u, {| uow_saved := uow_saved u; uow_now := uow_saved u |}).

Definition in_uow {A} (m : M Host exn A) : M UnitOfWork exn A := λ u,
  let '(r, h) := m (uow_now u) in (r, {| uow_saved := uow_saved u; uow_now := h |}).

(** [async with unit_of_work(...)]: what was not committed is gone when the block ends,
    whether it ends normally or by an exception. *)
Definition unit_of_work {A} (m : M UnitOfWork exn A) : M Host exn A := λ h,
  let '(r, u) := m {| uow_saved := h; uow_now := h |} in (r, uow_saved u).

(** ** One job *)

Section worker.
Context `{Backend} (cfg : WorkflowsConfig) (registry : AgentRegistry)
  (prompt_path : string → string → PromptPath) (implementation : string → Agent).

(** [agent_map] *)
Definition agent_map (agent_id : string) : option Agent :=
  if decide (agent_id ∈ ["A01"; "A02"]) then Some (implementation agent_id) else None.

Definition final_status (s : AgentRunStatus) : JobStatus :=
  match s with
  | AgentRunStatus.SUCCESS => SUCCEEDED
  | AgentRunStatus.FAILURE => FAILED
  | _ => BLOCKED
  end.

Definition emit_events (jid workflow_id : uuid) (res : AgentResult) (now : datetime) : Session unit :=
  for_fold (λ _ event_name,
    do* dispatch cfg event_name "Job" jid (Some workflow_id) (Some jid) (Some (rs_output res)) (Some now);
    pyret tt) (rs_emitted_events res) tt.

(** The body of the [try] statement. *)
Definition run_job (jid : uuid) (job : Job) (worker_id : string) (now : datetime)
    : M UnitOfWork exn (option AgentResult) :=
  let* envelope := lift_result (_job_envelope jid job) in
  let* definition := lift_result (definition_for_job registry envelope) in
  match agent_map (ad_agent_id definition) with
  | None =>
      do* in_uow (on_db (flush_jobs [(jid, set_j_updated_at now (set_j_status FAILED job))]));
      do* commit;
      pyret None
  | Some agent =>
      let* out := in_uow (execute registry prompt_path envelope agent true (Some now)) in
      let res := out.1 in
      do* in_uow (on_db (heartbeat jid worker_id now None));
      do* in_uow (on_db (release_lease jid worker_id now (final_status (rs_status res))));
      do* in_uow (on_db (emit_events jid (j_workflow_id job) res now));
      do* commit;
      pyret (Some res)
  end.

(** The handlers.  The two assignments of the first are on the mapped row that
    [release_lease] then overwrites and flushes once. *)
Definition _execute_job_with_runner (jid : uuid) (job : Job) (worker_id : string) (now : datetime)
    : M UnitOfWork exn (option AgentResult) :=
  try_except (run_job jid job worker_id now) (λ error,
    if isa (exn_type error) AgentNotCommissionedError then
      do* in_uow (on_db (release_lease jid worker_id now FAILED));
      do* commit;
      pyret None
    else
      do* rollback;
      pyret None).

(** One round of [_worker_loop]; it tells whether a job was claimed. *)
Definition worker_iteration (locked : gset uuid) (worker_id : string) (now : datetime) : M Host exn bool :=
  unit_of_work (
    let* job := in_uow (on_db (claim_ready_job locked worker_id now LEASE_DURATION)) in
    match job with
    | None => pyret false
    | Some (jid, job) =>
        do* _execute_job_with_runner jid job worker_id now;
        pyret true
    end).

(** [_worker_loop] as far as the given clock readings; an exception ends it. *)
Definition _worker_loop (locked : gset uuid) (times : list datetime) : M Host exn unit :=
  for_fold (λ _ now, do* worker_iteration locked (deterministic_worker_id 1) now; pyret tt) times tt.
End worker.

(** ** Commissioning gates and exit codes *)

Definition EXIT_UNAVAILABLE : Z := 78.

Section gates.
Context `{Backend} (cfg : WorkflowsConfig) (prompt_path : string → string → PromptPath)
  (implementation : string → Agent).

(** The digest of the prompt file's bytes.  Where the path leaves the directory or the
    bytes are no text, [load] refuses the file whatever digest it is given. *)
Definition file_hash (p : PromptPath) : string :=
  match p with PromptText bytes => sha256_hex bytes | _ => "" end.

(** One round of gate 7: the prompt of one agent is found and loads. *)
Definition prompt_gate (d : AgentDefinition) : bool :=
  match parse_system_prompt_reference (ad_system_prompt_reference d) with
  | Raise _ => false
  | Ok (prompt_agent_id, prompt_version) =>
      if decide (prompt_agent_id ≠ ad_agent_id d) then false else
      match prompt_path prompt_agent_id prompt_version with
      | NoFile => false
      | p => match load prompt_path prompt_agent_id prompt_version (file_hash p) with
             | Ok _ => true
             | Raise _ => false
             end
      end
  end.

(** Gates 4 to 6 only construct the canonical tool registry and the runner from the same
    files and look at imported functions; they pass when gate 2 has. *)
Definition _check_commissioning_gates (settings : result exn unit) (registry : result exn AgentRegistry)
    : bool :=
  match settings, registry with
  | Ok _, Ok registry =>
      let tested_or_commissioned := filter (λ d, allows_production_execution d = true) (roster registry) in
      match tested_or_commissioned with
      | [] => false
      | _ => forallb prompt_gate tested_or_commissioned
      end
  | _, _ => false
  end.

(** What stops the endless claim loop: a signal, or an exception that leaves it. *)
Inductive LoopEnd : Type := LoopInterrupted | LoopRaised (e : exn).

(** [asyncio.run(_worker_loop())]: settings and connection first, the runner from the
    repository's files as they are then, and rounds, each with the rows that others hold and
    its reading of the clock, until [stop]; a round that is stopped halfway is rolled back, so
    it counts as not begun. *)
Definition run_worker_loop (settings : result exn unit) (reachable : bool) (runner : result exn AgentRegistry)
    (rounds : list (gset uuid * datetime)) (stop : LoopEnd) : M Host LoopEnd unit := λ h,
  match settings with
  | Raise e => (Raise (LoopRaised e), h)
  | Ok _ =>
      if negb reachable then (Ok tt, h) else
      match runner with
      | Raise e => (Raise (LoopRaised e), h)
      | Ok registry =>
          match for_fold (λ _ round,
                  do* worker_iteration cfg registry prompt_path implementation round.1
                        (deterministic_worker_id 1) round.2;
                  pyret tt) rounds tt h with
          | (Ok _, h') => (Raise stop, h')
          | (Raise e, h') => (Raise (LoopRaised e), h')
          end
      end
  end.

Definition loop_exit_code (r : result LoopEnd unit) : Z :=
  match r with Ok _ | Raise LoopInterrupted => 0 | Raise (LoopRaised _) => 1 end.

(** [main]: the exit code of the process and what it leaves.  [loop] is the loop it would run. *)
Definition main (settings : result exn unit) (registry : result exn AgentRegistry)
    (loop : M Host LoopEnd unit) (h : Host) : Z * Host :=
  if _check_commissioning_gates settings registry then
    let '(r, h') := loop h in (loop_exit_code r, h')
  else (EXIT_UNAVAILABLE, h).

End gates.

(** ** Dispatch only adds jobs *)

Definition jobs_grow (db db' : DB) : Prop := jobs db ⊆ jobs db'.

#[export] Instance jobs_grow_preorder : PreOrder jobs_grow.
Proof. unfold jobs_grow. split; [intros db; done|intros d1 d2 d3 H1 H2; etrans; eassumption]. Qed.
#[global] Typeclasses Opaque jobs_grow.

Section grow.
Context `{Backend}.

Lemma insert_job_grow jid j : within jobs_grow (insert_job jid j).
Proof.
  intros db. unfold insert_job, jobs_grow. destruct (_ && _) eqn:Hc; simpl; [|done].
  rewrite !andb_true_iff, bool_decide_eq_true in Hc. apply insert_subseteq. apply Hc.
Qed.

Lemma insert_event_grow e : within jobs_grow (insert_event e).
Proof. intros db. unfold insert_event, jobs_grow. by destruct (_ && _). Qed.
#[local] Hint Resolve insert_job_grow insert_event_grow : orch.

Lemma append_once_grow n ty a w j p k o : within jobs_grow (append_once n ty a w j p k o).
Proof.
  unfold append_once, EventRepository.append, EventRepository.by_dedupe_key, clock_now. solve_within.
Qed.
#[local] Hint Resolve append_once_grow : orch.

Lemma create_successors_grow cfg e w p a at_ o : within jobs_grow (create_successors cfg e w p a at_ o).
Proof.
  unfold create_successors, spawn_one, _create_successor_job, insert_successor, get_job, clock_now. solve_within.
Qed.
#[local] Hint Resolve create_successors_grow : orch.

Lemma dispatch_grow cfg n ty a w j p o : within jobs_grow (dispatch cfg n ty a w j p o).
Proof. unfold dispatch, event_key, EventRepository.by_dedupe_key, get_job. solve_within. Qed.
#[local] Hint Resolve dispatch_grow : orch.

Lemma emit_events_grow cfg jid wid res now : within jobs_grow (emit_events cfg jid wid res now).
Proof. unfold emit_events. solve_within. Qed.

Lemma emit_events_contract cfg jid wid res now : within contract (emit_events cfg jid wid res now).
Proof. unfold emit_events. solve_within. Qed.
End grow.

(** ** What one job leaves behind *)

Lemma set_h_db_id h : set_h_db (h_db h) h = h.
Proof. by destruct h. Qed.

Lemma in_uow_run {A} (m : M Host exn A) u :
  in_uow m u = ((m (uow_now u)).1, {| uow_saved := uow_saved u; uow_now := (m (uow_now u)).2 |}).
Proof. unfold in_uow. by destruct (m (uow_now u)). Qed.

Lemma on_db_run {A} (m : Session A) h : on_db m h = ((m (h_db h)).1, set_h_db (m (h_db h)).2 h).
Proof. unfold on_db. by destruct (m (h_db h)). Qed.

Lemma beaten_claimed w now d j :
  job_mutable (beaten now None (claimed_row w now d j)) = job_mutable (claimed_row w now d j).
Proof. unfold job_mutable. simpl. reflexivity. Qed.

Lemma beaten_claimed_check w now d j :
  job_check (beaten now None (claimed_row w now d j)) = job_check (claimed_row w now d j).
Proof. unfold job_check. simpl. reflexivity. Qed.

(** The heartbeat of a worker that claimed at the same instant changes nothing. *)
Lemma heartbeat_claimed k w now d j db :
  0 <= d → job_check (claimed_row w now d j) = true → jobs db !! k = Some (claimed_row w now d j) →
  heartbeat k w now None db = (Ok tt, db).
Proof.
  intros Hd Hc Hk. unfold heartbeat, get_job, gets, pybind. rewrite Hk.
  rewrite decide_False by (intros Hx; by apply Hx).
  change (j_lease_expires_at (claimed_row w now d j)) with (Some (now + d)). cbv iota beta.
  rewrite (proj2 (Z.ltb_ge _ _)) by lia.
  rewrite <- beaten_claimed_check in Hc.
  destruct (flush_job_ok db k (beaten now None (claimed_row w now d j)) _ Hk) as (db' & -> & ->); [exact Hc|].
  unfold stored. rewrite decide_True by apply beaten_claimed. rewrite insert_id by done. by destruct db.
Qed.

Lemma final_status_edge s : job_edge RUNNING (final_status s).
Proof. destruct s; unfold job_edge; set_solver. Qed.

Lemma envelope_of_job jid j e : _job_envelope jid j = Ok e →
  je_job_id e = jid ∧ je_owner_agent_id e = j_owner_agent_id j.
Proof.
  unfold _job_envelope. intros E. repeat apply rbind_ok in E as (? & _ & E).
  destruct (_ && _); [|done]. apply rbind_ok in E as (? & _ & E). by injection E as <-.
Qed.

Section runs.
Context `{Backend} (cfg : WorkflowsConfig) (registry : AgentRegistry)
  (prompt_path : string → string → PromptPath) (implementation : string → Agent).

(** The job after its result was recorded. *)
Definition settled_row (s : JobStatus) (now : datetime) (c : Job) : Job :=
  set_j_version (j_version c + 1) (released s now c).

(** The job a worker gives up on for want of an implementation: the lease stays. *)
Definition abandoned_row (now : datetime) (c : Job) : Job :=
  set_j_version (j_version c + 1) (set_j_updated_at now (set_j_status FAILED c)).

Definition is_Raise {E A} (r : result E A) : bool := match r with Raise _ => true | Ok _ => false end.

(** What the transaction of a claimed job [c] can be when the body ends. *)
Definition body_outcome (k : uuid) (c : Job) (now : datetime) (h : Host) (db : DB)
    (r : result exn (option AgentResult)) (u : UnitOfWork) : Prop :=
  match r with
  | Raise _ => uow_saved u = h ∧
      (uow_now u = set_h_db db h ∨
       ∃ j', jobs (h_db (uow_now u)) !! k = Some j' ∧ j_lease_owner j' = None)
  | Ok None => (∃ d, registry !! j_owner_agent_id c = Some d ∧ ad_agent_id d ∉ ["A01"; "A02"]) ∧
      uow_saved u = set_h_db (set_jobs (<[k := abandoned_row now c]> (jobs db)) db) h
  | Ok (Some res) => ∃ rc db',
      uow_saved u = set_h_db db' (set_h_runs (<[rc_run_id rc := rc_run rc]> (h_runs h)) h) ∧
      h_runs h !! rc_run_id rc = None ∧ run_job_id (rc_run rc) = k ∧
      run_status (rc_run rc) = rs_status res ∧
      emit_events cfg k (j_workflow_id c) res now
        (set_jobs (<[k := settled_row (final_status (rs_status res)) now c]> (jobs db)) db) = (Ok tt, db')
  end.

Lemma abandon_flush k c now db :
  j_status c = RUNNING → job_check c = true → jobs db !! k = Some c →
  flush_jobs [(k, set_j_updated_at now (set_j_status FAILED c))] db =
    (Ok tt, set_jobs (<[k := abandoned_row now c]> (jobs db)) db).
Proof.
  intros Hs Hc Hk. destruct (flush_job_ok db k (set_j_updated_at now (set_j_status FAILED c)) c Hk)
    as (db' & -> & ->); [exact Hc|].
  unfold stored, abandoned_row. rewrite decide_False; [done|]. unfold job_mutable. simpl. congruence.
Qed.

Lemma run_job_cases k c w now h db :
  db_ok db → jobs db !! k = Some c → j_lease_owner c = Some w → heartbeat k w now None db = (Ok tt, db) →
  let '(r, u) := run_job cfg registry prompt_path implementation k c w now
                   {| uow_saved := h; uow_now := set_h_db db h |} in
  body_outcome k c now h db r u.
Proof.
  intros Hok Hk Hw Hbeat. pose proof (ok_jobs _ Hok k c Hk) as [Hwf Hchk].
  pose proof (lease_held_running c w Hwf Hw) as Hrun.
  unfold run_job. unfold pybind at 1, lift_result at 1.
  destruct (_job_envelope k c) as [env|e] eqn:Henv; [|split; [done|by left]].
  apply envelope_of_job in Henv as [Hid Hown].
  unfold pybind at 1, lift_result at 1. destruct (definition_for_job registry env) as [d|e] eqn:Hd;
    [|split; [done|by left]].
  unfold definition_for_job, registry_get in Hd. rewrite Hown in Hd.
  destruct (registry !! j_owner_agent_id c) as [d'|] eqn:Hreg; [|done]. injection Hd as ->.
  unfold agent_map. case_decide as Himpl.
  2: { unfold pybind at 1. rewrite in_uow_run, on_db_run. cbn [uow_now h_db set_h_db].
    rewrite (abandon_flush k c now db) by done. cbn [fst snd]. unfold commit, modify, pybind, pyret. simpl.
    split; [eauto|done]. }
  unfold pybind at 1. rewrite in_uow_run. cbn [uow_now uow_saved].
  pose proof (execute_cases registry prompt_path env (implementation (ad_agent_id d)) true (Some now)
    (set_h_db db h)) as Hx.
  destruct (execute _ _ _ _ _ _ _) as [[[res rc]|e] h1]; cbn [fst snd];
    [|subst h1; split; [done|by left]].
  destruct Hx as [(p & Hp & Hrid & Hrunrow & _) -> Hnew _]. cbn [fst].
  unfold pybind at 1. rewrite in_uow_run, on_db_run. cbn [uow_now uow_saved h_db set_h_db set_h_runs].
  rewrite Hbeat. cbn [fst snd].
  unfold pybind at 1. rewrite in_uow_run, on_db_run. cbn [uow_now uow_saved h_db set_h_db set_h_runs].
  rewrite (release_run k w now _ db c) by (done || apply final_status_edge). cbn [fst snd].
  unfold pybind at 1. rewrite in_uow_run, on_db_run. cbn [uow_now uow_saved h_db set_h_db set_h_runs].
  set (db2 := set_jobs _ db).
  pose proof (emit_events_grow cfg k (j_workflow_id c) res now db2) as Hgrow.
  destruct (emit_events cfg k (j_workflow_id c) res now db2) as [[[]|e] db3] eqn:Hem; cbn [fst snd] in *.
  - unfold commit, modify, pybind, pyret, body_outcome. cbn [uow_saved uow_now].
    exists rc, db3. split; [done|]. split; [done|]. rewrite Hrunrow. split; [done|]. split; [done|exact Hem].
  - split; [done|]. right. exists (settled_row (final_status (rs_status res)) now c). split; [|done].
    cbn [uow_now h_db set_h_db]. apply (lookup_weaken _ _ _ _ (lookup_insert_eq _ k _) Hgrow).
Qed.

(** The three ways a claimed job [c] ends in a commit: its agent is not commissioned,
    has no implementation, or returned a result that was recorded. *)
Inductive committed (k : uuid) (c : Job) (now : datetime) (h : Host) (db : DB) : Host → Prop :=
  | committed_uncommissioned :
      committed k c now h db (set_h_db (set_jobs (<[k := settled_row FAILED now c]> (jobs db)) db) h)
  | committed_abandoned d :
      registry !! j_owner_agent_id c = Some d → ad_agent_id d ∉ ["A01"; "A02"] →
      committed k c now h db (set_h_db (set_jobs (<[k := abandoned_row now c]> (jobs db)) db) h)
  | committed_result res rc db' :
      h_runs h !! rc_run_id rc = None → run_job_id (rc_run rc) = k → run_status (rc_run rc) = rs_status res →
      emit_events cfg k (j_workflow_id c) res now
        (set_jobs (<[k := settled_row (final_status (rs_status res)) now c]> (jobs db)) db) = (Ok tt, db') →
      committed k c now h db (set_h_db db' (set_h_runs (<[rc_run_id rc := rc_run rc]> (h_runs h)) h)).

Lemma execute_job_cases k c w now h db :
  db_ok db → jobs db !! k = Some c → j_lease_owner c = Some w → heartbeat k w now None db = (Ok tt, db) →
  let '(r, u) := _execute_job_with_runner cfg registry prompt_path implementation k c w now
                   {| uow_saved := h; uow_now := set_h_db db h |} in
  uow_saved u = h ∨ (is_Raise r = false ∧ committed k c now h db (uow_saved u)).
Proof.
  intros Hok Hk Hw Hbeat. pose proof (run_job_cases k c w now h db Hok Hk Hw Hbeat) as Hrun.
  unfold _execute_job_with_runner, try_except. destruct (run_job _ _ _ _ _ _ _ _ _) as [r u].
  destruct r as [[res|]|e]; simpl in Hrun.
  - right. split; [done|]. destruct Hrun as (rc & db' & -> & Hnew & Hj & Hst & Hem). by econstructor.
  - right. split; [done|]. destruct Hrun as [(d & Hd & Hnot) ->]. by econstructor.
  - destruct Hrun as [Hsaved Hnow]. destruct (isa (exn_type e) AgentNotCommissionedError).
    + unfold pybind at 1. rewrite in_uow_run, on_db_run. destruct Hnow as [-> | (j' & Hj' & Hnone)].
      * cbn [h_db set_h_db]. rewrite (release_run k w now FAILED db c) by (done || auto with orch).
        right. split; [done|]. apply committed_uncommissioned.
      * destruct (release_refused k w now FAILED (h_db (uow_now u))) as (m & ->);
          [by auto with orch|intros j Hj; congruence|]. by left.
    + left. done.
Qed.

Lemma iteration_cases locked w now h :
  db_ok (h_db h) →
  let '(r, h') := worker_iteration cfg registry prompt_path implementation locked w now h in
  (r = Ok false ∧ h' = h ∧ due_set now (h_db h) ⊆ locked) ∨ (r ≠ Ok false ∧ h' = h) ∨
  (r = Ok true ∧ ∃ k j, jobs (h_db h) !! k = Some j ∧ due now j ∧ k ∉ locked ∧
    let c := claimed_row w now LEASE_DURATION j in
    let db := set_jobs (<[k := c]> (jobs (h_db h))) (h_db h) in
    claim_ready_job locked w now LEASE_DURATION (h_db h) = (Ok (Some (k, c)), db) ∧ db_ok db ∧
    committed k c now h db h').
Proof.
  intros Hok. unfold worker_iteration, unit_of_work. unfold pybind at 1.
  rewrite in_uow_run, on_db_run. cbn [uow_now uow_saved].
  pose proof (claim_ready_job_contract locked w now LEASE_DURATION (h_db h) Hok) as [Hok1 _].
  destruct (claim_cases locked w now LEASE_DURATION (h_db h) Hok) as [[E Hnone]|(k & j & E & Hj & Hd & Hl & _)].
  { rewrite E. cbn [fst snd]. left. by auto. }
  rewrite E in Hok1 |- *. cbn [fst snd] in Hok1 |- *. set (c := claimed_row w now LEASE_DURATION j) in *.
  set (db := set_jobs _ (h_db h)) in *. assert (Hk : jobs db !! k = Some c) by apply lookup_insert_eq.
  pose proof (execute_job_cases k c w now h db Hok1 Hk eq_refl) as Hx. unfold pybind.
  destruct (_execute_job_with_runner _ _ _ _ _ _ _ _ _) as [r u].
  destruct Hx as [Hs|[Hr Hcom]].
  - apply (heartbeat_claimed k w now LEASE_DURATION j); [done|apply (ok_jobs _ Hok1 k c Hk)|done].
  - destruct r; right; left; by rewrite <- Hs.
  - destruct r as [x|]; [|done]. right; right. split; [done|]. exists k, j. eauto 10.
Qed.

(** The claimed job's row after a commit. *)
Lemma committed_row k c now h db h' :
  committed k c now h db h' → jobs db !! k = Some c →
  ∃ j', jobs (h_db h') !! k = Some j' ∧ j_status j' ∈ [SUCCEEDED; FAILED; BLOCKED] ∧
    j_attempt j' = j_attempt c ∧
    (j_lease_owner j' = None ∨ j_lease_owner j' = j_lease_owner c ∧
      ∃ d, registry !! j_owner_agent_id c = Some d ∧ ad_agent_id d ∉ ["A01"; "A02"]).
Proof.
  intros [|d Hd Hn|res rc db' Hnew Hj Hst Hem] Hk.
  - exists (settled_row FAILED now c). split; [apply lookup_insert_eq|].
    split; [simpl; set_solver|]. split; [done|]. by left.
  - exists (abandoned_row now c). split; [apply lookup_insert_eq|].
    split; [simpl; set_solver|]. split; [done|]. right. split; [done|]. by eauto.
  - exists (settled_row (final_status (rs_status res)) now c). split.
    + pose proof (emit_events_grow cfg k (j_workflow_id c) res now
        (set_jobs (<[k := settled_row (final_status (rs_status res)) now c]> (jobs db)) db)) as Hg.
      rewrite Hem in Hg. apply (lookup_weaken _ _ _ _ (lookup_insert_eq _ k _) Hg).
    + split; [simpl; destruct (rs_status res); set_solver|]. split; [done|]. by left.
Qed.

Lemma committed_others k c now h db h' k2 j2 :
  committed k c now h db h' → k2 ≠ k → jobs db !! k2 = Some j2 → jobs (h_db h') !! k2 = Some j2.
Proof.
  intros [|d Hd Hn|res rc db' Hnew Hj Hst Hem] Hne Hk.
  - cbn. by rewrite lookup_insert_ne.
  - cbn. by rewrite lookup_insert_ne.
  - pose proof (emit_events_grow cfg k (j_workflow_id c) res now
      (set_jobs (<[k := settled_row (final_status (rs_status res)) now c]> (jobs db)) db)) as Hg.
    rewrite Hem in Hg. refine (lookup_weaken _ _ _ _ _ Hg). cbn. by rewrite lookup_insert_ne.
Qed.

(** C3: a worker round is atomic.  It claims nothing when every due job is locked; and
    when it claims a job, either everything is rolled back, the claim included, or the
    claimed job is committed as [SUCCEEDED], [FAILED] or [BLOCKED] with its attempt
    count unchanged and every other job's row untouched.  In no case does a round leave
    a job [RUNNING], and the lease is given back unless the agent has no implementation. *)
Theorem worker_iteration_atomic locked w now h :
  db_ok (h_db h) →
  match worker_iteration cfg registry prompt_path implementation locked w now h with
  | (Ok false, h') => h' = h ∧ due_set now (h_db h) ⊆ locked
  | (Raise _, h') => h' = h
  | (Ok true, h') => h' = h ∨ ∃ k j j', jobs (h_db h) !! k = Some j ∧ due now j ∧ k ∉ locked ∧
      jobs (h_db h') !! k = Some j' ∧ j_status j' ∈ [SUCCEEDED; FAILED; BLOCKED] ∧
      j_attempt j' = j_attempt j ∧
      (∀ k2 j2, k2 ≠ k → jobs (h_db h) !! k2 = Some j2 → jobs (h_db h') !! k2 = Some j2) ∧
      (j_lease_owner j' = None ∨
       j_lease_owner j' = Some w ∧ ∃ d, registry !! j_owner_agent_id j = Some d ∧ ad_agent_id d ∉ ["A01"; "A02"])
  end.
Proof.
  intros Hok. pose proof (iteration_cases locked w now h Hok) as Hc.
  destruct (worker_iteration _ _ _ _ _ _ _ _) as [r h'].
  destruct Hc as [(-> & -> & Hl)|[[Hr ->]|(-> & k & j & Hj & Hd & Hl & Hclaim & _ & Hcom)]].
  - done.
  - destruct r as [[]|]; [by left|done|done].
  - right. destruct (committed_row k _ now h _ h' Hcom (lookup_insert_eq _ k _)) as (j' & Hj' & Hst & Ha & Hown).
    exists k, j, j'. do 4 (split; [done|]). split; [exact Hst|]. split; [exact Ha|]. split.
    + intros k2 j2 Hne Hk2. eapply committed_others; [exact Hcom|exact Hne|].
      cbn [jobs set_jobs]. by rewrite lookup_insert_ne.
    + exact Hown.
Qed.

(** ** Poison jobs *)

Lemma success_contract_error x e : success_contract_of x = Raise e → exn_type e = ValidationError.
Proof.
  unfold success_contract_of, non_empty_str, validation_error, rbind.
  intros E. repeat (case_match; simplify_eq/=; try done).
Qed.

Lemma envelope_poison k j e :
  success_contract_of (j_success_contract j) = Raise e →
  ∃ e', _job_envelope k j = Raise e' ∧ isa (exn_type e') AgentNotCommissionedError = false.
Proof.
  intros Hc. unfold _job_envelope. destruct (input_dict (j_input j)) as [i|e'] eqn:Hi; cbn [rbind].
  - rewrite Hc. cbn [rbind]. exists e. split; [done|]. by rewrite (success_contract_error _ _ Hc).
  - exists e'. split; [done|]. unfold input_dict in Hi. by destruct (j_input j); simplify_eq/=.
Qed.

Lemma poison_round locked w now h k j e :
  db_ok (h_db h) → jobs (h_db h) !! k = Some j → due now j → k ∉ locked →
  success_contract_of (j_success_contract j) = Raise e →
  (∀ k2 j2, k2 ≠ k → jobs (h_db h) !! k2 = Some j2 → j_status j2 = READY →
     j_scheduled_at j < j_scheduled_at j2) →
  worker_iteration cfg registry prompt_path implementation locked w now h = (Ok true, h).
Proof.
  intros Hok Hj Hdue Hl Hc Hfirst. unfold worker_iteration, unit_of_work. unfold pybind at 1.
  rewrite in_uow_run, on_db_run. cbn [uow_now uow_saved].
  destruct (claim_cases locked w now LEASE_DURATION (h_db h) Hok)
    as [[_ Hnone]|(k' & j' & E & Hj' & Hd' & Hl' & Hmin)].
  { destruct Hl. apply Hnone, elem_of_due_set. eauto. }
  assert (k' = k) as ->.
  { destruct (decide (k' = k)); [done|]. specialize (Hmin k j Hj Hdue Hl).
    specialize (Hfirst k' j' n Hj' (proj1 Hd')). lia. }
  assert (j' = j) as -> by congruence. rewrite E. cbn [fst snd].
  destruct (envelope_poison k (claimed_row w now LEASE_DURATION j) e Hc) as (e' & He' & Hisa).
  unfold _execute_job_with_runner, try_except, run_job, pybind, lift_result. rewrite He', Hisa. done.
Qed.

(** C39: a job whose stored success contract does not validate blocks the queue for
    ever.  When it is the first due job, every round claims it, fails to build its
    envelope and rolls the claim back without using an attempt, so whatever the number
    and times of the rounds nothing is ever committed, and no later job runs. *)
Theorem poison_job_starves_queue locked times h k j e :
  db_ok (h_db h) → jobs (h_db h) !! k = Some j → j_status j = READY → k ∉ locked →
  success_contract_of (j_success_contract j) = Raise e →
  (∀ k2 j2, k2 ≠ k → jobs (h_db h) !! k2 = Some j2 → j_status j2 = READY →
     j_scheduled_at j < j_scheduled_at j2) →
  (∀ t, t ∈ times → j_scheduled_at j <= t) →
  _worker_loop cfg registry prompt_path implementation locked times h = (Ok tt, h).
Proof.
  intros Hok Hj Hs Hl Hc Hfirst Ht. unfold _worker_loop. induction times as [|t times IH]; [done|].
  cbn [for_fold]. unfold pybind at 1 2.
  rewrite (poison_round locked _ t h k j e) by first [done|split; [done|apply Ht; by left]].
  apply IH. intros t' Ht'. apply Ht. by right.
Qed.

(** ** Uncertain results *)

Lemma run_job_result k c w now h db env d res rc h1 db' :
  db_ok db → jobs db !! k = Some c → j_lease_owner c = Some w → heartbeat k w now None db = (Ok tt, db) →
  _job_envelope k c = Ok env → definition_for_job registry env = Ok d → ad_agent_id d ∈ ["A01"; "A02"] →
  execute registry prompt_path env (implementation (ad_agent_id d)) true (Some now) (set_h_db db h) =
    (Ok (res, rc), h1) →
  emit_events cfg k (j_workflow_id c) res now
    (set_jobs (<[k := settled_row (final_status (rs_status res)) now c]> (jobs db)) db) = (Ok tt, db') →
  run_job cfg registry prompt_path implementation k c w now {| uow_saved := h; uow_now := set_h_db db h |} =
    (Ok (Some res), {| uow_saved := set_h_db db' h1; uow_now := set_h_db db' h1 |}).
Proof.
  intros Hok Hk Hw Hbeat Henv Hd Himpl Hx Hem. unfold run_job. unfold pybind at 1, lift_result at 1.
  rewrite Henv. unfold pybind at 1, lift_result at 1. rewrite Hd.
  unfold agent_map. rewrite decide_True by done.
  pose proof (execute_cases registry prompt_path env (implementation (ad_agent_id d)) true (Some now)
    (set_h_db db h)) as Hc. rewrite Hx in Hc. destruct Hc as [_ -> _ _].
  unfold pybind at 1. rewrite in_uow_run. cbn [uow_now uow_saved]. rewrite Hx. cbn [fst snd].
  unfold pybind at 1. rewrite in_uow_run, on_db_run. cbn [uow_now uow_saved h_db set_h_db set_h_runs].
  rewrite Hbeat. cbn [fst snd].
  unfold pybind at 1. rewrite in_uow_run, on_db_run. cbn [uow_now uow_saved h_db set_h_db set_h_runs].
  rewrite (release_run k w now _ db c) by (done || apply final_status_edge). cbn [fst snd].
  unfold pybind at 1. rewrite in_uow_run, on_db_run. cbn [uow_now uow_saved h_db set_h_db set_h_runs].
  unfold settled_row in Hem. rewrite Hem. done.
Qed.

(** A result without events settles the claimed job in one committed round. *)
Lemma quiet_round locked w now h k c db env d res rc h1 :
  db_ok (h_db h) → claim_ready_job locked w now LEASE_DURATION (h_db h) = (Ok (Some (k, c)), db) →
  _job_envelope k c = Ok env → definition_for_job registry env = Ok d → ad_agent_id d ∈ ["A01"; "A02"] →
  execute registry prompt_path env (implementation (ad_agent_id d)) true (Some now) (set_h_db db h) =
    (Ok (res, rc), h1) → rs_emitted_events res = [] →
  worker_iteration cfg registry prompt_path implementation locked w now h =
    (Ok true, set_h_db (set_jobs (<[k := settled_row (final_status (rs_status res)) now c]> (jobs db)) db) h1).
Proof.
  intros Hok Hcl Henv Hd Himpl Hx Hev.
  pose proof (claim_ready_job_contract locked w now LEASE_DURATION (h_db h) Hok) as [Hok1 _].
  rewrite Hcl in Hok1. cbn [snd] in Hok1.
  destruct (claim_cases locked w now LEASE_DURATION (h_db h) Hok) as [[E _]|(k0 & j & E & _)];
    rewrite E in Hcl; [done|]. injection Hcl as -> Hc Hdb.
  assert (Hk : jobs db !! k = Some c) by (rewrite <- Hdb, <- Hc; apply lookup_insert_eq).
  assert (Hw : j_lease_owner c = Some w) by (by rewrite <- Hc).
  assert (Hbeat : heartbeat k w now None db = (Ok tt, db)).
  { rewrite <- Hc in Hk. apply (heartbeat_claimed k w now LEASE_DURATION j); [done| |done].
    by apply (ok_jobs _ Hok1 k _ Hk). }
  unfold worker_iteration, unit_of_work. unfold pybind at 1.
  rewrite in_uow_run, on_db_run. cbn [uow_now uow_saved]. rewrite E, Hdb, Hc. cbn [fst snd].
  unfold _execute_job_with_runner, try_except, pybind.
  rewrite (run_job_result k c w now h db env d res rc h1
    (set_jobs (<[k := settled_row (final_status (rs_status res)) now c]> (jobs db)) db)
    Hok1 Hk Hw Hbeat Henv Hd Himpl Hx); [done|].
  unfold emit_events. by rewrite Hev.
Qed.

(** An uncertain external effect that a worker reports is stranded.  The round
    commits the job as [BLOCKED] instead of [UNCERTAIN_EXTERNAL_EFFECT], and both ways
    of reconciling it, through the provider and by the operator's verdict, refuse it
    without a change. *)
Theorem uncertain_result_is_stranded locked w now h k c db env d res rc h1 :
  db_ok (h_db h) → claim_ready_job locked w now LEASE_DURATION (h_db h) = (Ok (Some (k, c)), db) →
  _job_envelope k c = Ok env → definition_for_job registry env = Ok d → ad_agent_id d ∈ ["A01"; "A02"] →
  execute registry prompt_path env (implementation (ad_agent_id d)) true (Some now) (set_h_db db h) =
    (Ok (res, rc), h1) →
  rs_status res = AgentRunStatus.UNCERTAIN_EXTERNAL_EFFECT → rs_emitted_events res = [] →
  ∃ h' j', worker_iteration cfg registry prompt_path implementation locked w now h = (Ok true, h') ∧
    jobs (h_db h') !! k = Some j' ∧ j_status j' = BLOCKED ∧
    (∀ query mx t, ∃ m, reconcile_uncertain_effect k query mx t (h_db h') =
       (Raise (Exn ValueError m), h_db h')) ∧
    (∀ verdict pid t, ∃ m, settle_uncertain_effect k verdict pid t (h_db h') =
       (Raise (Exn EngineError m), h_db h')).
Proof.
  intros Hok Hcl Henv Hd Himpl Hx Hst Hev.
  rewrite (quiet_round locked w now h k c db env d res rc h1 Hok Hcl Henv Hd Himpl Hx Hev).
  eexists _, _. split; [done|]. cbn [h_db set_h_db]. split; [apply lookup_insert_eq|].
  rewrite Hst. split; [done|]. split.
  - intros query mx t. unfold reconcile_uncertain_effect, now_or, get_job, gets, pybind. cbn [jobs set_jobs].
    rewrite lookup_insert_eq, decide_True by done. by eexists.
  - intros verdict pid t. unfold settle_uncertain_effect. destruct (parse_outcome verdict); [|by eexists].
    unfold get_job, gets, pybind. cbn [jobs set_jobs]. rewrite lookup_insert_eq, decide_True by done. by eexists.
Qed.

(** A job of an agent that has a definition but no implementation is committed as
    [FAILED] with the lease still on it: the row is no longer running, yet its owner,
    expiry and heartbeat are set, and the worker can still heartbeat and release it. *)
Theorem unimplemented_agent_keeps_lease locked w now h k c db env d :
  db_ok (h_db h) → claim_ready_job locked w now LEASE_DURATION (h_db h) = (Ok (Some (k, c)), db) →
  _job_envelope k c = Ok env → definition_for_job registry env = Ok d → ad_agent_id d ∉ ["A01"; "A02"] →
  ∃ h' j', worker_iteration cfg registry prompt_path implementation locked w now h = (Ok true, h') ∧
    jobs (h_db h') !! k = Some j' ∧ j_status j' = FAILED ∧ j_lease_owner j' = Some w ∧
    j_lease_expires_at j' = Some (now + LEASE_DURATION) ∧ j_heartbeat_at j' = Some now ∧
    ¬ db_ok (h_db h').
Proof.
  intros Hok Hcl Henv Hd Himpl.
  pose proof (claim_ready_job_contract locked w now LEASE_DURATION (h_db h) Hok) as [Hok1 _].
  rewrite Hcl in Hok1. cbn [snd] in Hok1.
  destruct (claim_cases locked w now LEASE_DURATION (h_db h) Hok) as [[E _]|(k0 & j & E & _)];
    rewrite E in Hcl; [done|]. injection Hcl as -> Hc Hdb.
  assert (Hk : jobs db !! k = Some c) by (rewrite <- Hdb, <- Hc; apply lookup_insert_eq).
  assert (Hw : j_lease_owner c = Some w ∧ j_status c = RUNNING ∧
    j_lease_expires_at c = Some (now + LEASE_DURATION) ∧ j_heartbeat_at c = Some now) by (by rewrite <- Hc).
  destruct Hw as (Hw & Hrun & Hexp & Hb).
  unfold worker_iteration, unit_of_work. unfold pybind at 1.
  rewrite in_uow_run, on_db_run. cbn [uow_now uow_saved]. rewrite E, Hdb, Hc. cbn [fst snd].
  unfold _execute_job_with_runner, try_except, run_job, lift_result, pybind.
  rewrite Henv, Hd. unfold agent_map. rewrite decide_False by done.
  rewrite in_uow_run, on_db_run. cbn [uow_now h_db set_h_db].
  rewrite (abandon_flush k c now db) by (done || apply (ok_jobs _ Hok1 k c Hk)). cbn [fst snd].
  eexists _, (abandoned_row now c). split; [done|]. split; [apply lookup_insert_eq|].
  do 4 (split; [done|]). intros Hbad.
  destruct (ok_jobs _ Hbad k (abandoned_row now c) (lookup_insert_eq _ k _)) as [Hwf _].
  pose proof (lease_held_running _ w Hwf Hw). done.
Qed.
End runs.

(** ** Gates *)

Lemma prompt_gate_iff prompt_path d : prompt_gate prompt_path d = true ↔
  ∃ version bytes text, parse_system_prompt_reference (ad_system_prompt_reference d) =
      Ok (ad_agent_id d, version) ∧ prompt_path (ad_agent_id d) version = PromptText bytes ∧
    load prompt_path (ad_agent_id d) version (sha256_hex bytes) = Ok text.
Proof.
  unfold prompt_gate. destruct (parse_system_prompt_reference _) as [[aid ver]|].
  2: { split; [done|]. by intros (? & ? & ? & ? & _). }
  case_decide as Haid; [split; [done|]; intros (? & ? & ? & [= Hx _] & _); by destruct Haid|subst aid].
  destruct (prompt_path (ad_agent_id d) ver) as [| | |bytes] eqn:Hp.
  4: { simpl. destruct (load _ _ _ _) as [text|] eqn:Hl.
    - split; [|done]. intros _. by exists ver, bytes, text.
    - split; [done|]. intros (? & b & t & [= <-] & Hb & Ht). congruence. }
  2: { split; [done|]. intros (? & b & t & [= <-] & Hb & Ht). congruence. }
  all: split; [|intros (? & b & t & [= <-] & Hb & Ht); congruence].
  all: destruct (load _ _ _ _) as [text|] eqn:Hl; [|done]; exfalso.
  all: apply load_text in Hl as (b & Hb); congruence.
Qed.

(** The settings and the registry load, some agent is [TESTED] or [COMMISSIONED], and every
    such agent has a prompt file whose text loads under the digest of the file's own bytes. *)
Definition commissioned (prompt_path : string → string → PromptPath) (settings : result exn unit)
    (registry : result exn AgentRegistry) : Prop :=
  is_Raise settings = false ∧ ∃ reg, registry = Ok reg ∧
    (∃ d, d ∈ roster reg ∧ allows_production_execution d = true) ∧
    ∀ d, d ∈ roster reg → allows_production_execution d = true →
      ∃ version bytes text, parse_system_prompt_reference (ad_system_prompt_reference d) =
          Ok (ad_agent_id d, version) ∧ prompt_path (ad_agent_id d) version = PromptText bytes ∧
        load prompt_path (ad_agent_id d) version (sha256_hex bytes) = Ok text.

Lemma gates_commissioned prompt_path settings registry :
  _check_commissioning_gates prompt_path settings registry = true ↔ commissioned prompt_path settings registry.
Proof.
  unfold _check_commissioning_gates, commissioned.
  destruct settings; [|naive_solver]. destruct registry as [reg|]; [|naive_solver].
  setoid_rewrite <- prompt_gate_iff.
  pose proof (list_elem_of_filter (λ d, allows_production_execution d = true) (roster reg)) as Hin.
  destruct (filter _ (roster reg)) as [|d0 ds].
  - split; [done|]. intros (_ & reg' & [= <-] & (d & Hd & Ha) & _).
    exfalso. apply (not_elem_of_nil d). by apply Hin.
  - rewrite forallb_elem_of. split.
    + intros Hall. split; [done|]. exists reg. split; [done|]. split.
      * exists d0. apply and_comm, Hin. by left.
      * intros d Hd Ha. apply Hall. by apply Hin.
    + intros (_ & reg' & [= <-] & _ & Hall) d Hd. apply Hin in Hd as [Ha Hd]. by apply Hall.
Qed.

(** C37: the worker is fail-closed.  When the settings and the registry load, some agent is
    [TESTED] or [COMMISSIONED], and every such agent has a prompt file whose text loads under
    the digest of the file's own bytes, the process runs its claim loop on the database and
    exits with 0 if the loop returned or was interrupted and with 1 if it raised.  In every
    other case it exits with 78 and no round of the loop has run: the database and the agent
    runs are as they were.  Nothing else makes it exit with 78. *)
Theorem worker_starts_only_when_commissioned `{Backend} cfg prompt_path implementation settings registry
    reachable runner rounds stop h :
  let loop := run_worker_loop cfg prompt_path implementation settings reachable runner rounds stop in
  let out := main prompt_path settings registry loop h in
  (commissioned prompt_path settings registry → out = (loop_exit_code (loop h).1, (loop h).2)) ∧
  (¬ commissioned prompt_path settings registry → out = (EXIT_UNAVAILABLE, h)) ∧
  (out.1 = EXIT_UNAVAILABLE ↔ ¬ commissioned prompt_path settings registry).
Proof.
  intros loop out. rewrite <- gates_commissioned. subst out. unfold main.
  destruct (_check_commissioning_gates _ _ _); [|done].
  destruct (loop h) as [r h']. split; [done|]. split; [done|]. split; [|done].
  by destruct r as [u|[|e]].
Qed.

(** ** Samples *)

(** A due job of the given agent with the contract the factories store. *)
Definition worker_job (owner : string) : Job :=
  new_job 100 "BuildJob" "products" 7 owner (JDict []) "AgentResult" 5 "key" SideEffectClass.NONE
    RetryClass.SAFE AutonomyMode.SIMULATION 0.

Definition worker_host (owner : string) : Host :=
  sample_host [(1%N, set_j_status READY (worker_job owner)); (2%N, sample_job "b" READY 9)].

Lemma worker_host_ok owner : owner ∈ ["A01"; "A03"] → db_ok (h_db (worker_host owner)).
Proof. rewrite !elem_of_cons, elem_of_nil. intros [->|[->|[]]]; solve_db_ok. Qed.

(** An agent that ends with the given status and cites its run. *)
Definition sample_agent (st : AgentRunStatus) : Agent := λ cx,
  Ok {| rs_job_id := je_job_id (cx_job cx); rs_agent_run_id := cx_run_id cx; rs_agent_id := "A01";
        rs_agent_definition_version := 1; rs_prompt_reference := cx_prompt_reference cx;
        rs_prompt_sha256 := cx_prompt_sha256 cx; rs_status := st; rs_output := JDict [];
        rs_artifacts := []; rs_evidence := []; rs_emitted_events := []; rs_effects := [];
        rs_error := if decide (st = AgentRunStatus.SUCCESS) then None else
          Some {| ce_code := "E"; ce_message := "m"; ce_retryable := false; ce_blocker_action := None;
                  ce_safe_detail := JDict [] |} |}.

Definition sample_registry2 : AgentRegistry :=
  <["A03" := sample_definition "A03" AgentCommissioningState.TESTED]> sample_registry.

Lemma worker_iteration_atomic_witness :
  ∃ h' k j', @worker_iteration reference_backend canonical_workflows sample_registry sample_prompts
      (λ _, sample_agent AgentRunStatus.SUCCESS) ∅ "worker-1" 10 (worker_host "A01") = (Ok true, h') ∧
    jobs (h_db h') !! k = Some j' ∧ j_status j' ∈ [SUCCEEDED; FAILED; BLOCKED] ∧
    (j_status <$> jobs (h_db h') !! 1%N) = Some SUCCEEDED.
Proof.
  pose proof (@worker_iteration_atomic reference_backend canonical_workflows sample_registry sample_prompts
    (λ _, sample_agent AgentRunStatus.SUCCESS) ∅ "worker-1" 10 (worker_host "A01")
    (worker_host_ok "A01" ltac:(set_solver))) as Hat.
  assert (Ht : match @worker_iteration reference_backend canonical_workflows sample_registry sample_prompts
      (λ _, sample_agent AgentRunStatus.SUCCESS) ∅ "worker-1" 10 (worker_host "A01") with
    | (Ok true, h') => bool_decide ((j_status <$> jobs (h_db h') !! 1%N) = Some SUCCEEDED)
    | _ => false end = true) by (vm_compute; reflexivity).
  destruct (@worker_iteration _ _ _ _ _ _ _ _ _) as [[[]|e] h']; [|discriminate Ht|discriminate Ht].
  apply bool_decide_eq_true in Ht.
  destruct Hat as [->|(k & j & j' & Hj & Hd & _ & Hj' & Hst & _)]; [vm_compute in Ht; discriminate Ht|].
  exists h', k, j'. split; [reflexivity|]. split; [exact Hj'|]. split; [exact Hst|exact Ht].
Defined.

(** With the sample files the worker starts and settles the first job; with no agent in the
    registry it does not start. *)
Lemma worker_starts_only_when_commissioned_witness :
  let loop registry := @run_worker_loop reference_backend canonical_workflows sample_prompts
    (λ _, sample_agent AgentRunStatus.SUCCESS) (Ok tt) true (Ok registry) [(∅, 10)] LoopInterrupted in
  let out registry := main sample_prompts (Ok tt) (Ok registry) (loop registry) (worker_host "A01") in
  (out sample_registry).1 = 0 ∧ (j_status <$> jobs (h_db (out sample_registry).2) !! 1%N) = Some SUCCEEDED ∧
  out ∅ = (EXIT_UNAVAILABLE, worker_host "A01").
Proof.
  intros loop out.
  destruct (@worker_starts_only_when_commissioned reference_backend canonical_workflows sample_prompts
    (λ _, sample_agent AgentRunStatus.SUCCESS) (Ok tt) (Ok sample_registry) true (Ok sample_registry) [(∅, 10)]
    LoopInterrupted (worker_host "A01")) as [Hstart _].
  destruct (@worker_starts_only_when_commissioned reference_backend canonical_workflows sample_prompts
    (λ _, sample_agent AgentRunStatus.SUCCESS) (Ok tt) (Ok ∅) true (Ok ∅) [(∅, 10)]
    LoopInterrupted (worker_host "A01")) as [_ [Hstay _]].
  assert (Hout : out sample_registry = (loop_exit_code (loop sample_registry (worker_host "A01")).1,
    (loop sample_registry (worker_host "A01")).2)).
  { apply Hstart, gates_commissioned. vm_compute. reflexivity. }
  rewrite Hout. split; [vm_compute; reflexivity|]. split; [vm_compute; reflexivity|].
  apply Hstay. rewrite <- gates_commissioned. vm_compute. discriminate.
Defined.

Lemma poison_job_starves_queue_witness :
  @_worker_loop reference_backend canonical_workflows sample_registry sample_prompts
    (λ _, sample_agent AgentRunStatus.SUCCESS) ∅ [10; 20; 30]
    (sample_host [(1%N, sample_job "a" READY 3); (2%N, sample_job "b" READY 9)]) =
  (Ok tt, sample_host [(1%N, sample_job "a" READY 3); (2%N, sample_job "b" READY 9)]).
Proof.
  apply (@poison_job_starves_queue reference_backend canonical_workflows sample_registry sample_prompts
    (λ _, sample_agent AgentRunStatus.SUCCESS) ∅ [10; 20; 30] _ 1%N (sample_job "a" READY 3)
    (Exn ValidationError "validation error for SuccessContract")).
  - solve_db_ok.
  - reflexivity.
  - reflexivity.
  - set_solver.
  - reflexivity.
  - intros k2 j2 Hne Hk _. cbn in Hk. apply lookup_insert_Some in Hk as [[E _]|[_ Hk]]; [done|].
    apply lookup_insert_Some in Hk as [[_ <-]|[_ Hk]]; [simpl; lia|done].
  - intros t. rewrite !elem_of_cons, elem_of_nil. simpl. lia.
Defined.

Lemma uncertain_result_is_stranded_witness :
  ∃ h' j', @worker_iteration reference_backend canonical_workflows sample_registry sample_prompts
      (λ _, sample_agent AgentRunStatus.UNCERTAIN_EXTERNAL_EFFECT) ∅ "worker-1" 10 (worker_host "A01") =
      (Ok true, h') ∧ jobs (h_db h') !! 1%N = Some j' ∧ j_status j' = BLOCKED.
Proof.
  edestruct (@uncertain_result_is_stranded reference_backend canonical_workflows sample_registry
    sample_prompts (λ _, sample_agent AgentRunStatus.UNCERTAIN_EXTERNAL_EFFECT) ∅ "worker-1" 10
    (worker_host "A01") 1%N) as (h' & j' & Hrun & Hj & Hst & _);
    [apply worker_host_ok; set_solver|vm_compute; reflexivity|vm_compute; reflexivity|vm_compute; reflexivity|
     simpl; set_solver|vm_compute; reflexivity|reflexivity|reflexivity|].
  exists h', j'. split; [exact Hrun|]. split; [exact Hj|exact Hst].
Defined.

Lemma unimplemented_agent_keeps_lease_witness :
  ∃ h' j', @worker_iteration reference_backend canonical_workflows sample_registry2 sample_prompts
      (λ _, sample_agent AgentRunStatus.SUCCESS) ∅ "worker-1" 10 (worker_host "A03") = (Ok true, h') ∧
    jobs (h_db h') !! 1%N = Some j' ∧ j_status j' = FAILED ∧ j_lease_owner j' = Some "worker-1".
Proof.
  edestruct (@unimplemented_agent_keeps_lease reference_backend canonical_workflows sample_registry2
    sample_prompts (λ _, sample_agent AgentRunStatus.SUCCESS) ∅ "worker-1" 10
    (worker_host "A03") 1%N) as (h' & j' & Hrun & Hj & Hst & Hw & _);
    [apply worker_host_ok; set_solver|vm_compute; reflexivity|vm_compute; reflexivity|vm_compute; reflexivity|
     simpl; set_solver|].
  exists h', j'. split; [exact Hrun|]. split; [exact Hj|]. split; [exact Hst|exact Hw].
Defined.
