(* ===== verification/PyDict.v ===== *)
(** * Python dictionaries in insertion order

    A [dict] as the list of its entries: reading an entry, writing it in place or at the
    end, and the facts that relate the two. *)

From S2P Require Import Prelude.

Section dict.
Context {K A : Type} `{!EqDecision K}.
Implicit Types (d : list (K * A)) (k : K) (a : A).

(** [d.get(k)] *)
Fixpoint dict_get k d : option A :=
  match d with
  | [] => None
  | (k', a) :: d => if decide (k' = k) then Some a else dict_get k d
  end.

(** [d\[k\] = a] *)
Fixpoint dict_put k a d : list (K * A) :=
  match d with
  | [] => [(k, a)]
  | (k', a') :: d => if decide (k' = k) then (k', a) :: d else (k', a') :: dict_put k a d
  end.

Lemma dict_get_put k k' a d : dict_get k (dict_put k' a d) = if decide (k' = k) then Some a else dict_get k d.
Proof.
  induction d as [|[k1 a1] d IH]; simpl; [done|].
  destruct (decide (k1 = k')) as [->|]; simpl; [by case_decide|].
  rewrite IH. repeat case_decide; congruence.
Qed.

Lemma dict_get_none k d : dict_get k d = None ↔ k ∉ d.*1.
Proof.
  induction d as [|[k1 a1] d IH]; simpl; [set_solver|]. case_decide; [set_solver|]. rewrite IH. set_solver.
Qed.

Lemma dict_get_elem k a d : dict_get k d = Some a → (k, a) ∈ d.
Proof.
  induction d as [|[k1 a1] d IH]; simpl; [done|]. case_decide; [intros [= ->]; subst; left|right; auto].
Qed.

Lemma dict_get_nodup k a d : NoDup d.*1 → (k, a) ∈ d → dict_get k d = Some a.
Proof.
  induction d as [|[k1 a1] d IH]; simpl; [by intros _ []%elem_of_nil|].
  intros [Hk Hd]%NoDup_cons [[= -> ->]|Hin]%elem_of_cons; [by rewrite decide_True|].
  rewrite decide_False; [auto|]. intros ->. apply Hk, list_elem_of_fmap. by exists (k, a).
Qed.

(** A new key goes to the end. *)
Lemma dict_put_new k a d : dict_get k d = None → dict_put k a d = d ++ [(k, a)].
Proof.
  induction d as [|[k1 a1] d IH]; simpl; [done|]. case_decide; [done|]. intros Hn. by rewrite IH.
Qed.

Lemma dict_put_keys k a d :
  (dict_put k a d).*1 = d.*1 ∧ k ∈ d.*1 ∨ (dict_put k a d).*1 = d.*1 ++ [k] ∧ k ∉ d.*1.
Proof.
  induction d as [|[k1 a1] d IH]; [right; set_solver|]. cbn [dict_put].
  destruct (decide (k1 = k)) as [->|]; rewrite !fmap_cons; cbn [fst]; [left; set_solver|].
  destruct IH as [[-> ?]|[-> ?]]; [left|right]; (split; [done|set_solver]).
Qed.

Lemma dict_put_nodup k a d : NoDup d.*1 → NoDup (dict_put k a d).*1.
Proof.
  intros Hd. destruct (dict_put_keys k a d) as [[-> _]|[-> Hk]]; [done|].
  apply NoDup_app. split_and!; [done|set_solver|apply NoDup_singleton].
Qed.
End dict.
