(* ===== verification/MaturityClock.v ===== *)
(** * Maturity clock

    [assets/maturity_clock.py]: a listing is mature after thirty complete live days,
    counted over its ACTIVE intervals after publication; the accumulated time is
    compared with the set of live instants it stands for. *)

From S2P Require Import Prelude PyText Sha256 Sha1 PySort Errors PyTime.
Open Scope string_scope.
Open Scope Z_scope.

Definition ACCUMULATED_LIVE_RULE : string := "accumulated-live-periods".
Definition MATURITY_LIVE_DAYS : Z := 30.
Definition _PERIOD_SECONDS : Z := 24 * 60 * 60.

(** The annotation of [status] is not checked at run time, so it is any string. *)
Record LiveInterval := {
  li_status : string;
  li_started_at : moment;
  li_ended_at : moment
}.

Record ListingDefect := {
  ld_code : string;
  ld_detected_at : moment
}.

Record RepairWork := {
  rw_repair_job_id : uuid;
  rw_listing_id : uuid;
  rw_defect_code : string;
  rw_detected_at : datetime
}.

Record MaturityEvaluation := {
  me_accumulated_live_periods : Z;
  me_mature : bool;
  me_portfolio_decision_due : bool;
  me_repair : option RepairWork;
  me_idempotency_key : option string
}.

Definition repair_work_id (listing_id : uuid) (defect_code : string) : uuid :=
  uuid5 NAMESPACE_URL ("money-machine:repair-work:" ++ uuid_str listing_id ++ ":" ++ defect_code).

Definition _as_utc (label : string) (value : moment) : result exn datetime :=
  match value with
  | Aware t => Ok t
  | Naive _ => value_error (label ++ " must be a timezone-aware UTC datetime")
  end.

(** One round of the loop over the intervals: the clipped range it appends, if any. *)
Definition live_range (published_at evaluated_at : datetime) (i : LiveInterval)
    : result exn (option (Z * Z)) :=
  let? start := _as_utc "interval.started_at" (li_started_at i) in
  let? stop := _as_utc "interval.ended_at" (li_ended_at i) in
  if stop <? start then value_error "interval ends before it starts"
  else if decide (li_status i = "INACTIVE") then Ok None
  else if decide (li_status i ≠ "ACTIVE") then value_error ("unknown interval status: " ++ li_status i)
  else
    let clipped_start := Z.max start published_at in
    let clipped_end := Z.min stop evaluated_at in
    Ok (if clipped_start <? clipped_end then Some (clipped_start, clipped_end) else None).

(** [delta.days * _PERIOD_SECONDS + delta.seconds] *)
Definition whole_seconds (delta : timedelta) : Z :=
  delta / day_us * _PERIOD_SECONDS + delta mod day_us / 1000000.

(** The second loop, from [previous_end] and [total_seconds]. *)
Fixpoint sum_ranges (ranges : list (Z * Z)) (previous_end : option Z) (total_seconds : Z) : result exn Z :=
  match ranges with
  | [] => Ok total_seconds
  | (start, stop) :: rest =>
      if match previous_end with Some p => start <? p | None => false end
      then value_error "active intervals overlap"
      else sum_ranges rest (Some stop) (total_seconds + whole_seconds (stop - start))
  end.

Definition _accumulated_live_periods (published_at : datetime) (intervals : list LiveInterval)
    (evaluated_at : datetime) : result exn Z :=
  let? found := traverse (live_range published_at evaluated_at) intervals in
  let ranges := py_sorted (by_key fst) (omap id found) in
  let? total_seconds := sum_ranges ranges None 0 in
  Ok (total_seconds / _PERIOD_SECONDS).

Definition _repair (listing_id : uuid) (defect : option ListingDefect) (published_at evaluated_at : datetime)
    : result exn (option RepairWork) :=
  match defect with
  | None => Ok None
  | Some defect =>
      let? detected_at := _as_utc "defect.detected_at" (ld_detected_at defect) in
      if (detected_at <? published_at) || (evaluated_at <? detected_at) then Ok None
      else Ok (Some {| rw_repair_job_id := repair_work_id listing_id (ld_code defect);
                       rw_listing_id := listing_id; rw_defect_code := ld_code defect;
                       rw_detected_at := detected_at |})
  end.

Definition evaluate_maturity (listing_id : uuid) (published_at : moment) (intervals : list LiveInterval)
    (evaluated_at : moment) (live_days : option Z) (defect : option ListingDefect)
    : result exn MaturityEvaluation :=
  let? published := _as_utc "published_at" published_at in
  let? evaluated := _as_utc "evaluated_at" evaluated_at in
  let? periods := _accumulated_live_periods published intervals evaluated in
  let? repair := _repair listing_id defect published evaluated in
  let mature := MATURITY_LIVE_DAYS <=? periods in
  let decision_due := mature && bool_decide (repair = None) in
  Ok {| me_accumulated_live_periods := periods; me_mature := mature;
        me_portfolio_decision_due := decision_due; me_repair := repair;
        me_idempotency_key :=
          if decision_due
          then Some (uuid_str listing_id ++ ":" ++ ACCUMULATED_LIVE_RULE ++ ":" ++ pretty MATURITY_LIVE_DAYS)
          else None |}.

(** ** Live instants *)

(** The listing is live at instant [t] by one of its intervals. *)
Definition covers (i : LiveInterval) (t : Z) : bool :=
  bool_decide (li_status i = "ACTIVE") &&
  match li_started_at i, li_ended_at i with
  | Aware a, Aware b => (a <=? t) && (t <? b)
  | _, _ => false
  end.

(** The number of instants of the window at which it is live. *)
Definition live_time (published evaluated : datetime) (intervals : list LiveInterval) : Z :=
  Z.of_nat (length (filter (λ t, existsb (λ i, covers i t) intervals = true)
                     (seqZ published (evaluated - published)))).

Definition in_range (r : Z * Z) (t : Z) : Prop := r.1 <= t < r.2.

#[export] Instance in_range_dec r t : Decision (in_range r t).
Proof. unfold in_range. apply _. Defined.

Lemma filter_iff_in {A} (P Q : A → Prop) `{!∀ x, Decision (P x), !∀ x, Decision (Q x)} (l : list A) :
  (∀ x, x ∈ l → P x ↔ Q x) → filter P l = filter Q l.
Proof.
  induction l as [|x l IH]; intros Hall; [done|]. rewrite !filter_cons, IH by (intros; apply Hall; by right).
  apply decide_ext, Hall. left.
Qed.

Lemma seqZ_filter_range p n r :
  p <= r.1 → r.1 <= r.2 → r.2 <= p + n → Z.of_nat (length (filter (in_range r) (seqZ p n))) = r.2 - r.1.
Proof.
  intros H1 H2 H3. replace n with ((r.1 - p) + ((r.2 - r.1) + (p + n - r.2))) by lia.
  rewrite seqZ_app, seqZ_app, !filter_app, !length_app by lia.
  assert (Hout : ∀ a k, (∀ t, a <= t < a + k → ¬ in_range r t) → filter (in_range r) (seqZ a k) = []).
  { intros a k Hk. apply filter_none. intros t Hin%elem_of_seqZ. by apply Hk. }
  rewrite (Hout p) by (unfold in_range; intros; lia).
  rewrite (Hout (_ + _ + _)) by (unfold in_range; intros; lia).
  rewrite filter_all; [rewrite length_seqZ; simpl; lia|].
  intros t Ht%elem_of_seqZ. unfold in_range. lia.
Qed.

Lemma length_filter_or {A} (P Q : A → Prop) `{!∀ x, Decision (P x), !∀ x, Decision (Q x)} (l : list A) :
  (∀ x, P x → ¬ Q x) →
  length (filter (λ x, P x ∨ Q x) l) = (length (filter P l) + length (filter Q l))%nat.
Proof.
  intros Hd. induction l as [|x l IH]; [done|]. rewrite !filter_cons.
  specialize (Hd x). repeat case_decide; simpl; try (rewrite IH; lia); tauto.
Qed.

(** ** The loops *)

Definition any_range (rs : list (Z * Z)) (t : Z) : Prop := Exists (λ r, in_range r t) rs.

#[export] Instance any_range_dec rs t : Decision (any_range rs t).
Proof. unfold any_range. apply _. Defined.

Definition range_sum (f : Z → Z) (rs : list (Z * Z)) : Z := foldr (λ r acc, f (r.2 - r.1) + acc) 0 rs.

(** Each range starts at or after the end of the one before. *)
Fixpoint chain (prev : option Z) (rs : list (Z * Z)) : Prop :=
  match rs with
  | [] => True
  | r :: rest => match prev with Some p => p <= r.1 | None => True end ∧ chain (Some r.2) rest
  end.

Lemma sum_ranges_ok rs prev t0 t :
  sum_ranges rs prev t0 = Ok t ↔ chain prev rs ∧ t = t0 + range_sum whole_seconds rs.
Proof.
  revert prev t0. induction rs as [|[a b] rs IH]; intros prev t0; simpl.
  - rewrite Z.add_0_r. naive_solver.
  - destruct prev as [p|]; [destruct (Z.ltb_spec a p)|]; rewrite ?IH; simpl.
    + split; [done|]. intros [[? _] _]. lia.
    + rewrite Z.add_assoc. intuition lia.
    + rewrite Z.add_assoc. naive_solver.
Qed.

Lemma chain_after prev r rs :
  Forall (λ r, r.1 < r.2) (r :: rs) → chain prev (r :: rs) → Forall (λ r', r.2 <= r'.1) rs.
Proof.
  revert prev r. induction rs as [|s rs IH]; intros prev r Hlen; [constructor|]. intros [_ [Hrs Hc]].
  apply Forall_cons in Hlen as [_ Hlen]. constructor; [done|].
  eapply Forall_impl; [exact (IH (Some r.2) s Hlen (conj Hrs Hc))|].
  apply Forall_cons in Hlen as [Hs _]. simpl. intros r' Hr'. lia.
Qed.

(** Disjoint ranges hold as many instants as their lengths add up to. *)
Lemma count_ranges p n prev rs :
  chain prev rs → Forall (λ r, p <= r.1 ∧ r.1 < r.2 ∧ r.2 <= p + n) rs →
  Z.of_nat (length (filter (any_range rs) (seqZ p n))) = range_sum (λ d, d) rs.
Proof.
  revert prev. induction rs as [|r rs IH]; intros prev Hc Hin.
  - rewrite filter_none; [done|]. intros t _ Ht. by apply Exists_nil in Ht.
  - pose proof (chain_after prev r rs) as Haft. specialize (Haft ltac:(eapply Forall_impl; [exact Hin|]; naive_solver) Hc).
    apply Forall_cons in Hin as [Hr Hin].
    rewrite (filter_iff_in _ (λ t, in_range r t ∨ any_range rs t))
      by (intros t _; unfold any_range; by rewrite Exists_cons).
    rewrite length_filter_or.
    + rewrite Nat2Z.inj_add, (IH (Some r.2)), seqZ_filter_range by (apply Hc || done || lia). done.
    + intros t Ht [r' [Hr' Ht']]%Exists_exists. rewrite Forall_forall in Haft.
      specialize (Haft r' Hr'). unfold in_range in *. lia.
Qed.

Lemma whole_seconds_floor d : whole_seconds d = d / 1000000.
Proof. unfold whole_seconds, _PERIOD_SECONDS, day_us. Z.to_euclidean_division_equations. lia. Qed.

Lemma range_sum_seconds rs :
  1000000 * range_sum whole_seconds rs <= range_sum (λ d, d) rs <=
  1000000 * range_sum whole_seconds rs + 999999 * Z.of_nat (length rs).
Proof.
  induction rs as [|r rs IH]; cbn [range_sum foldr length]; [lia|]. fold (range_sum whole_seconds rs) (range_sum (λ d, d) rs).
  rewrite whole_seconds_floor. pose proof (Z.mul_div_le (r.2 - r.1) 1000000).
  pose proof (Z.mul_succ_div_gt (r.2 - r.1) 1000000). lia.
Qed.

(** At most one range holds each instant. *)
Definition separate (rs : list (Z * Z)) : Prop :=
  ∀ t, (length (filter (λ r, in_range r t) rs) <= 1)%nat.

Lemma separate_cons r rs : separate (r :: rs) → separate rs.
Proof. intros Hs t. specialize (Hs t). rewrite filter_cons in Hs. case_decide; simpl in Hs; lia. Qed.

Lemma chain_separate rs :
  Forall (λ r, r.1 < r.2) rs → StronglySorted (λ a b, a.1 <= b.1) rs → chain None rs ↔ separate rs.
Proof.
  intros Hlen Hs. induction Hs as [|r rs Hs IH Hr]; simpl.
  { split; [|done]. intros _ t. rewrite filter_nil. simpl. lia. }
  specialize (IH (Forall_inv_tail Hlen)). split.
  - intros Hc t. assert (Hrs : chain None rs) by (destruct Hc as [_ Hc]; destruct rs; [done|by destruct Hc]).
    pose proof (proj1 IH Hrs t) as Ht. rewrite filter_cons. case_decide as Hin; [|done].
    pose proof (chain_after None r rs Hlen Hc) as Haft.
    rewrite filter_none; [simpl; lia|].
    intros r' Hr'. rewrite Forall_forall in Haft. specialize (Haft r' Hr'). unfold in_range in *. lia.
  - intros Hsep. split; [done|]. destruct rs as [|s rs]; [done|].
    destruct (proj2 IH (separate_cons r _ Hsep)) as [_ Hc]. split; [|exact Hc].
    destruct (Z.le_gt_cases r.2 s.1) as [|Hov]; [done|]. exfalso. specialize (Hsep s.1).
    apply Forall_cons in Hr as [Hrs _]. apply Forall_cons in Hlen as [_ [Hs0 _]%Forall_cons].
    rewrite !filter_cons, !decide_True in Hsep by (unfold in_range; simpl; lia). simpl in Hsep. lia.
Qed.

Definition well_formed (i : LiveInterval) : Prop :=
  ∃ a b, li_started_at i = Aware a ∧ li_ended_at i = Aware b ∧ a <= b ∧
    (li_status i = "ACTIVE" ∨ li_status i = "INACTIVE").

Lemma live_range_defined p e i : is_Some (match live_range p e i with Ok o => Some o | _ => None end) ↔ well_formed i.
Proof.
  unfold live_range, well_formed. destruct (li_started_at i) as [a|a], (li_ended_at i) as [b|b]; simpl.
  2-4: split; [by intros [? ?]|naive_solver].
  destruct (Z.ltb_spec b a); [split; [by intros [? ?]|intros (? & ? & [= <-] & [= <-] & ? & _); lia]|].
  case_decide as Hi; [split; [eauto 8|by eexists]|]. case_decide as Ha.
  - split; [by intros [? ?]|]. intros (? & ? & _ & _ & _ & [?|?]); done.
  - split; [|by eexists]. intros _. exists a, b. eauto.
Qed.

Lemma live_range_ok p e i o :
  live_range p e i = Ok o →
  (∀ t, p <= t < e → covers i t = true ↔ ∃ r, o = Some r ∧ in_range r t) ∧
  (∀ r, o = Some r → p <= r.1 ∧ r.1 < r.2 ∧ r.2 <= e).
Proof.
  unfold live_range, covers. destruct (li_started_at i) as [a|a], (li_ended_at i) as [b|b]; simpl; try done.
  destruct (Z.ltb_spec b a); [done|].
  case_decide as Hi. { intros [= <-]. rewrite Hi. simpl. split; [|done]. intros t _. split; [done|]. by intros (? & ? & _). }
  case_decide as Ha; [done|]. rewrite bool_decide_true by done.
  intros [= <-]. destruct (Z.ltb_spec (Z.max a p) (Z.min b e)); split; intros t Ht; simpl in *.
  - rewrite andb_true_iff, Z.leb_le, Z.ltb_lt. unfold in_range. split.
    + intros. eexists. split; [done|]. simpl. lia.
    + intros (? & [= <-] & Hr). simpl in Hr. lia.
  - injection Ht as <-. simpl. lia.
  - rewrite andb_true_iff, Z.leb_le, Z.ltb_lt. split; [lia|]. by intros (? & ? & _).
  - done.
Qed.

Lemma ranges_ok p e ivs found :
  traverse (live_range p e) ivs = Ok found →
  Forall (λ r, p <= r.1 ∧ r.1 < r.2 ∧ r.2 <= e) (omap id found) ∧
  (∀ t, p <= t < e →
    length (filter (λ r, in_range r t) (omap id found)) = length (filter (λ i, covers i t = true) ivs)) ∧
  (length (omap id found) <= length ivs)%nat.
Proof.
  intros Hf%traverse_Forall2. induction Hf as [|i o ivs found Ho _ (IH1 & IH2 & IH3)]; [done|].
  apply live_range_ok in Ho as [Hcov Hin]. cbn [omap list_omap]. destruct o as [r|]; simpl.
  - split; [constructor; [by apply Hin|done]|]. split; [|lia]. intros t Ht.
    rewrite !filter_cons. specialize (Hcov t Ht). specialize (IH2 t Ht).
    repeat case_decide; simpl; try (by rewrite IH2); naive_solver.
  - split; [done|]. split; [|lia]. intros t Ht. rewrite filter_cons. specialize (Hcov t Ht).
    rewrite IH2 by done. case_decide; [|done]. naive_solver.
Qed.

Lemma existsb_filter {A} (f : A → bool) (l : list A) :
  existsb f l = true ↔ (0 < length (filter (λ x, f x = true) l))%nat.
Proof.
  induction l as [|x l IH]; simpl; [split; [done|lia]|].
  rewrite filter_cons, orb_true_iff, IH. case_decide; simpl; [split; [lia|by left]|naive_solver].
Qed.

Lemma any_range_filter rs t : any_range rs t ↔ (0 < length (filter (λ r, in_range r t) rs))%nat.
Proof.
  unfold any_range. induction rs as [|r rs IH]; [rewrite filter_nil, Exists_nil; simpl; split; [done|lia]|].
  rewrite filter_cons, Exists_cons, IH. case_decide; simpl; [split; [lia|by left]|naive_solver].
Qed.

Lemma range_sum_perm f rs rs' : rs ≡ₚ rs' → range_sum f rs = range_sum f rs'.
Proof. unfold range_sum. induction 1; simpl; lia. Qed.

Lemma filter_perm_length {A} (P : A → Prop) `{!∀ x, Decision (P x)} (l k : list A) :
  l ≡ₚ k → length (filter P l) = length (filter P k).
Proof. intros Hp. apply Permutation_length. by rewrite Hp. Qed.

(** What the accumulation computes from the ranges it has collected. *)
Lemma accumulated_ok p ivs e n :
  _accumulated_live_periods p ivs e = Ok n ↔
  ∃ found, traverse (live_range p e) ivs = Ok found ∧ separate (omap id found) ∧
    n = range_sum whole_seconds (omap id found) / _PERIOD_SECONDS.
Proof.
  unfold _accumulated_live_periods. rewrite rbind_ok.
  assert (Hloop : ∀ found t, traverse (live_range p e) ivs = Ok found →
    sum_ranges (py_sorted (by_key fst) (omap id found)) None 0 = Ok t ↔
    separate (omap id found) ∧ t = range_sum whole_seconds (omap id found)).
  { intros found t Hf. destruct (ranges_ok p e ivs found Hf) as (Hin & _ & _).
    pose proof (py_sorted_perm (by_key fst) (omap id found)) as Hp.
    rewrite sum_ranges_ok, Z.add_0_l, (range_sum_perm _ _ _ Hp), chain_separate.
    - unfold separate. by setoid_rewrite (filter_perm_length _ _ _ Hp).
    - rewrite Hp. eapply Forall_impl; [exact Hin|]. simpl. lia.
    - apply by_key_sorted. }
  split.
  - intros (found & Hf & H). exists found. apply rbind_ok in H as (t & Ht & H). injection H as <-.
    apply (Hloop found t Hf) in Ht as [Hs ->]. done.
  - intros (found & Hf & Hs & ->). exists found. split; [done|]. apply rbind_ok.
    eexists. split; [by apply (Hloop found _ Hf)|done].
Qed.

Lemma separate_iff p e ivs found :
  traverse (live_range p e) ivs = Ok found →
  separate (omap id found) ↔
  ∀ t, p <= t < e → (length (filter (λ i, covers i t = true) ivs) <= 1)%nat.
Proof.
  intros Hf. destruct (ranges_ok p e ivs found Hf) as (Hin & Hcov & _). split.
  - intros Hs t Ht. rewrite <- Hcov by done. apply Hs.
  - intros Hs t. destruct (decide (p <= t < e)) as [Ht|Ht]; [rewrite Hcov by done; by apply Hs|].
    rewrite filter_none; [simpl; lia|]. intros r Hr Hrt.
    rewrite Forall_forall in Hin. specialize (Hin r Hr). unfold in_range in Hrt. lia.
Qed.

(** The whole-second total of the ranges and the live time they stand for. *)
Lemma live_time_bounds p e ivs found :
  p <= e → traverse (live_range p e) ivs = Ok found → separate (omap id found) →
  let total := range_sum whole_seconds (omap id found) in
  1000000 * total <= live_time p e ivs <= 1000000 * total + 999999 * Z.of_nat (length ivs).
Proof.
  intros Hpe Hf Hsep. destruct (ranges_ok p e ivs found Hf) as (Hin & Hcov & Hlen).
  set (rs := omap id found) in *.
  pose proof (py_sorted_perm (by_key fst) rs) as Hp.
  assert (Hlive : live_time p e ivs = range_sum (λ d, d) rs).
  { rewrite <- (range_sum_perm _ _ _ Hp), <- (count_ranges p (e - p) None).
    - unfold live_time. do 2 f_equal. apply filter_iff_in. intros t Ht%elem_of_seqZ.
      rewrite existsb_filter, any_range_filter, <- Hcov by lia. by rewrite (filter_perm_length _ _ _ Hp).
    - apply chain_separate; [rewrite Hp; eapply Forall_impl; [exact Hin|]; simpl; lia|apply by_key_sorted|].
      intros t. rewrite (filter_perm_length _ _ _ Hp). apply Hsep.
    - rewrite Hp. eapply Forall_impl; [exact Hin|]. simpl. lia. }
  rewrite Hlive. pose proof (range_sum_seconds rs). lia.
Qed.

(** C33: the maturity clock counts live time.  When it returns, the reported periods are
    the complete days of the time the listing was live between publication and
    evaluation, up to the fraction of a second that each interval drops; in particular
    a mature listing really was live for thirty days.  The decision is due exactly when
    thirty periods are reached and no defect lies in the window, and only then is there
    a key. *)
Theorem maturity_counts_live_time lid p ivs e days d m :
  p <= e → evaluate_maturity lid (Aware p) ivs (Aware e) days d = Ok m →
  let live := live_time p e ivs in let n := me_accumulated_live_periods m in
  day_us * n <= live < day_us * (n + 1) + 1000000 * Z.of_nat (length ivs) ∧
  (me_mature m = true ↔ 30 <= n) ∧
  (is_Some (me_repair m) ↔ ∃ x t, d = Some x ∧ ld_detected_at x = Aware t ∧ p <= t <= e) ∧
  (me_portfolio_decision_due m = true ↔ 30 <= n ∧ me_repair m = None) ∧
  (is_Some (me_idempotency_key m) ↔ me_portfolio_decision_due m = true).
Proof.
  intros Hpe H. unfold evaluate_maturity in H. cbn [_as_utc rbind] in H.
  apply rbind_ok in H as (n & Hn & H). apply rbind_ok in H as (rep & Hrep & H). injection H as <-.
  cbn [me_accumulated_live_periods me_mature me_repair me_portfolio_decision_due me_idempotency_key].
  apply accumulated_ok in Hn as (found & Hf & Hsep & ->).
  pose proof (live_time_bounds p e ivs found Hpe Hf Hsep) as Hb. cbv zeta in Hb.
  set (total := range_sum _ _) in *. unfold MATURITY_LIVE_DAYS, _PERIOD_SECONDS, day_us.
  split; [Z.to_euclidean_division_equations; lia|]. split; [apply Z.leb_le|]. split; [|split].
  - unfold _repair in Hrep. destruct d as [x|]; [|injection Hrep as <-; split; [by intros [? ?]|naive_solver]].
    apply rbind_ok in Hrep as (t & Ht & Hrep). destruct (ld_detected_at x) as [t'|t'] eqn:Hx; [|done].
    injection Ht as ->. destruct (Z.ltb_spec t p), (Z.ltb_spec e t); injection Hrep as <-.
    all: split; [intros [? ?]; try done; by exists x, t|intros (? & ? & [= <-] & Ht & ?)].
    all: try (by eexists). all: rewrite Hx in Ht; injection Ht as <-; lia.
  - rewrite andb_true_iff, Z.leb_le, bool_decide_eq_true. done.
  - destruct (_ && _); [split; [done|by eexists]|split; [by intros [? ?]|done]].
Qed.

(** The maturity clock is defined exactly on evidence it can count: every interval is
    in UTC, ends no earlier than it starts and is ACTIVE or INACTIVE; a defect has a UTC
    time; and no instant of the window is live by two intervals. *)
Theorem maturity_defined_iff lid p ivs e days d :
  (∃ m, evaluate_maturity lid (Aware p) ivs (Aware e) days d = Ok m) ↔
  Forall well_formed ivs ∧ (∀ x, d = Some x → ∃ t, ld_detected_at x = Aware t) ∧
  ∀ t, p <= t < e → (length (filter (λ i, covers i t = true) ivs) <= 1)%nat.
Proof.
  assert (Htr : (∃ found, traverse (live_range p e) ivs = Ok found) ↔ Forall well_formed ivs).
  { setoid_rewrite traverse_Forall2. induction ivs as [|i ivs IH]; [split; [constructor|by eexists]|].
    rewrite Forall_cons, <- IH, <- (live_range_defined p e i). split.
    - intros (found & Hf). inversion Hf as [|? o ? found' Ho Hfs]; subst. rewrite Ho.
      split; [by eexists|by eexists].
    - intros [[o Ho] (found & Hf)]. destruct (live_range p e i) as [o'|] eqn:E; [|done].
      exists (o' :: found). by constructor. }
  assert (Hrep : (∃ r, _repair lid d p e = Ok r) ↔ ∀ x, d = Some x → ∃ t, ld_detected_at x = Aware t).
  { unfold _repair. destruct d as [x|]; [|split; [done|by eexists]].
    destruct (ld_detected_at x) as [t|t] eqn:Hx; simpl.
    - split; [intros _ ? [= <-]; by eexists|]. intros _. destruct (_ || _); by eexists.
    - split; [by intros [? ?]|]. intros Ha. destruct (Ha x eq_refl) as (? & ?). congruence. }
  rewrite <- Htr, <- Hrep. unfold evaluate_maturity. cbn [_as_utc rbind]. split.
  - intros (m & H). apply rbind_ok in H as (n & Hn & H). apply rbind_ok in H as (r & Hr & _).
    apply accumulated_ok in Hn as (found & Hf & Hsep & _).
    split; [by eexists|]. split; [by eexists|]. by apply (separate_iff p e ivs found).
  - intros ((found & Hf) & (r & Hr) & Hsep). apply (separate_iff p e ivs found Hf) in Hsep.
    eexists. apply rbind_ok. eexists. split; [apply accumulated_ok; eauto|].
    apply rbind_ok. by exists r.
Qed.

(** ** Samples *)

Definition sample_interval (status : string) (from to : Z) : LiveInterval :=
  {| li_status := status; li_started_at := Aware (day_us * from); li_ended_at := Aware (day_us * to) |}.

(** Twenty live days, a pause of five days, and eleven live days, given out of order. *)
Definition sample_intervals : list LiveInterval :=
  [sample_interval "ACTIVE" 25 36; sample_interval "INACTIVE" 20 25; sample_interval "ACTIVE" 0 20].

Lemma maturity_counts_live_time_witness :
  ∃ m, evaluate_maturity 1%N (Aware 0) sample_intervals (Aware (day_us * 40)) None None = Ok m ∧
    me_accumulated_live_periods m = 31 ∧ me_portfolio_decision_due m = true ∧
    day_us * 31 <= live_time 0 (day_us * 40) sample_intervals.
Proof.
  destruct (evaluate_maturity 1%N (Aware 0) sample_intervals (Aware (day_us * 40)) None None) as [m|x] eqn:E;
    [|vm_compute in E; discriminate E].
  assert (Hn : me_accumulated_live_periods m = 31) by (vm_compute in E; by injection E as <-).
  assert (Hr : me_repair m = None) by (vm_compute in E; by injection E as <-).
  exists m. split; [reflexivity|]. split; [exact Hn|].
  destruct (maturity_counts_live_time 1%N 0 sample_intervals (day_us * 40) None None m
    ltac:(unfold day_us; lia) E) as (Hlive & _ & _ & Hdue & _).
  split; [apply Hdue; split; [rewrite Hn; lia|exact Hr]|]. rewrite Hn in Hlive. apply Hlive.
Defined.

(** A pause is not counted, and an overlap is refused. *)
Example overlap_refused :
  evaluate_maturity 1%N (Aware 0) [sample_interval "ACTIVE" 0 20; sample_interval "ACTIVE" 19 40]
    (Aware (day_us * 40)) None None = value_error "active intervals overlap".
Proof. vm_compute. reflexivity. Qed.
