(* ===== verification/PublishingRamp.v ===== *)
(** * Publishing ramp

    [assets/publishing_ramp_decision.py]: whether one more publication may proceed under
    the weekly caps, and when a full window opens again. *)

From S2P Require Import Prelude PyText Errors PyTime Contracts.
Open Scope string_scope.
Open Scope Z_scope.

Definition _LAUNCH_DEFAULT_WEEKLY_CAP : Z := 2.

Record PublishingRampDecision := {
  rd_may_publish : bool;
  rd_next_permissible_at : option datetime
}.

Definition _open_unreconciled : PublishingRampDecision :=
  {| rd_may_publish := true; rd_next_permissible_at := None |}.
Definition _open_one_below : PublishingRampDecision :=
  {| rd_may_publish := true; rd_next_permissible_at := None |}.
Definition _open_supplied_cap : PublishingRampDecision :=
  {| rd_may_publish := true; rd_next_permissible_at := None |}.
Definition _closed : PublishingRampDecision :=
  {| rd_may_publish := false; rd_next_permissible_at := None |}.

(** Only reached after [_validate], which refuses a naive datetime. *)
Definition _closed_until (oldest_reconciled_at : option moment) (rolling_window_days : Z)
    : result exn PublishingRampDecision :=
  match oldest_reconciled_at with
  | None => value_error "oldest reconciled publication is required"
  | Some (Aware oldest | Naive oldest) =>
      let? window := timedelta_days rolling_window_days in
      let? opened := datetime_add oldest window in
      Ok {| rd_may_publish := false; rd_next_permissible_at := Some opened |}
  end.

Definition _cap_from_caller (initial_weekly_cap : Z) : Z := initial_weekly_cap.

Definition _wait_when_publishing_disabled (publishing_enabled : bool) : option PublishingRampDecision :=
  if negb publishing_enabled then Some _closed else None.

Definition _wait_when_hard_cap_reached (counted hard_weekly_cap : Z) (oldest_reconciled_at : option moment)
    (rolling_window_days : Z) : result exn (option PublishingRampDecision) :=
  if hard_weekly_cap <=? counted
  then let? d := _closed_until oldest_reconciled_at rolling_window_days in Ok (Some d)
  else Ok None.

Definition _wait_when_reconciled_reaches_cap (counted cap : Z) (oldest_reconciled_at : option moment)
    (rolling_window_days : Z) : result exn (option PublishingRampDecision) :=
  if cap <=? counted
  then let? d := _closed_until oldest_reconciled_at rolling_window_days in Ok (Some d)
  else Ok None.

Definition _allow_unreconciled_remainder (counted cap unreconciled_count : Z) : option PublishingRampDecision :=
  if (0 <? unreconciled_count) && (counted <? cap) then Some _open_unreconciled else None.

Definition _allow_one_below_cap (counted cap unreconciled_count : Z) : option PublishingRampDecision :=
  if (counted <? cap) && (cap =? _LAUNCH_DEFAULT_WEEKLY_CAP) && (unreconciled_count =? 0)
  then Some _open_one_below else None.

Definition _allow_under_supplied_cap (counted cap : Z) : option PublishingRampDecision :=
  if (counted <? cap) && negb (cap =? _LAUNCH_DEFAULT_WEEKLY_CAP) then Some _open_supplied_cap else None.

Definition _validate (initial_weekly_cap hard_weekly_cap rolling_window_days reconciled_count : Z)
    (oldest_reconciled_at : option moment) (unreconciled_count : Z) : result exn unit :=
  do? check (negb (initial_weekly_cap <? 1)) "initial weekly cap must be positive";
  do? check (negb (hard_weekly_cap <? 1)) "hard weekly cap must be positive";
  do? check (negb (rolling_window_days <? 1)) "rolling window must be positive";
  do? check (negb (reconciled_count <? 0)) "reconciled count cannot be negative";
  do? check (negb (unreconciled_count <? 0)) "unreconciled count cannot be negative";
  do? check (negb ((reconciled_count =? 0) && given oldest_reconciled_at))
    "an empty reconciled window has no oldest publication";
  do? check (negb ((0 <? reconciled_count) && negb (given oldest_reconciled_at)))
    "oldest reconciled publication is required";
  check (match oldest_reconciled_at with Some (Naive _) => false | _ => true end)
    "oldest reconciled publication must be timezone-aware".

Definition decide_publishing_ramp (publishing_enabled : bool)
    (initial_weekly_cap hard_weekly_cap rolling_window_days reconciled_count : Z)
    (oldest_reconciled_at : option moment) (unreconciled_count : Z) : result exn PublishingRampDecision :=
  do? _validate initial_weekly_cap hard_weekly_cap rolling_window_days reconciled_count
        oldest_reconciled_at unreconciled_count;
  let counted := reconciled_count in
  let cap := _cap_from_caller initial_weekly_cap in
  match _wait_when_publishing_disabled publishing_enabled with Some d => Ok d | None =>
  let? hard := _wait_when_hard_cap_reached counted hard_weekly_cap oldest_reconciled_at rolling_window_days in
  match hard with Some d => Ok d | None =>
  let? at_cap := _wait_when_reconciled_reaches_cap counted cap oldest_reconciled_at rolling_window_days in
  match at_cap with Some d => Ok d | None =>
  match _allow_unreconciled_remainder counted cap unreconciled_count with Some d => Ok d | None =>
  match _allow_one_below_cap counted cap unreconciled_count with Some d => Ok d | None =>
  match _allow_under_supplied_cap counted cap with Some d => Ok d | None =>
  Ok _closed
  end end end end end end.

(** ** Reference *)

(** The inputs [_validate] lets through. *)
Definition ramp_valid (initial_cap hard_cap window count : Z) (oldest : option moment) (unreconciled : Z) : Prop :=
  1 <= initial_cap ∧ 1 <= hard_cap ∧ 1 <= window ∧ 0 <= unreconciled ∧
  (count = 0 ∧ oldest = None ∨ 0 < count ∧ ∃ t, oldest = Some (Aware t)).

(** The ramp in one comparison. *)
Definition ramp_reference (enabled : bool) (initial_cap hard_cap window count : Z) (oldest : option moment)
    : result exn PublishingRampDecision :=
  if negb enabled then Ok _closed
  else if count <? Z.min initial_cap hard_cap
  then Ok {| rd_may_publish := true; rd_next_permissible_at := None |}
  else _closed_until oldest window.

Lemma validate_iff i h w n o u : _validate i h w n o u = Ok tt ↔ ramp_valid i h w n o u.
Proof.
  unfold _validate, ramp_valid.
  assert (Hs : ∀ b m (k : result exn unit), (do? check b m; k) = Ok tt ↔ b = true ∧ k = Ok tt).
  { intros [] m k; simpl; naive_solver. }
  rewrite !Hs, check_ok, !negb_true_iff, !andb_false_iff, !Z.ltb_ge, Z.eqb_neq.
  destruct o as [[t|t]|]; simpl.
  - split; [|naive_solver lia]. intros (? & ? & ? & ? & ? & [?|?] & _); [|done].
    repeat split; [done..|]. right. split; [lia|by eexists].
  - split; [naive_solver|]. intros (_ & _ & _ & _ & [[_ ?]|[_ [? ?]]]); done.
  - split; [|naive_solver lia]. intros (? & ? & ? & ? & ? & _ & [?|?] & _); [|done].
    repeat split; [done..|]. left. split; [lia|done].
Qed.

Lemma validate_raises i h w n o u : _validate i h w n o u = Ok tt ∨ ∃ m, _validate i h w n o u = value_error m.
Proof.
  unfold _validate, check. repeat (case_match; simpl; [|right; by eexists]). by left.
Qed.

(** C34: the publishing ramp is one comparison.  Valid input gets exactly the decision of
    the reference: closed without a date when publishing is off, open while the
    reconciled count is below both caps, and otherwise closed until the oldest counted
    publication leaves the window; the number of unreconciled publications never
    matters.  Every other input is a [ValueError]. *)
Theorem ramp_is_reference enabled i h w n o u :
  (ramp_valid i h w n o u → decide_publishing_ramp enabled i h w n o u = ramp_reference enabled i h w n o) ∧
  (¬ ramp_valid i h w n o u → ∃ m, decide_publishing_ramp enabled i h w n o u = value_error m).
Proof.
  rewrite <- validate_iff. unfold decide_publishing_ramp. split.
  - intros Hv. rewrite Hv. apply validate_iff in Hv as (Hi & Hh & Hw & Hu & _). cbn [rbind].
    unfold ramp_reference, _wait_when_publishing_disabled. destruct enabled; [|done]. cbn [negb].
    unfold _wait_when_hard_cap_reached, _wait_when_reconciled_reaches_cap, _cap_from_caller,
      _allow_unreconciled_remainder, _allow_one_below_cap, _allow_under_supplied_cap.
    destruct (Z.leb_spec h n); [rewrite (proj2 (Z.ltb_ge n (Z.min i h))) by lia; by destruct (_closed_until o w)|].
    cbn [rbind]. destruct (Z.leb_spec i n); [rewrite (proj2 (Z.ltb_ge n (Z.min i h))) by lia; by destruct (_closed_until o w)|].
    cbn [rbind]. rewrite !(proj2 (Z.ltb_lt n _)) by lia.
    destruct (Z.ltb_spec 0 u); [done|]. cbn [andb].
    rewrite (proj2 (Z.eqb_eq u 0)) by lia. by destruct (i =? _LAUNCH_DEFAULT_WEEKLY_CAP).
  - intros Hv. destruct (validate_raises i h w n o u) as [?|(m & ->)]; [done|]. by exists m.
Qed.

Lemma ramp_is_reference_witness :
  decide_publishing_ramp true 3 5 7 3 (Some (Aware 0)) 4 =
    Ok {| rd_may_publish := false; rd_next_permissible_at := Some (7 * day_us) |} ∧
  ∃ m, decide_publishing_ramp true 0 5 7 3 (Some (Aware 0)) 4 = value_error m.
Proof.
  split.
  - rewrite (proj1 (ramp_is_reference true 3 5 7 3 (Some (Aware 0)) 4)); [vm_compute; reflexivity|].
    unfold ramp_valid. repeat split; try lia. right. split; [lia|]. exists 0. reflexivity.
  - apply (proj2 (ramp_is_reference true 0 5 7 3 (Some (Aware 0)) 4)). unfold ramp_valid. lia.
Defined.
