(* ===== verification/Portfolio.v ===== *)
(** * Portfolio eligibility

    [assets/portfolio_eligibility.py]: which decision each reconciled listing gets, by
    defects, maturity and its rank in the shop's cohort, and which queued experiment
    takes the new-front slot. *)

From S2P Require Import Prelude PyText PyLines Sha256 Sha1 PySort Enums Errors PyTime.
Open Scope string_scope.
Open Scope Z_scope.
Import DecisionType.

Definition _NAMESPACE : uuid := 0x4f6a0b1c8d2e4a709c116b5d4e3f2a10.
Definition _MATURITY_LIVE_DAYS : Z := 30.
Definition _MIN_COHORT : nat := 5.
Definition _COLLECTION_GAP : timedelta := 7 * day_us.

Record SnapshotView := {
  sv_snapshot_id : uuid;
  sv_views : Z;
  sv_favourites : Z;
  sv_orders : Z;
  sv_gross_revenue : Z;
  sv_reconciled : bool
}.

Record ListingCandidate := {
  lc_listing_id : uuid;
  lc_product_id : uuid;
  lc_spec_id : uuid;
  lc_workflow_id : uuid;
  lc_shop_id : uuid;
  lc_live_days : Z;
  lc_in_window : bool;
  lc_has_defect : bool;
  lc_snapshot : option SnapshotView
}.

#[export] Instance SnapshotView_eq_dec : EqDecision SnapshotView.
Proof. solve_decision. Defined.
#[export] Instance ListingCandidate_eq_dec : EqDecision ListingCandidate.
Proof. solve_decision. Defined.

(** The field [build_step], whose only value is [None], is left out. *)
Record PortfolioResult := {
  pr_listing_id : uuid;
  pr_decision_id : uuid;
  pr_decision : DecisionType;
  pr_decided_at : datetime;
  pr_snapshot_id : uuid;
  pr_event_names : list EventName;
  pr_deactivation_job_id : option uuid;
  pr_deactivation_executed : bool;
  pr_repair_job_id : option uuid;
  pr_next_collection_at : option datetime;
  pr_successor_spec_id : option uuid;
  pr_lineage_kind : option string;
  pr_successor_workflow_id : option uuid;
  pr_parent_spec_id : option uuid;
  pr_parent_product_id : option uuid;
  pr_parent_decision_id : option uuid;
  pr_parent_workflow_id : option uuid;
  pr_stops_at : option string;
  pr_job_types : list string
}.

(** ** Scores *)

Definition Score : Type := Z * Z * Z * Z.

Definition _score (l : ListingCandidate) : Score :=
  match lc_snapshot l with
  | None => (0, 0, 0, 0)
  | Some s => (sv_orders s, sv_gross_revenue s, sv_favourites s, sv_views s)
  end.

(** Tuples compare lexicographically. *)
Definition score_lt (a b : Score) : bool :=
  let '(a1, a2, a3, a4) := a in let '(b1, b2, b3, b4) := b in
  (a1 <? b1) || (a1 =? b1) && ((a2 <? b2) || (a2 =? b2) && ((a3 <? b3) || (a3 =? b3) && (a4 <? b4))).

Definition score_le (a b : Score) : bool := negb (score_lt b a).

(** The sort key [(_score(item), item.listing_id)]; UUIDs compare as integers. *)
Definition rank_le (x y : ListingCandidate) : bool :=
  score_lt (_score x) (_score y) ||
  bool_decide (_score x = _score y) && (lc_listing_id x <=? lc_listing_id y)%N.

Definition _in_percentile_cohort (l : ListingCandidate) : bool :=
  match lc_snapshot l with
  | None => false
  | Some s =>
      if negb (sv_reconciled s) then false
      else if negb (lc_in_window l) || lc_has_defect l || (lc_live_days l <? _MATURITY_LIVE_DAYS) then false
      else negb ((0 <? sv_views s) && (sv_orders s =? 0))
  end.

(** [grouped.setdefault(shop, []).append(listing)] on the dictionary in insertion order. *)
Fixpoint add_to_group (l : ListingCandidate) (groups : list (uuid * list ListingCandidate))
    : list (uuid * list ListingCandidate) :=
  match groups with
  | [] => [(lc_shop_id l, [l])]
  | (shop, g) :: rest =>
      if decide (shop = lc_shop_id l) then (shop, (g ++ [l])%list) :: rest else (shop, g) :: add_to_group l rest
  end.

Definition grouped (listings : list ListingCandidate) : list (uuid * list ListingCandidate) :=
  foldl (λ groups l, if _in_percentile_cohort l then add_to_group l groups else groups) [] listings.

(** ** [int] of a string *)

Definition py_int (s : string) : result exn Z :=
  let n := match str_strip s with
           | String c r => if decide (c = Ascii.ascii_of_N 45) then Z.opp <$> int_digits 0 false r
                           else if decide (c = Ascii.ascii_of_N 43) then int_digits 0 false r
                           else int_digits 0 false (String c r)
           | EmptyString => None
           end in
  match n with
  | Some n => Ok n
  | None => value_error ("invalid literal for int() with base 10: " ++ str_repr s)
  end.

(** ** Culls and winners *)

(** One round of the loop over the groups. *)
Definition group_culled (percent : Z) (group : list ListingCandidate) : result exn (list uuid) :=
  if (length group <? _MIN_COHORT)%nat then Ok []
  else
    let ordered := py_sorted rank_le group in
    let pool := (Z.of_nat (length ordered) * percent) / 100 in
    if pool <=? 0 then Ok []
    else match ordered !! Z.to_nat (pool - 1) with
         | None => Raise (Exn IndexError "list index out of range")
         | Some c => Ok (lc_listing_id <$> filter (λ x, score_lt (_score x) (_score c) = true) ordered)
         end.

Definition _cull_ids (listings : list ListingCandidate) (cull_bottom_percent : string)
    : result exn (gset uuid) :=
  let? percent := py_int cull_bottom_percent in
  let? chosen := traverse (λ g, group_culled percent g.2) (grouped listings) in
  Ok (list_to_set (mjoin chosen)).

Definition _unique_winner (group : list ListingCandidate) : option uuid :=
  match py_sorted (λ x y, rank_le y x) group with
  | [] => None
  | best :: rest =>
      match lc_snapshot best with
      | None => None
      | Some s =>
          if sv_orders s <=? 0 then None
          else if match rest with second :: _ => bool_decide (_score second = _score best) | [] => false end
          then None
          else Some (lc_listing_id best)
      end
  end.

Definition _multiply_ids (listings : list ListingCandidate) (culled : gset uuid) : gset uuid :=
  list_to_set (omap (λ g, match _unique_winner g.2 with
                          | Some w => if decide (w ∈ culled) then None else Some w
                          | None => None
                          end) (grouped listings)).

(** ** One decision *)

Definition _classify (l : ListingCandidate) (s : SnapshotView) (culled multiply : gset uuid)
    : option DecisionType :=
  if lc_has_defect l then Some REPAIR
  else if lc_live_days l <? _MATURITY_LIVE_DAYS then None
  else if (0 <? sv_views s) && (sv_orders s =? 0) then Some REPAIR
  else if decide (lc_listing_id l ∈ culled) then Some CULL
  else if decide (lc_listing_id l ∈ multiply) then Some MULTIPLY
  else if lc_in_window l then Some HOLD
  else None.

Definition _suppressed (l : ListingCandidate) (prior : option PortfolioResult) (decided_at : datetime) : bool :=
  match prior with
  | None => false
  | Some prior =>
      match pr_decision prior with
      | HOLD => match pr_next_collection_at prior with
                | Some next_collection => decided_at <? next_collection
                | None => false
                end
      | REPAIR => match lc_snapshot l with
                  | Some s => bool_decide (sv_snapshot_id s = pr_snapshot_id prior)
                  | None => false
                  end
      | _ => false
      end
  end.

Definition _derive (kind : string) (parts : list uuid) : uuid :=
  uuid5 _NAMESPACE (String.concat ":" (kind :: (uuid_str <$> parts))).

Definition _record (l : ListingCandidate) (s : SnapshotView) (decision : DecisionType)
    (decided_at : datetime) (decision_id : uuid) (event_names : list EventName)
    (deactivation_job_id repair_job_id : option uuid) (next_collection_at : option datetime)
    (successor_spec_id : option uuid) (lineage_kind : option string)
    (successor_workflow_id parent_spec_id parent_product_id parent_decision_id parent_workflow_id : option uuid)
    (stops_at : option string) : PortfolioResult :=
  {| pr_listing_id := lc_listing_id l; pr_decision_id := decision_id; pr_decision := decision;
     pr_decided_at := decided_at; pr_snapshot_id := sv_snapshot_id s; pr_event_names := event_names;
     pr_deactivation_job_id := deactivation_job_id; pr_deactivation_executed := false;
     pr_repair_job_id := repair_job_id; pr_next_collection_at := next_collection_at;
     pr_successor_spec_id := successor_spec_id; pr_lineage_kind := lineage_kind;
     pr_successor_workflow_id := successor_workflow_id; pr_parent_spec_id := parent_spec_id;
     pr_parent_product_id := parent_product_id; pr_parent_decision_id := parent_decision_id;
     pr_parent_workflow_id := parent_workflow_id; pr_stops_at := stops_at; pr_job_types := [] |}.

Definition _build (l : ListingCandidate) (s : SnapshotView) (decision : DecisionType)
    (decided_at : datetime) : result exn PortfolioResult :=
  let decision_id := _derive (DecisionType_value decision) [lc_listing_id l; sv_snapshot_id s] in
  let record := _record l s decision decided_at decision_id in
  match decision with
  | HOLD =>
      let? next := datetime_add decided_at _COLLECTION_GAP in
      Ok (record [EventName.LISTING_HELD] None None (Some next) None None None None None None None None)
  | REPAIR =>
      Ok (record [EventName.LISTING_REPAIR_REQUESTED] None
            (Some (_derive "repair" [lc_listing_id l; sv_snapshot_id s]))
            None None None None None None None None None)
  | CULL =>
      Ok (record [EventName.LISTING_CULL_REQUESTED]
            (Some (_derive "deactivation" [lc_listing_id l; sv_snapshot_id s]))
            None None None None None None None None None None)
  | MULTIPLY =>
      Ok (record [EventName.WINNER_DETECTED] None None None
            (Some (_derive "successor-spec" [lc_spec_id l; lc_listing_id l])) (Some "SUCCESSOR")
            (Some (_derive "successor-workflow" [lc_workflow_id l; lc_listing_id l]))
            (Some (lc_spec_id l)) (Some (lc_product_id l)) (Some decision_id) (Some (lc_workflow_id l))
            (Some "DEDUPE_CHECK"))
  end.

(** One round of the loop: the result it appends, if any. *)
Definition decide_listing (priors : gmap uuid PortfolioResult) (culled multiply : gset uuid)
    (decided_at : datetime) (l : ListingCandidate) : result exn (option PortfolioResult) :=
  match lc_snapshot l with
  | None => Ok None
  | Some s =>
      if negb (sv_reconciled s) then Ok None
      else if _suppressed l (priors !! lc_listing_id l) decided_at then Ok None
      else match _classify l s culled multiply with
           | None => Ok None
           | Some decision => let? r := _build l s decision decided_at in Ok (Some r)
           end
  end.

Definition evaluate_portfolio (listings : list ListingCandidate) (decided_at : moment)
    (priors : list PortfolioResult) (cull_bottom_percent : string) : result exn (list PortfolioResult) :=
  match decided_at with
  | Naive _ => value_error "decided_at must be timezone-aware"
  | Aware decided_at =>
      let priors_by_listing : gmap uuid PortfolioResult :=
        foldl (λ m r, <[pr_listing_id r := r]> m) ∅ priors in
      let? culled := _cull_ids listings cull_bottom_percent in
      let multiply := _multiply_ids listings culled in
      let? results := traverse (decide_listing priors_by_listing culled multiply decided_at) listings in
      Ok (omap id results)
  end.

(** ** Labels *)

Definition is_portfolio_decision (label : string) : bool :=
  bool_decide (label ∈ DecisionType_value <$> DecisionType_members).

Definition _NOT_JOB_TYPES : list string := ["CREATE_SUCCESSOR_SPEC"; "CHECK_DEDUPE"; "BUILD_NOTION_TEMPLATE"].

(** The set of job types is empty. *)
Definition is_job_type (label : string) : bool :=
  bool_decide (label ∉ _NOT_JOB_TYPES) && bool_decide (label ∈ (∅ : gset string)).

Definition counts_as_cull (decision : DecisionType) (deactivation_job_id : option uuid) : bool :=
  bool_decide (decision = CULL) && bool_decide (is_Some deactivation_job_id).

(** [is_successful_result] of a result; a tuple of labels is never one. *)
Definition is_successful_result (r : PortfolioResult) : bool :=
  bool_decide (pr_decision r = MULTIPLY) && bool_decide (is_Some (pr_successor_spec_id r)) &&
  bool_decide (pr_lineage_kind r = Some "SUCCESSOR") && bool_decide (is_Some (pr_successor_workflow_id r)) &&
  bool_decide (is_Some (pr_parent_workflow_id r)) &&
  bool_decide (pr_successor_workflow_id r ≠ pr_parent_workflow_id r) &&
  bool_decide (pr_stops_at r = Some "DEDUPE_CHECK").

(** ** The new-front slot *)

Record QueuedExperiment := {
  qe_experiment_id : uuid;
  qe_product_id : uuid;
  qe_state : string;
  qe_blocked : bool;
  qe_variant_of_winner : bool
}.

Record ExperimentBatch := {
  eb_batch_id : uuid;
  eb_winner_product_id : uuid;
  eb_experiments : list QueuedExperiment;
  eb_publishing_enabled : bool
}.

Record ExperimentOutcome := {
  eo_experiment_id : uuid;
  eo_state : string;
  eo_delivered : bool
}.

Record SlotResult := {
  sl_scheduled_experiment_ids : list uuid;
  sl_outcomes : list ExperimentOutcome;
  sl_publication_ids : list uuid;
  sl_delivered_experiment_ids : list uuid
}.

Definition _eligible_experiment (x : QueuedExperiment) (winner_product_id : uuid) : bool :=
  bool_decide (qe_state x = "QUEUED") && negb (qe_blocked x) && negb (qe_variant_of_winner x) &&
  negb (bool_decide (qe_product_id x = winner_product_id)).

(** One round of the loop on the two lists. *)
Definition schedule_one (winner : uuid) (acc : list uuid * list ExperimentOutcome) (x : QueuedExperiment)
    : list uuid * list ExperimentOutcome :=
  let '(scheduled, outcomes) := acc in
  let out s d := {| eo_experiment_id := qe_experiment_id x; eo_state := s; eo_delivered := d |} in
  if _eligible_experiment x winner && bool_decide (scheduled = [])
  then ((scheduled ++ [qe_experiment_id x])%list, (outcomes ++ [out "SCHEDULED" true])%list)
  else (scheduled, (outcomes ++ [out (qe_state x) false])%list).

Definition schedule_new_front (batch : ExperimentBatch) : SlotResult :=
  let '(scheduled, outcomes) := foldl (schedule_one (eb_winner_product_id batch)) ([], []) (eb_experiments batch) in
  {| sl_scheduled_experiment_ids := scheduled; sl_outcomes := outcomes;
     sl_publication_ids :=
       if eb_publishing_enabled batch then (λ e, _derive "publication" [e]) <$> scheduled else [];
     sl_delivered_experiment_ids := scheduled |}.

(** ** Orders *)

Lemma score_lt_iff a1 a2 a3 a4 b1 b2 b3 b4 :
  score_lt (a1, a2, a3, a4) (b1, b2, b3, b4) = true ↔
  a1 < b1 ∨ a1 = b1 ∧ (a2 < b2 ∨ a2 = b2 ∧ (a3 < b3 ∨ a3 = b3 ∧ a4 < b4)).
Proof. simpl. rewrite !orb_true_iff, !andb_true_iff, !orb_true_iff, !andb_true_iff, !orb_true_iff, !andb_true_iff,
  !Z.ltb_lt, !Z.eqb_eq. done. Qed.

Lemma score_le_iff a b : score_le a b = true ↔ score_lt a b = true ∨ a = b.
Proof.
  destruct a as [[[a1 a2] a3] a4], b as [[[b1 b2] b3] b4]. unfold score_le.
  rewrite negb_true_iff, <- not_true_iff_false, !score_lt_iff. split.
  - intros H. destruct (decide ((a1, a2, a3, a4) = (b1, b2, b3, b4))) as [|Hne]; [by right|left].
    assert (¬ (a1 = b1 ∧ a2 = b2 ∧ a3 = b3 ∧ a4 = b4)) by (intros (-> & -> & -> & ->); done). lia.
  - intros [H|[= -> -> -> ->]]; lia.
Qed.

Lemma score_lt_irrefl a : score_lt a a = false.
Proof. destruct a as [[[a1 a2] a3] a4]. rewrite <- not_true_iff_false, score_lt_iff. lia. Qed.

Lemma score_lt_trans a b c : score_lt a b = true → score_lt b c = true → score_lt a c = true.
Proof.
  destruct a as [[[a1 a2] a3] a4], b as [[[b1 b2] b3] b4], c as [[[c1 c2] c3] c4]. rewrite !score_lt_iff. lia.
Qed.

Lemma score_lt_total a b : score_lt a b = true ∨ a = b ∨ score_lt b a = true.
Proof.
  destruct (score_lt a b) eqn:Hab; [by left|]. right.
  assert (Hle : score_le b a = true) by (unfold score_le; by rewrite Hab).
  apply score_le_iff in Hle as [?|?]; auto.
Qed.

(** The rest of the order theory follows from these three. *)
Lemma score_lt_le a b : score_lt a b = true → score_le b a = false.
Proof. intros H. unfold score_le. by rewrite H. Qed.

Lemma score_le_trans a b c : score_le a b = true → score_le b c = true → score_le a c = true.
Proof.
  rewrite !score_le_iff. intros [H1| ->] [H2| ->]; auto. left. by apply (score_lt_trans a b c).
Qed.

Lemma score_lt_le_trans a b c : score_lt a b = true → score_le b c = true → score_lt a c = true.
Proof. rewrite score_le_iff. intros H1 [H2| <-]; [by apply (score_lt_trans a b c)|done]. Qed.

Lemma rank_le_score x y : rank_le x y = true → score_le (_score x) (_score y) = true.
Proof.
  unfold rank_le. rewrite orb_true_iff, andb_true_iff, bool_decide_eq_true, score_le_iff. intros [?|[? _]]; auto.
Qed.

Lemma rank_le_total x y : rank_le x y = true ∨ rank_le y x = true.
Proof.
  unfold rank_le. rewrite !orb_true_iff, !andb_true_iff, !bool_decide_eq_true, !N.leb_le.
  destruct (score_lt_total (_score x) (_score y)) as [?|[E|?]]; auto. rewrite E.
  destruct (N.le_ge_cases (lc_listing_id x) (lc_listing_id y)); auto.
Qed.

Lemma rank_le_trans x y z : rank_le x y = true → rank_le y z = true → rank_le x z = true.
Proof.
  unfold rank_le. rewrite !orb_true_iff, !andb_true_iff, !bool_decide_eq_true, !N.leb_le.
  intros [H1|[E1 H1]] [H2|[E2 H2]].
  - left. by apply (score_lt_trans _ (_score y)).
  - left. by rewrite <- E2.
  - left. by rewrite E1.
  - right. split; [congruence|lia].
Qed.

(** ** Groups *)

(** The cohort of a shop, in listing order. *)
Definition cohort (ls : list ListingCandidate) (shop : uuid) : list ListingCandidate :=
  filter (λ l, _in_percentile_cohort l = true ∧ lc_shop_id l = shop) ls.

Lemma add_to_group_map l groups :
  list_to_map (M := gmap uuid (list ListingCandidate)) (add_to_group l groups) =
  partial_alter (λ o, Some (default [] o ++ [l])%list) (lc_shop_id l) (list_to_map groups).
Proof.
  induction groups as [|[shop g] groups IH]; simpl.
  - apply map_eq. intros k. destruct (decide (k = lc_shop_id l)) as [->|Hne].
    + by rewrite lookup_insert_eq, lookup_partial_alter_eq, lookup_empty.
    + by rewrite lookup_insert_ne, lookup_partial_alter_ne by done.
  - case_decide as Hs; simpl; [|rewrite IH].
    + subst shop. apply map_eq. intros k. destruct (decide (k = lc_shop_id l)) as [->|Hne].
      * by rewrite lookup_partial_alter_eq, !lookup_insert_eq.
      * by rewrite lookup_partial_alter_ne, !lookup_insert_ne by done.
    + apply map_eq. intros k. destruct (decide (k = lc_shop_id l)) as [->|Hne].
      * by rewrite lookup_insert_ne, !lookup_partial_alter_eq, lookup_insert_ne by done.
      * rewrite lookup_partial_alter_ne by done. destruct (decide (k = shop)) as [->|Hk].
        -- by rewrite !lookup_insert_eq.
        -- by rewrite !lookup_insert_ne, lookup_partial_alter_ne by done.
Qed.

Lemma add_to_group_keys l groups :
  (add_to_group l groups).*1 = if decide (lc_shop_id l ∈ groups.*1) then groups.*1 else (groups.*1 ++ [lc_shop_id l])%list.
Proof.
  induction groups as [|[shop g] groups IH]; csimpl; [done|]. destruct (decide (shop = lc_shop_id l)) as [->|Hs]; csimpl.
  - by rewrite decide_True by set_solver.
  - rewrite IH. destruct (decide (lc_shop_id l ∈ groups.*1)).
    + by rewrite decide_True by set_solver.
    + by rewrite decide_False by set_solver.
Qed.

Lemma grouped_spec ls :
  NoDup (grouped ls).*1 ∧
  ∀ shop, list_to_map (M := gmap uuid (list ListingCandidate)) (grouped ls) !! shop =
    if decide (cohort ls shop = []) then None else Some (cohort ls shop).
Proof.
  unfold grouped. induction ls as [|l ls [IHn IHm]] using rev_ind.
  { split; [constructor|]. intros shop. apply lookup_empty. }
  rewrite foldl_app. simpl. set (groups := foldl _ _ _) in *.
  assert (Hc : ∀ shop, cohort (ls ++ [l])%list shop = (cohort ls shop ++
    (if decide (_in_percentile_cohort l = true ∧ lc_shop_id l = shop) then [l] else []))%list).
  { intros shop. unfold cohort. rewrite filter_app, filter_cons. done. }
  destruct (_in_percentile_cohort l) eqn:Hl.
  - split.
    + rewrite add_to_group_keys. destruct (decide (lc_shop_id l ∈ groups.*1)) as [|Hin]; [done|]. apply NoDup_app. split; [done|].
      split; [|apply NoDup_singleton]. set_solver.
    + intros shop. rewrite add_to_group_map, Hc. destruct (decide (shop = lc_shop_id l)) as [->|Hne].
      * rewrite lookup_partial_alter_eq, IHm, (decide_True (P := _ ∧ _)) by done.
        rewrite (decide_False (P := (_ ++ _)%list = [])) by (by destruct (cohort ls (lc_shop_id l))).
        destruct (decide (cohort ls (lc_shop_id l) = [])) as [He|]; [by rewrite He|done].
      * rewrite lookup_partial_alter_ne, (decide_False (P := _ ∧ _)), app_nil_r, IHm by naive_solver. done.
  - split; [done|]. intros shop. rewrite Hc, (decide_False (P := _ ∧ _)), app_nil_r by naive_solver. apply IHm.
Qed.

Lemma elem_of_grouped ls shop g : (shop, g) ∈ grouped ls ↔ g ≠ [] ∧ g = cohort ls shop.
Proof.
  destruct (grouped_spec ls) as [Hn Hm]. rewrite elem_of_list_to_map, Hm by done. case_decide; naive_solver.
Qed.

(** ** Ranks *)

(** How many of the group score no better than [x]. *)
Definition no_better (g : list ListingCandidate) (x : ListingCandidate) : nat :=
  length (filter (λ y, score_le (_score y) (_score x) = true) g).

Lemma filter_length_le {A} (P : A → Prop) `{!∀ x, Decision (P x)} (l : list A) k :
  (length (filter P (take k l)) <= length (filter P l))%nat.
Proof. rewrite <- (take_drop k l) at 2. rewrite filter_app, length_app. lia. Qed.

(** In an ordered group, scoring below the member at position [k] is having at most [k]
    members that score no better. *)
Lemma below_position g k c x :
  py_sorted rank_le g !! k = Some c →
  score_lt (_score x) (_score c) = true ↔ (no_better g x <= k)%nat.
Proof.
  intros Hk. unfold no_better. rewrite <- (py_sorted_perm rank_le g).
  pose proof (py_sorted_sorted rank_le rank_le_total rank_le_trans g) as Hs.
  set (o := py_sorted rank_le g) in *. pose proof (take_drop_middle o k c Hk) as Ho.
  assert (Hlen : length (take k o) = k) by (apply length_take_le, Nat.lt_le_incl; by eapply lookup_lt_Some).
  rewrite <- Ho in Hs. apply StronglySorted_app in Hs as (Hbefore & _ & [Hafter _]%StronglySorted_cons).
  rewrite Forall_forall in Hafter. split.
  - intros Hlt. rewrite <- Ho, filter_app, length_app, (filter_none _ (c :: _)).
    + pose proof (length_filter (λ y, score_le (_score y) (_score x) = true) (take k o)). simpl. lia.
    + intros y Hy Hle. rewrite elem_of_cons in Hy.
      assert (Hcy : score_le (_score c) (_score y) = true).
      { destruct Hy as [->|Hy]; [apply score_le_iff; by right|]. by apply rank_le_score, Hafter. }
      pose proof (score_lt_le_trans _ _ _ Hlt (score_le_trans _ _ _ Hcy Hle)) as Hx.
      by rewrite score_lt_irrefl in Hx.
  - intros Hn. apply not_false_iff_true. intros Hge.
    assert (Hle : score_le (_score c) (_score x) = true) by (unfold score_le; by rewrite Hge).
    rewrite <- Ho, filter_app, length_app, filter_cons_True, filter_all in Hn; [simpl in Hn; lia| |done].
    intros y Hy. apply (score_le_trans _ (_score c)); [|done].
    apply rank_le_score, Hbefore; [done|by left].
Qed.

Lemma group_culled_spec percent g ids :
  group_culled percent g = Ok ids →
  (∀ i, i ∈ ids ↔ ∃ x, x ∈ g ∧ lc_listing_id x = i ∧ (5 <= length g)%nat ∧
    Z.of_nat (no_better g x) < Z.of_nat (length g) * percent / 100) ∧
  ((5 <= length g)%nat → Z.of_nat (length g) * percent / 100 <= Z.of_nat (length g)).
Proof.
  unfold group_culled, _MIN_COHORT. rewrite py_sorted_length.
  destruct (Nat.ltb_spec (length g) 5) as [Hl|Hl].
  { intros [= <-]. split; [|lia]. intros i. rewrite elem_of_nil. split; [done|]. intros (x & _ & _ & ? & _). lia. }
  set (pool := _ / 100). destruct (Z.leb_spec pool 0) as [Hp|Hp].
  { intros [= <-]. split; [|lia]. intros i. rewrite elem_of_nil. split; [done|]. intros (x & _ & _ & _ & ?). lia. }
  destruct (py_sorted rank_le g !! _) as [c|] eqn:Hc; [|done]. intros [= <-].
  pose proof (lookup_lt_Some _ _ _ Hc) as Hlt. rewrite py_sorted_length in Hlt. split; [|lia].
  intros i. rewrite list_elem_of_fmap. setoid_rewrite list_elem_of_filter.
  setoid_rewrite (below_position g _ c _ Hc). setoid_rewrite elem_of_py_sorted.
  split; [intros (x & -> & ? & ?)|intros (x & ? & <- & ? & ?)]; exists x; repeat split; try done; lia.
Qed.

Lemma unique_winner_spec g i :
  NoDup g → (∀ x, x ∈ g → is_Some (lc_snapshot x)) →
  _unique_winner g = Some i ↔ ∃ x, x ∈ g ∧ lc_listing_id x = i ∧
    (∃ s, lc_snapshot x = Some s ∧ 0 < sv_orders s) ∧
    ∀ y, y ∈ g → y ≠ x → score_lt (_score y) (_score x) = true.
Proof.
  intros Hnd Hsnap. unfold _unique_winner.
  pose proof (py_sorted_perm (λ x y, rank_le y x) g) as Hp.
  pose proof (py_sorted_sorted (λ x y, rank_le y x) (λ x y, rank_le_total y x)
    (λ x y z H1 H2, rank_le_trans z y x H2 H1) g) as Hs.
  rewrite <- Hp in Hnd. set (ranked := py_sorted _ g) in *.
  assert (Hin : ∀ x, x ∈ g ↔ x ∈ ranked) by (intros x; by rewrite Hp). clearbody ranked.
  setoid_rewrite Hin. destruct ranked as [|best rest].
  { split; [done|]. intros (x & Hx & _). by apply elem_of_nil in Hx. }
  apply StronglySorted_cons in Hs as [Hbest Hrest]. rewrite Forall_forall in Hbest.
  apply NoDup_cons in Hnd as [Hnotin Hnd].
  assert (Hle : ∀ y, y ∈ rest → score_le (_score y) (_score best) = true) by (intros; by apply rank_le_score, Hbest).
  split.
  - destruct (lc_snapshot best) as [s|] eqn:Es; [|done]. destruct (Z.leb_spec (sv_orders s) 0); [done|].
    destruct rest as [|second rest'].
    + intros [= <-]. exists best. split; [left|]. split; [done|]. split; [eauto|].
      intros y Hy Hne. apply list_elem_of_singleton in Hy. done.
    + case_bool_decide as Heq; [done|]. intros [= <-]. exists best. split; [left|]. split; [done|]. split; [eauto|].
      assert (Hsec : score_lt (_score second) (_score best) = true).
      { specialize (Hle second ltac:(left)). apply score_le_iff in Hle as [?|?]; done. }
      apply StronglySorted_cons in Hrest as [Hafter _]. rewrite Forall_forall in Hafter.
      intros y Hy Hne. apply elem_of_cons in Hy as [->|[->|Hy]%elem_of_cons]; [done|done|].
      destruct (score_lt_total (_score y) (_score best)) as [?|[E|?]]; [done|..].
      * exfalso. pose proof (rank_le_score _ _ (Hafter y Hy)) as Hys. rewrite E in Hys.
        rewrite (score_lt_le _ _ Hsec) in Hys. done.
      * exfalso. pose proof (Hle y ltac:(by right)) as Hyb. by rewrite (score_lt_le _ _ H0) in Hyb.
  - intros (x & Hx & <- & (s & Hsx & Hpos) & Hmax).
    assert (x = best) as ->.
    { destruct (decide (x = best)) as [|Hne]; [done|]. exfalso.
      pose proof (Hmax best ltac:(left) (not_eq_sym Hne)) as Hb. apply elem_of_cons in Hx as [->|Hx]; [done|].
      specialize (Hle x Hx). by rewrite (score_lt_le _ _ Hb) in Hle. }
    rewrite Hsx, (proj2 (Z.leb_gt _ _)) by done. destruct rest as [|second rest']; [done|].
    rewrite bool_decide_false; [done|]. intros E.
    assert (Hsec : score_lt (_score second) (_score best) = true).
    { apply Hmax; [right; left|]. intros ->. apply Hnotin. left. }
    rewrite E, score_lt_irrefl in Hsec. done.
Qed.

(** ** Decisions *)

Lemma elem_of_cohort ls shop x :
  x ∈ cohort ls shop ↔ x ∈ ls ∧ _in_percentile_cohort x = true ∧ lc_shop_id x = shop.
Proof. unfold cohort. rewrite list_elem_of_filter. naive_solver. Qed.

(** [x] is in the bottom pool of its shop's cohort: fewer members than the pool holds
    score no better than it does. *)
Definition culls (percent : Z) (ls : list ListingCandidate) (x : ListingCandidate) : Prop :=
  let c := cohort ls (lc_shop_id x) in
  x ∈ c ∧ (5 <= length c)%nat ∧ Z.of_nat (no_better c x) < Z.of_nat (length c) * percent / 100.

(** [x] has sold and strictly beats every other member of its shop's cohort. *)
Definition wins (ls : list ListingCandidate) (x : ListingCandidate) : Prop :=
  let c := cohort ls (lc_shop_id x) in
  x ∈ c ∧ (∃ s, lc_snapshot x = Some s ∧ 0 < sv_orders s) ∧
  ∀ y, y ∈ c → y ≠ x → score_lt (_score y) (_score x) = true.

Lemma cull_ids_spec ls txt culled :
  _cull_ids ls txt = Ok culled → ∃ percent, py_int txt = Ok percent ∧
  (∀ i, i ∈ culled ↔ ∃ x, lc_listing_id x = i ∧ culls percent ls x) ∧
  ∀ shop, let c := cohort ls shop in
    (5 <= length c)%nat → Z.of_nat (length c) * percent / 100 <= Z.of_nat (length c).
Proof.
  unfold _cull_ids. intros H. apply rbind_ok in H as (percent & Hp & H).
  apply rbind_ok in H as (chosen & Hc & H). injection H as <-. exists percent. split; [done|].
  apply traverse_Forall2 in Hc. split.
  - intros i. rewrite elem_of_list_to_set, list_elem_of_join. split.
    + intros (ids & Hi & Hin). apply list_elem_of_lookup_1 in Hin as [k Hk].
      destruct (Forall2_lookup_r _ _ _ _ _ Hc Hk) as ([shop g] & Hg & Hids).
      apply list_elem_of_lookup_2, elem_of_grouped in Hg as [_ ->].
      apply group_culled_spec in Hids as [Hids _]. apply Hids in Hi as (x & Hx & <- & Hl & Hlt). cbn [snd] in *.
      exists x. split; [done|]. unfold culls. pose proof Hx as (_ & _ & ->)%elem_of_cohort. done.
    + intros (x & <- & Hx & Hl & Hlt). set (c := cohort ls (lc_shop_id x)) in *.
      assert (Hg : (lc_shop_id x, c) ∈ grouped ls) by (apply elem_of_grouped; split; [by intros E; rewrite E in Hx; apply elem_of_nil in Hx|done]).
      apply list_elem_of_lookup_1 in Hg as [k Hk].
      destruct (Forall2_lookup_l _ _ _ _ _ Hc Hk) as (ids & Hids & Hcull). exists ids.
      split; [|by eapply list_elem_of_lookup_2]. apply group_culled_spec in Hcull as [Hcull _]. apply Hcull. eauto.
  - cbv zeta. intros shop Hl. set (c := cohort ls shop) in *. destruct (decide (c = [])) as [E|Hne]; [rewrite E in Hl; simpl in Hl; lia|].
    assert (Hg : (shop, c) ∈ grouped ls) by (by apply elem_of_grouped).
    apply list_elem_of_lookup_1 in Hg as [k Hk]. destruct (Forall2_lookup_l _ _ _ _ _ Hc Hk) as (ids & _ & Hcull).
    apply group_culled_spec in Hcull as [_ Hcull]. by apply Hcull.
Qed.

Lemma cohort_snapshot ls shop x : x ∈ cohort ls shop → is_Some (lc_snapshot x).
Proof.
  intros (_ & Hc & _)%elem_of_cohort. unfold _in_percentile_cohort in Hc. by destruct (lc_snapshot x).
Qed.

Lemma multiply_ids_spec ls culled i :
  NoDup ls → i ∈ _multiply_ids ls culled ↔ i ∉ culled ∧ ∃ x, lc_listing_id x = i ∧ wins ls x.
Proof.
  intros Hnd. unfold _multiply_ids. rewrite elem_of_list_to_set, list_elem_of_omap.
  assert (Hc : ∀ shop, NoDup (cohort ls shop)) by (intros; by apply NoDup_filter).
  split.
  - intros ([shop g] & Hg & Hw). apply elem_of_grouped in Hg as [_ ->]. cbn [snd] in Hw.
    destruct (_unique_winner _) as [w|] eqn:E; [|done].
    destruct (decide (w ∈ culled)) as [|Hn]; [done|]. injection Hw as ->. split; [done|].
    apply unique_winner_spec in E as (x & Hx & Hi & Hs & Hmax); [|done|intros y; apply cohort_snapshot].
    exists x. split; [done|]. unfold wins. pose proof Hx as (_ & _ & ->)%elem_of_cohort. done.
  - intros (Hn & x & Hi & Hx & Hs & Hmax). exists (lc_shop_id x, cohort ls (lc_shop_id x)). split.
    + apply elem_of_grouped. split; [|done]. intros E. rewrite E in Hx. by apply elem_of_nil in Hx.
    + cbn [snd]. rewrite (proj2 (unique_winner_spec _ i (Hc _) (λ y, cohort_snapshot ls _ y))); [|by exists x].
      by rewrite decide_False.
Qed.

(** A winner is never in the bottom pool. *)
Lemma wins_not_culls ls percent x :
  (∀ shop, let c := cohort ls shop in
    (5 <= length c)%nat → Z.of_nat (length c) * percent / 100 <= Z.of_nat (length c)) →
  wins ls x → ¬ culls percent ls x.
Proof.
  intros Hpool (Hx & _ & Hmax) (_ & Hl & Hlt). specialize (Hpool (lc_shop_id x) Hl). cbv zeta in Hpool.
  unfold no_better in Hlt. rewrite filter_all in Hlt; [lia|].
  intros y Hy. apply score_le_iff. destruct (decide (y = x)) as [->|Hne]; [by right|left; auto].
Qed.

Lemma build_fields l s d t r :
  _build l s d t = Ok r →
  pr_listing_id r = lc_listing_id l ∧ pr_decision r = d ∧ pr_snapshot_id r = sv_snapshot_id s ∧
  pr_next_collection_at r = (if decide (d = HOLD) then Some (t + _COLLECTION_GAP) else None).
Proof.
  unfold _build. destruct d; [|by intros [= <-]..]. intros H. apply rbind_ok in H as (n & Hn & H).
  injection H as <-. unfold datetime_add in Hn. destruct (_ && _); [|done]. by injection Hn as <-.
Qed.

Lemma decide_listing_ok priors culled multiply t l o :
  decide_listing priors culled multiply t l = Ok o →
  match o with
  | Some r => ∃ s d, lc_snapshot l = Some s ∧ sv_reconciled s = true ∧
      _suppressed l (priors !! lc_listing_id l) t = false ∧ _classify l s culled multiply = Some d ∧
      _build l s d t = Ok r
  | None => ∀ s, lc_snapshot l = Some s → sv_reconciled s = true →
      _suppressed l (priors !! lc_listing_id l) t = false → _classify l s culled multiply = None
  end.
Proof.
  unfold decide_listing. destruct (lc_snapshot l) as [s|]; [|by intros [= <-]].
  destruct (sv_reconciled s) eqn:Hr; simpl; [|intros [= <-] ? [= <-]; congruence].
  destruct (_suppressed _ _ _) eqn:Hsup; [by intros [= <-] ? [= <-]|].
  destruct (_classify l s culled multiply) as [d|] eqn:Hd; [|by intros [= <-] ? [= <-]].
  intros H. apply rbind_ok in H as (r & Hb & H). injection H as <-. eauto 10.
Qed.

Lemma results_of (f : ListingCandidate → result exn (option PortfolioResult)) ls os :
  Forall2 (λ l o, f l = Ok o) ls os →
  ∀ r, r ∈ omap id os ↔ ∃ l, l ∈ ls ∧ f l = Ok (Some r).
Proof.
  intros Hf r. rewrite list_elem_of_omap. split.
  - intros (o & Ho & Hr). apply list_elem_of_lookup_1 in Ho as [k Hk].
    destruct (Forall2_lookup_r _ _ _ _ _ Hf Hk) as (l & Hl & Hfl). exists l.
    split; [by eapply list_elem_of_lookup_2|]. simpl in Hr. by subst.
  - intros (l & Hl & Hr). apply list_elem_of_lookup_1 in Hl as [k Hk].
    destruct (Forall2_lookup_l _ _ _ _ _ Hf Hk) as (o & Ho & Hfl). exists o.
    split; [by eapply list_elem_of_lookup_2|]. simpl. congruence.
Qed.

(** The results give listing [l] the decision [d]. *)
Definition decided (rs : list PortfolioResult) (l : ListingCandidate) (d : DecisionType) : Prop :=
  ∃ r, r ∈ rs ∧ pr_listing_id r = lc_listing_id l ∧ pr_decision r = d.

Definition by_listing (priors : list PortfolioResult) : gmap uuid PortfolioResult :=
  foldl (λ m r, <[pr_listing_id r := r]> m) ∅ priors.

Lemma evaluate_ok ls t priors txt rs :
  evaluate_portfolio ls (Aware t) priors txt = Ok rs ↔
  ∃ culled os, _cull_ids ls txt = Ok culled ∧
    Forall2 (λ l o, decide_listing (by_listing priors) culled (_multiply_ids ls culled) t l = Ok o) ls os ∧
    rs = omap id os.
Proof.
  unfold evaluate_portfolio, by_listing. split.
  - intros (culled & Hc & H)%rbind_ok. apply rbind_ok in H as (os & Ho & H). injection H as <-.
    apply traverse_Forall2 in Ho. by exists culled, os.
  - intros (culled & os & Hc & Hf & ->). apply rbind_ok. exists culled. split; [done|].
    apply rbind_ok. exists os. split; [by apply traverse_Forall2|done].
Qed.

Lemma same_listing ls x y :
  NoDup (lc_listing_id <$> ls) → x ∈ ls → y ∈ ls → lc_listing_id x = lc_listing_id y → x = y.
Proof.
  intros Hnd [i Hi]%list_elem_of_lookup_1 [j Hj]%list_elem_of_lookup_1 E.
  assert (i = j) as ->; [|congruence]. eapply (NoDup_lookup _ _ _ (lc_listing_id x)); [exact Hnd|..];
    rewrite list_lookup_fmap; [by rewrite Hi|by rewrite Hj, E].
Qed.

(** Each listing gives at most one result, under its own id. *)
Lemma results_nodup (f : ListingCandidate → result exn (option PortfolioResult)) ls os :
  (∀ l r, f l = Ok (Some r) → pr_listing_id r = lc_listing_id l) →
  NoDup (lc_listing_id <$> ls) → Forall2 (λ l o, f l = Ok o) ls os → NoDup (pr_listing_id <$> omap id os).
Proof.
  intros Hid Hnd Hf. induction Hf as [|l o ls os Ho Hf IH]; csimpl; [constructor|].
  apply NoDup_cons in Hnd as [Hl Hnd]. destruct o as [r|]; csimpl; [|by apply IH].
  constructor; [|by apply IH]. rewrite (Hid l r Ho). intros (r' & Hr & Hin)%list_elem_of_fmap.
  apply (results_of f ls os Hf) in Hin as (l' & Hl' & Hr'). apply Hl, list_elem_of_fmap.
  exists l'. split; [|done]. by rewrite Hr, (Hid l' r' Hr').
Qed.

(** The decision of one listing, when nothing was decided before. *)
Lemma decided_iff ls t txt rs culled l d :
  evaluate_portfolio ls (Aware t) [] txt = Ok rs → _cull_ids ls txt = Ok culled →
  NoDup (lc_listing_id <$> ls) → l ∈ ls →
  decided rs l d ↔ ∃ s, lc_snapshot l = Some s ∧ sv_reconciled s = true ∧
    _classify l s culled (_multiply_ids ls culled) = Some d.
Proof.
  intros H Hc Hnd Hl. apply evaluate_ok in H as (culled' & os & Hc' & Hf & ->).
  rewrite Hc in Hc'. injection Hc' as <-. unfold decided. setoid_rewrite (results_of _ _ _ Hf). split.
  - intros (r & (l' & Hl' & Hr) & Hid & Hd). apply decide_listing_ok in Hr as (s & d' & Hs & Hrec & _ & Hcl & Hb).
    apply build_fields in Hb as (Hid' & Hd' & _). assert (l' = l) as -> by (apply (same_listing ls); congruence).
    exists s. split; [done|]. split; [done|congruence].
  - intros (s & Hs & Hrec & Hcl). apply list_elem_of_lookup_1 in Hl as [k Hk].
    destruct (Forall2_lookup_l _ _ _ _ _ Hf Hk) as (o & _ & Ho). pose proof Ho as Ho'.
    apply decide_listing_ok in Ho'. destruct o as [r|].
    + destruct Ho' as (s' & d' & Hs' & _ & _ & Hcl' & Hb). apply build_fields in Hb as (Hid & Hd & _).
      exists r. split; [exists l; split; [by eapply list_elem_of_lookup_2|done]|]. split; [done|congruence].
    + specialize (Ho' s Hs Hrec). unfold by_listing in Ho'. simpl in Ho'. rewrite lookup_empty in Ho'.
      rewrite Ho' in Hcl; done.
Qed.

Lemma cohort_self ls l : l ∈ cohort ls (lc_shop_id l) ↔ l ∈ ls ∧ _in_percentile_cohort l = true.
Proof. rewrite elem_of_cohort. naive_solver. Qed.

Lemma in_cohort_iff l s : lc_snapshot l = Some s →
  _in_percentile_cohort l = true ↔ sv_reconciled s = true ∧ lc_in_window l = true ∧ lc_has_defect l = false ∧
    30 <= lc_live_days l ∧ ¬ (0 < sv_views s ∧ sv_orders s = 0).
Proof.
  intros Hs. unfold _in_percentile_cohort, _MATURITY_LIVE_DAYS. rewrite Hs.
  destruct (sv_reconciled s), (lc_in_window l), (lc_has_defect l); simpl; try naive_solver.
  destruct (Z.ltb_spec (lc_live_days l) 30); [split; [done|lia]|].
  rewrite negb_true_iff, andb_false_iff, Z.ltb_ge, Z.eqb_neq. intuition lia.
Qed.

(** Past the defect, age and never-bought tests. *)
Definition ranked (l : ListingCandidate) (s : SnapshotView) : Prop :=
  lc_has_defect l = false ∧ 30 <= lc_live_days l ∧ ¬ (0 < sv_views s ∧ sv_orders s = 0).

Lemma classify_iff l s culled multiply :
  (_classify l s culled multiply = Some REPAIR ↔
     lc_has_defect l = true ∨ 30 <= lc_live_days l ∧ 0 < sv_views s ∧ sv_orders s = 0) ∧
  (_classify l s culled multiply = Some CULL ↔ ranked l s ∧ lc_listing_id l ∈ culled) ∧
  (_classify l s culled multiply = Some MULTIPLY ↔
     ranked l s ∧ lc_listing_id l ∉ culled ∧ lc_listing_id l ∈ multiply) ∧
  (_classify l s culled multiply = Some HOLD ↔
     ranked l s ∧ lc_listing_id l ∉ culled ∧ lc_listing_id l ∉ multiply ∧ lc_in_window l = true).
Proof.
  unfold _classify, ranked, _MATURITY_LIVE_DAYS. destruct (lc_has_defect l); [intuition done|].
  destruct (Z.ltb_spec (lc_live_days l) 30); [intuition (done || lia)|].
  destruct (Z.ltb_spec 0 (sv_views s)), (Z.eqb_spec (sv_orders s) 0); simpl;
    [intuition (done || lia)|..].
  all: destruct (decide (lc_listing_id l ∈ culled)); [intuition (done || lia)|].
  all: destruct (decide (lc_listing_id l ∈ multiply)); [intuition (done || lia)|].
  all: destruct (lc_in_window l); intuition (done || lia).
Qed.

Lemma culls_in percent ls x : culls percent ls x → x ∈ ls.
Proof. by intros [(Hx & _)%elem_of_cohort _]. Qed.

Lemma wins_in ls x : wins ls x → x ∈ ls.
Proof. by intros [(Hx & _)%elem_of_cohort _]. Qed.

(** C25: what a portfolio evaluation decides.  With no earlier decisions, distinct listing
    ids and a percent that is a number, each listing gets at most one decision: REPAIR
    exactly for a reconciled listing with a defect, or a mature one that is seen and
    never bought; CULL exactly for the members of the bottom pool of a shop cohort of
    at least five; MULTIPLY exactly for the one member that has sold and beats every
    other of its cohort; HOLD exactly for the rest of the cohort. *)
Theorem portfolio_decisions ls t txt percent rs :
  NoDup (lc_listing_id <$> ls) → py_int txt = Ok percent →
  evaluate_portfolio ls (Aware t) [] txt = Ok rs →
  NoDup (pr_listing_id <$> rs) ∧ ∀ l, l ∈ ls →
  (decided rs l REPAIR ↔ ∃ s, lc_snapshot l = Some s ∧ sv_reconciled s = true ∧
     (lc_has_defect l = true ∨ 30 <= lc_live_days l ∧ 0 < sv_views s ∧ sv_orders s = 0)) ∧
  (decided rs l CULL ↔ culls percent ls l) ∧
  (decided rs l MULTIPLY ↔ wins ls l) ∧
  (decided rs l HOLD ↔ l ∈ cohort ls (lc_shop_id l) ∧ ¬ culls percent ls l ∧ ¬ wins ls l).
Proof.
  intros Hnd Hp H. pose proof H as (culled & os & Hc & Hf & Hrs)%evaluate_ok. split.
  { subst rs. eapply results_nodup; [|exact Hnd|exact Hf]. intros l r Hr.
    apply decide_listing_ok in Hr as (s & d & _ & _ & _ & _ & Hb). by apply build_fields in Hb as (? & _). }
  intros l Hl. pose proof (λ d, decided_iff ls t txt rs culled l d H Hc Hnd Hl) as Hdec.
  apply cull_ids_spec in Hc as (percent' & Hp' & Hcull & Hpool). rewrite Hp in Hp'. injection Hp' as <-.
  assert (Hcull_l : lc_listing_id l ∈ culled ↔ culls percent ls l).
  { rewrite Hcull. split; [|by exists l]. intros (x & E & Hx).
    assert (x = l) as <-; [|done]. apply (same_listing ls); [done|by eapply culls_in|done|done]. }
  assert (Hmul_l : lc_listing_id l ∈ _multiply_ids ls culled ↔ wins ls l).
  { rewrite multiply_ids_spec by (by eapply NoDup_fmap_1). split.
    - intros (_ & x & E & Hx). assert (x = l) as <-; [|done]. apply (same_listing ls); [done|by apply wins_in|done|done].
    - intros Hw. split; [|by exists l]. rewrite Hcull_l. by eapply wins_not_culls. }
  assert (Hself : ∀ s, lc_snapshot l = Some s → l ∈ cohort ls (lc_shop_id l) ↔ _in_percentile_cohort l = true)
    by (intros s Hs; rewrite cohort_self; naive_solver).
  assert (Hcw : culls percent ls l → l ∈ cohort ls (lc_shop_id l)) by (by intros [? _]).
  assert (Hww : wins ls l → l ∈ cohort ls (lc_shop_id l)) by (by intros [? _]).
  pose proof (wins_not_culls ls percent l Hpool) as Hexcl.
  rewrite !Hdec. clear Hdec Hf Hrs H. destruct (lc_snapshot l) as [s|] eqn:Hs.
  2: { assert (Hno : l ∉ cohort ls (lc_shop_id l)) by (intros [? ?]%cohort_snapshot; congruence). naive_solver. }
  specialize (Hself s eq_refl). rewrite (in_cohort_iff l s Hs) in Hself.
  assert (Hex : ∀ P : SnapshotView → Prop, (∃ s', Some s = Some s' ∧ P s') ↔ P s)
    by (intros P; split; [by intros (s' & [= <-] & HP)|eauto]).
  destruct (classify_iff l s culled (_multiply_ids ls culled)) as (Hr & Hcu & Hm & Hh).
  rewrite !Hex, Hr, Hcu, Hm, Hh, Hcull_l, Hmul_l. clear Hr Hcu Hm Hh Hex Hcull_l Hmul_l Hcull Hpool.
  unfold ranked in *. tauto.
Qed.

(** ** Re-evaluation *)

Lemma by_listing_fold rs (m : gmap uuid PortfolioResult) i :
  NoDup (pr_listing_id <$> rs) →
  foldl (λ m r, <[pr_listing_id r := r]> m) m rs !! i =
    match list_find (λ r, pr_listing_id r = i) rs with Some (_, r) => Some r | None => m !! i end.
Proof.
  revert m. induction rs as [|r rs IH]; intros m Hnd; [done|].
  csimpl in *. apply NoDup_cons in Hnd as [Hr Hnd]. rewrite (IH _ Hnd). case_decide as Hi.
  - subst i. rewrite (proj2 (list_find_None _ _)); [by rewrite lookup_insert_eq|].
    apply Forall_forall. intros r' Hr' E. apply Hr. rewrite <- E. by apply list_elem_of_fmap_2.
  - rewrite lookup_insert_ne by done. by destruct (list_find _ rs) as [[k r']|].
Qed.

(** A listing's prior is its result, when ids are distinct. *)
Lemma by_listing_spec rs i r :
  NoDup (pr_listing_id <$> rs) → by_listing rs !! i = Some r ↔ r ∈ rs ∧ pr_listing_id r = i.
Proof.
  intros Hnd. unfold by_listing. rewrite by_listing_fold by done.
  destruct (list_find _ rs) as [[k r']|] eqn:E.
  - apply list_find_Some in E as (Hk & Hi & _). split.
    + intros [= ->]. split; [by eapply list_elem_of_lookup_2|done].
    + intros [[k' Hk']%list_elem_of_lookup_1 Hi']. f_equal.
      assert (k = k') as ->; [|congruence]. eapply (NoDup_lookup _ _ _ i); [exact Hnd|..];
        rewrite list_lookup_fmap; [by rewrite Hk; simpl; rewrite Hi|by rewrite Hk'; simpl; rewrite Hi'].
  - rewrite lookup_empty. split; [done|]. intros [Hr Hi]. apply list_find_None in E.
    rewrite Forall_forall in E. by destruct (E r Hr).
Qed.

(** CULL and MULTIPLY decisions are not suppressed by earlier ones. *)
Definition repeated (r : PortfolioResult) : Prop := pr_decision r = CULL ∨ pr_decision r = MULTIPLY.

#[export] Instance repeated_dec r : Decision (repeated r).
Proof. unfold repeated. apply _. Defined.

Lemma suppressed_own l s d t r :
  lc_snapshot l = Some s → _build l s d t = Ok r → _suppressed l (Some r) t = false ↔ repeated r.
Proof.
  intros Hs Hb. apply build_fields in Hb as (_ & Hd & Hsnap & Hnext). unfold _suppressed, repeated.
  rewrite Hd, Hs, Hsnap, Hnext. destruct d; simpl.
  - unfold _COLLECTION_GAP, day_us. rewrite (proj2 (Z.ltb_lt _ _)) by lia. split; [done|]. by intros [?|?].
  - rewrite bool_decide_true by done. split; [done|]. by intros [?|?].
  - split; auto.
  - split; auto.
Qed.

(** Evaluating again is safe.  An evaluation at the same time that is given its own
    results as priors decides nothing new: held and repaired listings get no second
    decision, and the cull and multiply decisions come out identical, with the same
    derived job, spec and workflow ids. *)
Theorem portfolio_reevaluation ls t txt rs :
  NoDup (lc_listing_id <$> ls) → evaluate_portfolio ls (Aware t) [] txt = Ok rs →
  evaluate_portfolio ls (Aware t) rs txt = Ok (filter repeated rs).
Proof.
  intros Hnd H. apply evaluate_ok in H as (culled & os & Hc & Hf & Hrs). apply evaluate_ok.
  set (multiply := _multiply_ids ls culled) in *.
  assert (Hid : ∀ l r, decide_listing (by_listing []) culled multiply t l = Ok (Some r) →
    pr_listing_id r = lc_listing_id l).
  { intros l r Hr. apply decide_listing_ok in Hr as (s & d & _ & _ & _ & _ & Hb). by apply build_fields in Hb as (? & _). }
  assert (Hrnd : NoDup (pr_listing_id <$> rs)) by (subst rs; by eapply results_nodup).
  set (again := λ o : option PortfolioResult, r ← o; if decide (repeated r) then Some r else None).
  exists culled, (again <$> os). split; [done|]. split.
  2: { subst rs. clear. induction os as [|[r|] os IH]; csimpl; [done|..|by rewrite IH].
    rewrite filter_cons, IH. by case_decide. }
  fold multiply. apply Forall2_fmap_r. apply Forall2_same_length_lookup in Hf as [Hlen Hf].
  apply Forall2_same_length_lookup. split; [done|]. intros i l o Hl Ho. pose proof (Hf i l o Hl Ho) as Hlo.
  apply list_elem_of_lookup_2 in Hl, Ho. pose proof Hlo as Hok. apply decide_listing_ok in Hok.
  unfold decide_listing in *. destruct (lc_snapshot l) as [s|] eqn:Hs; [|by injection Hlo as <-].
  destruct (sv_reconciled s) eqn:Hrec; simpl in *; [|by injection Hlo as <-].
  unfold by_listing at 1 in Hlo. simpl in Hlo. rewrite lookup_empty in Hlo. cbn [_suppressed] in Hlo.
  destruct (_classify l s culled multiply) as [d|] eqn:Hd; cycle 1.
  { injection Hlo as <-. by destruct (_suppressed l (by_listing rs !! lc_listing_id l) t). }
  apply rbind_ok in Hlo as (r & Hb & Hr). injection Hr as <-.
  assert (Hprior : by_listing rs !! lc_listing_id l = Some r).
  { apply by_listing_spec; [done|]. split; [|by apply build_fields in Hb as (? & _)].
    subst rs. apply list_elem_of_omap. by exists (Some r). }
  rewrite Hprior. pose proof (suppressed_own l s d t r Hs Hb) as Hsup. unfold again. cbn [mbind option_bind].
  case_decide as Hrep.
  - rewrite (proj2 Hsup Hrep), Hb. done.
  - destruct (_suppressed l (Some r) t); [done|]. exfalso. by apply Hrep, Hsup.
Qed.

(** ** The slot *)

(** The outcome of an experiment that does not get the slot. *)
Definition passed_over (x : QueuedExperiment) : ExperimentOutcome :=
  {| eo_experiment_id := qe_experiment_id x; eo_state := qe_state x; eo_delivered := false |}.

Lemma slot_taken w xs i out :
  foldl (schedule_one w) ([i], out) xs = ([i], (out ++ (passed_over <$> xs))%list).
Proof.
  revert out. induction xs as [|x xs IH]; intros out; csimpl; [by rewrite app_nil_r|].
  rewrite andb_false_r, IH. by rewrite <- app_assoc.
Qed.

(** The outcomes with the slot given to the first eligible experiment. *)
Fixpoint slot_outcomes (w : uuid) (xs : list QueuedExperiment) : list ExperimentOutcome :=
  match xs with
  | [] => []
  | x :: xs =>
      if _eligible_experiment x w
      then {| eo_experiment_id := qe_experiment_id x; eo_state := "SCHEDULED"; eo_delivered := true |}
             :: (passed_over <$> xs)
      else passed_over x :: slot_outcomes w xs
  end.

Lemma slot_open w xs out :
  foldl (schedule_one w) ([], out) xs =
    (option_list (qe_experiment_id ∘ snd <$> list_find (λ x, _eligible_experiment x w = true) xs),
     (out ++ slot_outcomes w xs)%list).
Proof.
  revert out. induction xs as [|x xs IH]; intros out; csimpl; [by rewrite app_nil_r|].
  rewrite andb_true_r. destruct (_eligible_experiment x w) eqn:He; csimpl.
  - rewrite slot_taken, <- app_assoc. done.
  - rewrite IH, <- app_assoc. by destruct (list_find _ xs) as [[k y]|].
Qed.

(** The slot goes to the first eligible experiment only; every other experiment keeps
    its state; publications are withheld while publishing is disabled. *)
Lemma schedule_new_front_spec b :
  let w := eb_winner_product_id b in
  let first := list_find (λ x, _eligible_experiment x w = true) (eb_experiments b) in
  let ids := option_list (qe_experiment_id ∘ snd <$> first) in
  schedule_new_front b =
    {| sl_scheduled_experiment_ids := ids; sl_outcomes := slot_outcomes w (eb_experiments b);
       sl_publication_ids := if eb_publishing_enabled b then (λ e, _derive "publication" [e]) <$> ids else [];
       sl_delivered_experiment_ids := ids |}.
Proof. cbv zeta. unfold schedule_new_front. by rewrite slot_open. Qed.

(** ** Samples *)

Definition sample_listing (i : uuid) (orders : Z) : ListingCandidate :=
  {| lc_listing_id := i; lc_product_id := i; lc_spec_id := i; lc_workflow_id := 100; lc_shop_id := 1;
     lc_live_days := 40; lc_in_window := true; lc_has_defect := false;
     lc_snapshot := Some {| sv_snapshot_id := 500; sv_views := 100; sv_favourites := 0;
                            sv_orders := orders; sv_gross_revenue := 10 * orders; sv_reconciled := true |} |}.

(** Five listings of one shop that sold 1 to 5, one that never sold, and one too young. *)
Definition sample_listings : list ListingCandidate :=
  [sample_listing 11 3; sample_listing 12 1; sample_listing 13 5; sample_listing 14 2; sample_listing 15 4;
   sample_listing 16 0].

Definition sample_results : list PortfolioResult :=
  match evaluate_portfolio sample_listings (Aware 0) [] "60" with Ok rs => rs | Raise _ => [] end.

Lemma sample_results_ok : evaluate_portfolio sample_listings (Aware 0) [] "60" = Ok sample_results.
Proof. vm_compute. reflexivity. Qed.

Lemma sample_listings_nodup : NoDup (lc_listing_id <$> sample_listings).
Proof. by apply (bool_decide_unpack (NoDup (lc_listing_id <$> sample_listings))). Qed.

Example sample_decisions :
  (λ r, (pr_listing_id r, pr_decision r)) <$> sample_results =
  [(11%N, HOLD); (12%N, CULL); (13%N, MULTIPLY); (14%N, CULL); (15%N, HOLD); (16%N, REPAIR)].
Proof. vm_compute. reflexivity. Qed.

(** A percentage over a hundred asks for more listings than the shop has. *)
Lemma percent_over_hundred :
  evaluate_portfolio sample_listings (Aware 0) [] "120" = Raise (Exn IndexError "list index out of range").
Proof. vm_compute. reflexivity. Qed.

Lemma portfolio_decisions_witness :
  decided sample_results (sample_listing 13 5) MULTIPLY ∧ wins sample_listings (sample_listing 13 5) ∧
  ¬ culls 60 sample_listings (sample_listing 15 4).
Proof.
  assert (Hp : py_int "60" = Ok 60) by (vm_compute; reflexivity).
  pose proof (proj2 (portfolio_decisions sample_listings 0 "60" 60 sample_results
    sample_listings_nodup Hp sample_results_ok)) as Hall.
  assert (H13 : sample_listing 13 5 ∈ sample_listings) by (apply (list_elem_of_lookup_2 _ 2%nat); reflexivity).
  assert (H15 : sample_listing 15 4 ∈ sample_listings) by (apply (list_elem_of_lookup_2 _ 4%nat); reflexivity).
  assert (Hd : decided sample_results (sample_listing 13 5) MULTIPLY).
  { destruct (sample_results !! 2%nat) as [r|] eqn:E; [|vm_compute in E; discriminate E].
    exists r. split; [apply (list_elem_of_lookup_2 _ 2%nat); exact E|].
    vm_compute in E. injection E as <-. split; reflexivity. }
  assert (Hh : decided sample_results (sample_listing 15 4) HOLD).
  { destruct (sample_results !! 4%nat) as [r|] eqn:E; [|vm_compute in E; discriminate E].
    exists r. split; [apply (list_elem_of_lookup_2 _ 4%nat); exact E|].
    vm_compute in E. injection E as <-. split; reflexivity. }
  split; [exact Hd|]. split.
  - apply (proj1 (proj1 (proj2 (proj2 (Hall _ H13))))). exact Hd.
  - apply (proj2 (proj2 (proj2 (Hall _ H15)))). exact Hh.
Defined.

Lemma portfolio_reevaluation_witness :
  evaluate_portfolio sample_listings (Aware 0) sample_results "60" = Ok (filter repeated sample_results) ∧
  pr_listing_id <$> filter repeated sample_results = [12%N; 13%N; 14%N].
Proof.
  split; [|vm_compute; reflexivity].
  apply (portfolio_reevaluation sample_listings 0 "60" sample_results);
    [exact sample_listings_nodup|exact sample_results_ok].
Defined.
