(* ===== verification/MetricsPlan.v ===== *)
(** * Metrics fixture and loop plans

    [assets/metrics_fixture.py]: an injected row becomes one metrics snapshot per listing
    version and window, and a window yields a weekly plan, a monthly plan and milestones.

    A row is a mapping with distinct string keys whose values may have any type. *)

From Stdlib Require Import QArith.
From S2P Require Import Prelude PyText PyTime Enums Errors Tables Contracts PyDict.
Open Scope string_scope.
Open Scope Z_scope.

Definition _ROW_FIELDS : list string :=
  ["snapshot_id"; "listing_id"; "listing_version"; "provider"; "observed_at"; "views"; "favourites";
   "orders"; "gross_revenue"; "currency"; "reconciled"; "window_start"; "window_end"; "evidence"].

Definition _CUMULATIVE_FIELDS : list string :=
  ["cumulative_views"; "cumulative_favourites"; "cumulative_orders"; "cumulative_sales"].

Definition _CULL_OPERATION := "CULL".
Definition _MONTHLY_CADENCE := "monthly".
Definition _MONTHLY_JOBS : list (string * string) :=
  [("ResearchCollectionJob", "research"); ("BuildSlotJob", "build-slot"); ("ScaleEvaluationJob", "scale")].

Definition fixture_refusal {A} (code : string) : result exn A := Raise (Exn MetricsFixtureRefusal code).

Definition fixture_refuse_if (c : bool) (code : string) : result exn unit :=
  if c then fixture_refusal code else Ok tt.

(** The values of a row; a [Decimal] may be infinite or not a number. *)
Inductive row_value : Type :=
  | VStr (s : string)
  | VInt (z : Z)
  | VBool (b : bool)
  | VMoment (m : moment)
  | VUuid (u : uuid)
  | VDecimal (q : option Q)
  | VEvidence (e : EvidenceReference)
  | VOther.

Record FixtureObservation := {
  fo_window_start : datetime;
  fo_window_end : datetime;
  fo_snapshot : MetricsSnapshot;
}.

Record CumulativeTotals := {
  ct_views : Z;
  ct_orders : Z;
}.

Record ActiveListing := {
  al_listing_id : uuid;
  al_listing_version : Z;
  al_active : bool;
}.

Record CollectionRecord := {
  cr_kind : string;
  cr_window_start : datetime;
  cr_window_end : datetime;
  cr_listing_id : option uuid;
  cr_listing_version : option Z;
}.

Record WeeklyPlan := {
  wp_records : list CollectionRecord;
  wp_prior_snapshots : list MetricsSnapshot;
}.

Record PlannedJob := {
  pj_job_type : string;
  pj_role : string;
  pj_shop_id : uuid;
  pj_window_start : datetime;
  pj_window_end : datetime;
  pj_admitted_event : EventName.EventName;
}.

Record MonthlyRecord := {
  mo_cadence : string;
  mo_window_start : datetime;
  mo_window_end : datetime;
  mo_jobs : list PlannedJob;
}.

Record MilestoneInput := {
  mi_effects : list EffectReference;
  mi_successor_spec_id : option uuid;
  mi_measured : bool;
  mi_operator_minutes : option Z;
}.

Record MilestoneReport := {
  mr_first_cull : option EffectReference;
  mr_first_multiplied_winner : option uuid;
  mr_operator_minutes : option Z;
}.

(** ** Rows *)

Definition row_item (k : string) (row : list (string * row_value)) : result exn row_value :=
  match dict_get k row with
  | Some v => Ok v
  | None => Raise (Exn KeyError (str_repr k))
  end.

Definition _window (start end_ : datetime) : result exn (datetime * datetime) :=
  do? fixture_refuse_if (end_ <=? start) "window";
  Ok (start, end_).

Definition _moment (value : row_value) (code : string) : result exn datetime :=
  match value with
  | VMoment (Aware t) => Ok t
  | _ => fixture_refusal code
  end.

Definition _uuid (value : row_value) (code : string) : result exn uuid :=
  match value with
  | VUuid u => Ok u
  | _ => fixture_refusal code
  end.

Definition _text (value : row_value) (code : string) : result exn string :=
  match value with
  | VStr s => Ok s
  | _ => fixture_refusal code
  end.

Definition _count (value : row_value) (code : string) : result exn Z :=
  match value with
  | VInt z => Ok z
  | _ => fixture_refusal code
  end.

Definition _flag (value : row_value) (code : string) : result exn bool :=
  match value with
  | VBool b => Ok b
  | _ => fixture_refusal code
  end.

Definition _money (value : row_value) : result exn (option Q) :=
  match value with
  | VDecimal q => Ok q
  | _ => fixture_refusal "gross_revenue"
  end.

(** [^\[A-Z\]{3}$] *)
Fixpoint upper_letters (s : string) : bool :=
  match s with
  | EmptyString => true
  | String c s => ((65 <=? Ascii.N_of_ascii c) && (Ascii.N_of_ascii c <=? 90))%N && upper_letters s
  end.

Definition currency_code (s : string) : bool := (String.length s =? 3)%nat && upper_letters s.

(** The field constraints of [MetricsSnapshot]; any of them raises. *)
Definition build_snapshot (snapshot_id listing_id : uuid) (listing_version : Z) (provider : string)
    (observed_at : datetime) (views favourites orders : Z) (gross_revenue : option Q) (currency : string)
    (reconciled : bool) (source_evidence : list EvidenceReference) : result exn MetricsSnapshot :=
  let? provider := non_empty_str "MetricsSnapshot" provider in
  match gross_revenue with
  | Some gross_revenue =>
      if (0 <? listing_version) && (0 <=? views) && (0 <=? favourites) && (0 <=? orders) &&
         Qle_bool 0 gross_revenue && currency_code currency && (0 <? length source_evidence)%nat
      then Ok {| ms_snapshot_id := snapshot_id; ms_listing_id := listing_id;
                 ms_listing_version := listing_version; ms_provider := provider;
                 ms_observed_at := observed_at; ms_views := views; ms_favourites := favourites;
                 ms_orders := orders; ms_gross_revenue := gross_revenue; ms_currency := currency;
                 ms_reconciled := reconciled; ms_source_evidence := source_evidence |}
      else validation_error "MetricsSnapshot"
  | None => validation_error "MetricsSnapshot"
  end.

Definition _observation (row : list (string * row_value)) : result exn FixtureObservation :=
  let extra := filter (λ k, k ∉ _ROW_FIELDS) row.*1 in
  do? fixture_refuse_if (bool_decide (Exists (λ k, k ∈ _CUMULATIVE_FIELDS) extra)) "cumulative_not_writable";
  do? fixture_refuse_if (negb (bool_decide (extra = []))) "extra_provider_stat";
  do? fixture_refuse_if (negb (bool_decide (filter (λ k, k ∉ row.*1) _ROW_FIELDS = []))) "missing_field";
  let? window_start := rbind (row_item "window_start" row) (λ v, _moment v "window") in
  let? window_end := rbind (row_item "window_end" row) (λ v, _moment v "window") in
  let? window := _window window_start window_end in
  let? evidence := row_item "evidence" row in
  match evidence with
  | VEvidence evidence =>
      let? snapshot_id := rbind (row_item "snapshot_id" row) (λ v, _uuid v "snapshot_id") in
      let? listing_id := rbind (row_item "listing_id" row) (λ v, _uuid v "listing_id") in
      let? listing_version := rbind (row_item "listing_version" row) (λ v, _count v "listing_version") in
      let? provider := rbind (row_item "provider" row) (λ v, _text v "provider") in
      let? observed_at := rbind (row_item "observed_at" row) (λ v, _moment v "observed_at") in
      let? views := rbind (row_item "views" row) (λ v, _count v "views") in
      let? favourites := rbind (row_item "favourites" row) (λ v, _count v "favourites") in
      let? orders := rbind (row_item "orders" row) (λ v, _count v "orders") in
      let? gross_revenue := rbind (row_item "gross_revenue" row) _money in
      let? currency := rbind (row_item "currency" row) (λ v, _text v "currency") in
      let? reconciled := rbind (row_item "reconciled" row) (λ v, _flag v "reconciled") in
      let? snapshot := build_snapshot snapshot_id listing_id listing_version provider observed_at views
        favourites orders gross_revenue currency reconciled [evidence] in
      Ok {| fo_window_start := window.1; fo_window_end := window.2; fo_snapshot := snapshot |}
  | _ => fixture_refusal "evidence"
  end.

Definition WindowKey : Type := uuid * Z * datetime * datetime.

Definition window_key (o : FixtureObservation) : WindowKey :=
  (ms_listing_id (fo_snapshot o), ms_listing_version (fo_snapshot o), fo_window_start o, fo_window_end o).

(** The loop over the rows; [seen] and [loaded] are its variables. *)
Fixpoint load_rows (rows : list (list (string * row_value))) (seen : list WindowKey)
    (loaded : list FixtureObservation) : result exn (list FixtureObservation) :=
  match rows with
  | [] => Ok loaded
  | row :: rows =>
      let? observation := _observation row in
      if decide (window_key observation ∈ seen) then fixture_refusal "duplicate_listing_window"
      else load_rows rows (window_key observation :: seen) (loaded ++ [observation])%list
  end.

Definition snapshots_from_fixture (rows : list (list (string * row_value))) : result exn (list FixtureObservation) :=
  load_rows rows [] [].

Definition sum_of (l : list Z) : Z := foldl Z.add 0 l.

Definition cumulative_totals (snapshots : list MetricsSnapshot) : CumulativeTotals :=
  {| ct_views := sum_of (ms_views <$> snapshots); ct_orders := sum_of (ms_orders <$> snapshots) |}.

(** ** Plans *)

Definition plan_weekly (listings : list ActiveListing) (window_start window_end : datetime)
    (prior_snapshots : list MetricsSnapshot) (existing_records : list CollectionRecord) : result exn WeeklyPlan :=
  let? window := _window window_start window_end in
  if bool_decide (Exists (λ r, cr_window_start r = window.1 ∧ cr_window_end r = window.2) existing_records)
  then Ok {| wp_records := []; wp_prior_snapshots := prior_snapshots |}
  else
    let records := (λ l, {| cr_kind := "collection"; cr_window_start := window.1; cr_window_end := window.2;
                            cr_listing_id := Some (al_listing_id l);
                            cr_listing_version := Some (al_listing_version l) |}) <$>
                   filter (λ l, al_active l = true) listings in
    Ok {| wp_records := (records ++ [{| cr_kind := "shop_review"; cr_window_start := window.1;
                                        cr_window_end := window.2; cr_listing_id := None;
                                        cr_listing_version := None |}])%list;
          wp_prior_snapshots := prior_snapshots |}.

Definition plan_monthly (cadence : string) (weekly_fire_count : Z) (month_due : bool)
    (window_start window_end : datetime) (shop_id : uuid) : result exn (option MonthlyRecord) :=
  do? fixture_refuse_if (weekly_fire_count <? 0) "weekly_fire_count";
  do? fixture_refuse_if (negb (bool_decide (cadence = _MONTHLY_CADENCE))) "cadence";
  if negb month_due then Ok None
  else
    let? window := _window window_start window_end in
    Ok (Some {| mo_cadence := _MONTHLY_CADENCE; mo_window_start := window.1; mo_window_end := window.2;
                mo_jobs := (λ jr, {| pj_job_type := jr.1; pj_role := jr.2; pj_shop_id := shop_id;
                                     pj_window_start := window.1; pj_window_end := window.2;
                                     pj_admitted_event := EventName.MONTHLY_REVIEW_COMPLETED |}) <$> _MONTHLY_JOBS |}).

Definition derive_milestones (fixture : MilestoneInput) : result exn MilestoneReport :=
  let? minutes :=
    (if mi_measured fixture then
       match mi_operator_minutes fixture with
       | Some minutes => if minutes <? 0 then fixture_refusal "operator_minutes" else Ok (Some minutes)
       | None => fixture_refusal "operator_minutes"
       end
     else if given (mi_operator_minutes fixture) then fixture_refusal "unmeasured_operator_minutes"
     else Ok None) in
  Ok {| mr_first_cull := head (filter (λ effect, ef_operation effect = _CULL_OPERATION ∧
                                                 ef_effect_state effect = EffectState.CONFIRMED) (mi_effects fixture));
        mr_first_multiplied_winner := mi_successor_spec_id fixture;
        mr_operator_minutes := minutes |}.

(** ** Facts *)

Local Open Scope list_scope.

Lemma load_rows_iff rows seen loaded r :
  load_rows rows seen loaded = Ok r ↔
  ∃ obs, traverse _observation rows = Ok obs ∧ r = (loaded ++ obs)%list ∧
    NoDup (window_key <$> obs) ∧ ∀ o, o ∈ obs → window_key o ∉ seen.
Proof.
  revert seen loaded. induction rows as [|row rows IH]; intros seen loaded; simpl.
  - split.
    + intros [= <-]. exists []. rewrite app_nil_r. split_and!; [done..|constructor|by intros o ?%elem_of_nil].
    + intros (obs & [= <-] & -> & _). by rewrite app_nil_r.
  - destruct (_observation row) as [o|e]; simpl; [|split; [done|by intros (? & ? & _)]].
    case_decide as Hin.
    + split; [done|]. intros (obs & (os & Ho & [= <-])%rbind_ok & _ & _ & Hs). exfalso.
      apply (Hs o); [by left|done].
    + rewrite IH. split.
      * intros (obs & Ht & -> & Hnd & Hs). exists (o :: obs). rewrite Ht. simpl.
        split_and!; [done|by rewrite <- app_assoc| |].
        -- constructor; [|done]. intros (o' & Heq & Ho')%list_elem_of_fmap. apply (Hs o' Ho'). rewrite Heq. by left.
        -- intros o' [->|Ho']%elem_of_cons; [done|]. intros Hs'. apply (Hs o' Ho'). by right.
      * intros (obs & (os & Ho & [= <-])%rbind_ok & -> & [Hk Hnd]%NoDup_cons & Hs). exists os.
        split_and!; [done|by rewrite <- app_assoc|done|].
        intros o' Ho' [Heq|Hs']%elem_of_cons; [|by apply (Hs o'); [right|]].
        apply Hk. rewrite <- Heq. by apply list_elem_of_fmap_2.
Qed.

(** A fixture is read when every row is, and no listing version has a window twice; the
    observations are in row order and each window is proper. *)
Theorem fixture_is_read_once rows obs :
  snapshots_from_fixture rows = Ok obs ↔
  Forall2 (λ row o, _observation row = Ok o) rows obs ∧ NoDup (window_key <$> obs).
Proof.
  unfold snapshots_from_fixture. rewrite load_rows_iff, <- traverse_Forall2. split.
  - intros (o & Ht & -> & Hnd & _). done.
  - intros [Ht Hnd]. exists obs. split_and!; [done..|]. by intros o _ ?%elem_of_nil.
Qed.

Lemma fixture_refuse_if_ok c code u : fixture_refuse_if c code = Ok u ↔ c = false.
Proof. unfold fixture_refuse_if, fixture_refusal. destruct c, u; naive_solver. Qed.

Lemma filter_out_nil {A} `{!EqDecision A} (l m : list A) : filter (λ k, k ∉ m) l = [] → ∀ k, k ∈ l → k ∈ m.
Proof.
  intros Hnil k Hk. destruct (decide (k ∈ m)) as [|Hn]; [done|exfalso].
  apply (elem_of_nil k). rewrite <- Hnil. by apply list_elem_of_filter.
Qed.

(** What an accepted row is. *)
Lemma observation_ok row o :
  _observation row = Ok o →
  fo_window_start o < fo_window_end o ∧ 0 < ms_listing_version (fo_snapshot o) ∧
  0 <= ms_views (fo_snapshot o) ∧ 0 <= ms_orders (fo_snapshot o) ∧
  (∀ k, k ∈ row.*1 → k ∈ _ROW_FIELDS) ∧ (∀ k, k ∈ _ROW_FIELDS → k ∈ row.*1).
Proof.
  unfold _observation. intros H.
  apply rbind_ok in H as (u1 & _ & H). apply rbind_ok in H as (u2 & Hextra%fixture_refuse_if_ok%negb_false_iff%bool_decide_eq_true & H).
  apply rbind_ok in H as (u3 & Hmissing%fixture_refuse_if_ok%negb_false_iff%bool_decide_eq_true & H). apply rbind_ok in H as (ws & _ & H).
  apply rbind_ok in H as (we & _ & H). apply rbind_ok in H as (w & Hw & H).
  apply rbind_ok in H as (ev & _ & H). destruct ev as [| | | | | |ev|]; try done.
  do 11 (apply rbind_ok in H as (? & _ & H)). apply rbind_ok in H as (sn & Hs & [= <-]). simpl.
  apply rbind_ok in Hw as (u & Hwin%fixture_refuse_if_ok%Z.leb_gt & [= <-]). simpl.
  unfold build_snapshot in Hs. apply rbind_ok in Hs as (prov & _ & Hs).
  repeat case_match; try done. injection Hs as <-. simpl.
  repeat match goal with H : _ && _ = true |- _ => apply andb_true_iff in H as [? ?] end.
  split_and!; try lia; by apply filter_out_nil.
Qed.

Lemma window_ok s e w : _window s e = Ok w ↔ w = (s, e) ∧ s < e.
Proof.
  unfold _window, fixture_refuse_if. destruct (Z.leb_spec e s); simpl; split; [done|intros [_ ?]; lia|by intros [= <-]|by intros [-> _]].
Qed.

(** A weekly plan either finds its window recorded, or collects every active listing once in
    order and then reviews the shop. *)
Lemma plan_weekly_ok listings s e snaps existing plan :
  plan_weekly listings s e snaps existing = Ok plan →
  s < e ∧ wp_prior_snapshots plan = snaps ∧
  (wp_records plan = [] ∧ Exists (λ r, cr_window_start r = s ∧ cr_window_end r = e) existing ∨
   cr_listing_id <$> wp_records plan =
     ((λ l, Some (al_listing_id l)) <$> filter (λ l, al_active l = true) listings) ++ [None]) ∧
  Forall (λ r, cr_window_start r = s ∧ cr_window_end r = e ∧
    match cr_listing_id r with Some _ => cr_kind r = "collection" | None => cr_kind r = "shop_review" end)
    (wp_records plan).
Proof.
  unfold plan_weekly. intros (w & [-> Hlt]%window_ok & H)%rbind_ok. simpl in H. split; [done|].
  case_bool_decide as Hex; injection H as <-; simpl.
  - split_and!; [done|by left|constructor].
  - split_and!; [done| |].
    + right. rewrite fmap_app, <- list_fmap_compose. done.
    + apply Forall_app. split; [|repeat constructor]. apply Forall_fmap, Forall_true. done.
Qed.

(** Planning a recorded window again plans nothing. *)
Lemma plan_weekly_again listings listings' s e snaps snaps' existing plan :
  plan_weekly listings s e snaps existing = Ok plan →
  plan_weekly listings' s e snaps' (existing ++ wp_records plan) =
    Ok {| wp_records := []; wp_prior_snapshots := snaps' |}.
Proof.
  intros H. pose proof (plan_weekly_ok _ _ _ _ _ _ H) as (Hlt & _ & Hr & Hall).
  unfold plan_weekly. rewrite (proj2 (window_ok s e (s, e))) by done. simpl.
  rewrite bool_decide_true; [done|]. rewrite Exists_app. destruct Hr as [[_ Hr]|Hr]; [by left|right].
  destruct (wp_records plan) as [|r rs]; [by apply app_cons_not_nil in Hr|].
  left. apply Forall_cons in Hall as [(? & ? & _) _]. done.
Qed.
