(* ===== verification/ClosedLoop.v ===== *)
(** * Closed-loop triggers

    [assets/closed_loop_store.py]: weekly and monthly triggers are stored once per key and
    never moved, and a cull is reported only after a confirming fixture read. *)

From S2P Require Import Prelude PyText PyTime Enums Errors Contracts PyDict Portfolio MetricsPlan.
Open Scope string_scope.
Open Scope Z_scope.

Inductive TriggerKind : Set := WEEKLY_REVIEW | MONTHLY_DEEP_PASS | BUILD_SLOT.
Inductive FixtureStatus : Set := CONFIRMED | UNKNOWN | FAILED.

#[export] Instance FixtureStatus_eq_dec : EqDecision FixtureStatus.
Proof. solve_decision. Defined.

Definition _WEEKLY_CRON := "0 9 * * 1".
Definition _MONTHLY_CRON := "0 9 1 * *".

Definition loop_refusal {A} (code : string) : result exn A := Raise (Exn ClosedLoopRefusal code).

Record StoredTrigger := {
  st_shop_id : uuid;
  st_trigger_kind : TriggerKind;
  st_trigger_key : string;
  st_cron_expression : string;
  st_next_fire_at : datetime;
  st_active : bool;
}.

Record LessonRow := {
  le_listing_id : uuid;
  le_deactivation_job_id : uuid;
  le_lesson : string;
  le_retained : bool;
}.

Record CullConfirmation := {
  cc_event_names : list EventName.EventName;
  cc_lesson : option LessonRow;
  cc_retained_artifact_ids : list uuid;
  cc_deactivation_executed : bool;
}.

(** The dictionary [_rows]. *)
Definition TriggerLedger : Type := list (string * StoredTrigger).

Definition rows (ledger : TriggerLedger) : list StoredTrigger := ledger.*2.

Definition insert (row : StoredTrigger) : M TriggerLedger exn (option StoredTrigger) :=
  let* existing := gets (dict_get (st_trigger_key row)) in
  match existing with
  | Some _ => pyret None
  | None => do* modify (dict_put (st_trigger_key row) row); pyret (Some row)
  end.

Definition weekly_key (shop_id : uuid) (record : CollectionRecord) : result exn string :=
  if decide (cr_kind record = "collection") then
    match cr_listing_id record with
    | None => loop_refusal "collection_listing"
    | Some listing_id =>
        Ok ("weekly:" ++ uuid_str shop_id ++ ":collection:" ++ uuid_str listing_id ++ ":" ++
            isoformat (cr_window_start record))
    end
  else if decide (cr_kind record = "shop_review") then
    Ok ("weekly:" ++ uuid_str shop_id ++ ":shop-review:" ++ isoformat (cr_window_start record))
  else loop_refusal "record_kind".

Definition weekly_trigger (shop_id : uuid) (next_fire_at : datetime) (trigger_key : string) : StoredTrigger :=
  {| st_shop_id := shop_id; st_trigger_kind := WEEKLY_REVIEW; st_trigger_key := trigger_key;
     st_cron_expression := _WEEKLY_CRON; st_next_fire_at := next_fire_at; st_active := true |}.

Definition persist_weekly_plan (shop_id : uuid) (plan : WeeklyPlan) (next_fire_at : datetime)
    : M TriggerLedger exn (list StoredTrigger) :=
  for_fold (λ inserted record,
    let* trigger_key := lift_result (weekly_key shop_id record) in
    let* stored := insert (weekly_trigger shop_id next_fire_at trigger_key) in
    pyret (inserted ++ option_list stored)%list) (wp_records plan) [].

Definition persist_monthly_record (record : option MonthlyRecord) : M TriggerLedger exn (option StoredTrigger) :=
  match record with
  | None => pyret None
  | Some record =>
      match mo_jobs record with
      | [] => lift_result (loop_refusal "monthly_jobs")
      | job :: _ =>
          let shop_id := pj_shop_id job in
          if bool_decide (Exists (λ j, pj_shop_id j ≠ shop_id) (mo_jobs record))
          then lift_result (loop_refusal "monthly_shop")
          else insert
            {| st_shop_id := shop_id; st_trigger_kind := MONTHLY_DEEP_PASS;
               st_trigger_key := "monthly:" ++ uuid_str shop_id ++ ":" ++ isoformat (mo_window_start record);
               st_cron_expression := _MONTHLY_CRON; st_next_fire_at := mo_window_end record; st_active := true |}
      end
  end.

Definition no_cull : CullConfirmation :=
  {| cc_event_names := []; cc_lesson := None; cc_retained_artifact_ids := []; cc_deactivation_executed := false |}.

Definition confirm_fixture_cull (result_ : PortfolioResult) (fixture_status : FixtureStatus) (lesson : string)
    (artifact_ids : list uuid) : result exn CullConfirmation :=
  if bool_decide (EventName.LISTING_CULLED ∈ pr_event_names result_) then loop_refusal "listing_culled"
  else if negb (bool_decide (pr_decision result_ = DecisionType.CULL)) then Ok no_cull
  else match pr_deactivation_job_id result_ with
       | None => loop_refusal "deactivation_job"
       | Some job =>
           if negb (bool_decide (fixture_status = CONFIRMED)) then Ok no_cull
           else
             let text := str_strip lesson in
             if bool_decide (text = "") then loop_refusal "lesson"
             else Ok {| cc_event_names := [EventName.LISTING_CULLED];
                        cc_lesson := Some {| le_listing_id := pr_listing_id result_; le_deactivation_job_id := job;
                                             le_lesson := text; le_retained := true |};
                        cc_retained_artifact_ids := artifact_ids; cc_deactivation_executed := false |}
       end.

(** ** What is stored *)

Local Open Scope list_scope.

(** The keys to insert: those not yet present, each once. *)
Fixpoint new_keys (seen keys : list string) : list string :=
  match keys with
  | [] => []
  | k :: keys => if decide (k ∈ seen) then new_keys seen keys else k :: new_keys (seen ++ [k]) keys
  end.

Lemma new_keys_none seen keys : (∀ k, k ∈ keys → k ∈ seen) → new_keys seen keys = [].
Proof.
  induction keys as [|k keys IH]; intros Hin; [done|]. simpl. rewrite decide_True by (apply Hin; left).
  apply IH. intros k' Hk'. apply Hin. by right.
Qed.

Lemma new_keys_nodup seen keys : NoDup (new_keys seen keys) ∧ ∀ k, k ∈ new_keys seen keys → k ∉ seen.
Proof.
  revert seen. induction keys as [|k keys IH]; intros seen; simpl; [split; [constructor|by intros k ?%elem_of_nil]|].
  case_decide as Hk; [apply IH|]. destruct (IH (seen ++ [k])) as [Hnd Hs]. split.
  - constructor; [|done]. intros Hin. apply (Hs _ Hin), elem_of_app. right. by left.
  - intros k' [->|Hin]%elem_of_cons; [done|]. intros Hs'. apply (Hs _ Hin), elem_of_app. by left.
Qed.

Lemma new_keys_all seen keys k : k ∈ keys → k ∈ seen ++ new_keys seen keys.
Proof.
  revert seen. induction keys as [|k' keys IH]; intros seen; [by intros ?%elem_of_nil|].
  simpl. intros [->|Hin]%elem_of_cons; case_decide as Hk.
  - apply elem_of_app. by left.
  - apply elem_of_app. right. by left.
  - by apply IH.
  - specialize (IH (seen ++ [k']) Hin). rewrite <- app_assoc in IH. done.
Qed.

Lemma new_keys_fresh seen keys : NoDup keys → (∀ k, k ∈ keys → k ∉ seen) → new_keys seen keys = keys.
Proof.
  revert seen. induction keys as [|k keys IH]; intros seen; [done|]. intros [Hk Hnd]%NoDup_cons Hs. simpl.
  rewrite decide_False by (apply Hs; left). f_equal. apply IH; [done|].
  intros k' Hk' [?|He%list_elem_of_singleton]%elem_of_app; [by apply (Hs k'); [right|]|]. by subst.
Qed.

Lemma persist_loop shop t records keys inserted ledger :
  Forall2 (λ r k, weekly_key shop r = Ok k) records keys →
  for_fold (λ inserted record,
    let* trigger_key := lift_result (weekly_key shop record) in
    let* stored := insert (weekly_trigger shop t trigger_key) in
    pyret (inserted ++ option_list stored)%list) records inserted ledger =
  (Ok (inserted ++ (weekly_trigger shop t <$> new_keys ledger.*1 keys)),
   ledger ++ ((λ k, (k, weekly_trigger shop t k)) <$> new_keys ledger.*1 keys)).
Proof.
  intros Hf. revert inserted ledger. induction Hf as [|r k records keys Hk _ IH]; intros inserted ledger.
  - simpl. by rewrite !app_nil_r.
  - simpl. unfold pybind at 1. unfold pybind at 1. rewrite Hk. simpl.
    unfold pybind at 1, insert at 1, pybind at 1, gets. cbn [st_trigger_key weekly_trigger].
    destruct (dict_get k ledger) as [old|] eqn:Hg; simpl.
    + rewrite IH, app_nil_r, decide_True; [done|].
      apply dict_get_elem in Hg. apply list_elem_of_fmap. by exists (k, old).
    + rewrite IH. apply dict_get_none in Hg as Hn. rewrite decide_False by done.
      rewrite (dict_put_new _ _ _ Hg), fmap_app. simpl. by rewrite <- !app_assoc.
Qed.

(** The keys of a plan's records. *)
Lemma plan_keys shop s e records :
  Forall (λ r, cr_window_start r = s ∧ cr_window_end r = e ∧
    match cr_listing_id r with Some _ => cr_kind r = "collection" | None => cr_kind r = "shop_review" end) records →
  Forall2 (λ r k, weekly_key shop r = Ok k) records
    ((λ i, match i with
           | Some listing => "weekly:" ++ uuid_str shop ++ ":collection:" ++ uuid_str listing ++ ":" ++ isoformat s
           | None => "weekly:" ++ uuid_str shop ++ ":shop-review:" ++ isoformat s
           end)%string <$> (cr_listing_id <$> records)).
Proof.
  induction 1 as [|r records (Hs & _ & Hk) _ IH]; [constructor|]. constructor; [|done].
  unfold weekly_key. destruct (cr_listing_id r); rewrite Hk, Hs; [by rewrite decide_True|].
  by rewrite decide_False, decide_True.
Qed.

(** C27: Storing a weekly plan never fails, adds one trigger per new key behind what was there, and
    stores nothing when it is repeated; the whole window is then recorded. *)
Theorem weekly_plan_persisted_once listings s e snaps existing plan shop t ledger :
  plan_weekly listings s e snaps existing = Ok plan →
  ∃ inserted ledger',
    persist_weekly_plan shop plan t ledger = (Ok inserted, ledger') ∧
    ledger' = ledger ++ ((λ row, (st_trigger_key row, row)) <$> inserted) ∧
    NoDup (st_trigger_key <$> inserted) ∧
    (∀ row, row ∈ inserted → dict_get (st_trigger_key row) ledger = None ∧ st_next_fire_at row = t ∧ st_shop_id row = shop) ∧
    (∀ record, record ∈ wp_records plan → ∃ k, weekly_key shop record = Ok k ∧ is_Some (dict_get k ledger')) ∧
    (∀ t', persist_weekly_plan shop plan t' ledger' = (Ok [], ledger')).
Proof.
  intros (_ & _ & _ & Hall)%plan_weekly_ok. apply (plan_keys shop) in Hall as Hkeys.
  set (keys := _ <$> (cr_listing_id <$> wp_records plan)) in *.
  pose proof (persist_loop shop t _ _ [] ledger Hkeys) as Hp. fold (persist_weekly_plan shop plan t) in Hp.
  set (fresh := new_keys ledger.*1 keys) in *. destruct (new_keys_nodup ledger.*1 keys) as [Hnd Hnew]. fold fresh in Hnd, Hnew.
  assert (Hk : st_trigger_key <$> (weekly_trigger shop t <$> fresh) = fresh).
  { rewrite <- list_fmap_compose. apply list_fmap_id. }
  eexists _, _. split; [exact Hp|]. simpl. split_and!.
  - by rewrite <- list_fmap_compose.
  - by rewrite Hk.
  - intros row (k & -> & Hin)%list_elem_of_fmap. split; [|done]. by apply dict_get_none, Hnew.
  - intros record Hin. apply list_elem_of_lookup in Hin as [i Hi].
    destruct (Forall2_lookup_l _ _ _ _ _ Hkeys Hi) as (k & Hik & Hrk). exists k. split; [done|].
    apply not_eq_None_Some. rewrite dict_get_none. intros Hn. apply Hn.
    rewrite fmap_app, <- list_fmap_compose. unfold compose. simpl. rewrite list_fmap_id.
    apply new_keys_all. by eapply list_elem_of_lookup_2.
  - intros t'. unfold persist_weekly_plan. rewrite (persist_loop shop t' _ _ [] _ Hkeys).
    rewrite new_keys_none; [simpl; by rewrite app_nil_r|]. intros k Hkin.
    rewrite fmap_app, <- list_fmap_compose. unfold compose. simpl. rewrite list_fmap_id. by apply new_keys_all.
Qed.

(** ** Worked plans *)

Definition sample_active : list ActiveListing :=
  [{| al_listing_id := 11; al_listing_version := 1; al_active := true |};
   {| al_listing_id := 12; al_listing_version := 1; al_active := false |};
   {| al_listing_id := 13; al_listing_version := 2; al_active := true |}].

Definition sample_week : WeeklyPlan :=
  match plan_weekly sample_active 0 604800000000 [] [] with
  | Ok plan => plan
  | Raise _ => {| wp_records := []; wp_prior_snapshots := [] |}
  end.

Theorem weekly_plan_persisted_once_witness :
  ∃ inserted ledger',
    persist_weekly_plan 7 sample_week 5 [] = (Ok inserted, ledger') ∧ length inserted = 3%nat ∧
    persist_weekly_plan 7 sample_week 6 ledger' = (Ok [], ledger').
Proof.
  destruct (weekly_plan_persisted_once sample_active 0 604800000000 [] [] sample_week 7 5 [] eq_refl)
    as (inserted & ledger' & Hp & _ & _ & _ & _ & Hagain).
  exists inserted, ledger'. split; [exact Hp|]. split; [|apply Hagain].
  apply (f_equal fst) in Hp. vm_compute in Hp. injection Hp as <-. reflexivity.
Defined.

(** The listing version is not part of a trigger's key: a plan that collects two versions of a
    listing stores one trigger for both. *)
Example versions_share_a_trigger :
  let listing v := {| al_listing_id := 11; al_listing_version := v; al_active := true |} in
  match plan_weekly [listing 1; listing 2] 0 604800000000 [] [] with
  | Ok plan => (length (wp_records plan), match (persist_weekly_plan 7 plan 5 []).1 with Ok rows => length rows | Raise _ => 0%nat end)
  | Raise _ => (0%nat, 0%nat)
  end = (3%nat, 2%nat).
Proof. vm_compute. reflexivity. Qed.

(** ** Culls *)

(** C28: Every result of a portfolio evaluation can be put to the confirmation: it reports the cull
    exactly of a CULL decision whose read is CONFIRMED, refuses only an empty lesson, and never
    executes the deactivation. *)
Theorem culls_are_confirmed ls t priors percent rs r status lesson artifacts :
  evaluate_portfolio ls (Aware t) priors percent = Ok rs → r ∈ rs →
  let confirmed := pr_decision r = DecisionType.CULL ∧ status = CONFIRMED in
  match confirm_fixture_cull r status lesson artifacts with
  | Raise e => confirmed ∧ str_strip lesson = ""%string ∧ e = Exn ClosedLoopRefusal "lesson"
  | Ok c =>
      cc_deactivation_executed c = false ∧ pr_deactivation_executed r = false ∧
      (cc_event_names c = [EventName.LISTING_CULLED] ∧ confirmed ∧ cc_retained_artifact_ids c = artifacts ∧
         (∃ row, cc_lesson c = Some row ∧ le_listing_id row = pr_listing_id r ∧
            Some (le_deactivation_job_id row) = pr_deactivation_job_id r ∧ le_lesson row ≠ ""%string)
       ∨ c = no_cull ∧ ¬ confirmed)
  end.
Proof.
  intros (culled & os & _ & Hf & ->)%evaluate_ok Hr confirmed.
  apply (results_of _ _ _ Hf) in Hr as (l & _ & Hd%decide_listing_ok).
  destruct Hd as (s & d & _ & _ & _ & _ & Hb).
  assert (Hparts : EventName.LISTING_CULLED ∉ pr_event_names r ∧ pr_deactivation_executed r = false ∧
    (pr_decision r = DecisionType.CULL → is_Some (pr_deactivation_job_id r))).
  { unfold _build in Hb. destruct d; [apply rbind_ok in Hb as (n & _ & Hb)|..]; injection Hb as <-; simpl;
      (split; [by intros ?%list_elem_of_singleton|by split]). }
  destruct Hparts as (Hev & Hex & Hjob). unfold confirm_fixture_cull, confirmed.
  rewrite bool_decide_false by done.
  destruct (decide (pr_decision r = DecisionType.CULL)) as [Hc|Hc].
  2:{ rewrite bool_decide_false by done. simpl. split_and!; [done..|]. right. split; [done|by intros []]. }
  rewrite bool_decide_true by done. simpl. destruct (Hjob Hc) as [job ->].
  destruct (decide (status = CONFIRMED)) as [Hs|Hs].
  2:{ rewrite bool_decide_false by done. simpl. split_and!; [done..|]. right. split; [done|by intros []]. }
  rewrite bool_decide_true by done. simpl.
  case_bool_decide as Ht; simpl; [done|]. split_and!; [done..|]. left. split_and!; [done..|].
  eexists. split_and!; done.
Qed.

(** Of the sample portfolio the culled listings, and only they, are confirmed. *)
Theorem culls_are_confirmed_witness :
  match sample_results !! 1%nat with
  | Some r =>
      ∃ c, confirm_fixture_cull r CONFIRMED " sold once " [3%N] = Ok c ∧
        cc_event_names c = [EventName.LISTING_CULLED] ∧ cc_retained_artifact_ids c = [3%N] ∧
        cc_deactivation_executed c = false
  | None => False
  end.
Proof.
  destruct (sample_results !! 1%nat) as [r|] eqn:Hr; [|vm_compute in Hr; discriminate].
  pose proof (culls_are_confirmed _ _ _ _ _ r CONFIRMED " sold once " [3%N] sample_results_ok
    (list_elem_of_lookup_2 _ _ _ Hr)) as H. cbv zeta in H.
  assert (Hd : pr_decision r = DecisionType.CULL) by (vm_compute in Hr; by injection Hr as <-).
  destruct (confirm_fixture_cull r CONFIRMED " sold once " [3%N]) as [c|e].
  - destruct H as (Hx & _ & [(He & _ & Ha & _)|[_ Hn]]); [by exists c|]. by destruct Hn.
  - destruct H as (_ & H & _). vm_compute in H. discriminate.
Defined.
