(* ===== verification/AssetLineage.v ===== *)
(** * Asset lineage

    [assets/asset_lineage.py]: rendered assets share one lineage record, and after a
    product change the walk of [split_current] separates the current assets from those
    that are stale themselves or through a source. *)

From S2P Require Import Prelude PyText.
Open Scope string_scope.
Open Scope Z_scope.

(** ** Records *)

(** The fields that [bind_asset] reads of the four renderer records. *)
Record ScreenshotLineage := {
  sl_product_id : uuid; sl_spec_version : Z; sl_build_version : Z; sl_screenshot_sha256 : string;
  sl_template_version : string; sl_crop_width : Z; sl_crop_height : Z
}.
Record ListingImageLineage := {
  il_product_id : uuid; il_spec_version : Z; il_build_version : Z;
  il_source_screenshot_sha256 : list string; il_merchandising_version : string;
  il_template_version : string; il_output_sha256 : string; il_width_px : Z; il_height_px : Z
}.
Record WalkthroughLineage := {
  wl_product_id : uuid; wl_spec_version : Z; wl_build_version : Z;
  wl_source_screenshot_sha256 : list string; wl_merchandising_version : string;
  wl_template_version : string; wl_output_sha256 : string; wl_width_px : Z; wl_height_px : Z
}.
Record DeliveryPdfLineage := {
  dl_product_id : uuid; dl_spec_version : Z; dl_build_version : Z; dl_merchandising_version : string;
  dl_template_version : string; dl_output_sha256 : string; dl_page_count : Z
}.

Inductive RenderedLineage : Type :=
  | OfScreenshot (l : ScreenshotLineage)
  | OfListingImage (l : ListingImageLineage)
  | OfWalkthrough (l : WalkthroughLineage)
  | OfDeliveryPdf (l : DeliveryPdfLineage).

Inductive AssetKind : Set := screenshot | listing_image | walkthrough | delivery_pdf.

#[export] Instance AssetKind_eq_dec : EqDecision AssetKind.
Proof. solve_decision. Defined.

Inductive QaStatus : Set := passed | stale.

#[export] Instance QaStatus_eq_dec : EqDecision QaStatus.
Proof. solve_decision. Defined.

Record BoundAsset := {
  ba_product_id : uuid;
  ba_spec_version : Z;
  ba_build_version : Z;
  ba_source_screenshot_sha256 : list string;
  ba_merchandising_version : string;
  ba_template_version : string;
  ba_output_sha256 : string;
  ba_width_px : option Z;
  ba_height_px : option Z;
  ba_page_count : option Z;
  ba_qa_status : QaStatus;
  ba_storage_uri : string;
  ba_kind : AssetKind
}.

#[export] Instance BoundAsset_eq_dec : EqDecision BoundAsset.
Proof. solve_decision. Defined.

Definition fixture_storage_uri (product_id : uuid) (spec_version : Z) (output_sha256 : string) : string :=
  "fixture://" ++ uuid_str product_id ++ "/" ++ pretty spec_version ++ "/" ++ output_sha256.

Definition _bound (kind : AssetKind) (product_id : uuid) (spec_version build_version : Z)
    (sources : list string) (merchandising_version template_version output_sha256 : string)
    (width_px height_px page_count : option Z) (qa_status : QaStatus) : BoundAsset :=
  {| ba_product_id := product_id; ba_spec_version := spec_version; ba_build_version := build_version;
     ba_source_screenshot_sha256 := sources; ba_merchandising_version := merchandising_version;
     ba_template_version := template_version; ba_output_sha256 := output_sha256;
     ba_width_px := width_px; ba_height_px := height_px; ba_page_count := page_count;
     ba_qa_status := qa_status;
     ba_storage_uri := fixture_storage_uri product_id spec_version output_sha256; ba_kind := kind |}.

(** The only value of a renderer's [qa_status] is ["passed"]. *)
Definition bind_asset (lineage : RenderedLineage) : BoundAsset :=
  match lineage with
  | OfScreenshot l =>
      _bound screenshot (sl_product_id l) (sl_spec_version l) (sl_build_version l) [] ""
        (sl_template_version l) (sl_screenshot_sha256 l) (Some (sl_crop_width l)) (Some (sl_crop_height l))
        None passed
  | OfListingImage l =>
      _bound listing_image (il_product_id l) (il_spec_version l) (il_build_version l)
        (il_source_screenshot_sha256 l) (il_merchandising_version l) (il_template_version l)
        (il_output_sha256 l) (Some (il_width_px l)) (Some (il_height_px l)) None passed
  | OfWalkthrough l =>
      _bound walkthrough (wl_product_id l) (wl_spec_version l) (wl_build_version l)
        (wl_source_screenshot_sha256 l) (wl_merchandising_version l) (wl_template_version l)
        (wl_output_sha256 l) (Some (wl_width_px l)) (Some (wl_height_px l)) None passed
  | OfDeliveryPdf l =>
      _bound delivery_pdf (dl_product_id l) (dl_spec_version l) (dl_build_version l) []
        (dl_merchandising_version l) (dl_template_version l) (dl_output_sha256 l) None None
        (Some (dl_page_count l)) passed
  end.

(** [replace(asset, qa_status="stale")] *)
Definition set_stale (a : BoundAsset) : BoundAsset :=
  {| ba_product_id := ba_product_id a; ba_spec_version := ba_spec_version a;
     ba_build_version := ba_build_version a; ba_source_screenshot_sha256 := ba_source_screenshot_sha256 a;
     ba_merchandising_version := ba_merchandising_version a; ba_template_version := ba_template_version a;
     ba_output_sha256 := ba_output_sha256 a; ba_width_px := ba_width_px a; ba_height_px := ba_height_px a;
     ba_page_count := ba_page_count a; ba_qa_status := stale; ba_storage_uri := ba_storage_uri a;
     ba_kind := ba_kind a |}.

(** ** The walk *)

Definition identity (a : BoundAsset) : Z * string := (ba_spec_version a, ba_output_sha256 a).

(** The loop of [_resolve_source] from [found]. *)
Fixpoint resolve_from (owned : list BoundAsset) (spec_version : Z) (src : string) (found : option BoundAsset)
    : option BoundAsset :=
  match owned with
  | [] => found
  | candidate :: rest =>
      if decide (ba_spec_version candidate ≠ spec_version ∨ ba_output_sha256 candidate ≠ src)
      then resolve_from rest spec_version src found
      else if decide (ba_kind candidate = screenshot) then Some candidate
      else resolve_from rest spec_version src (match found with None => Some candidate | _ => found end)
  end.

Definition _resolve_source (owned : list BoundAsset) (spec_version : Z) (src : string) : option BoundAsset :=
  resolve_from owned spec_version src None.

Definition _source_blocked (src : string) (spec_version : Z) (owned : list BoundAsset) : bool :=
  match _resolve_source owned spec_version src with
  | None => false
  | Some resolved => bool_decide (ba_kind resolved ≠ screenshot)
  end.

Definition _source_stale (src : string) (spec_version : Z) (stale_ids known : gset (Z * string)) : bool :=
  if decide ((spec_version, src) ∉ known) then true else bool_decide ((spec_version, src) ∈ stale_ids).

Definition _is_stale (a : BoundAsset) (spec_version : Z) (stale_ids known : gset (Z * string))
    (owned : list BoundAsset) : bool :=
  if decide (ba_spec_version a ≠ spec_version) then true
  else if decide (ba_qa_status a ≠ passed) then true
  else if existsb (λ src, _source_blocked src (ba_spec_version a) owned) (ba_source_screenshot_sha256 a)
  then true
  else existsb (λ src, _source_stale src (ba_spec_version a) stale_ids known) (ba_source_screenshot_sha256 a).

(** One pass over [pending]: the stale identities, the rest, and whether it progressed. *)
Fixpoint walk_pass (spec_version : Z) (known : gset (Z * string)) (owned pending : list BoundAsset)
    (stale_ids : gset (Z * string)) : gset (Z * string) * list BoundAsset * bool :=
  match pending with
  | [] => (stale_ids, [], false)
  | a :: pending =>
      if _is_stale a spec_version stale_ids known owned
      then let '(ids, rest, _) := walk_pass spec_version known owned pending ({[identity a]} ∪ stale_ids) in
           (ids, rest, true)
      else let '(ids, rest, progressed) := walk_pass spec_version known owned pending stale_ids in
           (ids, a :: rest, progressed)
  end.

(** The [while progressed] loop; [None] when the fuel runs out. *)
Fixpoint walk (fuel : nat) (spec_version : Z) (known : gset (Z * string)) (owned pending : list BoundAsset)
    (stale_ids : gset (Z * string)) : option (gset (Z * string)) :=
  match fuel with
  | O => None
  | S fuel =>
      let '(ids, rest, progressed) := walk_pass spec_version known owned pending stale_ids in
      if progressed then walk fuel spec_version known owned rest ids else Some ids
  end.

(** [split_current] with the fuel that [walk_terminates] shows to be enough. *)
Definition split_current (assets : list BoundAsset) (product_id : uuid) (spec_version : Z)
    : option (list BoundAsset * list BoundAsset) :=
  let owned := filter (λ a, ba_product_id a = product_id) assets in
  let known : gset (Z * string) := list_to_set (identity <$> owned) in
  stale_ids ← walk (S (length owned)) spec_version known owned owned ∅;
  Some (filter (λ a, identity a ∉ stale_ids) owned, set_stale <$> filter (λ a, identity a ∈ stale_ids) owned).

(** ** Staleness *)

(** What makes an identity stale, as a least relation: an asset of another spec or not
    passed, an asset with a source that no screenshot of its spec backs, and an asset
    with a stale source. *)
Inductive Stale (owned : list BoundAsset) (spec_version : Z) : Z * string → Prop :=
  | stale_spec a : a ∈ owned → ba_spec_version a ≠ spec_version → Stale owned spec_version (identity a)
  | stale_qa a : a ∈ owned → ba_qa_status a ≠ passed → Stale owned spec_version (identity a)
  | stale_unbacked a src :
      a ∈ owned → src ∈ ba_source_screenshot_sha256 a →
      (∀ b, b ∈ owned → identity b = (ba_spec_version a, src) → ba_kind b ≠ screenshot) →
      Stale owned spec_version (identity a)
  | stale_source a src :
      a ∈ owned → src ∈ ba_source_screenshot_sha256 a →
      Stale owned spec_version (ba_spec_version a, src) → Stale owned spec_version (identity a).

Lemma resolve_from_spec owned v src found :
  (∀ f, found = Some f → ba_kind f ≠ screenshot) →
  match resolve_from owned v src found with
  | None => found = None ∧ ∀ b, b ∈ owned → identity b ≠ (v, src)
  | Some r => if decide (ba_kind r = screenshot) then r ∈ owned ∧ identity r = (v, src)
              else (found = Some r ∨ r ∈ owned ∧ identity r = (v, src)) ∧
                   ∀ b, b ∈ owned → identity b = (v, src) → ba_kind b ≠ screenshot
  end.
Proof.
  revert found. induction owned as [|c owned IH]; intros found Hf; simpl.
  { destruct found as [f|]; [|split; [done|]; intros b Hb; by apply elem_of_nil in Hb].
    rewrite decide_False by (by apply Hf). split; [by left|]. intros b Hb. by apply elem_of_nil in Hb. }
  assert (Hid : identity c = (v, src) ↔ ¬ (ba_spec_version c ≠ v ∨ ba_output_sha256 c ≠ src)).
  { unfold identity. split; [intros [= -> ->]; tauto|]. intros Hn.
    f_equal; [destruct (decide (ba_spec_version c = v))|destruct (decide (ba_output_sha256 c = src))]; tauto. }
  case_decide as Hc; [|case_decide as Hk].
  - specialize (IH found Hf). destruct (resolve_from owned v src found) as [r|]; [case_decide|].
    + destruct IH. split; [by right|done].
    + destruct IH as [Hr Hall]. split; [destruct Hr as [?|[? ?]]; [by left|right; split; [by right|done]]|].
      intros b [->|Hb]%elem_of_cons Hbi; [tauto|by apply Hall].
    + destruct IH as [? Hall]. split; [done|]. intros b [->|Hb]%elem_of_cons Hbi; [tauto|by apply (Hall b)].
  - rewrite decide_True by done. split; [left|tauto].
  - specialize (IH (match found with None => Some c | _ => found end)).
    assert (Hf' : ∀ f, match found with None => Some c | _ => found end = Some f → ba_kind f ≠ screenshot)
      by (intros f; destruct found; [by apply Hf|by intros [= <-]]).
    specialize (IH Hf'). destruct (resolve_from owned v src _) as [r|]; [case_decide|].
    + destruct IH. split; [by right|done].
    + destruct IH as [Hr Hall]. split; [|intros b [->|Hb]%elem_of_cons Hbi; [done|by apply Hall]].
      destruct Hr as [Hr|[? ?]]; [|right; split; [by right|done]].
      destruct found; [by left|]. injection Hr as <-. right. split; [left|tauto].
    + by destruct found, IH.
Qed.

(** A source counts against an asset when no screenshot backs it or it is already stale. *)
Lemma is_stale_iff a v ids owned :
  _is_stale a v ids (list_to_set (identity <$> owned)) owned = true ↔
  ba_spec_version a ≠ v ∨ ba_qa_status a ≠ passed ∨
  ∃ src, src ∈ ba_source_screenshot_sha256 a ∧
    ((∀ b, b ∈ owned → identity b = (ba_spec_version a, src) → ba_kind b ≠ screenshot) ∨
     (ba_spec_version a, src) ∈ ids).
Proof.
  unfold _is_stale. case_decide as Hv; [tauto|]. case_decide as Hq; [tauto|].
  assert (Hsrc : ∀ src,
    (_source_blocked src (ba_spec_version a) owned = true ∨
     _source_stale src (ba_spec_version a) ids (list_to_set (identity <$> owned)) = true) ↔
    ((∀ b, b ∈ owned → identity b = (ba_spec_version a, src) → ba_kind b ≠ screenshot) ∨
     (ba_spec_version a, src) ∈ ids)).
  { intros src. unfold _source_blocked, _source_stale, _resolve_source.
    assert (Hk : (ba_spec_version a, src) ∉ (list_to_set (identity <$> owned) : gset (Z * string)) ↔
      ∀ b, b ∈ owned → identity b ≠ (ba_spec_version a, src)).
    { rewrite elem_of_list_to_set, list_elem_of_fmap. naive_solver. }
    pose proof (resolve_from_spec owned (ba_spec_version a) src None) as Hr. specialize (Hr ltac:(done)).
    destruct (resolve_from owned _ src None) as [r|].
    - assert (Hin : r ∈ owned ∧ identity r = (ba_spec_version a, src)).
      { case_decide; [done|]. destruct Hr as [[?|?] _]; done. }
      rewrite decide_False by (rewrite Hk; naive_solver).
      rewrite !bool_decide_eq_true. destruct (decide (ba_kind r = screenshot)) as [Hs|Hs].
      + split; [naive_solver|]. intros [Hall|?]; [|by right]. by destruct (Hall r (proj1 Hin) (proj2 Hin)).
      + split; [intros _; left; apply Hr|by left].
    - rewrite decide_True by (rewrite Hk; apply Hr). split; [|by right]. intros _. left. intros b Hb Hbi.
      by destruct (proj2 Hr b). }
  assert (Hex : ∀ f, existsb f (ba_source_screenshot_sha256 a) = true ↔
    ∃ src, src ∈ ba_source_screenshot_sha256 a ∧ f src = true).
  { intros f. rewrite existsb_exists. by setoid_rewrite list_elem_of_In. }
  destruct (existsb (λ src, _source_blocked _ _ _) _) eqn:E1.
  - apply Hex in E1 as (src & Hin & Hb). split; [|done]. intros _. right. right. exists src.
    split; [done|]. apply Hsrc. by left.
  - rewrite Hex. split.
    + intros (src & Hin & Hs). right. right. exists src. split; [done|]. apply Hsrc. by right.
    + intros [?|[?|(src & Hin & Hs)]]; [done..|]. apply Hsrc in Hs as [Hs|Hs]; [|by exists src].
      assert (false = true); [|done]. rewrite <- E1. apply Hex. by exists src.
Qed.

(** ** The walk computes it *)

Section walk.
Context (owned : list BoundAsset) (v : Z).
#[local] Abbreviation known := (list_to_set (identity <$> owned) : gset (Z * string)).

Lemma walk_pass_spec pending ids ids' rest progressed :
  (∀ a, a ∈ pending → a ∈ owned) → (∀ i, i ∈ ids → Stale owned v i) →
  walk_pass v known owned pending ids = (ids', rest, progressed) →
  ids ⊆ ids' ∧ (∀ i, i ∈ ids' → Stale owned v i) ∧
  (∀ a, a ∈ rest → a ∈ pending) ∧ (∀ a, a ∈ pending → a ∈ rest ∨ identity a ∈ ids') ∧
  (if progressed then (length rest < length pending)%nat
   else ids' = ids ∧ ∀ a, a ∈ pending → _is_stale a v ids known owned = false).
Proof.
  revert ids ids' rest progressed. induction pending as [|a pending IH]; intros ids ids' rest progressed Hin Hs.
  { intros [= <- <- <-]. do 3 (split; [done|]).
    split; [|split; [done|]]; intros a Ha; by apply elem_of_nil in Ha. }
  assert (Hin' : ∀ b, b ∈ pending → b ∈ owned) by (intros; apply Hin; by right).
  simpl. destruct (_is_stale a v ids known owned) eqn:Ha.
  - destruct (walk_pass v known owned pending ({[identity a]} ∪ ids)) as [[i1 r1] p1] eqn:E. intros [= -> -> <-].
    assert (Hs' : ∀ i, i ∈ {[identity a]} ∪ ids → Stale owned v i).
    { intros i [->%elem_of_singleton|Hi]%elem_of_union; [|by apply Hs].
      assert (Hao : a ∈ owned) by (apply Hin; left).
      apply is_stale_iff in Ha as [?|[?|(src & Hsrc & [Hun|Hst])]];
        [by apply stale_spec|by apply stale_qa|by apply (stale_unbacked _ _ a src)|].
      apply (stale_source _ _ a src); auto. }
    destruct (IH _ _ _ _ Hin' Hs' E) as (Hsub & Hst & Hrest & Hcov & Hp).
    split; [set_solver|]. split; [done|]. split; [intros b Hb; right; by apply Hrest|]. split.
    + intros b [->|Hb]%elem_of_cons; [right; set_solver|by apply Hcov].
    + destruct p1; [simpl; lia|]. simpl.
      assert (length rest <= length pending)%nat; [|lia].
      clear -E. revert E. generalize ({[identity a]} ∪ ids). revert rest ids'.
      induction pending as [|b pending IH]; intros rest ids' X; simpl; [by intros [= <- <-]|].
      destruct (_is_stale b _ _ _ _); destruct (walk_pass _ _ _ pending _) as [[i r] p] eqn:E; [done|].
      intros [= -> <- ->]. simpl. apply IH in E. lia.
  - destruct (walk_pass v known owned pending ids) as [[i1 r1] p1] eqn:E. intros [= -> <- <-].
    destruct (IH _ _ _ _ Hin' Hs E) as (Hsub & Hst & Hrest & Hcov & Hp).
    split; [done|]. split; [done|]. split; [intros b [->|Hb]%elem_of_cons; [left|right; by apply Hrest]|]. split.
    + intros b [->|Hb]%elem_of_cons; [left; left|]. destruct (Hcov b Hb); [left; by right|by right].
    + destruct p1; [simpl; lia|]. destruct Hp as [-> Hp]. split; [done|].
      intros b [->|Hb]%elem_of_cons; [done|by apply Hp].
Qed.

(** The loop ends within one round per pending asset, and at its end no asset that is
    left counts as stale. *)
Lemma walk_terminates fuel pending ids :
  (length pending < fuel)%nat →
  (∀ a, a ∈ pending → a ∈ owned) → (∀ i, i ∈ ids → Stale owned v i) →
  (∀ a, a ∈ owned → a ∈ pending ∨ identity a ∈ ids) →
  ∃ ids', walk fuel v known owned pending ids = Some ids' ∧ (∀ i, i ∈ ids' → Stale owned v i) ∧
    ∀ a, a ∈ owned → identity a ∈ ids' ∨ _is_stale a v ids' known owned = false.
Proof.
  revert pending ids. induction fuel as [|fuel IH]; intros pending ids Hf Hin Hs Hcov; [lia|]. simpl.
  destruct (walk_pass v known owned pending ids) as [[ids' rest] progressed] eqn:E.
  destruct (walk_pass_spec _ _ _ _ _ Hin Hs E) as (Hsub & Hst & Hrest & Hcov' & Hp).
  destruct progressed.
  - apply IH; [lia|auto|done|]. intros a Ha. destruct (Hcov a Ha) as [?|?]; [by apply Hcov'|right; set_solver].
  - destruct Hp as [-> Hp]. exists ids. split; [done|]. split; [done|]. intros a Ha.
    destruct (Hcov a Ha) as [Hpend|?]; [right; by apply Hp|by left].
Qed.

Lemma closed_complete (ids : gset (Z * string)) :
  (∀ a, a ∈ owned → identity a ∈ ids ∨ _is_stale a v ids known owned = false) →
  ∀ i, Stale owned v i → i ∈ ids.
Proof.
  intros Hclosed i Hi.
  assert (Hstep : ∀ a, a ∈ owned → _is_stale a v ids known owned = true → identity a ∈ ids).
  { intros a Ha Ht. destruct (Hclosed a Ha); [done|congruence]. }
  induction Hi as [a Ha Hv|a Ha Hq|a src Ha Hsrc Hun|a src Ha Hsrc _ IH]; apply Hstep; try done;
    apply is_stale_iff; eauto 8.
Qed.
End walk.

Lemma split_current_split assets p v :
  let owned := filter (λ a, ba_product_id a = p) assets in
  ∃ current old, split_current assets p v = Some (current, set_stale <$> old) ∧
    (∀ a, a ∈ current ↔ a ∈ owned ∧ ¬ Stale owned v (identity a)) ∧
    (∀ a, a ∈ old ↔ a ∈ owned ∧ Stale owned v (identity a)) ∧
    current `sublist_of` owned ∧ old `sublist_of` owned ∧ current ++ old ≡ₚ owned.
Proof.
  intros owned.
  destruct (walk_terminates owned v (S (length owned)) owned ∅) as (ids & Hw & Hs & Hc);
    [lia|done|set_solver|by left|].
  assert (Hids : ∀ i, i ∈ ids ↔ Stale owned v i) by (split; [apply Hs|by apply closed_complete]).
  exists (filter (λ a, identity a ∉ ids) owned), (filter (λ a, identity a ∈ ids) owned).
  split; [unfold split_current; fold owned; by rewrite Hw|].
  split; [intros a; rewrite list_elem_of_filter, Hids; tauto|].
  split; [intros a; rewrite list_elem_of_filter, Hids; tauto|].
  split; [apply sublist_filter|]. split; [apply sublist_filter|].
  clear. induction owned as [|a owned IH]; [done|]. rewrite !filter_cons.
  destruct (decide (identity a ∈ ids)); [rewrite decide_False by tauto|rewrite decide_True by tauto].
  - rewrite <- Permutation_middle. by rewrite IH.
  - simpl. by rewrite IH.
Qed.

(** C26: the walk over the assets is exact.  It always ends, whatever the order and the
    sources of the assets, cyclic ones included, and it splits the assets of the product
    into those that are not stale by the least staleness relation, in their order, and
    the stale ones, marked as such; assets of other products are left out. *)
Theorem split_current_exact assets p v :
  let owned := filter (λ a, ba_product_id a = p) assets in
  ∃ current old, split_current assets p v = Some (current, set_stale <$> old) ∧
    (∀ a, a ∈ current ↔ a ∈ owned ∧ ¬ Stale owned v (identity a)) ∧
    (∀ a, a ∈ old ↔ a ∈ owned ∧ Stale owned v (identity a)) ∧
    current `sublist_of` owned ∧ old `sublist_of` owned ∧ current ++ old ≡ₚ owned.
Proof. apply split_current_split. Qed.

(** ** Samples *)

Definition sample_shot (v : Z) (hash : string) : BoundAsset :=
  bind_asset (OfScreenshot {| sl_product_id := 7; sl_spec_version := v; sl_build_version := 1;
    sl_screenshot_sha256 := hash; sl_template_version := "t"; sl_crop_width := 10; sl_crop_height := 10 |}).

Definition sample_image (v : Z) (hash : string) (sources : list string) : BoundAsset :=
  bind_asset (OfListingImage {| il_product_id := 7; il_spec_version := v; il_build_version := 1;
    il_source_screenshot_sha256 := sources; il_merchandising_version := "m"; il_template_version := "t";
    il_output_sha256 := hash; il_width_px := 10; il_height_px := 10 |}).

(** An image is current through its screenshot and stale through another image, a hash
    nobody has, or itself. *)
Example split_sample :
  option_map (λ r : list BoundAsset * list BoundAsset, (map ba_output_sha256 r.1, map ba_output_sha256 r.2))
   (split_current [sample_image 2 "good" ["shot"]; sample_shot 2 "shot"; sample_shot 1 "old";
      sample_image 2 "chain" ["good"]; sample_image 2 "lost" ["none"]; sample_image 2 "self" ["self"]] 7 2)
  = Some (["good"; "shot"], ["old"; "chain"; "lost"; "self"]).
Proof. vm_compute. reflexivity. Qed.
