(* ===== verification/MutationReceipt.v ===== *)
(** * Mutation receipts

    [assets/mutation_receipt.py]: a listing write is committed once per idempotency key,
    with a redacted receipt, and a timed-out write is reconciled by a read.  The provider
    double is the record [ListingFixture] of its two operations. *)

From S2P Require Import Prelude PyText PyLines Sha256 Enums Errors Tables Contracts.
Open Scope string_scope.
Open Scope Z_scope.
Import EffectState.

Definition EffectState_value (s : EffectState) : string :=
  match s with CONFIRMED => "CONFIRMED" | ABSENT => "ABSENT" | UNKNOWN => "UNKNOWN" end.

Definition _OBSERVED_AT : datetime := 1792108800000000.

Definition _RAW_BODY_FIELDS : list string :=
  ["body"; "provider_response"; "raw_body"; "raw_response"; "response"; "response_body"].

Record ReadObservation := {
  ro_observed : bool;
  ro_provider_id : option string;
  ro_unknown : bool
}.

Record ListingMutation := {
  lm_operation : string;
  lm_listing_target : string;
  lm_pre_state : string;
  lm_expected_post_state : string;
  lm_idempotency_key : string
}.

Record MutationReceipt := {
  mr_operation : string;
  mr_listing_target : string;
  mr_pre_state : string;
  mr_expected_post_state : string;
  mr_provider_id : option string;
  mr_response_hash : string;
  mr_idempotency_key : string;
  mr_effect_state : EffectState;
  mr_effect : EffectReference
}.

(** The provider double, over a state of its own. *)
Record ListingFixture (F : Type) := {
  fx_create : string → M F exn string;
  fx_read : string → M F exn ReadObservation
}.
Arguments fx_create {F}.
Arguments fx_read {F}.

(** ** The book *)

(** The dictionary in insertion order. *)
Definition ReceiptBook : Type := list (string * MutationReceipt).

(** [get] searches the values. *)
Definition book_get (idempotency_key : string) (book : ReceiptBook) : option MutationReceipt :=
  (λ r, r.2.2) <$> list_find (λ e : string * MutationReceipt, mr_idempotency_key e.2 = idempotency_key) book.

Definition book_put (receipt : MutationReceipt) (book : ReceiptBook) : ReceiptBook :=
  let k := mr_idempotency_key receipt in
  if existsb (λ e : string * MutationReceipt, bool_decide (e.1 = k)) book
  then (λ e : string * MutationReceipt, if decide (e.1 = k) then (k, receipt) else e) <$> book
  else (book ++ [(k, receipt)])%list.

(** ** Receipts *)

(** The first offending keyword argument in call order. *)
Definition _reject_forbidden (forbidden : list string) : result exn unit :=
  do? traverse (λ key,
        if decide (key ∈ _RAW_BODY_FIELDS) then Raise (Exn ReceiptRejected "raw response body")
        else if str_in "screenshot" key then Raise (Exn ReceiptRejected "screenshot") else Ok tt) forbidden;
  Ok tt.

(** [EffectReference(...)]: its strings are stripped and must not be empty. *)
Definition effect_reference (idempotency_key provider operation : string) (provider_object_id : option string)
    (effect_state : EffectState) (observed_at : datetime) : result exn EffectReference :=
  let? key := non_empty_str "EffectReference" idempotency_key in
  let? provider := non_empty_str "EffectReference" provider in
  let? operation := non_empty_str "EffectReference" operation in
  let? object := match provider_object_id with
                 | None => Ok None
                 | Some i => let? i := non_empty_str "EffectReference" i in Ok (Some i)
                 end in
  let e := {| ef_idempotency_key := key; ef_provider := provider; ef_operation := operation;
              ef_provider_object_id := object; ef_effect_state := effect_state;
              ef_observed_at := observed_at; ef_reconciliation_attempt := 0 |} in
  match validate_effect_state e with
  | Ok _ => Ok e
  | Raise _ => validation_error "EffectReference"
  end.

Definition build_receipt (operation listing_target pre_state expected_post_state : string)
    (provider_id response_hash : option string) (idempotency_key : string) (effect_state : EffectState)
    (forbidden : list string) : result exn MutationReceipt :=
  do? _reject_forbidden forbidden;
  match response_hash with
  | Some hash =>
      if decide (str_strip hash = "") then Raise (Exn ReceiptRejected "response hash is required")
      else if decide (effect_state = CONFIRMED ∧ provider_id = None)
      then Raise (Exn ReceiptRejected "confirmed effect requires a provider id")
      else
        let? effect := effect_reference idempotency_key "etsy" operation provider_id effect_state _OBSERVED_AT in
        Ok {| mr_operation := operation; mr_listing_target := listing_target; mr_pre_state := pre_state;
              mr_expected_post_state := expected_post_state;
              mr_provider_id := ef_provider_object_id effect; mr_response_hash := hash;
              mr_idempotency_key := ef_idempotency_key effect;
              mr_effect_state := ef_effect_state effect; mr_effect := effect |}
  | None => Raise (Exn ReceiptRejected "response hash is required")
  end.

Definition _redacted_hash (m : ListingMutation) (provider_id : option string) (effect_state : EffectState)
    : string :=
  sha256_hex (String.concat "|"
    [lm_operation m; lm_listing_target m; lm_pre_state m; lm_expected_post_state m;
     lm_idempotency_key m; EffectState_value effect_state; default "" provider_id]).

(** ** Commits *)

Section commit.
Context {F : Type} (fixture : ListingFixture F).

Definition _remember (m : ListingMutation) (provider_id : option string) (effect_state : EffectState)
    : M (ReceiptBook * F) exn MutationReceipt :=
  let* receipt := lift_result (build_receipt (lm_operation m) (lm_listing_target m) (lm_pre_state m)
    (lm_expected_post_state m) provider_id (Some (_redacted_hash m provider_id effect_state))
    (lm_idempotency_key m) effect_state []) in
  do* modify (λ s, (book_put receipt s.1, s.2));
  pyret receipt.

Definition _reconcile_timeout (m : ListingMutation) : M (ReceiptBook * F) exn MutationReceipt :=
  let* observation := on_snd (fx_read fixture (lm_idempotency_key m)) in
  if negb (ro_observed observation) then
    pyraise (Exn ReconciliationError "reconciled status requires a read")
  else if ro_unknown observation then _remember m None UNKNOWN
  else match ro_provider_id observation with
       | Some provider_id => _remember m (Some provider_id) CONFIRMED
       | None =>
           let* provider_id := on_snd (fx_create fixture (lm_idempotency_key m)) in
           _remember m (Some provider_id) CONFIRMED
       end.

(** Only the call of [create] is inside the [try]. *)
Definition create_or_reconcile (m : ListingMutation) : M (ReceiptBook * F) exn MutationReceipt := λ s,
  match on_snd (fx_create fixture (lm_idempotency_key m)) s with
  | (Ok provider_id, s') => _remember m (Some provider_id) CONFIRMED s'
  | (Raise e, s') =>
      if isa (exn_type e) WriteTimeout then _reconcile_timeout m s' else (Raise e, s')
  end.

Definition commit_listing_mutation (m : ListingMutation) : M (ReceiptBook * F) exn MutationReceipt :=
  let* existing := gets (λ s, book_get (lm_idempotency_key m) s.1) in
  match existing with
  | Some receipt =>
      if decide (mr_effect_state receipt = UNKNOWN) then pyret receipt
      else if decide (mr_effect_state receipt = CONFIRMED) then pyret receipt
      else create_or_reconcile m
  | None => create_or_reconcile m
  end.

(** A run of commits; a commit that raises leaves what it wrote. *)
Definition commit_all (ms : list ListingMutation) (s : ReceiptBook * F) : ReceiptBook * F :=
  fold_left (λ s m, (commit_listing_mutation m s).2) ms s.
End commit.

(** ** The book as a map *)

(** Every receipt is stored under its own key, and a confirmed one names its object. *)
Definition receipt_ok (e : string * MutationReceipt) : Prop :=
  e.1 = mr_idempotency_key e.2 ∧ (mr_effect_state e.2 = CONFIRMED → given (mr_provider_id e.2) = true).

Definition book_ok (book : ReceiptBook) : Prop := Forall receipt_ok book.

(** A receipt that a later commit of its key returns. *)
Definition settled (r : MutationReceipt) : Prop :=
  mr_effect_state r = UNKNOWN ∨ mr_effect_state r = CONFIRMED ∧ given (mr_provider_id r) = true.

Lemma book_get_cons k e book :
  book_get k (e :: book) =
    if decide (mr_idempotency_key e.2 = k) then Some e.2 else book_get k book.
Proof.
  unfold book_get. simpl. case_decide; [done|].
  by destruct (list_find _ book) as [[]|].
Qed.

Lemma book_get_app k b1 b2 :
  book_get k (b1 ++ b2)%list = match book_get k b1 with Some r => Some r | None => book_get k b2 end.
Proof.
  induction b1 as [|e b1 IH]; [done|].
  rewrite <- app_comm_cons, !book_get_cons. by case_decide.
Qed.

Lemma book_get_absent k book :
  book_ok book → existsb (λ e : string * MutationReceipt, bool_decide (e.1 = k)) book = false →
  book_get k book = None.
Proof.
  induction 1 as [|e book [He _] _ IH]; [done|]. simpl.
  rewrite orb_false_iff, bool_decide_eq_false, book_get_cons. intros [Hk ?].
  rewrite decide_False by congruence. auto.
Qed.

(** Replacing the values stored under [mr_idempotency_key r]. *)
Lemma book_get_replace k r book :
  book_ok book →
  book_get k ((λ e : string * MutationReceipt,
                if decide (e.1 = mr_idempotency_key r) then (mr_idempotency_key r, r) else e) <$> book) =
    if decide (k = mr_idempotency_key r)
    then if existsb (λ e : string * MutationReceipt, bool_decide (e.1 = k)) book then Some r else None
    else book_get k book.
Proof.
  induction 1 as [|e book [He _] _ IH]; [simpl; by case_decide|].
  rewrite fmap_cons, !book_get_cons, IH. simpl.
  destruct (decide (e.1 = mr_idempotency_key r)) as [E|E]; simpl.
  - repeat case_decide; simplify_eq; try congruence.
    by rewrite bool_decide_true.
  - destruct (decide (k = mr_idempotency_key r)) as [->|].
    + rewrite decide_False by congruence. by rewrite bool_decide_false.
    + done.
Qed.

Lemma book_get_put k r book :
  book_ok book →
  book_get k (book_put r book) = if decide (k = mr_idempotency_key r) then Some r else book_get k book.
Proof.
  intros Hb. unfold book_put.
  destruct (existsb _ book) eqn:E.
  - rewrite book_get_replace by done. case_decide; [|done]. subst. by rewrite E.
  - rewrite book_get_app, book_get_cons. simpl. case_decide as Hk.
    + subst. rewrite book_get_absent by done. by rewrite decide_True.
    + rewrite decide_False by congruence. by destruct (book_get k book).
Qed.

Lemma book_put_ok r book : book_ok book → settled r → book_ok (book_put r book).
Proof.
  intros Hb Hr.
  assert (receipt_ok (mr_idempotency_key r, r)).
  { split; [done|]. simpl. intros Hc. destruct Hr as [Hr|[]]; [congruence|done]. }
  unfold book_put. destruct (existsb _ book).
  - apply Forall_fmap. eapply Forall_impl; [exact Hb|]. intros e He. simpl. by case_decide.
  - apply Forall_app. split; [done|]. by apply Forall_singleton.
Qed.

Lemma book_get_in k book r : book_ok book → book_get k book = Some r → receipt_ok (k, r).
Proof.
  induction 1 as [|e book He _ IH]; [done|]. rewrite book_get_cons.
  case_decide; [|done]. intros [= <-]. by destruct He.
Qed.

(** ** What a commit does *)

Lemma non_empty_str_ok model s t : non_empty_str model s = Ok t → t = str_strip s.
Proof. unfold non_empty_str. case_match; [by intros [= <-]|done]. Qed.

Lemma build_receipt_ok op target pre post id hash key st r :
  build_receipt op target pre post id hash key st [] = Ok r →
  mr_idempotency_key r = str_strip key ∧ mr_effect_state r = st ∧
  mr_provider_id r = str_strip <$> id ∧ Some (mr_response_hash r) = hash.
Proof.
  unfold build_receipt. simpl. destruct hash as [h|]; [|done].
  do 2 (case_decide; [done|]). intros (e & He & [= <-])%rbind_ok. simpl.
  revert He. unfold effect_reference.
  intros (k & ->%non_empty_str_ok & (p & _ & (o & _ & (i & Hi & He)%rbind_ok)%rbind_ok)%rbind_ok)%rbind_ok.
  case_match; [|done]. injection He as <-. simpl. repeat split.
  destruct id as [i'|]; [|by injection Hi as <-].
  apply rbind_ok in Hi as (? & ->%non_empty_str_ok & [= <-]). done.
Qed.

Section commit_spec.
Context {F : Type} (fixture : ListingFixture F).

Local Abbreviation commit := (commit_listing_mutation fixture).

(** A call either raises and leaves the book alone, or stores what it returns. *)
Definition stores (m : ListingMutation) (c : M (ReceiptBook * F) exn MutationReceipt) : Prop :=
  ∀ s, match c s with
       | (Ok r, s') => s'.1 = book_put r s.1 ∧ settled r ∧ mr_idempotency_key r = str_strip (lm_idempotency_key m)
       | (Raise _, s') => s'.1 = s.1
       end.

Lemma stores_remember m id st :
  st = UNKNOWN ∨ st = CONFIRMED ∧ given id = true → stores m (_remember m id st).
Proof.
  intros Hst s. unfold _remember, pybind, lift_result.
  destruct (build_receipt _ _ _ _ _ _ _ _ _) as [r|e] eqn:Hr; simpl; [|done].
  apply build_receipt_ok in Hr as (Hk & Hs & Hi & _). split_and!; [done| |done].
  unfold settled. rewrite Hs, Hi. destruct Hst as [|[]]; [by left|right]. by destruct id.
Qed.

Lemma stores_fixture_bind {A} m (c : M F exn A) k :
  (∀ a, stores m (k a)) → stores m (pybind (on_snd c) k).
Proof.
  intros Hk [b f]. unfold pybind, on_snd. simpl.
  destruct (c f) as [[a|e] f']; [apply (Hk a (b, f'))|done].
Qed.

Lemma stores_reconcile m : stores m (_reconcile_timeout fixture m).
Proof.
  unfold _reconcile_timeout. apply stores_fixture_bind. intros o.
  destruct (ro_observed o); simpl; [|done].
  destruct (ro_unknown o); [apply stores_remember; by left|].
  destruct (ro_provider_id o); [apply stores_remember; by right|].
  apply stores_fixture_bind. intros i. apply stores_remember. by right.
Qed.

Lemma stores_create m : stores m (create_or_reconcile fixture m).
Proof.
  intros [b f]. unfold create_or_reconcile, on_snd. simpl.
  destruct (fx_create fixture _ f) as [[i|e] f'].
  - apply (stores_remember m (Some i) CONFIRMED (or_intror (conj eq_refl eq_refl)) (b, f')).
  - destruct (isa _ _); [apply (stores_reconcile m (b, f'))|done].
Qed.

Lemma commit_settled m s r :
  book_get (lm_idempotency_key m) s.1 = Some r → settled r → commit m s = (Ok r, s).
Proof.
  intros Hg Hr. unfold commit_listing_mutation, pybind, gets. rewrite Hg.
  destruct Hr as [Hr|[Hr _]]; rewrite Hr; [by rewrite decide_True|].
  rewrite decide_False by done. by rewrite decide_True.
Qed.

Lemma commit_cases m s :
  (∃ r, book_get (lm_idempotency_key m) s.1 = Some r ∧
     (mr_effect_state r = UNKNOWN ∨ mr_effect_state r = CONFIRMED) ∧ commit m s = (Ok r, s)) ∨
  commit m s = create_or_reconcile fixture m s.
Proof.
  unfold commit_listing_mutation, pybind, gets.
  destruct (book_get _ _) as [r|]; [|by right].
  repeat case_decide; eauto 7.
Qed.

(** What a successful commit leaves under a key without surrounding whitespace. *)
Lemma commit_stored m s r s' :
  book_ok s.1 → str_strip (lm_idempotency_key m) = lm_idempotency_key m → commit m s = (Ok r, s') →
  book_ok s'.1 ∧ settled r ∧ book_get (lm_idempotency_key m) s'.1 = Some r.
Proof.
  intros Hb Hm. destruct (commit_cases m s) as [(r' & Hg & Hst & ->) | ->].
  - intros [= <- <-]. split_and!; [done| |done].
    destruct (book_get_in _ _ _ Hb Hg) as [_ Hi]. simpl in Hi.
    destruct Hst as [Hst|Hst]; [by left|right]. auto.
  - pose proof (stores_create m s) as H. intros Hc. rewrite Hc in H. destruct H as (-> & Hr & Hk).
    split_and!; [by apply book_put_ok|done|].
    rewrite book_get_put by done. by rewrite decide_True by congruence.
Qed.

Lemma commit_ok m s : book_ok s.1 → book_ok (commit m s).2.1.
Proof.
  intros Hb. destruct (commit_cases m s) as [(r & _ & _ & ->) | ->]; [done|].
  pose proof (stores_create m s) as H. destruct (create_or_reconcile _ m s) as [[r|e] s']; simpl.
  - destruct H as (-> & ? & _). by apply book_put_ok.
  - by rewrite H.
Qed.

(** A commit does not write over the receipts of [k]: it is of this very key, or its key
    does not strip to it. *)
Definition spares_key (k : string) (m : ListingMutation) : Prop :=
  lm_idempotency_key m = k ∨ str_strip (lm_idempotency_key m) ≠ k.

(** A commit that spares a key keeps the settled receipt stored under it. *)
Lemma commit_keeps m s k r :
  book_ok s.1 → spares_key k m →
  book_get k s.1 = Some r → settled r → book_get k (commit m s).2.1 = Some r.
Proof.
  intros Hb Hm Hk Hr. destruct (decide (lm_idempotency_key m = k)) as [<-|Hne].
  - by rewrite (commit_settled _ _ _ Hk Hr).
  - destruct (commit_cases m s) as [(r' & _ & _ & ->) | ->]; [done|].
    pose proof (stores_create m s) as H. destruct (create_or_reconcile _ m s) as [[r'|e] s']; simpl.
    + destruct H as (-> & _ & Hr'). rewrite book_get_put by done. rewrite decide_False; [done|].
      rewrite Hr'. destruct Hm as [Hm|Hm]; [done|by intros ->].
    + by rewrite H.
Qed.

Lemma commit_all_keeps ms s k r :
  book_ok s.1 → Forall (spares_key k) ms →
  book_get k s.1 = Some r → settled r → book_get k (commit_all fixture ms s).1 = Some r.
Proof.
  intros Hb Hms Hk Hr. revert s Hb Hk. induction Hms as [|m ms Hm _ IH]; intros s Hb Hk; [done|].
  simpl. apply IH; [by apply commit_ok|by apply commit_keeps].
Qed.
End commit_spec.

(** C32: a listing write whose idempotency key carries no surrounding whitespace is committed
    once: after a commit that returned a receipt, and any commits that follow, successful or
    not, of this very key or of keys that do not become it when they are stripped, every
    further commit of the key returns the same receipt and touches neither the provider nor
    the book.  The receipt is UNKNOWN, or it is CONFIRMED and names the provider object. *)
Theorem mutation_committed_once {F} (fixture : ListingFixture F) m s r s' ms m' :
  book_ok s.1 → str_strip (lm_idempotency_key m) = lm_idempotency_key m →
  Forall (spares_key (lm_idempotency_key m)) ms →
  commit_listing_mutation fixture m s = (Ok r, s') → lm_idempotency_key m' = lm_idempotency_key m →
  settled r ∧
  commit_listing_mutation fixture m' (commit_all fixture ms s') = (Ok r, commit_all fixture ms s').
Proof.
  intros Hb Hm Hms Hc Hk.
  destruct (commit_stored fixture m s r s' Hb Hm Hc) as (Hb' & Hr & Hg). split; [done|].
  apply commit_settled; [|done]. rewrite Hk. by apply commit_all_keeps.
Qed.

(** ** Keys and timeouts that escape the book *)

(** A provider double that records its calls, most recent first. *)
Inductive provider_call : Set := create_call | read_call.

Definition honest_fixture : ListingFixture (list provider_call) := {|
  fx_create := λ _ log, (Ok "L1", create_call :: log);
  fx_read := λ _ log, (Ok {| ro_observed := true; ro_provider_id := None; ro_unknown := false |},
                       read_call :: log) |}.

(** A double whose writes reach the provider but never answer, while reads lag behind. *)
Definition timeout_fixture : ListingFixture (list provider_call) := {|
  fx_create := λ k log, (Raise (Exn WriteTimeout k), create_call :: log);
  fx_read := fx_read honest_fixture |}.

Definition sample_mutation (key : string) : ListingMutation := {|
  lm_operation := "create_draft"; lm_listing_target := "listing"; lm_pre_state := "none";
  lm_expected_post_state := "draft"; lm_idempotency_key := key |}.

Lemma mutation_committed_once_witness :
  (commit_listing_mutation honest_fixture (sample_mutation "k") ([], [])).1 =
    (commit_listing_mutation honest_fixture (sample_mutation "k")
       (commit_all honest_fixture [sample_mutation " j"; sample_mutation "k"]
          (commit_listing_mutation honest_fixture (sample_mutation "k") ([], [])).2)).1.
Proof.
  destruct (commit_listing_mutation honest_fixture (sample_mutation "k") ([], [])) as [[r|e] s'] eqn:Hc.
  - destruct (mutation_committed_once honest_fixture (sample_mutation "k") ([], []) r s'
      [sample_mutation " j"; sample_mutation "k"] (sample_mutation "k")) as [_ H];
      [constructor|reflexivity| |exact Hc|reflexivity|].
    + constructor; [by right|]. constructor; [by left|constructor].
    + exact (eq_sym (f_equal fst H)).
  - exfalso. revert Hc. vm_compute. discriminate.
Defined.

(** The padded key is stored as the plain one: its receipt replaces the plain key's, which a
    later commit of the plain key returns. *)
Lemma padded_key_replaces :
  (commit_listing_mutation honest_fixture (sample_mutation "k") ([], [])).1 ≠
    (commit_listing_mutation honest_fixture (sample_mutation "k")
       (commit_all honest_fixture [sample_mutation "k"; sample_mutation " k"] ([], []))).1.
Proof. vm_compute. discriminate. Qed.

(** A key with surrounding whitespace is stored stripped, so its receipt is never found and
    the same mutation is created again. *)
Lemma padded_key_creates_twice :
  (commit_all honest_fixture [sample_mutation " k"; sample_mutation " k"] ([], [])).2 =
    [create_call; create_call].
Proof. reflexivity. Qed.

(** When the create that follows the read times out too, no receipt is left: the next commit
    creates again without a read. *)
Lemma second_timeout_creates_unread :
  (commit_all timeout_fixture [sample_mutation "k"] ([], [])).2 = [create_call; read_call; create_call] ∧
  (commit_all timeout_fixture [sample_mutation "k"; sample_mutation "k"] ([], [])).2 =
    [create_call; read_call; create_call; create_call; read_call; create_call].
Proof. split; reflexivity. Qed.
