(* ===== verification/SupportIntake.v ===== *)
(** * Support intake

    [assets/support_intake.py]: one incident per shop, buyer reference and time, one repair
    version per incident and key, a resolution that needs an independent later read, and
    reply drafts that are never sent. *)

From S2P Require Import Prelude PyText PyLines Sha256 Sha1 Enums Errors Contracts PyDict.
Open Scope string_scope.
Open Scope Z_scope.

Definition _NAMESPACE : uuid := 0xb7c1d2e34f504a618b729c0d1e2f3a4b.
Definition _SECRET_MARKS : list string := ["@"; "://"; "bearer"; "sk_"].
Definition _ACK := "We received this once.".
Definition _INVITE := "Reply if the issue remains.".

Inductive IntakeStatus : Set := OPEN | BLOCKED | RESOLVED.
Inductive ReplyMode : Set := draft | auto.

#[export] Instance IntakeStatus_eq_dec : EqDecision IntakeStatus.
Proof. solve_decision. Defined.

#[export] Instance ReplyMode_eq_dec : EqDecision ReplyMode.
Proof. solve_decision. Defined.

Definition refusal {A} (code : string) : result exn A := Raise (Exn SupportRefusal code).

Definition refuse_if (c : bool) (code : string) : result exn unit := if c then refusal code else Ok tt.

Record PlanStep := {
  ps_job_type : string;
  ps_day_offset : Z;
  ps_inserted : bool;
}.

Record IntakeRecord := {
  in_incident_id : uuid;
  in_shop_id : uuid;
  in_buyer_reference : string;
  in_listing_id : option uuid;
  in_product_id : uuid;
  in_variant_id : option uuid;
  in_issue_code : string;
  in_incident_type : IncidentType.IncidentType;
  in_safe_summary : string;
  in_attachment_sha256 : string;
  in_attachment_content_type : string;
  in_received_at : datetime;
  in_urgency : string;
  in_status : IntakeStatus;
  in_plan : list PlanStep;
  in_preempts_routine : bool;
  in_cited_product_id : option uuid;
  in_new_product_ids : list uuid;
  in_resume_job_id : option uuid;
  in_resume_phase : option Z;
  in_notice_sha256 : option string;
  in_reactivation_executed : bool;
  in_send_count : Z;
  in_provider_writes : Z;
  in_jobs_inserted : Z;
}.

Record RepairVersion := {
  rv_version_id : uuid;
  rv_incident_id : uuid;
  rv_idempotency_key : string;
  rv_artifact_hash : string;
}.

Record Resolution := {
  rn_status : IntakeStatus;
  rn_repair_job_id : uuid;
  rn_verification_job_id : option uuid;
  rn_resolution_reference : option string;
  rn_resolved_at : option datetime;
  rn_send_count : Z;
}.

Record VerificationRead := {
  vr_repair_job_id : uuid;
  vr_verification_job_id : uuid;
  vr_repaired_hash : string;
  vr_fresh_hash : string;
  vr_repaired_at : datetime;
  vr_read_at : datetime;
  vr_fix : string;
  vr_access_path : string;
}.

Record SupportReply := {
  sr_body : option string;
  sr_send_count : Z;
}.

Record _Spec := {
  sp_incident_type : IncidentType.IncidentType;
  sp_plan : list PlanStep;
  sp_preempts_routine : bool;
  sp_status : IntakeStatus;
}.

Definition _step (job_type : string) (day_offset : Z) : PlanStep :=
  {| ps_job_type := job_type; ps_day_offset := day_offset; ps_inserted := false |}.

Definition spec_of (t : IncidentType.IncidentType) (plan : list PlanStep) (preempts : bool) (status : IntakeStatus) : _Spec :=
  {| sp_incident_type := t; sp_plan := plan; sp_preempts_routine := preempts; sp_status := status |}.

Definition _SPECS : list (string * _Spec) :=
  let repair := _step "IncidentRepairJob" 0 in
  let notion := _step "NotionRepairJob" 0 in
  let listing := _step "ListingRepairJob" 0 in
  [("BROKEN_DELIVERY_LINK", spec_of IncidentType.BROKEN_LINK
      [repair; notion; _step "LinkVerificationJob" 0] true OPEN);
   ("NOTION_PAGE_UNPUBLISHED", spec_of IncidentType.BUILD_DEFECT [repair; notion] true OPEN);
   ("WRONG_VARIANT_LINK", spec_of IncidentType.LISTING_DEFECT [repair; listing] true OPEN);
   ("NO_ACCESS_BLOCK", spec_of IncidentType.BROKEN_LINK [repair; notion] true OPEN);
   ("LINKED_VIEW_BROKEN", spec_of IncidentType.BUILD_DEFECT [repair; notion] true OPEN);
   ("FORMULA_ERROR", spec_of IncidentType.BUILD_DEFECT [repair; notion] true OPEN);
   ("DOWNLOAD_FILE_MISSING", spec_of IncidentType.LISTING_DEFECT [repair; listing] true OPEN);
   ("LISTING_DEACTIVATED", spec_of IncidentType.LISTING_DEFECT [listing] false OPEN);
   ("ACCOUNT_VERIFICATION", spec_of IncidentType.CREDENTIAL_FAILURE [] false BLOCKED);
   ("DEDUPE_REJECTION", spec_of IncidentType.CUSTOMER_ISSUE [_step "ReconceptProductJob" 0] false OPEN);
   ("AGENT_RUN_INTERRUPTED", spec_of IncidentType.TERMINAL_JOB_FAILURE [repair] false OPEN);
   ("NO_SALES_DIAGNOSIS", spec_of IncidentType.LISTING_DEFECT
      [_step "ListingRepairJob" 0; _step "ResearchCollectionJob" 14] false OPEN);
   ("OTHER_PRODUCT_DEFECT", spec_of IncidentType.BUILD_DEFECT [repair] false OPEN)].

(** ** The ledger *)

Definition IssueKey : Type := uuid * string * datetime.
Definition RepairKey : Type := uuid * string.

Record IntakeLedger := {
  il_issues : list (IssueKey * IntakeRecord);
  il_repairs : list (RepairKey * RepairVersion);
  il_sends : Z;
}.

Definition new_ledger : IntakeLedger := {| il_issues := []; il_repairs := []; il_sends := 0 |}.

Definition issues (ledger : IntakeLedger) : list IntakeRecord := (il_issues ledger).*2.

Definition get_issue (key : IssueKey) (ledger : IntakeLedger) : option IntakeRecord :=
  dict_get key (il_issues ledger).

Definition put_issue (key : IssueKey) (record : IntakeRecord) (ledger : IntakeLedger) : IntakeLedger :=
  {| il_issues := dict_put key record (il_issues ledger); il_repairs := il_repairs ledger; il_sends := il_sends ledger |}.

Definition get_repair (key : RepairKey) (ledger : IntakeLedger) : option RepairVersion :=
  dict_get key (il_repairs ledger).

Definition put_repair (key : RepairKey) (version : RepairVersion) (ledger : IntakeLedger) : IntakeLedger :=
  {| il_issues := il_issues ledger; il_repairs := dict_put key version (il_repairs ledger); il_sends := il_sends ledger |}.

Definition repair_count (incident_id : uuid) (ledger : IntakeLedger) : nat :=
  length (filter (λ e : RepairKey * RepairVersion, e.1.1 = incident_id) (il_repairs ledger)).

(** ** Intake *)

(** [any(mark in text.casefold() for mark in _SECRET_MARKS)] *)
Definition marked (text : string) : bool := existsb (λ mark, str_in mark (str_lower text)) _SECRET_MARKS.

Definition _clean_reference (value code : string) : result exn string :=
  let text := str_strip value in
  do? refuse_if (bool_decide (text = "") || marked text) code;
  Ok text.

Definition _sha256 (value code : string) : result exn string :=
  do? refuse_if (negb (hex_text 64 value)) code;
  Ok value.

(** The keyword arguments of [open_issue]; [caller_priority] is discarded there. *)
Record IssueRequest := {
  iq_shop_id : uuid;
  iq_buyer_reference : string;
  iq_listing_id : option uuid;
  iq_product_id : uuid;
  iq_variant_id : option uuid;
  iq_issue_code : string;
  iq_safe_summary : string;
  iq_attachment_sha256 : string;
  iq_attachment_content_type : string;
  iq_received_at : datetime;
  iq_urgency : string;
  iq_notice_sha256 : option string;
  iq_resume_job_id : option uuid;
  iq_resume_phase : option Z;
}.

(** The key and the record of a request that passes every check. *)
Definition checked_issue (q : IssueRequest) : result exn (IssueKey * IntakeRecord) :=
  let? reference := _clean_reference (iq_buyer_reference q) "buyer_reference" in
  let? summary := _clean_reference (iq_safe_summary q) "unsafe_summary" in
  let? digest := _sha256 (iq_attachment_sha256 q) "attachment_sha256" in
  let content_type := str_strip (iq_attachment_content_type q) in
  do? refuse_if (bool_decide (content_type = "") || marked content_type) "content_type";
  do? refuse_if (bool_decide (iq_urgency q ∉ ["low"; "normal"; "high"])) "urgency";
  match dict_get (iq_issue_code q) _SPECS with
  | None => refusal "issue_code"
  | Some spec =>
      let? notice :=
        (if decide (iq_issue_code q = "LISTING_DEACTIVATED") then
           match iq_notice_sha256 q with
           | None => refusal "notice"
           | Some notice => let? notice := _sha256 notice "notice" in Ok (Some notice)
           end
         else Ok None) in
      let? resume :=
        (if decide (iq_issue_code q = "AGENT_RUN_INTERRUPTED") then
           match iq_resume_job_id q, iq_resume_phase q with
           | Some job, Some phase => if phase <? 1 then refusal "resume_phase" else Ok (Some (job, phase))
           | _, _ => refusal "resume_phase"
           end
         else Ok None) in
      Ok ((iq_shop_id q, reference, iq_received_at q),
        {| in_incident_id := uuid5 _NAMESPACE
             (uuid_str (iq_shop_id q) ++ ":" ++ reference ++ ":" ++ isoformat (iq_received_at q));
           in_shop_id := iq_shop_id q; in_buyer_reference := reference; in_listing_id := iq_listing_id q;
           in_product_id := iq_product_id q; in_variant_id := iq_variant_id q;
           in_issue_code := iq_issue_code q; in_incident_type := sp_incident_type spec;
           in_safe_summary := summary; in_attachment_sha256 := digest;
           in_attachment_content_type := content_type; in_received_at := iq_received_at q;
           in_urgency := iq_urgency q; in_status := sp_status spec; in_plan := sp_plan spec;
           in_preempts_routine := sp_preempts_routine spec;
           in_cited_product_id := if decide (iq_issue_code q = "DEDUPE_REJECTION") then Some (iq_product_id q) else None;
           in_new_product_ids := []; in_resume_job_id := fst <$> resume; in_resume_phase := snd <$> resume;
           in_notice_sha256 := notice; in_reactivation_executed := false; in_send_count := 0;
           in_provider_writes := 0; in_jobs_inserted := 0 |})
  end.

Definition open_issue (q : IssueRequest) : M IntakeLedger exn IntakeRecord :=
  let* checked := lift_result (checked_issue q) in
  let* existing := gets (get_issue checked.1) in
  match existing with
  | Some existing => pyret existing
  | None => do* modify (put_issue checked.1 checked.2); pyret checked.2
  end.

Definition record_repair (incident_id : uuid) (idempotency_key artifact_hash : string)
    : M IntakeLedger exn RepairVersion :=
  let key_text := str_strip idempotency_key in
  do* lift_result (refuse_if (bool_decide (key_text = "")) "idempotency_key");
  let* digest := lift_result (_sha256 artifact_hash "artifact_hash") in
  let key := (incident_id, key_text) in
  let* existing := gets (get_repair key) in
  match existing with
  | Some existing => pyret existing
  | None =>
      let version :=
        {| rv_version_id := uuid5 _NAMESPACE (uuid_str incident_id ++ ":" ++ key_text ++ ":" ++ digest);
           rv_incident_id := incident_id; rv_idempotency_key := key_text; rv_artifact_hash := digest |} in
      do* modify (put_repair key version); pyret version
  end.

(** ** Resolution and replies *)

Definition _verified (read : VerificationRead) : bool :=
  negb (bool_decide (vr_verification_job_id read = vr_repair_job_id read)) &&
  bool_decide (vr_fresh_hash read = vr_repaired_hash read) &&
  (vr_repaired_at read <? vr_read_at read).

Definition resolve_issue (read : VerificationRead) : Resolution :=
  if negb (_verified read) then
    {| rn_status := OPEN; rn_repair_job_id := vr_repair_job_id read; rn_verification_job_id := None;
       rn_resolution_reference := None; rn_resolved_at := None; rn_send_count := 0 |}
  else
    {| rn_status := RESOLVED; rn_repair_job_id := vr_repair_job_id read;
       rn_verification_job_id := Some (vr_verification_job_id read);
       rn_resolution_reference := Some (vr_fresh_hash read); rn_resolved_at := Some (vr_read_at read);
       rn_send_count := 0 |}.

Definition draft_reply (read : VerificationRead) (mode : ReplyMode) : M IntakeLedger exn SupportReply :=
  let* reply :=
    (if bool_decide (mode = auto) || negb (_verified read)
     then pyret {| sr_body := None; sr_send_count := 0 |}
     else
       let fix_ := str_strip (vr_fix read) in
       let path := str_strip (vr_access_path read) in
       do* lift_result (refuse_if
         (bool_decide (fix_ = "") || bool_decide (path = "") || marked (fix_ ++ " " ++ path)) "reply");
       pyret {| sr_body := Some (_ACK ++ " " ++ fix_ ++ " " ++ path ++ " " ++ _INVITE); sr_send_count := 0 |}) in
  let* sends := gets il_sends in
  do* lift_result (refuse_if (negb (sends =? 0)) "sends");
  pyret reply.

(** A span in days. *)
Definition no_sales_span (record : IntakeRecord) : option timedelta :=
  if negb (bool_decide (in_issue_code record = "NO_SALES_DIAGNOSIS")) then None
  else match in_plan record with
       | [first; second] => Some ((ps_day_offset second - ps_day_offset first) * day_us)
       | _ => None
       end.

(** ** The ledger over time *)

Inductive intake_call : Type :=
  | OpenIssue (q : IssueRequest)
  | RecordRepair (incident_id : uuid) (idempotency_key artifact_hash : string)
  | DraftReply (read : VerificationRead) (mode : ReplyMode).

(** The ledger after a call, refused or not. *)
Definition call (c : intake_call) (ledger : IntakeLedger) : IntakeLedger :=
  match c with
  | OpenIssue q => (open_issue q ledger).2
  | RecordRepair i k h => (record_repair i k h ledger).2
  | DraftReply r m => (draft_reply r m ledger).2
  end.

Definition calls (cs : list intake_call) (ledger : IntakeLedger) : IntakeLedger := foldl (flip call) ledger cs.

(** What a stored incident looks like. *)
Record issue_ok (key : IssueKey) (r : IntakeRecord) : Prop := {
  io_key : key = (in_shop_id r, in_buyer_reference r, in_received_at r);
  io_id : in_incident_id r = uuid5 _NAMESPACE
    (uuid_str (in_shop_id r) ++ ":" ++ in_buyer_reference r ++ ":" ++ isoformat (in_received_at r));
  io_spec : ∃ spec, (in_issue_code r, spec) ∈ _SPECS ∧ in_incident_type r = sp_incident_type spec ∧
    in_plan r = sp_plan spec ∧ in_status r = sp_status spec ∧ in_preempts_routine r = sp_preempts_routine spec;
  io_clean : marked (in_buyer_reference r) = false ∧ marked (in_safe_summary r) = false ∧
    marked (in_attachment_content_type r) = false;
  io_hash : hex_text 64 (in_attachment_sha256 r) = true;
  io_notice : is_Some (in_notice_sha256 r) ↔ in_issue_code r = "LISTING_DEACTIVATED";
  io_resume : (is_Some (in_resume_job_id r) ∧ ∃ phase, in_resume_phase r = Some phase ∧ 1 <= phase) ∨
    in_issue_code r ≠ "AGENT_RUN_INTERRUPTED" ∧ in_resume_job_id r = None ∧ in_resume_phase r = None;
  io_inert : in_send_count r = 0 ∧ in_provider_writes r = 0 ∧ in_jobs_inserted r = 0 ∧
    in_reactivation_executed r = false ∧ in_new_product_ids r = [];
}.

Lemma refuse_if_ok c code u : refuse_if c code = Ok u ↔ c = false.
Proof. unfold refuse_if, refusal. destruct c, u; naive_solver. Qed.

Lemma clean_ok v code r : _clean_reference v code = Ok r → r = str_strip v ∧ r ≠ "" ∧ marked r = false.
Proof.
  unfold _clean_reference. intros (u & [H1%bool_decide_eq_false H2]%refuse_if_ok%orb_false_iff & [= <-])%rbind_ok.
  done.
Qed.

Lemma sha_ok v code r : _sha256 v code = Ok r → r = v ∧ hex_text 64 v = true.
Proof. unfold _sha256. intros (u & Hu%refuse_if_ok%negb_false_iff & [= <-])%rbind_ok. done. Qed.

Lemma checked_issue_ok q key r : checked_issue q = Ok (key, r) → issue_ok key r.
Proof.
  unfold checked_issue. intros (reference & (_ & _ & Href)%clean_ok & H)%rbind_ok.
  apply rbind_ok in H as (summary & (_ & _ & Hsum)%clean_ok & H).
  apply rbind_ok in H as (digest & [-> Hdig]%sha_ok & H).
  apply rbind_ok in H as (u & [_ Hct]%refuse_if_ok%orb_false_iff & H). apply rbind_ok in H as (u' & _ & H).
  destruct (dict_get (iq_issue_code q) _SPECS) as [spec|] eqn:Hspec; [|done].
  apply rbind_ok in H as (notice & Hnotice & H). apply rbind_ok in H as (resume & Hresume & H).
  injection H as <- <-. split; simpl; try done.
  - exists spec. by apply dict_get_elem in Hspec.
  - destruct (decide (iq_issue_code q = "LISTING_DEACTIVATED")) as [Hc|Hc]; [|injection Hnotice as <-; split; [by intros []|done]].
    destruct (iq_notice_sha256 q); [|done]. apply rbind_ok in Hnotice as (n & _ & [= <-]). done.
  - destruct (decide (iq_issue_code q = "AGENT_RUN_INTERRUPTED")) as [Hc|Hc]; [|injection Hresume as <-; by right].
    destruct (iq_resume_job_id q), (iq_resume_phase q) as [phase|]; try done.
    destruct (phase <? 1) eqn:Hp; [done|]. injection Hresume as <-. left. simpl.
    split; [done|]. exists phase. split; [done|]. lia.
Qed.

Record ledger_ok (ledger : IntakeLedger) : Prop := {
  lo_keys : NoDup (il_issues ledger).*1;
  lo_issues : ∀ key r, (key, r) ∈ il_issues ledger → issue_ok key r;
  lo_repair_keys : NoDup (il_repairs ledger).*1;
  lo_repairs : ∀ key v, (key, v) ∈ il_repairs ledger →
    key = (rv_incident_id v, rv_idempotency_key v) ∧ hex_text 64 (rv_artifact_hash v) = true;
  lo_sends : il_sends ledger = 0;
}.

Lemma ledger_ok_new : ledger_ok new_ledger.
Proof. split; simpl; try done; try (by intros ? ? []%elem_of_nil); constructor. Qed.

Lemma dict_put_elem {K A} `{!EqDecision K} (k k' : K) (a a' : A) d :
  dict_get k d = None → (k', a') ∈ dict_put k a d → (k', a') = (k, a) ∨ (k', a') ∈ d.
Proof. intros Hk. rewrite (dict_put_new _ _ _ Hk), elem_of_app, list_elem_of_singleton. tauto. Qed.

(** Opening either finds the incident of its key or stores a new one. *)
Lemma open_issue_cases q ledger :
  match checked_issue q with
  | Raise e => open_issue q ledger = (Raise e, ledger)
  | Ok (key, r) =>
      open_issue q ledger = match get_issue key ledger with
                            | Some old => (Ok old, ledger)
                            | None => (Ok r, put_issue key r ledger)
                            end
  end.
Proof.
  unfold open_issue, pybind, lift_result, gets, modify, pyret. destruct (checked_issue q) as [[key r]|]; [|done].
  simpl. by destruct (get_issue key ledger).
Qed.

Lemma open_issue_keeps q ledger : ledger_ok ledger → ledger_ok (open_issue q ledger).2.
Proof.
  intros Hl. pose proof (open_issue_cases q ledger) as H.
  destruct (checked_issue q) as [[key r]|] eqn:Hq; [|by rewrite H].
  destruct (get_issue key ledger) as [old|] eqn:Hg; rewrite H; simpl; [done|].
  destruct Hl. split; simpl; try done; [by apply dict_put_nodup|].
  intros key' r' [[= -> ->]|Hin]%dict_put_elem; [by eapply checked_issue_ok|by apply lo_issues0|done].
Qed.

Lemma record_repair_cases i k h ledger :
  (∃ e, record_repair i k h ledger = (Raise e, ledger)) ∨
  (∃ v, record_repair i k h ledger = (Ok v, ledger) ∧ get_repair (i, str_strip k) ledger = Some v) ∨
  (∃ v, record_repair i k h ledger = (Ok v, put_repair (i, str_strip k) v ledger) ∧
     get_repair (i, str_strip k) ledger = None ∧ rv_incident_id v = i ∧ rv_idempotency_key v = str_strip k ∧
     rv_artifact_hash v = h ∧ hex_text 64 h = true).
Proof.
  unfold record_repair, pybind, lift_result, gets, modify, pyret.
  destruct (refuse_if _ _) as [u|e]; [|by left; eauto].
  destruct (_sha256 h "artifact_hash") as [d|e] eqn:Hd; [|by left; eauto].
  apply sha_ok in Hd as [-> Hh]. destruct (get_repair (i, str_strip k) ledger) as [v|] eqn:Hg.
  - right. left. by exists v.
  - right. right. eexists. by split_and!.
Qed.

Lemma record_repair_keeps i k h ledger : ledger_ok ledger → ledger_ok (record_repair i k h ledger).2.
Proof.
  intros Hl. destruct (record_repair_cases i k h ledger) as [(e & ->)|[(v & -> & _)|(v & -> & Hg & Hv1 & Hv2 & Hv3 & Hv4)]];
    [done..|].
  destruct Hl. split; simpl; try done; [by apply dict_put_nodup|].
  intros key v' [[= -> ->]|Hin]%dict_put_elem; [|by apply lo_repairs0|done].
  rewrite Hv1, Hv2, Hv3. done.
Qed.

Lemma draft_reply_keeps r m ledger : (draft_reply r m ledger).2 = ledger.
Proof.
  unfold draft_reply, pybind, lift_result, gets, pyret. destruct (bool_decide _ || _); simpl.
  - by destruct (refuse_if _ _).
  - destruct (refuse_if _ "reply"); [|done]. by destruct (refuse_if _ _).
Qed.

Lemma calls_ok cs ledger : ledger_ok ledger → ledger_ok (calls cs ledger).
Proof.
  revert ledger. induction cs as [|c cs IH]; intros ledger Hl; [done|]. apply IH.
  destruct c; simpl; [by apply open_issue_keeps|by apply record_repair_keeps|by rewrite draft_reply_keeps].
Qed.

(** A stored incident and a stored repair stay as they are. *)
Lemma call_keeps c ledger :
  (∀ key r, get_issue key ledger = Some r → get_issue key (call c ledger) = Some r) ∧
  (∀ key v, get_repair key ledger = Some v → get_repair key (call c ledger) = Some v).
Proof.
  destruct c as [q|i k h|r m]; simpl.
  - pose proof (open_issue_cases q ledger) as H. destruct (checked_issue q) as [[key r]|]; [|by rewrite H].
    destruct (get_issue key ledger) eqn:Hg; rewrite H; [done|]. simpl. split; [|done].
    intros key' r' Hr. unfold get_issue in *. simpl. rewrite dict_get_put. case_decide; congruence.
  - destruct (record_repair_cases i k h ledger) as [(e & ->)|[(v & -> & _)|(v & -> & Hg & _)]]; [done..|].
    split; [done|]. intros key v' Hv. unfold get_repair in *. simpl. rewrite dict_get_put. case_decide; congruence.
  - by rewrite draft_reply_keeps.
Qed.

Lemma calls_keep cs ledger :
  (∀ key r, get_issue key ledger = Some r → get_issue key (calls cs ledger) = Some r) ∧
  (∀ key v, get_repair key ledger = Some v → get_repair key (calls cs ledger) = Some v).
Proof.
  revert ledger. induction cs as [|c cs IH]; intros ledger; [done|]. destruct (IH (call c ledger)), (call_keeps c ledger).
  split; intros; auto.
Qed.

(** C29: The first incident of a key is the one every later intake of that key returns, whatever
    happens between. *)
Theorem first_incident_is_kept cs1 cs2 q q' key r0 r0' :
  checked_issue q = Ok (key, r0) → checked_issue q' = Ok (key, r0') →
  let ledger := calls cs1 new_ledger in
  ∃ r, (open_issue q ledger).1 = Ok r ∧ issue_ok key r ∧
    (get_issue key ledger = None → r = r0) ∧
    let later := calls cs2 (open_issue q ledger).2 in
    open_issue q' later = (Ok r, later) ∧ ledger_ok later.
Proof.
  intros Hq Hq' ledger. pose proof (calls_ok cs1 _ ledger_ok_new) as Hok. fold ledger in Hok.
  pose proof (open_issue_cases q ledger) as Hopen. rewrite Hq in Hopen.
  assert (∃ r, open_issue q ledger = (Ok r, (open_issue q ledger).2) ∧ issue_ok key r ∧
    (get_issue key ledger = None → r = r0) ∧ get_issue key (open_issue q ledger).2 = Some r) as (r & Hr & Hi & Hnew & Hget).
  { rewrite Hopen. destruct (get_issue key ledger) as [old|] eqn:Hg.
    - exists old. split_and!; [done| |done|done]. destruct Hok. by eapply lo_issues0, dict_get_elem.
    - exists r0. split_and!; [done|by eapply checked_issue_ok|done|].
      unfold get_issue. simpl. by rewrite dict_get_put, decide_True. }
  exists r. split_and!; [by rewrite Hr|done|done|].
  intros later. assert (Hlater : get_issue key later = Some r) by (by apply calls_keep).
  pose proof (open_issue_cases q' later) as Ho. rewrite Hq', Hlater in Ho.
  split; [done|]. apply calls_ok. by apply open_issue_keeps.
Qed.

(** ** What a reply may say *)

Lemma prefix_before c n a b : str_free c n = true → String.prefix n (a ++ String c b) = true → String.prefix n a = true.
Proof.
  revert a. induction n as [|x n IH]; intros a; [by destruct a|]. simpl. intros [Hx Hn]%andb_true_iff.
  destruct a as [|y a]; simpl; destruct (Ascii.ascii_dec _ _) as [->|]; try done; [|by apply IH].
  intros _. by rewrite decide_True in Hx.
Qed.

(** A needle without [c] lies on one side of [c]. *)
Lemma str_in_around c n a b :
  str_free c n = true → n ≠ "" → str_in n (a ++ String c b) = true → str_in n a = true ∨ str_in n b = true.
Proof.
  intros Hc Hn. induction a as [|x a IH].
  - simpl. destruct n as [|y n]; [done|]. simpl in Hc. apply andb_true_iff in Hc as [Hy _].
    simpl. destruct (Ascii.ascii_dec y c) as [->|]; [by rewrite decide_True in Hy|]. auto.
  - change (String x a ++ String c b) with (String x (a ++ String c b)). simpl. rewrite !orb_true_iff.
    intros [Hp|Hin].
    + left. left. exact (prefix_before c n (String x a) b Hc Hp).
    + destruct (IH Hin); auto.
Qed.

Lemma str_lower_app a b : str_lower (a ++ b) = str_lower a ++ str_lower b.
Proof. induction a as [|x a IH]; [done|]. exact (f_equal (String (ascii_lower x)) IH). Qed.

Definition space : Ascii.ascii := Ascii.ascii_of_N 32.

(** Joining clean texts with a space gives a clean text. *)
Lemma marked_join a b : marked a = false → marked b = false → marked (a ++ " " ++ b) = false.
Proof.
  unfold marked. rewrite <- !not_true_iff_false, !existsb_exists. intros Ha Hb (mark & Hin & Hm).
  change (a ++ " " ++ b) with (a ++ String space b) in Hm. rewrite str_lower_app in Hm.
  change (str_lower (String space b)) with (String space (str_lower b)) in Hm.
  assert (Hfree : str_free space mark = true ∧ mark ≠ "").
  { assert (Forall (λ m, str_free space m = true ∧ m ≠ "") _SECRET_MARKS) as Hall by by_decide.
    rewrite Forall_forall in Hall. by apply Hall, list_elem_of_In. }
  destruct Hfree as [Hf Hne]. destruct (str_in_around _ _ _ _ Hf Hne Hm); [apply Ha|apply Hb]; eauto.
Qed.

(** C30: A drafted reply rests on a verification by another job, later than the repair and of the
    repaired content, and carries no secret mark; nothing is sent. *)
Theorem reply_is_verified_and_clean cs read mode reply ledger' :
  draft_reply read mode (calls cs new_ledger) = (Ok reply, ledger') →
  ledger' = calls cs new_ledger ∧ sr_send_count reply = 0 ∧ il_sends ledger' = 0 ∧
  match sr_body reply with
  | None => mode = auto ∨ rn_status (resolve_issue read) = OPEN
  | Some body =>
      mode = draft ∧ rn_status (resolve_issue read) = RESOLVED ∧ marked body = false ∧
      vr_verification_job_id read ≠ vr_repair_job_id read ∧ vr_fresh_hash read = vr_repaired_hash read ∧
      vr_repaired_at read < vr_read_at read
  end.
Proof.
  intros H. pose proof (draft_reply_keeps read mode (calls cs new_ledger)) as Hk. rewrite H in Hk. simpl in Hk. subst ledger'.
  split; [done|]. pose proof (lo_sends _ (calls_ok cs _ ledger_ok_new)) as Hsends.
  apply pybind_ok in H as (r & s1 & Hr & H). apply pybind_ok in H as (sends & s2 & _ & H).
  apply pybind_ok in H as (u & s3 & _ & H). apply pyret_ok in H as [-> _].
  destruct (bool_decide (mode = auto) || negb (_verified read)) eqn:Hc.
  - apply pyret_ok in Hr as [<- _]. split_and!; [done..|]. simpl.
    apply orb_true_iff in Hc as [Hm%bool_decide_eq_true|Hv]; [by left|right]. unfold resolve_issue. by rewrite Hv.
  - apply orb_false_iff in Hc as [Hm%bool_decide_eq_false Hv%negb_false_iff].
    apply pybind_ok in Hr as (u' & s4 & Hu & Hr). unfold lift_result in Hu. injection Hu as Hu _.
    apply refuse_if_ok, orb_false_iff in Hu as [_ Hu]. apply pyret_ok in Hr as [<- _]. split_and!; [done..|]. simpl.
    pose proof Hv as Hv'. unfold _verified in Hv'. rewrite !andb_true_iff in Hv'. destruct Hv' as [[H1 H2] H3].
    apply negb_true_iff, bool_decide_eq_false in H1. apply bool_decide_eq_true in H2. apply Z.ltb_lt in H3.
    unfold resolve_issue. rewrite Hv. split_and!; [by destruct mode|done| |done..].
    apply marked_join; [by vm_compute|].
    replace (str_strip (vr_fix read) ++ " " ++ str_strip (vr_access_path read) ++ " " ++ _INVITE)
      with ((str_strip (vr_fix read) ++ " " ++ str_strip (vr_access_path read)) ++ " " ++ _INVITE)
      by (by rewrite <- !str_app_assoc).
    apply marked_join; [done|by vm_compute].
Qed.

(** ** Worked intakes *)

Definition sample_request (code summary : string) : IssueRequest :=
  {| iq_shop_id := 7; iq_buyer_reference := " order 12 "; iq_listing_id := Some 3%N; iq_product_id := 4;
     iq_variant_id := None; iq_issue_code := code; iq_safe_summary := summary;
     iq_attachment_sha256 := String.concat "" (repeat "a" 64); iq_attachment_content_type := "image/png";
     iq_received_at := 1767225600000000; iq_urgency := "high"; iq_notice_sha256 := None;
     iq_resume_job_id := None; iq_resume_phase := None |}.

(** A second intake under another code still returns the first incident. *)
Theorem first_incident_is_kept_witness :
  let first := sample_request "BROKEN_DELIVERY_LINK" "the link is dead" in
  let second := sample_request "FORMULA_ERROR" "the sum is wrong" in
  let later := (open_issue first new_ledger).2 in
  ∃ r, open_issue second later = (Ok r, later) ∧ in_issue_code r = "BROKEN_DELIVERY_LINK" ∧ ledger_ok later.
Proof.
  intros first second later.
  destruct (checked_issue first) as [[key r0]|e] eqn:H1; [|vm_compute in H1; discriminate].
  destruct (checked_issue second) as [[key' r0']|e] eqn:H2; [|vm_compute in H2; discriminate].
  assert (key' = key) as -> by (vm_compute in H1, H2; congruence).
  destruct (first_incident_is_kept [] [] first second key r0 r0' H1 H2) as (r & _ & _ & Hr & Hlater & Hok).
  specialize (Hr eq_refl) as ->. exists r0. split; [exact Hlater|]. split; [|exact Hok].
  vm_compute in H1. injection H1 as _ <-. reflexivity.
Defined.

Definition sample_read : VerificationRead :=
  {| vr_repair_job_id := 1; vr_verification_job_id := 2; vr_repaired_hash := "h"; vr_fresh_hash := "h";
     vr_repaired_at := 10; vr_read_at := 11; vr_fix := " The link works again. "; vr_access_path := "Open the page." |}.

Theorem reply_is_verified_and_clean_witness :
  ∃ reply, draft_reply sample_read draft new_ledger = (Ok reply, new_ledger) ∧
    sr_body reply = Some "We received this once. The link works again. Open the page. Reply if the issue remains." ∧
    rn_status (resolve_issue sample_read) = RESOLVED ∧ sr_send_count reply = 0.
Proof.
  destruct (draft_reply sample_read draft new_ledger) as [[reply|e] l] eqn:E; [|vm_compute in E; discriminate].
  destruct (reply_is_verified_and_clean [] sample_read draft reply l E) as (-> & Hc & _ & Hb).
  exists reply. split; [reflexivity|]. vm_compute in E. injection E as <-. simpl in *. by destruct Hb as (_ & ? & _).
Defined.
