(* ===== verification/Files.v ===== *)
(** * Files whose operations may fail

    A directory of files with the outcomes of the operations to come.  A failed operation
    raises [OSError] and may still have taken effect, a failed write up to some byte. *)

From S2P Require Import Prelude Errors.
Open Scope string_scope.

(** The outcome of one file operation: done, or an [OSError]; the failed operation may have
    taken effect up to the given number of bytes. *)
Inductive Fault : Set :=
  | NoFault
  | Fails (kept : option nat).

(** The directory and the outcomes of the operations to come; after the last, none fails. *)
Record FileStore (F : Type) := {
  fs_files : gmap string F;
  fs_faults : list Fault
}.
Arguments fs_files {F} _.
Arguments fs_faults {F} _.
Arguments Build_FileStore {F} _ _.

Section files.
Context {F : Type}.
Implicit Types s : FileStore F.

Definition os_error {A} : M (FileStore F) exn A := pyraise (Exn OSError "").

Definition next_fault : M (FileStore F) exn Fault := λ s,
  match fs_faults s with
  | [] => (Ok NoFault, s)
  | f :: fs => (Ok f, {| fs_files := fs_files s; fs_faults := fs |})
  end.

Definition set_files (f : gmap string F → gmap string F) : M (FileStore F) exn unit :=
  modify (λ s, {| fs_files := f (fs_files s); fs_faults := fs_faults s |}).

(** [os.unlink], a missing file being no error. *)
Definition unlink (path : string) : M (FileStore F) exn unit :=
  let* fault := next_fault in
  match fault with
  | NoFault => set_files (delete path)
  | Fails None => os_error
  | Fails (Some _) => do* set_files (delete path); os_error
  end.

(** A call that changes no file, such as [os.fsync] or [os.fdopen]. *)
Definition file_call : M (FileStore F) exn unit :=
  let* fault := next_fault in
  match fault with
  | NoFault => pyret tt
  | Fails _ => os_error
  end.
End files.
