(* ===== verification/LocalStore.v ===== *)
(** * Local asset store

    [integrations/storage/local.py] with the keys of [integrations/storage/interface.py]: a
    content-addressed store below one root directory.  Published objects are written once
    under their hash, temporary ones can be discarded.

    The disk is the tree below the root; a path is the list of its components, and a
    directory handle is the path it was opened at.  Every operation may fail, and another
    process may create the object between the check and the link. *)

From S2P Require Import Prelude PyText PyLines PySort Sha256 Errors.
Open Scope string_scope.
Open Scope Z_scope.

(** ** Keys *)

Inductive StorageRole : Set := temporary | published.

#[export] Instance StorageRole_eq_dec : EqDecision StorageRole.
Proof. solve_decision. Defined.

Definition role_text (r : StorageRole) : string :=
  match r with temporary => "temporary" | published => "published" end.

Record StoredObject := {
  so_storage_uri : string;
  so_sha256 : string;
  so_byte_count : Z;
  so_role : StorageRole;
}.

Definition storage_error {A} (what : string) : result exn A := Raise (Exn ValueError ("storage " ++ what)).

Definition refuse_mode (mode : string) : result exn unit :=
  if decide (mode = "draft") then storage_error "live"
  else if decide (mode = "live") then storage_error "live"
  else if decide (mode = "simulation") then Ok tt
  else storage_error "mode".

(** A [bool] is refused before; here the version is an integer. *)
Definition refuse_spec (spec_version : Z) : result exn unit :=
  if spec_version <? 1 then storage_error "spec" else Ok tt.

Definition require_digest (data sha256 : string) : result exn unit :=
  if negb (String.length sha256 =? 64)%nat then storage_error "hash"
  else if negb (str_all lower_hex sha256) then storage_error "hash"
  else if negb (bool_decide (sha256_hex data = sha256)) then storage_error "digest"
  else Ok tt.

Definition refuse_collision (existing data : string) : result exn unit :=
  if decide (existing ≠ data) then storage_error "collision" else Ok tt.

Definition _prefix (scheme : string) : result exn string :=
  if decide (scheme = "fixture") then Ok "fixture://"
  else if decide (scheme = "temp") then Ok "temp://"
  else if decide (scheme = "s3") then Ok "s3://simulation/"
  else if decide (scheme = "s3temp") then Ok "s3://temporary/"
  else storage_error "scheme".

Definition object_uri (scheme : string) (product_id : uuid) (spec_version : Z) (sha256 : string) : result exn string :=
  do? refuse_spec spec_version;
  let? prefix := _prefix scheme in
  Ok (prefix ++ uuid_str product_id ++ "/" ++ pretty spec_version ++ "/" ++ sha256).

Definition refuse_published (uri : string) : result exn unit :=
  if String.prefix "fixture://" uri then storage_error "published"
  else if String.prefix "s3://simulation/" uri then storage_error "published"
  else Ok tt.

Definition _DOTS : list string := [""; "."; ".."].

Definition dash : Ascii.ascii := Ascii.ascii_of_N 45.

(** The patterns [_UUID], [_SPEC] and [_HEX]. *)
Definition uuid_text (s : string) : bool :=
  match str_split dash s with
  | [a; b; c; d; e] => hex_text 8 a && hex_text 4 b && hex_text 4 c && hex_text 4 d && hex_text 12 e
  | _ => false
  end.

Definition spec_text (s : string) : bool :=
  match s with
  | EmptyString => false
  | String c r => is_digit c && negb (bool_decide (c = Ascii.ascii_of_N 48)) && all_digits r
  end.

Definition digest_text (s : string) : bool := hex_text 64 s.

Definition _split (uri : string) : result exn (StorageRole * string) :=
  match strip_prefix "fixture://" uri with
  | Some rest => Ok (published, rest)
  | None => match strip_prefix "temp://" uri with
            | Some rest => Ok (temporary, rest)
            | None => storage_error "role"
            end
  end.

(** The path of an object, from its role to its hash. *)
Record Key := {
  ky_role : StorageRole;
  ky_product : string;
  ky_spec : string;
  ky_digest : string;
}.

Definition _key (uri : string) : result exn Key :=
  let? split := _split uri in
  let rest := split.2 in
  if String.prefix "/" rest then storage_error "path slash"
  else if str_has backslash rest then storage_error "path backslash"
  else match str_split slash rest with
       | [product; spec; digest] =>
           if bool_decide (product ∈ _DOTS) || bool_decide (spec ∈ _DOTS) || bool_decide (digest ∈ _DOTS)
           then storage_error "path dots"
           else if negb (uuid_text product) then storage_error "path"
           else if negb (spec_text spec) then storage_error "path"
           else if negb (digest_text digest) then storage_error "path"
           else Ok {| ky_role := split.1; ky_product := product; ky_spec := spec; ky_digest := digest |}
       | _ => storage_error "path length"
       end.

(** ** The disk *)

Inductive Node : Set :=
  | Dir
  | File (data : string)
  | Other.

(** How one system call ends; [Raced data] matters to [link], which finds that another
    process has just created the name with [data]. *)
Inductive Outcome : Set :=
  | Fine
  | Broken
  | Raced (data : string).

Record Disk := {
  dk_root : bool;
  dk_nodes : gmap (list string) Node;
  dk_outcomes : list Outcome;
}.

Definition Handle : Type := list string.

Definition next_outcome : M Disk exn Outcome := λ s,
  match dk_outcomes s with
  | [] => (Ok Fine, s)
  | o :: os => (Ok o, {| dk_root := dk_root s; dk_nodes := dk_nodes s; dk_outcomes := os |})
  end.

Definition set_nodes (f : gmap (list string) Node → gmap (list string) Node) : M Disk exn unit :=
  modify (λ s, {| dk_root := dk_root s; dk_nodes := f (dk_nodes s); dk_outcomes := dk_outcomes s |}).

Definition io_error {A} : M Disk exn A := pyraise (Exn OSError "").

(** A call that can only fail with an [OSError] of its own. *)
Definition io_call : M Disk exn unit :=
  let* o := next_outcome in
  match o with Broken => io_error | _ => pyret tt end.

Definition node_at (path : list string) : M Disk exn (option Node) := gets (λ s, dk_nodes s !! path).

Definition _open_root : M Disk exn Handle :=
  let* root := gets dk_root in
  let* o := next_outcome in
  match o, root with
  | Broken, _ | _, false => lift_result (storage_error "root")
  | _, true => pyret []
  end.

(** [os.open(name, _DIRECTORY, dir_fd=current)] with [_mapped] *)
Definition open_child (current : Handle) (name : string) : M Disk exn Handle :=
  let path := (current ++ [name])%list in
  let* node := node_at path in
  let* o := next_outcome in
  match o, node with
  | Broken, _ => lift_result (storage_error "symlink")
  | _, None => lift_result (storage_error "missing")
  | _, Some Dir => pyret path
  | _, Some _ => lift_result (storage_error "symlink")
  end.

Definition open_step (current : Handle) (name : string) : M Disk exn Handle :=
  do* (if decide (name ∈ _DOTS) then lift_result (storage_error "path") else pyret tt);
  open_child current name.

Definition _open_dir (parts : list string) : M Disk exn Handle :=
  let* root := _open_root in for_fold open_step parts root.

(** [os.mkdir] with [FileExistsError] suppressed *)
Definition mkdir (path : list string) : M Disk exn unit :=
  let* node := node_at path in
  let* o := next_outcome in
  match o, node with
  | Broken, _ => io_error
  | _, Some _ => pyret tt
  | _, None => set_nodes <[path := Dir]>
  end.

Definition ensure_step (current : Handle) (name : string) : M Disk exn Handle :=
  do* (if decide (name ∈ _DOTS) then lift_result (storage_error "path") else pyret tt);
  do* mkdir (current ++ [name])%list;
  open_child current name.

Definition _ensure_dirs (parts : list string) : M Disk exn unit :=
  let* root := _open_root in do* for_fold ensure_step parts root; pyret tt.

(** A directory can be opened for reading, but not read. *)
Definition _read_optional (parent : Handle) (name : string) : M Disk exn (option string) :=
  let* node := node_at (parent ++ [name])%list in
  let* o := next_outcome in
  match o, node with
  | Broken, _ => lift_result (storage_error "symlink")
  | _, None => pyret None
  | _, Some (File data) => do* io_call; pyret (Some data)
  | _, Some Dir => io_error
  | _, Some Other => lift_result (storage_error "symlink")
  end.

(** [os.open(temp, _CREATE, ...)] *)
Definition create_temp (path : list string) : M Disk exn unit :=
  let* node := node_at path in
  let* o := next_outcome in
  match o, node with
  | Broken, _ | _, Some _ => lift_result (storage_error "symlink")
  | _, None => set_nodes <[path := File ""]>
  end.

(** The loop of [os.write]; a failure may leave part of the bytes. *)
Definition write_all (path : list string) (data : string) : M Disk exn unit :=
  let* o := next_outcome in
  match o with
  | Broken => do* set_nodes <[path := File (String.substring 0 (String.length data / 2) data)]>; io_error
  | _ => set_nodes <[path := File data]>
  end.

(** [os.link]: whether the name was free. *)
Definition link (path : list string) (data : string) : M Disk exn bool :=
  let* node := node_at path in
  let* o := next_outcome in
  match o, node with
  | Broken, _ => io_error
  | _, Some _ => pyret false
  | Raced other, None => do* set_nodes <[path := File other]>; pyret false
  | Fine, None => do* set_nodes <[path := File data]>; pyret true
  end.

Definition _unlink_temp (path : list string) : M Disk exn unit :=
  let* o := next_outcome in
  match o with
  | Broken => io_error
  | _ => set_nodes (delete path)
  end.

Definition _stored (uri sha256 data : string) (role : StorageRole) : StoredObject :=
  {| so_storage_uri := uri; so_sha256 := sha256; so_byte_count := Z.of_nat (String.length data); so_role := role |}.

(** [temp_hex] is what [uuid4().hex] draws. *)
Definition _place_in (temp_hex : string) (parent : Handle) (digest data uri : string) (role : StorageRole)
    : M Disk exn StoredObject :=
  let target := (parent ++ [digest])%list in
  let temporary_file := (parent ++ [("." ++ temp_hex)%string])%list in
  let write_new :=
    do* create_temp temporary_file;
    try_finally
      (do* write_all temporary_file data;
       do* io_call;
       let* linked := link target data in
       if linked : bool then do* io_call; pyret (_stored uri digest data role)
       else
         let* current := _read_optional parent digest in
         match current with
         | None => lift_result (storage_error "missing")
         | Some current =>
             if decide (current = data) then pyret (_stored uri digest data role)
             else do* lift_result (refuse_collision current data);
                  do* io_call; pyret (_stored uri digest data role)
         end)
      (_unlink_temp temporary_file) in
  let* existing := _read_optional parent digest in
  match existing with
  | Some existing =>
      if decide (existing = data) then pyret (_stored uri digest data role)
      else do* lift_result (refuse_collision existing data); write_new
  | None => write_new
  end.

Definition _unlink_object (parent : Handle) (name : string) : M Disk exn unit :=
  if negb (digest_text name) then lift_result (storage_error "path")
  else
    let path := (parent ++ [name])%list in
    let* node := node_at path in
    let* o := next_outcome in
    match o, node with
    | Broken, _ => lift_result (storage_error "symlink")
    | _, None => lift_result (storage_error "missing")
    | _, Some (File _) =>
        let* o := next_outcome in
        match o with Broken => io_error | _ => set_nodes (delete path) end
    | _, Some _ => lift_result (storage_error "symlink")
    end.

(** ** The store *)

Definition parts_of (k : Key) : list string := [role_text (ky_role k); ky_product k; ky_spec k].

Definition _put (temp_hex : string) (role : StorageRole) (scheme : string) (product_id : uuid) (spec_version : Z)
    (sha256 data : string) : M Disk exn StoredObject :=
  do* lift_result (require_digest data sha256);
  let* uri := lift_result (object_uri scheme product_id spec_version sha256) in
  let* key := lift_result (_key uri) in
  do* lift_result (if decide (ky_role key ≠ role) then storage_error "role" else Ok tt);
  do* _ensure_dirs (parts_of key);
  let* parent := _open_dir (parts_of key) in
  _place_in temp_hex parent (ky_digest key) data uri role.

Definition publish (temp_hex : string) := _put temp_hex published "fixture".
Definition put_temporary (temp_hex : string) := _put temp_hex temporary "temp".

Definition read (uri : string) : M Disk exn string :=
  let* key := lift_result (_key uri) in
  let* parent := _open_dir (parts_of key) in
  let* data := _read_optional parent (ky_digest key) in
  match data with
  | None => lift_result (storage_error "missing")
  | Some data =>
      if decide (sha256_hex data ≠ ky_digest key) then lift_result (storage_error "bytes") else pyret data
  end.

Definition internal_retrieval (uri : string) : M Disk exn string :=
  do* read uri; pyret ("internal:" ++ uri).

Definition discard (uri : string) : M Disk exn unit :=
  do* lift_result (refuse_published uri);
  let* key := lift_result (_key uri) in
  let* parent := _open_dir (parts_of key) in
  _unlink_object parent (ky_digest key).

(** [_names]: the entries of the directory, sorted. *)
Definition entry_of (parent path : list string) : option string :=
  match last path with
  | Some name => if decide (path = (parent ++ [name])%list) then Some name else None
  | None => None
  end.

Definition _names (parent : Handle) : M Disk exn (list string) :=
  do* io_call;
  gets (λ s, py_sorted String.leb (omap (entry_of parent) (map_to_list (dk_nodes s)).*1)).

Definition cleanup_step (parent : Handle) (keep_sha256 : string) (removed : list string) (name : string)
    : M Disk exn (list string) :=
  if bool_decide (name = keep_sha256) || negb (digest_text name) then pyret removed
  else do* _unlink_object parent name; pyret (removed ++ [name])%list.

Definition cleanup_temporary (product_id : uuid) (spec_version : Z) (keep_sha256 : string)
    : M Disk exn (list string) :=
  if negb (digest_text keep_sha256) then lift_result (storage_error "hash")
  else
    let* parent :=
      try_except
        (let* h := _open_dir ["temporary"; uuid_str product_id; pretty spec_version] in pyret (Some h))
        (λ e, if decide (e = Exn ValueError "storage missing") then pyret None else pyraise e) in
    match parent with
    | None => pyret []
    | Some parent =>
        let* names := _names parent in
        for_fold (cleanup_step parent keep_sha256) names []
    end.

(** ** Keys and URIs *)

Definition scheme_text (r : StorageRole) : string :=
  match r with temporary => "temp://" | published => "fixture://" end.

(** The URI of a key. *)
Definition uri_of (k : Key) : string :=
  scheme_text (ky_role k) ++ ky_product k ++ String slash (ky_spec k ++ String slash (ky_digest k)).

Definition key_ok (k : Key) : bool :=
  uuid_text (ky_product k) && spec_text (ky_spec k) && digest_text (ky_digest k).

Lemma str_has_app c s t : str_has c (s ++ t) = str_has c s || str_has c t.
Proof. induction s as [|d s IH]; simpl; [done|]. by rewrite IH, orb_assoc. Qed.

Lemma str_all_has p c s : str_all p s = true → p c = false → str_has c s = false.
Proof.
  intros Hs Hc. induction s as [|d s IH]; simpl in *; [done|].
  apply andb_true_iff in Hs as [Hd Hs]. rewrite IH, orb_false_r by done.
  case_decide; [congruence|done].
Qed.

Lemma all_digits_has c s : all_digits s = true → is_digit c = false → str_has c s = false.
Proof.
  intros Hs Hc. induction s as [|d s IH]; simpl in *; [done|].
  apply andb_true_iff in Hs as [Hd Hs]. rewrite IH, orb_false_r by done.
  case_decide; [congruence|done].
Qed.

Lemma str_split_has c sep s :
  c ≠ sep → Forall (λ p, str_has c p = false) (str_split sep s) → str_has c s = false.
Proof.
  intros Hc. induction s as [|d s IH]; simpl; [done|]. case_decide as Hd.
  - intros [_ Hs]%Forall_cons. rewrite IH by done. rewrite decide_False by congruence. done.
  - destruct (str_split sep s) as [|q qs] eqn:Hq; [by apply str_split_ne_nil in Hq|].
    intros [[Hdc Hq']%orb_false_iff Hqs]%Forall_cons. rewrite Hdc. apply IH. by constructor.
Qed.

Lemma hex_text_has k c s : hex_text k s = true → lower_hex c = false → str_has c s = false.
Proof. intros [_ Hs]%andb_true_iff. by apply str_all_has. Qed.

Lemma uuid_text_has c s : uuid_text s = true → lower_hex c = false → c ≠ dash → str_has c s = false.
Proof.
  unfold uuid_text. intros Hs Hc Hd. apply (str_split_has _ dash); [done|].
  destruct (str_split dash s) as [|p1 [|p2 [|p3 [|p4 [|p5 [|]]]]]]; try done.
  rewrite !andb_true_iff in Hs. destruct Hs as [[[[? ?] ?] ?] ?].
  repeat (constructor; [by eauto using hex_text_has|]). constructor.
Qed.

Lemma spec_text_digits s : spec_text s = true → all_digits s = true.
Proof. destruct s; [done|]. simpl. rewrite !andb_true_iff. naive_solver. Qed.

Lemma not_dots (f : string → bool) s : f "" = false → f "." = false → f ".." = false → f s = true → s ∉ _DOTS.
Proof. intros H1 H2 H3 Hs [->|[->|[->|[]%elem_of_nil]%elem_of_cons]%elem_of_cons]%elem_of_cons; congruence. Qed.

Lemma prefix_head c d s : String.prefix (String c "") (String d s) = true → d = c.
Proof. cbn [String.prefix]. by destruct (Ascii.ascii_dec c d). Qed.

(** A key is read from exactly the URIs it prints to. *)
Lemma key_iff uri k : _key uri = Ok k ↔ key_ok k = true ∧ uri = uri_of k.
Proof.
  unfold _key, key_ok, uri_of. split.
  - intros ([role rest] & Hs & H)%rbind_ok. simpl in H.
    assert (uri = scheme_text role ++ rest) as ->.
    { unfold _split in Hs. destruct (strip_prefix "fixture://" uri) eqn:Hf.
      - injection Hs as <- <-. by apply strip_prefix_Some.
      - destruct (strip_prefix "temp://" uri) eqn:Ht; [|done]. injection Hs as <- <-. by apply strip_prefix_Some. }
    destruct (String.prefix "/" rest); [done|]. destruct (str_has backslash rest); [done|].
    destruct (str_split slash rest) as [|p [|sp [|dg [|]]]] eqn:Hsp; try done.
    case_match; [done|]. destruct (uuid_text p) eqn:Hp; [|done]. destruct (spec_text sp) eqn:Hspec; [|done].
    destruct (digest_text dg) eqn:Hd; [|done]. injection H as <-. simpl. split; [by rewrite Hp, Hspec, Hd|].
    apply str_split_cons in Hsp as [_ (r1 & -> & H1)]. apply str_split_cons in H1 as [_ (r2 & -> & H2)].
    by apply str_split_cons in H2 as [_ ->].
  - destruct k as [role p sp dg]; simpl. intros [[[Hp Hspec]%andb_true_iff Hd]%andb_true_iff ->].
    assert (_split (scheme_text role ++ p ++ String slash (sp ++ String slash dg)) =
            Ok (role, p ++ String slash (sp ++ String slash dg))) as ->.
    { unfold _split. destruct role; simpl scheme_text; [done|by rewrite strip_prefix_app]. }
    simpl. pose proof (spec_text_digits _ Hspec) as Hdig.
    assert (str_has slash p = false) as Hps by by apply uuid_text_has.
    assert (String.prefix "/" (p ++ String slash (sp ++ String slash dg)) = false) as ->.
    { destruct p as [|c p]; [done|]. simpl in Hps. apply orb_false_iff in Hps as [Hc _].
      apply not_true_iff_false. intros ->%prefix_head. by rewrite decide_True in Hc. }
    rewrite str_has_app. simpl. rewrite str_has_app. simpl.
    rewrite (uuid_text_has backslash p), (all_digits_has backslash sp), (hex_text_has 64 backslash dg) by done. simpl.
    rewrite !str_split_app, str_split_free by
      first [done|by apply (hex_text_has 64)|by apply all_digits_has].
    rewrite !bool_decide_false by 
      first [by apply (not_dots uuid_text)|by apply (not_dots spec_text)|by apply (not_dots digest_text)].
    simpl. by rewrite Hp, Hspec, Hd.
Qed.

Lemma hex_digits_lower k n : str_all lower_hex (hex_digits k n) = true.
Proof.
  induction k as [|k IH]; [done|]. cbn [hex_digits str_all]. rewrite IH, andb_true_r.
  generalize (N.shiftr n (4 * N.of_nat k)). intros m. pose proof (N.mod_lt m 16 ltac:(done)) as Hm.
  revert Hm. generalize (m mod 16)%N. clear. intros d Hd.
  assert (Forall (λ d, lower_hex (hex_digit d) = true) (N.of_nat <$> seq 0 16)) as Hall by by_decide.
  rewrite Forall_forall in Hall. apply Hall, list_elem_of_fmap. exists (N.to_nat d).
  split; [lia|]. apply elem_of_seq. lia.
Qed.

Lemma hex_digits_text k n : hex_text k (hex_digits k n) = true.
Proof. unfold hex_text. by rewrite hex_digits_length, Nat.eqb_refl, hex_digits_lower. Qed.

Lemma str_split_dash a b : str_has dash a = false → str_split dash (a ++ "-" ++ b) = a :: str_split dash b.
Proof. exact (str_split_app dash a b). Qed.

Lemma uuid_str_text u : uuid_text (uuid_str u) = true.
Proof.
  assert (Hfree : ∀ k n, str_has dash (hex_digits k n) = false).
  { intros k n. apply (hex_text_has k); [apply hex_digits_text|done]. }
  unfold uuid_text, uuid_str. rewrite !str_split_dash, str_split_free by apply Hfree.
  by rewrite !hex_digits_text.
Qed.

Lemma pretty_spec_text z : 1 <= z → spec_text (pretty z) = true.
Proof.
  intros Hz. rewrite pretty_pos_go by lia.
  destruct (pretty_go_head (Z.to_N z) "" ltac:(lia)) as (n & r & Hn & -> & Hr). simpl.
  rewrite Hr, andb_true_r by done. unfold is_digit. rewrite pretty_char_value by lia.
  rewrite bool_decide_true by done. apply negb_true_iff, bool_decide_eq_false.
  intros Hc. assert (digit_value (pretty_N_char n) = Some 0) as H0 by by rewrite Hc.
  rewrite pretty_char_value in H0 by lia. injection H0 as H0. lia.
Qed.

Definition scheme_of (r : StorageRole) : string := match r with temporary => "temp" | published => "fixture" end.

(** The key of an object. *)
Definition object_key (r : StorageRole) (product_id : uuid) (spec_version : Z) (sha256 : string) : Key :=
  {| ky_role := r; ky_product := uuid_str product_id; ky_spec := pretty spec_version; ky_digest := sha256 |}.

Lemma object_uri_ok r u v sha uri :
  object_uri (scheme_of r) u v sha = Ok uri → digest_text sha = true →
  key_ok (object_key r u v sha) = true ∧ uri = uri_of (object_key r u v sha).
Proof.
  intros (x & Hspec & (prefix & Hp & [= <-])%rbind_ok)%rbind_ok Hd.
  unfold refuse_spec in Hspec. destruct (Z.ltb_spec v 1) as [|Hv]; [done|]. split.
  - unfold key_ok, object_key. cbn [ky_product ky_spec ky_digest].
    by rewrite uuid_str_text, (pretty_spec_text v Hv), Hd.
  - unfold uri_of, object_key. cbn [ky_role ky_product ky_spec ky_digest].
    generalize (uuid_str u), (pretty v). intros a b. by destruct r; injection Hp as <-.
Qed.

Lemma read_hostile uri e s : _key uri = Raise e → read uri s = (Raise e, s).
Proof. intros Hk. unfold read, pybind, lift_result. by rewrite Hk. Qed.

(** C36: A stored object is found again under its URI, and under no other text: anything else is
    refused before the disk is touched. *)
Theorem store_keys_roundtrip uri :
  (∀ r u v sha, object_uri (scheme_of r) u v sha = Ok uri → digest_text sha = true →
     _key uri = Ok (object_key r u v sha)) ∧
  match _key uri with
  | Ok k => key_ok k = true ∧ uri = uri_of k
  | Raise e => (∀ k, key_ok k = true → uri ≠ uri_of k) ∧
      ∀ s, read uri s = (Raise e, s) ∧ internal_retrieval uri s = (Raise e, s) ∧
           ∃ e', discard uri s = (Raise e', s)
  end.
Proof.
  split; [intros r u v sha Hu Hd; by apply key_iff, object_uri_ok|].
  destruct (_key uri) as [k|e] eqn:Hk; [by apply key_iff|]. split.
  - intros k Hok Huri. assert (_key uri = Ok k) by by apply key_iff. congruence.
  - intros s. rewrite (read_hostile _ _ s Hk). split; [done|]. unfold internal_retrieval, discard, pybind, lift_result.
    rewrite (read_hostile _ _ s Hk), Hk. split; [done|]. destruct (refuse_published uri) as [[]|e']; eauto.
Qed.

(** ** What stays on the disk *)

(** Directories and published objects; the others are temporary files and temporary objects. *)
Definition durable (path : list string) : bool :=
  match path with
  | [role; _; _; name] => bool_decide (role = "published") && digest_text name
  | _ => (length path <? 4)%nat
  end.

(** What is durable stays as it is. *)
Record keeps (s s' : Disk) : Prop := {
  kp_root : dk_root s' = dk_root s;
  kp_nodes : ∀ path n, durable path = true → dk_nodes s !! path = Some n → dk_nodes s' !! path = Some n;
}.

#[export] Instance keeps_preorder : PreOrder keeps.
Proof.
  split; [by split|]. intros s1 s2 s3 [H1 H2] [H3 H4]. split; [congruence|eauto].
Qed.

Lemma outcome_keeps : within keeps next_outcome.
Proof. intros s. unfold next_outcome. by destruct (dk_outcomes s). Qed.

Lemma nodes_keep f :
  (∀ m path (n : Node), durable path = true → m !! path = Some n → f m !! path = Some n) → within keeps (set_nodes f).
Proof. intros Hf. apply within_modify. intros s. split; [done|]. intros path n. apply Hf. Qed.

Lemma put_node_keeps path n : durable path = false → within keeps (set_nodes <[path := n]>).
Proof. intros Hp. apply nodes_keep. intros m q n' Hq Hm. rewrite lookup_insert_ne; congruence. Qed.

Lemma remove_keeps path : durable path = false → within keeps (set_nodes (delete path)).
Proof. intros Hp. apply nodes_keep. intros m q n' Hq Hm. rewrite lookup_delete_ne; congruence. Qed.

#[local] Hint Resolve outcome_keeps put_node_keeps remove_keeps : orch.

Lemma io_keeps : within keeps io_call.
Proof. unfold io_call, io_error. solve_within. Qed.
#[local] Hint Resolve io_keeps : orch.

Lemma node_keeps path : within keeps (node_at path).
Proof. apply within_gets, _. Qed.
#[local] Hint Resolve node_keeps : orch.

Lemma root_keeps : within keeps _open_root.
Proof. unfold _open_root. solve_within. Qed.

Lemma child_keeps h name : within keeps (open_child h name).
Proof. unfold open_child. solve_within. Qed.
#[local] Hint Resolve root_keeps child_keeps : orch.

Lemma open_dir_keeps parts : within keeps (_open_dir parts).
Proof. unfold _open_dir, open_step. solve_within. Qed.
#[local] Hint Resolve open_dir_keeps : orch.

Lemma read_optional_keeps h name : within keeps (_read_optional h name).
Proof. unfold _read_optional, io_error. solve_within. Qed.
#[local] Hint Resolve read_optional_keeps : orch.

(** A call that looks at a node first and creates it only when it is free. *)
Lemma create_keeps {A} path (k : option Node → Outcome → M Disk exn A) :
  (∀ n o, within keeps (k (Some n) o)) →
  (∀ o s, dk_nodes s !! path = None → keeps s (k None o s).2) →
  within keeps (let* node := node_at path in let* o := next_outcome in k node o).
Proof.
  intros Hk Hn s. unfold pybind, node_at, gets, next_outcome.
  assert (Hs : ∀ os, keeps s {| dk_root := dk_root s; dk_nodes := dk_nodes s; dk_outcomes := os |}) by done.
  destruct (dk_nodes s !! path) as [n|] eqn:Hp, (dk_outcomes s) as [|o os].
  - apply Hk.
  - etrans; [apply (Hs os)|apply Hk].
  - by apply Hn.
  - etrans; [apply (Hs os)|by apply Hn].
Qed.

Lemma put_free path n s : dk_nodes s !! path = None → keeps s (set_nodes <[path := n]> s).2.
Proof. intros Hp. split; [done|]. intros q n' _ Hq. simpl. rewrite lookup_insert_ne; congruence. Qed.

Lemma bind_put_free {A} path n (a : A) s : dk_nodes s !! path = None →
  keeps s ((do* set_nodes <[path := n]>; pyret a) s).2.
Proof. apply put_free. Qed.

Lemma mkdir_keeps path : within keeps (mkdir path).
Proof.
  unfold mkdir, io_error. apply create_keeps; [intros n o; solve_within|].
  intros [| |d] s Hp; first [by apply put_free|apply within_raise, _].
Qed.
#[local] Hint Resolve mkdir_keeps : orch.

Lemma ensure_keeps parts : within keeps (_ensure_dirs parts).
Proof. unfold _ensure_dirs, ensure_step. solve_within. Qed.

Lemma create_temp_keeps path : within keeps (create_temp path).
Proof.
  unfold create_temp. apply create_keeps; [intros n o; solve_within|].
  intros [| |d] s Hp; first [by apply put_free|apply within_lift, _].
Qed.

Lemma write_all_keeps path data : durable path = false → within keeps (write_all path data).
Proof. intros Hp. unfold write_all, io_error. pose proof (λ n, put_node_keeps path n Hp). solve_within. Qed.

Lemma link_keeps path data : within keeps (link path data).
Proof.
  unfold link, io_error. apply create_keeps; [intros n o; solve_within|].
  intros [| |d] s Hp; first [by apply bind_put_free|apply within_raise, _].
Qed.

Lemma unlink_temp_keeps path : durable path = false → within keeps (_unlink_temp path).
Proof. intros Hp. unfold _unlink_temp, io_error. pose proof (remove_keeps path Hp). solve_within. Qed.
#[local] Hint Resolve ensure_keeps create_temp_keeps write_all_keeps link_keeps unlink_temp_keeps : orch.

Lemma within_finally {A} (m : M Disk exn A) fin : within keeps m → within keeps fin → within keeps (try_finally m fin).
Proof.
  intros Hm Hf s. unfold try_finally. specialize (Hm s). destruct (m s) as [r s1]. specialize (Hf s1).
  destruct (fin s1) as [[u|e] s2]; by etrans.
Qed.

Lemma dot_not_digest t : digest_text ("." ++ t) = false.
Proof. unfold digest_text, hex_text. apply andb_false_intro2. reflexivity. Qed.

Lemma temp_not_durable (parent : Handle) temp_hex : length parent = 3%nat →
  durable (parent ++ [("." ++ temp_hex)%string]) = false.
Proof. intros Hl. destruct parent as [|a [|b [|c [|]]]]; try done. cbn [app durable].
  by rewrite dot_not_digest, andb_false_r.
Qed.

Lemma place_keeps temp_hex parent digest data uri role : length parent = 3%nat →
  within keeps (_place_in temp_hex parent digest data uri role).
Proof.
  intros Hl. pose proof (temp_not_durable parent temp_hex Hl) as Ht. unfold _place_in.
  assert (Hb : ∀ m : M Disk exn StoredObject, within keeps m → within keeps
    (try_finally m (_unlink_temp (parent ++ [("." ++ temp_hex)%string])))) by (intros m Hm; apply within_finally; auto with orch).
  pose proof (write_all_keeps _ data Ht) as Hw.
  repeat first [apply Hb|exact Hw|within_step].
Qed.

Lemma unlink_object_keeps (parent : Handle) name :
  (∀ a b, parent ≠ ["published"; a; b]) → length parent = 3%nat → within keeps (_unlink_object parent name).
Proof.
  intros Hp Hl. unfold _unlink_object, io_error.
  assert (durable (parent ++ [name]) = false) as Hd.
  { destruct parent as [|a [|b [|c [|]]]]; try done. simpl. rewrite bool_decide_false; [done|].
    intros ->. by apply (Hp b c). }
  pose proof (remove_keeps _ Hd). solve_within.
Qed.

(** ** What a successful call has seen *)

(** The nodes and the root are untouched. *)
Definition same_disk (s s' : Disk) : Prop := dk_nodes s' = dk_nodes s ∧ dk_root s' = dk_root s.

#[export] Instance same_disk_preorder : PreOrder same_disk.
Proof. split; [done|]. intros s1 s2 s3 [H1 H2] [H3 H4]. split; congruence. Qed.

Lemma outcome_same : within same_disk next_outcome.
Proof. intros s. unfold next_outcome. by destruct (dk_outcomes s). Qed.

Lemma io_same : within same_disk io_call.
Proof. unfold io_call, io_error. pose proof outcome_same. solve_within. Qed.

(** The directories down to [parts] can be opened. *)
Definition opened (parts : list string) (s : Disk) : Prop :=
  dk_root s = true ∧ ∀ k, (0 < k <= length parts)%nat → dk_nodes s !! take k parts = Some Dir.

Lemma opened_keeps parts s s' : (length parts <= 3)%nat → keeps s s' → opened parts s → opened parts s'.
Proof.
  intros Hl [Hr Hn] [Hroot Hd]. split; [congruence|]. intros k Hk. apply Hn; [|by apply Hd].
  assert (length (take k parts) <= 3)%nat as Ht by (rewrite length_take; lia).
  destruct (take k parts) as [|a [|b [|c [|]]]]; simpl in *; done || lia.
Qed.

Lemma open_step_ok h name s h' s' : open_step h name s = (Ok h', s') →
  h' = (h ++ [name])%list ∧ dk_nodes s !! h' = Some Dir ∧ same_disk s s'.
Proof.
  unfold open_step, open_child. intros (u & s1 & Hd & H)%pybind_ok.
  assert (s1 = s) as -> by (case_decide; [done|by injection Hd as _ ->]).
  apply pybind_ok in H as (node & s2 & [= <- <-] & H). apply pybind_ok in H as (o & s3 & Ho & H).
  pose proof (outcome_same s) as Hs. rewrite Ho in Hs. simpl in Hs.
  destruct o as [| |d], (dk_nodes s !! (h ++ [name])%list) as [[| |]|] eqn:Hn; try done; by injection H as <- <-.
Qed.

Lemma open_fold_ok parts h s h' s' : for_fold open_step parts h s = (Ok h', s') →
  h' = (h ++ parts)%list ∧ same_disk s s' ∧
  ∀ k, (0 < k <= length parts)%nat → dk_nodes s !! (h ++ take k parts)%list = Some Dir.
Proof.
  revert h s. induction parts as [|name parts IH]; intros h s; cbn [for_fold].
  - intros [= <- <-]. split_and!; [by rewrite app_nil_r|done|simpl; lia].
  - intros (h1 & s1 & Hstep & H)%pybind_ok. apply open_step_ok in Hstep as (-> & Hn & Hs).
    apply IH in H as (-> & Hs' & Hall). split_and!; [by rewrite <- app_assoc|by etrans|].
    intros [|k] Hk; [lia|]. simpl. destruct (decide (k = 0)%nat) as [->|]; [by rewrite take_0|].
    destruct Hs as [Hsn _]. rewrite <- Hsn. specialize (Hall k). rewrite <- app_assoc in Hall.
    apply Hall. simpl in Hk. lia.
Qed.

Lemma open_root_ok s h s' : _open_root s = (Ok h, s') → h = [] ∧ dk_root s = true ∧ same_disk s s'.
Proof.
  unfold _open_root. intros (root & s1 & [= <- <-] & H)%pybind_ok. apply pybind_ok in H as (o & s2 & Ho & H).
  pose proof (outcome_same s) as Hs. rewrite Ho in Hs. simpl in Hs.
  destruct o, (dk_root s); try done; by injection H as <- <-.
Qed.

Lemma open_dir_ok parts s h s' : _open_dir parts s = (Ok h, s') → h = parts ∧ opened parts s ∧ same_disk s s'.
Proof.
  unfold _open_dir. intros (r & s1 & (-> & Hr & Hs)%open_root_ok & H)%pybind_ok.
  apply open_fold_ok in H as (-> & Hs' & Hall). split_and!; [done| |by etrans].
  split; [done|]. intros k Hk. destruct Hs as [<- _]. by apply (Hall k).
Qed.

Lemma open_step_quiet h name s : name ∉ _DOTS → dk_nodes s !! (h ++ [name])%list = Some Dir → dk_outcomes s = [] →
  open_step h name s = (Ok (h ++ [name])%list, s).
Proof.
  intros Hd Hn Ho. unfold open_step, open_child, pybind, node_at, gets, next_outcome.
  rewrite decide_False by done. simpl. by rewrite Hn, Ho.
Qed.

Lemma open_dir_quiet parts s : opened parts s → Forall (λ p, p ∉ _DOTS) parts → dk_outcomes s = [] →
  _open_dir parts s = (Ok parts, s).
Proof.
  intros [Hr Hn] Hd Ho. unfold _open_dir, _open_root, pybind, gets, next_outcome. rewrite Hr, Ho. simpl.
  assert (∀ h, (∀ k, (0 < k <= length parts)%nat → dk_nodes s !! (h ++ take k parts)%list = Some Dir) →
    for_fold open_step parts h s = (Ok (h ++ parts)%list, s)) as Hfold; [|by apply (Hfold [])].
  clear Hn. induction Hd as [|name parts Hname _ IH]; intros h Hn; cbn [for_fold]; [by rewrite app_nil_r|].
  unfold pybind. rewrite open_step_quiet; [|done|by apply (Hn 1%nat); simpl; lia|done].
  rewrite IH; [by rewrite <- app_assoc|]. intros k Hk. rewrite <- app_assoc. apply (Hn (S k)). simpl. lia.
Qed.

Lemma read_optional_ok parent name s r s' : _read_optional parent name s = (Ok r, s') →
  same_disk s s' ∧ dk_nodes s !! (parent ++ [name])%list = (λ d, File d) <$> r.
Proof.
  unfold _read_optional. intros (node & s1 & [= <- <-] & H)%pybind_ok. apply pybind_ok in H as (o & s2 & Ho & H).
  pose proof (outcome_same s) as Hs. rewrite Ho in Hs. simpl in Hs.
  destruct o, (dk_nodes s !! (parent ++ [name])%list) as [[| |]|]; try done; try by injection H as <- <-.
  all: apply pybind_ok in H as (u & s3 & Hio & [= <- <-]); pose proof (io_same s2) as Hs2; rewrite Hio in Hs2;
    simpl in Hs2; split; [by etrans|done].
Qed.

(** ** Objects that were put stay readable *)

Lemma holds_same {A} path data (m : M Disk exn A) s a s' :
  within same_disk m → dk_nodes s !! path = Some (File data) → m s = (Ok a, s') → dk_nodes s' !! path = Some (File data).
Proof. intros Hm Hn H. specialize (Hm s). rewrite H in Hm. simpl in Hm. by destruct Hm as [-> _]. Qed.

(** An existing object is taken for the new one only when the bytes agree. *)
Lemma existing_ok parent digest data existing (k : M Disk exn StoredObject) obj s1 s2 s3 s4 :
  _read_optional parent digest s1 = (Ok (Some existing), s2) →
  (if decide (existing = data) then pyret obj
   else do* lift_result (refuse_collision existing data); k) s2 = (Ok s3, s4) →
  dk_nodes s4 !! (parent ++ [digest])%list = Some (File data) ∧ s3 = obj.
Proof.
  intros [[Hn _] Hf]%read_optional_ok. unfold refuse_collision. case_decide as Hd.
  - intros [= <- <-]. subst existing. by rewrite Hn, Hf.
  - by rewrite decide_True by done.
Qed.

Lemma unlink_temp_other path q (s : Disk) n :
  q ≠ path → dk_nodes s !! path = n → dk_nodes (_unlink_temp q s).2 !! path = n.
Proof.
  intros Hne Hn. unfold _unlink_temp, pybind, next_outcome, set_nodes, modify, io_error, pyraise.
  destruct (dk_outcomes s) as [|[| |]]; simpl; rewrite ?lookup_delete_ne by done; done.
Qed.

Lemma link_ok path data s b s' : link path data s = (Ok b, s') →
  if b : bool then dk_nodes s' !! path = Some (File data) else True.
Proof.
  unfold link. intros (node & s1 & [= <- <-] & H)%pybind_ok. apply pybind_ok in H as (o & s2 & _ & H).
  destruct o, (dk_nodes s !! path); try done; try (by injection H as <- <-).
  apply pybind_ok in H as (u & s3 & [= <- <-] & [= <- <-]). apply lookup_insert_eq.
Qed.

Lemma place_ok temp_hex parent digest data uri role s obj s' :
  digest_text digest = true →
  _place_in temp_hex parent digest data uri role s = (Ok obj, s') →
  obj = _stored uri digest data role ∧ dk_nodes s' !! (parent ++ [digest])%list = Some (File data).
Proof.
  intros Hdig. unfold _place_in. intros (existing & s1 & Hread & H)%pybind_ok.
  assert (Hne : (parent ++ [("." ++ temp_hex)%string])%list ≠ (parent ++ [digest])%list).
  { intros [_ [= Heq]]%app_inj_2; [|done]. rewrite <- Heq in Hdig. by rewrite dot_not_digest in Hdig. }
  set (body := do* write_all _ data; _) in H.
  assert (Hbody : ∀ s a s', body s = (Ok a, s') →
    a = _stored uri digest data role ∧ dk_nodes s' !! (parent ++ [digest])%list = Some (File data)).
  { clear. subst body. intros s a s' (u & s1 & _ & H)%pybind_ok. apply pybind_ok in H as (v & s2 & _ & H).
    apply pybind_ok in H as (linked & s3 & Hl & H). destruct linked.
    - apply link_ok in Hl. apply pybind_ok in H as (w & s4 & Hio & [= <- <-]). split; [done|].
      by eapply holds_same; [apply io_same| |].
    - apply pybind_ok in H as (current & s4 & Hr & H). destruct current as [current|]; [|done].
      by destruct (existing_ok _ _ _ _ _ _ _ _ _ _ Hr H). }
  assert (Hnew : ∀ s a s', (do* create_temp (parent ++ [("." ++ temp_hex)%string])%list;
      try_finally body (_unlink_temp (parent ++ [("." ++ temp_hex)%string])%list)) s = (Ok a, s') →
    a = _stored uri digest data role ∧ dk_nodes s' !! (parent ++ [digest])%list = Some (File data)).
  { intros t a t' (u & t1 & _ & Ht)%pybind_ok. unfold try_finally in Ht. destruct (body t1) as [r t2] eqn:Hb.
    destruct (_unlink_temp _ t2) as [[v|e] t3] eqn:Hu; [|done]. injection Ht as -> <-.
    apply Hbody in Hb as [-> Hn]. split; [done|].
    pose proof (unlink_temp_other _ _ t2 _ Hne Hn) as Hn'. by rewrite Hu in Hn'. }
  destruct existing as [existing|]; [|by apply Hnew in H].
  by destruct (existing_ok _ _ _ _ _ _ _ _ _ _ Hread H).
Qed.

(** ** Sequences of operations *)

Inductive store_call : Type :=
  | CPublish (temp_hex : string) (product_id : uuid) (spec_version : Z) (sha256 data : string)
  | CPutTemporary (temp_hex : string) (product_id : uuid) (spec_version : Z) (sha256 data : string)
  | CRead (uri : string)
  | CRetrieve (uri : string)
  | CDiscard (uri : string)
  | CCleanup (product_id : uuid) (spec_version : Z) (keep_sha256 : string).

(** The disk after one call, whether it returned or raised. *)
Definition call (c : store_call) (d : Disk) : Disk :=
  match c with
  | CPublish t p v sha data => (publish t p v sha data d).2
  | CPutTemporary t p v sha data => (put_temporary t p v sha data d).2
  | CRead uri => (read uri d).2
  | CRetrieve uri => (internal_retrieval uri d).2
  | CDiscard uri => (discard uri d).2
  | CCleanup p v keep => (cleanup_temporary p v keep d).2
  end.

Definition calls (cs : list store_call) (d : Disk) : Disk := foldl (flip call) d cs.

(** A continuation that uses what the call before it returned. *)
Lemma keeps_bind_ok {A B} (m : M Disk exn A) (k : A → M Disk exn B) :
  within keeps m → (∀ a s s', m s = (Ok a, s') → within keeps (k a)) → within keeps (pybind m k).
Proof.
  intros Hm Hk s. unfold pybind. specialize (Hm s). destruct (m s) as [[a|e] s1] eqn:E; [|done].
  etrans; [exact Hm|]. by eapply Hk.
Qed.

Lemma put_keeps_durable temp_hex role scheme p v sha data : within keeps (_put temp_hex role scheme p v sha data).
Proof.
  unfold _put. do 3 (apply within_bind; [apply _|apply within_lift, _|intros ?]).
  do 2 (apply within_bind; [apply _|by auto using within_lift, ensure_keeps with typeclass_instances|intros ?]).
  apply keeps_bind_ok; [apply open_dir_keeps|]. intros parent s s' (-> & _)%open_dir_ok. by apply place_keeps.
Qed.

Lemma read_keeps_durable uri : within keeps (read uri).
Proof. unfold read. solve_within. Qed.

Lemma prefix_self p s : String.prefix p (p ++ s) = true.
Proof.
  induction p as [|c p IH]; [by destruct s|]. change (String c p ++ s) with (String c (p ++ s)). cbn [String.prefix].
  by destruct (Ascii.ascii_dec c c).
Qed.

(** A URI that is not published names a temporary object. *)
Lemma discardable_key uri k : refuse_published uri = Ok tt → _key uri = Ok k → ky_role k = temporary.
Proof.
  intros Hr [_ ->]%key_iff. destruct k as [[] p sp d]; [done|].
  unfold refuse_published, uri_of in Hr. simpl scheme_text in Hr. by rewrite prefix_self in Hr.
Qed.

Lemma unlink_temporary_keeps a b name : within keeps (_unlink_object ["temporary"; a; b] name).
Proof. by apply unlink_object_keeps. Qed.

Lemma discard_keeps uri : within keeps (discard uri).
Proof.
  unfold discard. apply within_lift_bind; [apply _|]. intros [] Hr. apply within_lift_bind; [apply _|]. intros k Hk.
  apply keeps_bind_ok; [apply open_dir_keeps|]. intros parent s s' (-> & _)%open_dir_ok.
  unfold parts_of. rewrite (discardable_key _ _ Hr Hk). apply unlink_temporary_keeps.
Qed.

Lemma cleanup_keeps p v keep : within keeps (cleanup_temporary p v keep).
Proof.
  unfold cleanup_temporary. case_match; [apply within_lift, _|].
  apply keeps_bind_ok; [solve_within|]. intros [parent|] s s' Hopen; [|apply within_ret, _].
  assert (parent = ["temporary"; uuid_str p; pretty v]) as ->.
  { unfold try_except in Hopen. unfold pybind in Hopen at 1.
    destruct (_open_dir _ s) as [[h|e] s1] eqn:Ho; [|by case_decide].
    injection Hopen as -> _. by apply open_dir_ok in Ho as [-> _]. }
  unfold _names, cleanup_step. pose proof (unlink_temporary_keeps (uuid_str p) (pretty v)). solve_within.
Qed.

Lemma call_keeps_durable c d : keeps d (call c d).
Proof.
  destruct c; simpl; [apply put_keeps_durable..|apply read_keeps_durable| |apply discard_keeps|apply cleanup_keeps].
  unfold internal_retrieval. apply within_bind; [apply _|apply read_keeps_durable|intros; apply within_ret, _].
Qed.

Lemma calls_keep_durable cs d : keeps d (calls cs d).
Proof. revert d. induction cs as [|c cs IH]; intros d; [done|]. etrans; [apply call_keeps_durable|apply IH]. Qed.

Lemma str_all_digest data sha : require_digest data sha = Ok tt → digest_text sha = true ∧ sha256_hex data = sha.
Proof.
  unfold require_digest, digest_text, hex_text. destruct (String.length sha =? 64)%nat; [|done].
  destruct (str_all lower_hex sha); [|done]. simpl. by case_bool_decide.
Qed.

Lemma publish_ok t u v sha data d obj d' :
  publish t u v sha data d = (Ok obj, d') →
  let key := object_key published u v sha in
  digest_text sha = true ∧ sha256_hex data = sha ∧ _key (uri_of key) = Ok key ∧
  obj = _stored (uri_of key) sha data published ∧ opened (parts_of key) d' ∧
  dk_nodes d' !! (parts_of key ++ [sha])%list = Some (File data).
Proof.
  intros H key. unfold publish, _put in H. apply pybind_ok in H as (u0 & s1 & Hd & H).
  destruct u0. injection Hd as Hd <-. apply str_all_digest in Hd as [Hsha Hhash].
  apply pybind_ok in H as (uri & s2 & [= Hu <-] & H). apply (object_uri_ok published) in Hu as [Hok ->]; [|done].
  fold key in H. assert (Hk : _key (uri_of key) = Ok key) by by apply key_iff.
  apply pybind_ok in H as (k & s3 & [= Hk' <-] & H). rewrite Hk in Hk'. injection Hk' as <-.
  apply pybind_ok in H as (u1 & s4 & _ & H). apply pybind_ok in H as (u2 & s5 & _ & H).
  apply pybind_ok in H as (parent & s6 & (-> & Hopen & [Hn Hr])%open_dir_ok & H).
  change (ky_digest key) with sha in H.
  pose proof (place_keeps t (parts_of key) sha data (uri_of key) published eq_refl s6) as Hkeep. rewrite H in Hkeep.
  apply place_ok in H as [-> Hfile]; [|done]. split_and!; try done.
  apply (opened_keeps _ s6); [done|done|]. destruct Hopen as [H1 H2]. split; [congruence|]. intros i Hi. rewrite Hn. by apply H2.
Qed.

Lemma read_optional_quiet parent name data s :
  dk_nodes s !! (parent ++ [name])%list = Some (File data) → dk_outcomes s = [] →
  _read_optional parent name s = (Ok (Some data), s).
Proof.
  intros Hn Ho. unfold _read_optional, io_call, pybind, node_at, gets, next_outcome. by rewrite Hn, !Ho.
Qed.

Lemma parts_not_dots k : key_ok k = true → Forall (λ p, p ∉ _DOTS) (parts_of k).
Proof.
  unfold key_ok. intros [[Hp Hs]%andb_true_iff _]%andb_true_iff.
  constructor; [by destruct (ky_role k); by_decide|]. constructor; [by apply (not_dots uuid_text)|].
  constructor; [by apply (not_dots spec_text)|constructor].
Qed.

(** C17: What was published is read back after any later use of the store, and can neither be
    discarded nor replaced. *)
Theorem published_is_read_back cs t u v sha data d obj d1 :
  publish t u v sha data d = (Ok obj, d1) →
  dk_outcomes (calls cs d1) = [] →
  let d2 := calls cs d1 in
  let uri := so_storage_uri obj in
  sha = sha256_hex data ∧ so_byte_count obj = Z.of_nat (String.length data) ∧
  read uri d2 = (Ok data, d2) ∧
  (∃ e, discard uri d2 = (Raise e, d2)) ∧
  (∀ t' data' obj' d3, publish t' u v sha data' d2 = (Ok obj', d3) → data' = data).
Proof.
  intros (Hsha & Hhash & Hk & -> & Hopen & Hfile)%publish_ok Ho d2 uri. set (key := object_key published u v sha) in *.
  assert (Hdur : durable (parts_of key ++ [sha])%list = true).
  { cbn [durable parts_of app key object_key ky_role role_text]. by rewrite Hsha. }
  pose proof (calls_keep_durable cs d1) as Hkeep. fold d2 in Hkeep, Ho.
  pose proof (opened_keeps (parts_of key) _ _ (le_n 3) Hkeep Hopen) as Hopen2. destruct Hkeep as [_ Hn].
  apply Hn in Hfile as Hfile2; [|done]. split_and!; [done..| | |].
  - unfold read, pybind at 1, lift_result. subst uri. cbn [so_storage_uri _stored]. rewrite Hk. unfold pybind.
    rewrite open_dir_quiet; [|done|by apply parts_not_dots; apply key_iff in Hk as []|done].
    rewrite (read_optional_quiet _ _ data) by done. change (ky_digest key) with sha. by rewrite decide_False by auto.
  - exists (Exn ValueError "storage published"). unfold discard, pybind, lift_result, refuse_published.
    subst uri. cbn [so_storage_uri _stored]. unfold uri_of. change (scheme_text (ky_role key)) with "fixture://".
    by rewrite prefix_self.
  - intros t' data' obj' d3 Hp. pose proof (put_keeps_durable t' published "fixture" u v sha data' d2) as [_ Hn'].
    unfold publish in Hp. rewrite Hp in Hn'. apply (Hn' _ _ Hdur) in Hfile2. cbn [snd] in Hfile2.
    apply publish_ok in Hp as (_ & _ & _ & _ & _ & Hfile3). fold key in Hfile3. congruence.
Qed.

(** An empty disk below an existing root. *)
Definition sample_disk : Disk := {| dk_root := true; dk_nodes := ∅; dk_outcomes := [] |}.
Definition sample_digest : string := sha256_hex "abc".
Definition sample_uri : string := uri_of (object_key published 7 1 sample_digest).

Lemma published_is_read_back_witness :
  ∃ obj d1, publish "a" 7 1 sample_digest "abc" sample_disk = (Ok obj, d1) ∧
    let d2 := calls [CDiscard sample_uri; CPutTemporary "b" 7 1 sample_digest "abc"; CCleanup 7 1 (sha256_hex "x")] d1 in
    (read (so_storage_uri obj) d2).1 = Ok "abc".
Proof.
  destruct (publish "a" 7 1 sample_digest "abc" sample_disk) as [r d1] eqn:Hp.
  assert (Hr : r = Ok (_stored sample_uri sample_digest "abc" published)).
  { change r with (r, d1).1. rewrite <- Hp. vm_compute. reflexivity. }
  rewrite Hr in Hp. eexists _, _. split; [by rewrite Hr|].
  assert (Ho : dk_outcomes (calls [CDiscard sample_uri; CPutTemporary "b" 7 1 sample_digest "abc";
    CCleanup 7 1 (sha256_hex "x")] d1) = []).
  { change d1 with (r, d1).2. rewrite Hr, <- Hp. vm_compute. reflexivity. }
  destruct (published_is_read_back _ _ _ _ _ _ _ _ _ Hp Ho) as (_ & _ & Hread & _). cbv zeta. by rewrite Hread.
Defined.
