(* ===== verification/DraftClient.v ===== *)
(** * Etsy draft client

    [integrations/etsy/draft_client.py]: one draft listing is created through an injected
    transport, at most once per ledger key.  The ledger is a directory of small files that
    are written before and after the [POST]; every file operation may fail, and a write may
    fail after part of its bytes are on disk.  The transport is a parameter that may answer
    anything or raise. *)

From S2P Require Import Prelude PyText PyLines Sha256 PySort Errors Files Tables.
Open Scope string_scope.
Open Scope Z_scope.

Definition _LISTINGS_PATH : string := "/v3/application/shops/{shop_id}/listings".

Definition MEASURED_ALLOWLIST : list (string * string) := [("GET", _LISTINGS_PATH); ("POST", _LISTINGS_PATH)].

(** The path template of a shop's listings, the shop a number without leading zero. *)
Fixpoint digits_then (suffix s : string) : bool :=
  bool_decide (s = suffix) ||
  match s with
  | String c r => is_digit c && digits_then suffix r
  | EmptyString => false
  end.

Definition _LISTINGS_RE (path : string) : bool :=
  match strip_prefix "/v3/application/shops/" path with
  | Some (String c r) => is_digit c && negb (bool_decide (digit_value c = Some 0)) && digits_then "/listings" r
  | _ => false
  end.

Definition PAGE_LIMIT : Z := 100.
Definition PAGE_CAP : nat := 10.
Definition _GET_KEYS : list string := ["state"; "limit"; "offset"].
Definition _BODY_KEYS : list string :=
  ["quantity"; "title"; "description"; "price"; "who_made"; "when_made"; "taxonomy_id"; "type"].

Definition refused {A} (code : string) : result exn A := Raise (Exn EtsyDraftRefused code).

Record DraftSpec := {
  ds_product_id : uuid;
  ds_spec_version : Z;
  ds_shop_id : Z;
  ds_title : string;
  ds_description : string;
  ds_price : string;
  ds_quantity : Z;
  ds_who_made : string;
  ds_when_made : string;
  ds_taxonomy_id : Z
}.

Record DraftReceipt := {
  dr_listing_id : Z;
  dr_spec_version : Z;
  dr_fixture_hash : string;
  dr_marker : string;
  dr_state : string;
  dr_ready : bool
}.

Record FixtureCall := {
  fc_method : string;
  fc_path : string;
  fc_query : list (string * string);
  fc_body : option (list (string * string))
}.

(** The JSON object a call returns, over the state of the remote side. *)
Definition FixtureTransport (T : Type) : Type := FixtureCall → M T exn (list (string * json)).

(** ** Identity of a draft *)

Definition fixture_hash (spec : DraftSpec) : string :=
  sha256_hex (String.concat (String lf "")
    ["product_id=" ++ uuid_str (ds_product_id spec);
     "spec_version=" ++ pretty (ds_spec_version spec);
     "shop_id=" ++ pretty (ds_shop_id spec);
     "title=" ++ ds_title spec;
     "description=" ++ ds_description spec;
     "price=" ++ ds_price spec;
     "quantity=" ++ pretty (ds_quantity spec);
     "who_made=" ++ ds_who_made spec;
     "when_made=" ++ ds_when_made spec;
     "taxonomy_id=" ++ pretty (ds_taxonomy_id spec)]).

Definition draft_marker (spec_version : Z) (fixture_hash_hex : string) : string :=
  "mm-draft:" ++ pretty spec_version ++ ":" ++ fixture_hash_hex.

(** ** Description lines *)

Definition tab : Ascii.ascii := Ascii.ascii_of_N 9.

Definition _description_lines (description : string) : list string :=
  str_rstrip_of [Ascii.ascii_of_N 32; tab] <$> str_split lf (universal_newlines description).

Definition marker_lines (description : string) : list string :=
  filter (λ l, String.prefix "mm-draft:" l = true) (_description_lines description).

Definition _row_text (description : option json) : string :=
  match description with
  | Some (JStr d) => universal_newlines d
  | _ => ""
  end.

Definition _line_marker (description : option json) (marker : string) : result exn bool :=
  match description with
  | Some (JStr d) =>
      let lines := marker_lines d in
      if bool_decide (marker ∈ lines) && (1 <? length lines)%nat then refused "duplicate_marker"
      else Ok (bool_decide (lines = [marker]))
  | _ => Ok false
  end.

(** [s.endswith(c)] for one character. *)
Fixpoint ends_with (c : Ascii.ascii) (s : string) : bool :=
  match s with
  | EmptyString => false
  | String d EmptyString => bool_decide (d = c)
  | String _ r => ends_with c r
  end.

Definition _with_marker (description marker : string) : string :=
  if decide (description = "") then marker
  else if ends_with lf description then description ++ marker
  else description ++ String lf marker.

Definition _draft_listing_id (row : list (string * json)) (marker : option string) : result exn Z :=
  if negb match json_get "state" row with Some (JStr s) => bool_decide (s = "draft") | _ => false end
  then refused "active"
  else
    let? named := match marker with
                  | Some marker => _line_marker (json_get "description" row) marker
                  | None => Ok true
                  end in
    if negb named then refused "marker"
    else match json_get "listing_id" row with
         | Some (JInt listing_id) => if listing_id <? 1 then refused "malformed" else Ok listing_id
         | _ => refused "malformed"
         end.

Definition _receipt (spec : DraftSpec) (digest marker : string) (listing_id : Z) : DraftReceipt :=
  {| dr_listing_id := listing_id; dr_spec_version := ds_spec_version spec; dr_fixture_hash := digest;
     dr_marker := marker; dr_state := "draft"; dr_ready := true |}.

Definition _require_spec (spec : DraftSpec) : result exn unit :=
  do? (if ds_spec_version spec <? 1 then refused "spec_version" else Ok tt);
  do? (if ds_shop_id spec <? 1 then refused "shop_id" else Ok tt);
  do? (if ds_quantity spec <? 1 then refused "quantity" else Ok tt);
  do? (if ds_taxonomy_id spec <? 1 then refused "taxonomy_id" else Ok tt);
  do? (if bool_decide (ds_title spec = "") || str_has lf (ds_title spec) || str_has cr (ds_title spec)
       then refused "title" else Ok tt);
  do? (if bool_decide (ds_price spec = "") then refused "price" else Ok tt);
  if bool_decide (marker_lines (ds_description spec) = []) then Ok tt else refused "marker_injection".

(** ** Requests *)

Definition _listings_path (shop_id : Z) : string := "/v3/application/shops/" ++ pretty shop_id ++ "/listings".

Definition _draft_query (offset : Z) : list (string * string) :=
  [("state", "draft"); ("limit", pretty PAGE_LIMIT); ("offset", pretty offset)].

Definition _measured_pair (method path : string) : result exn (string * string) :=
  if negb (_LISTINGS_RE path) then refused "off_list" else Ok (method, _LISTINGS_PATH).

(** [_query_keys] and [_body_keys], which differ in the prefix of their codes. *)
Fixpoint normal_keys (part : string) (pairs normalized : list (string * string))
    : result exn (list (string * string)) :=
  match pairs with
  | [] => Ok normalized
  | (raw, value) :: pairs =>
      let folded := str_lower raw in
      if negb (bool_decide (raw = folded)) then refused (part ++ "_case")
      else if negb (bool_decide (folded = str_strip folded)) then refused (part ++ "_space")
      else let key := str_strip folded in
           if bool_decide (key ∈ normalized.*1) then refused (part ++ "_duplicate")
           else normal_keys part pairs (normalized ++ [(key, value)])%list
  end.

Definition _query_keys (pairs : list (string * string)) : result exn (list (string * string)) :=
  normal_keys "query" pairs [].
Definition _body_keys (pairs : list (string * string)) : result exn (list (string * string)) :=
  normal_keys "body" pairs [].

(** The value of a key of the normalized fields. *)
Definition field (key : string) (fields : list (string * string)) : option string :=
  (λ r, r.2.2) <$> list_find (λ kv, kv.1 = key) fields.

Definition _canonical_int (value : string) (low : Z) (high : option Z) : bool :=
  if negb (isdigit value) then false
  else if negb (bool_decide (value = "0")) && String.prefix "0" value then false
  else match int_digits 0 false value with
       | None => false
       | Some number =>
           if number <? low then false
           else match high with None => true | Some high => number <=? high end
       end.

Definition _refuse_get (query : list (string * string)) (body : option (list (string * string)))
    : result exn unit :=
  match body with
  | Some _ => refused "query_key"
  | None =>
      let? fields := _query_keys query in
      if negb (bool_decide (Forall (λ k, k ∈ _GET_KEYS) fields.*1)) then refused "query_key"
      else if negb (bool_decide (field "state" fields = Some "draft")) then refused "lookup_state"
      else if match field "limit" fields with
              | Some limit => negb (_canonical_int limit 1 (Some PAGE_LIMIT))
              | None => false
              end then refused "query_limit"
      else if match field "offset" fields with
              | Some offset => negb (_canonical_int offset 0 None)
              | None => false
              end then refused "query_offset"
      else Ok tt
  end.

Definition _refuse_post (query : list (string * string)) (body : option (list (string * string)))
    : result exn unit :=
  let? _ := _query_keys query in
  if negb (bool_decide (query = [])) then refused "post_query"
  else match body with
       | None => refused "body_missing"
       | Some body =>
           let? fields := _body_keys body in
           if negb (bool_decide (Forall (λ k, k ∈ _BODY_KEYS) fields.*1)) then refused "body_extra"
           else if negb (bool_decide (Forall (λ k, k ∈ fields.*1) _BODY_KEYS)) then refused "body_missing"
           else Ok tt
       end.

(** ** The ledger *)

(** A file of the ledger directory: its text, or one that cannot be opened or read. *)
Inductive LedgerFile : Set :=
  | Text (text : string)
  | Unreadable.

Abbreviation FileSystem := (FileStore LedgerFile).

Inductive LedgerStatus : Set := pending | recorded.

#[export] Instance LedgerStatus_eq_dec : EqDecision LedgerStatus.
Proof. solve_decision. Defined.

Record LedgerEntry := {
  le_spec_version : Z;
  le_fixture_hash : string;
  le_status : LedgerStatus;
  le_listing_id : option Z
}.

Definition _path (spec_version : Z) (fixture_hash : string) : string :=
  pretty spec_version ++ "-" ++ fixture_hash.

(** The entry that the text of a file stands for. *)
Definition parse_entry (spec_version : Z) (fixture_hash text : string) : result exn LedgerEntry :=
  let entry status listing_id :=
    {| le_spec_version := spec_version; le_fixture_hash := fixture_hash;
       le_status := status; le_listing_id := listing_id |} in
  if decide (text = "pending" ++ String lf "") then Ok (entry pending None)
  else if String.prefix ("recorded" ++ String lf "") text then
    match str_split lf text with
    | _ :: line :: _ =>
        match (if isdigit line then int_digits 0 false line else None) with
        | Some n => if 1 <=? n then Ok (entry recorded (Some n)) else refused "ledger_corrupt"
        | None => refused "ledger_corrupt"
        end
    | _ => refused "ledger_corrupt"
    end
  else refused "ledger_corrupt".

Definition ledger_get (spec_version : Z) (fixture_hash : string) : M FileSystem exn (option LedgerEntry) :=
  let* file := gets (λ s, fs_files s !! _path spec_version fixture_hash) in
  match file with
  | None => pyret None
  | Some file =>
      let* fault := next_fault in
      match fault, file with
      | NoFault, Text text =>
          let* entry := lift_result (parse_entry spec_version fixture_hash (String.substring 0 4096 text)) in
          pyret (Some entry)
      | _, _ => lift_result (refused "ledger")
      end
  end.

Definition _create_exclusive (path payload : string) : M FileSystem exn unit :=
  let* file := gets (λ s, fs_files s !! path) in
  match file with
  | Some _ => pyraise (Exn FileExistsError path)
  | None =>
      let* fault := next_fault in
      match fault with
      | NoFault => set_files <[path := Text payload]>
      | Fails None => os_error
      | Fails (Some n) => do* set_files <[path := Text (String.substring 0 n payload)]>; os_error
      end
  end.

Definition put_pending (spec_version : Z) (fixture_hash : string) : M FileSystem exn unit :=
  let* current := ledger_get spec_version fixture_hash in
  match current with
  | Some _ => pyret tt
  | None => _create_exclusive (_path spec_version fixture_hash) ("pending" ++ String lf "")
  end.

(** [os.replace] and the sync of the directory. *)
Definition replace_and_sync (source target : string) : M FileSystem exn unit :=
  let* file := gets (λ s, fs_files s !! source) in
  match file with
  | None => pyraise (Exn FileNotFoundError source)
  | Some file =>
      let* fault := next_fault in
      match fault with
      | NoFault => set_files (λ fs, <[target := file]> (delete source fs))
      | Fails None => os_error
      | Fails (Some _) => do* set_files (λ fs, <[target := file]> (delete source fs)); os_error
      end
  end.

Definition ledger_record (spec_version : Z) (fixture_hash : string) (listing_id : Z) : M FileSystem exn unit :=
  let payload := "recorded" ++ String lf (pretty listing_id ++ String lf "") in
  let path := _path spec_version fixture_hash in
  let temporary := path ++ ".next" in
  do* unlink temporary;
  do* _create_exclusive temporary payload;
  replace_and_sync temporary path.

(** ** Walking the drafts of a shop *)

(** The variables of the loop over the pages. *)
Record Walk := {
  wk_found : option Z;
  wk_seen : Z;
  wk_ids : list Z;
  wk_texts : list string;
  wk_seen_ids : gset Z;
  wk_expected : option Z;
  wk_offset : Z
}.

Definition walk_start : Walk :=
  {| wk_found := None; wk_seen := 0; wk_ids := []; wk_texts := []; wk_seen_ids := ∅;
     wk_expected := None; wk_offset := 0 |}.

Definition scan_row (marker : string) (row : json) (w : Walk) : result exn Walk :=
  match row with
  | JDict kvs =>
      match json_get "listing_id" kvs with
      | Some (JInt listing_raw) =>
          if decide (listing_raw ∈ wk_seen_ids w) then refused "count"
          else
            let? ours := _line_marker (json_get "description" kvs) marker in
            let? found :=
              if ours then
                let? listing_id := _draft_listing_id kvs None in
                match wk_found w with
                | Some _ => refused "duplicate_marker"
                | None => Ok (Some listing_id)
                end
              else Ok (wk_found w) in
            Ok {| wk_found := found; wk_seen := wk_seen w; wk_ids := (wk_ids w ++ [listing_raw])%list;
                  wk_texts := (wk_texts w ++ [_row_text (json_get "description" kvs)])%list;
                  wk_seen_ids := {[listing_raw]} ∪ wk_seen_ids w; wk_expected := wk_expected w;
                  wk_offset := wk_offset w |}
      | _ => refused "malformed"
      end
  | _ => refused "malformed"
  end.

Fixpoint scan_rows (marker : string) (rows : list json) (w : Walk) : result exn Walk :=
  match rows with
  | [] => Ok w
  | row :: rows => let? w := scan_row marker row w in scan_rows marker rows w
  end.

(** One page; the flag tells that it was the last. *)
Definition read_page (marker : string) (payload : list (string * json)) (w : Walk)
    : result exn (Walk * bool) :=
  match json_get "results" payload, json_get "count" payload with
  | Some (JList results), Some (JInt count) =>
      if count <? 0 then refused "malformed"
      else if negb (bool_decide (default count (wk_expected w) = count)) then refused "count"
      else if PAGE_LIMIT <? Z.of_nat (length results) then refused "malformed"
      else
        let? w := scan_rows marker results w in
        let w := {| wk_found := wk_found w; wk_seen := wk_seen w + Z.of_nat (length results);
                    wk_ids := wk_ids w; wk_texts := wk_texts w; wk_seen_ids := wk_seen_ids w;
                    wk_expected := Some count; wk_offset := wk_offset w |} in
        if Z.of_nat (length results) <? PAGE_LIMIT then
          if negb (wk_seen w =? count) then refused "count" else Ok (w, true)
        else Ok ({| wk_found := wk_found w; wk_seen := wk_seen w; wk_ids := wk_ids w;
                    wk_texts := wk_texts w; wk_seen_ids := wk_seen_ids w;
                    wk_expected := wk_expected w; wk_offset := wk_offset w + PAGE_LIMIT |}, false)
  | _, _ => refused "malformed"
  end.

(** ** The client *)

Section client.
Context {T : Type} (_transport : option (FixtureTransport T)).

Definition exchange (method path : string) (query : list (string * string))
    (body : option (list (string * string))) : M T exn (list (string * json)) :=
  match _transport with
  | None => lift_result (refused "fixture_transport")
  | Some transport =>
      let* pair := lift_result (_measured_pair method path) in
      if bool_decide (pair ∉ MEASURED_ALLOWLIST) then lift_result (refused "off_list")
      else
        do* lift_result (if decide (method = "GET") then _refuse_get query body
                         else if decide (method = "POST") then _refuse_post query body else Ok tt);
        transport {| fc_method := method; fc_path := path; fc_query := query; fc_body := body |}
  end.

Fixpoint read_loop (pages : nat) (spec : DraftSpec) (marker : string) (w : Walk)
    : M T exn (option Z * list Z * list string) :=
  match pages with
  | O => lift_result (refused "page_cap")
  | S pages =>
      let* payload := try_except
        (exchange "GET" (_listings_path (ds_shop_id spec)) (_draft_query (wk_offset w)) None)
        (λ e, if isa (exn_type e) EtsyDraftRefused then pyraise e else lift_result (refused "transport")) in
      let* page := lift_result (read_page marker payload w) in
      if page.2 then pyret (wk_found page.1, py_sorted Z.leb (wk_ids page.1), py_sorted String.leb (wk_texts page.1))
      else read_loop pages spec marker page.1
  end.

Definition _read_pages (spec : DraftSpec) (marker : string) : M T exn (option Z * list Z * list string) :=
  read_loop PAGE_CAP spec marker walk_start.

Definition _adopt (spec : DraftSpec) (marker : string) : M T exn (option Z) :=
  let* walk := _read_pages spec marker in
  let* confirm := _read_pages spec marker in
  if decide (walk = confirm) then pyret walk.1.1 else lift_result (refused "count").

Definition create_body (spec : DraftSpec) (marker : string) : list (string * string) :=
  [("quantity", pretty (ds_quantity spec));
   ("title", ds_title spec);
   ("description", _with_marker (ds_description spec) marker);
   ("price", ds_price spec);
   ("who_made", ds_who_made spec);
   ("when_made", ds_when_made spec);
   ("taxonomy_id", pretty (ds_taxonomy_id spec));
   ("type", "download")].

Definition _create (spec : DraftSpec) (marker : string) : M T exn Z :=
  let* payload := exchange "POST" (_listings_path (ds_shop_id spec)) [] (Some (create_body spec marker)) in
  lift_result (_draft_listing_id payload (Some marker)).

Definition create_draft (spec : DraftSpec) : M (FileSystem * T) exn DraftReceipt :=
  do* lift_result (_require_spec spec);
  let digest := fixture_hash spec in
  let marker := draft_marker (ds_spec_version spec) digest in
  let* existing := on_fst (ledger_get (ds_spec_version spec) digest) in
  if bool_decide (le_status <$> existing = Some recorded) then
    match existing ≫= le_listing_id with
    | Some listing_id => pyret (_receipt spec digest marker listing_id)
    | None => pyraise (Exn AssertionError "")
    end
  else
    let* adopted := on_snd (_adopt spec marker) in
    match adopted with
    | Some adopted =>
        do* on_fst (ledger_record (ds_spec_version spec) digest adopted);
        pyret (_receipt spec digest marker adopted)
    | None =>
        if bool_decide (le_status <$> existing = Some pending) then lift_result (refused "pending")
        else
          do* on_fst (put_pending (ds_spec_version spec) digest);
          let* created := on_snd (_create spec marker) in
          do* on_fst (ledger_record (ds_spec_version spec) digest created);
          pyret (_receipt spec digest marker created)
    end.
End client.
