(* ===== verification/DraftOnce.v ===== *)
(** * What the draft client guarantees on any transport

    The description that is sent carries exactly the marker of the draft; every request stays
    on the allowlist; and however the transport and the file system behave, a draft is posted
    at most once. *)

From S2P Require Import Prelude PyText PyLines Sha256 PySort Errors Tables Files DraftClient.
Open Scope string_scope.
Open Scope Z_scope.

(** ** Lines of a marked description *)

Lemma universal_cr_nil : universal_newlines (String cr "") = String lf "".
Proof. done. Qed.
Lemma universal_cr_lf_cons r : universal_newlines (String cr (String lf r)) = String lf (universal_newlines r).
Proof. done. Qed.
Lemma universal_cr_cons c r : c ≠ lf →
  universal_newlines (String cr (String c r)) = String lf (universal_newlines (String c r)).
Proof. intros Hc. cbn [universal_newlines]. by rewrite decide_True, decide_False. Qed.
Lemma universal_cons c r : c ≠ cr → universal_newlines (String c r) = String c (universal_newlines r).
Proof. intros Hc. cbn [universal_newlines]. by rewrite decide_False. Qed.

(** Induction along the breaks of a text. *)
Lemma universal_ind (P : string → Prop) :
  P "" → P (String cr "") → (∀ r, P r → P (String cr (String lf r))) →
  (∀ c r, c ≠ lf → P (String c r) → P (String cr (String c r))) →
  (∀ c r, c ≠ cr → P r → P (String c r)) → ∀ s, P s.
Proof.
  intros H0 H1 H2 H3 H4 s. remember (String.length s) as n eqn:Hn. revert s Hn.
  induction (lt_wf n) as [n _ IH]. intros [|c r] ->; [done|].
  assert (IH' : ∀ t, (String.length t < String.length (String c r))%nat → P t) by eauto.
  destruct (decide (c = cr)) as [->|]; [|apply H4; [done|apply IH'; simpl; lia]].
  destruct r as [|d r]; [done|]. destruct (decide (d = lf)) as [->|].
  - apply H2, IH'. simpl. lia.
  - apply H3; [done|]. apply IH'. simpl. lia.
Qed.

Lemma ends_with_cons c d r : r ≠ "" → ends_with c (String d r) = ends_with c r.
Proof. by destruct r. Qed.

Lemma str_app_cons c a b : String c a ++ b = String c (a ++ b).
Proof. done. Qed.

Lemma ends_cons_or c d r : ends_with c r = true → ends_with c (String d r) = true.
Proof. by destruct r. Qed.

Lemma universal_app d t :
  (ends_with cr d = true → ∀ r, t ≠ String lf r) →
  universal_newlines (d ++ t) = universal_newlines d ++ universal_newlines t.
Proof.
  induction d as [| |r IH|c r Hc IH|c r Hc IH] using universal_ind; intros Ht; [done|..].
  - destruct t as [|e t]; [done|]. rewrite universal_cr_nil. apply universal_cr_cons.
    intros ->. by apply (Ht eq_refl t).
  - rewrite !str_app_cons, !universal_cr_lf_cons, str_app_cons, IH; [done|].
    intros H. apply Ht. by do 2 apply ends_cons_or.
  - rewrite !str_app_cons, !universal_cr_cons, str_app_cons, <- str_app_cons, IH by done. done.
  - rewrite !str_app_cons, !universal_cons, str_app_cons, IH; [done| |done..].
    intros H. apply Ht. by apply ends_cons_or.
Qed.

(** A final CR and a following LF are one break. *)
Lemma universal_cr_lf d t :
  ends_with cr d = true →
  universal_newlines (d ++ String lf t) = universal_newlines d ++ universal_newlines t.
Proof.
  induction d as [| |r IH|c r Hc IH|c r Hc IH] using universal_ind; intros Hd; [done|done|..].
  - rewrite !str_app_cons, !universal_cr_lf_cons, str_app_cons, IH; [done|]. by destruct r.
  - rewrite !str_app_cons, !universal_cr_cons, str_app_cons, <- str_app_cons, IH by done. done.
  - rewrite !str_app_cons, !universal_cons, str_app_cons, IH; [done| |done..].
    destruct r; [|done]. by apply bool_decide_eq_true in Hd.
Qed.

Lemma universal_ends_lf d :
  ends_with cr d = true ∨ ends_with lf d = true → ∃ x, universal_newlines d = x ++ String lf "".
Proof.
  induction d as [| |r IH|c r Hc IH|c r Hc IH] using universal_ind; intros Hd.
  - by destruct Hd.
  - by exists "".
  - rewrite universal_cr_lf_cons. destruct (decide (r = "")) as [->|]; [by exists ""|].
    destruct IH as [x ->]; [|by exists (String lf x)].
    by rewrite !ends_with_cons in Hd by done.
  - rewrite universal_cr_cons by done. destruct IH as [x ->]; [|by exists (String lf x)]. done.
  - rewrite universal_cons by done. destruct (decide (r = "")) as [->|].
    + exists "". destruct Hd as [Hd|Hd]; apply bool_decide_eq_true in Hd; by subst.
    + destruct IH as [x ->]; [|by exists (String c x)]. by rewrite !ends_with_cons in Hd by done.
Qed.

Lemma str_split_join sep a b : str_split sep (a ++ String sep b) = (str_split sep a ++ str_split sep b)%list.
Proof.
  induction a as [|c a IH]; simpl; [by rewrite decide_True|]. rewrite IH.
  case_decide; [done|]. destruct (str_split sep a) eqn:Ha; [|done].
  by apply str_split_ne_nil in Ha.
Qed.

(** The lines of a text whose breaks are LF. *)
Definition lf_marker_lines (t : string) : list string :=
  filter (λ l, String.prefix "mm-draft:" l = true) (str_rstrip_of [Ascii.ascii_of_N 32; tab] <$> str_split lf t).

Lemma lf_marker_lines_join a b :
  lf_marker_lines (a ++ String lf b) = (lf_marker_lines a ++ lf_marker_lines b)%list.
Proof. unfold lf_marker_lines. by rewrite str_split_join, fmap_app, filter_app. Qed.

(** A marker: one line that normalization keeps. *)
Record marker_line (m : string) : Prop := {
  ml_lines : lf_marker_lines m = [m];
  ml_universal : universal_newlines m = m;
  ml_head : ∀ r, m ≠ String lf r;
  ml_nonempty : m ≠ ""
}.

Lemma marker_lines_end d m x :
  marker_line m → universal_newlines d = x ++ String lf "" →
  lf_marker_lines (universal_newlines d ++ m) = (marker_lines d ++ [m])%list.
Proof.
  intros Hm Hx. unfold marker_lines, _description_lines. fold (lf_marker_lines (universal_newlines d)).
  rewrite Hx, <- str_app_assoc. change (String lf "" ++ m) with (String lf m).
  rewrite !lf_marker_lines_join, (ml_lines m Hm). by rewrite app_nil_r.
Qed.

(** The description that is sent has the lines of the given one, and the marker. *)
Lemma marker_lines_with_marker d m :
  marker_line m → marker_lines (_with_marker d m) = (marker_lines d ++ [m])%list.
Proof.
  intros Hm. unfold _with_marker. case_decide as Hd.
  - subst d. unfold marker_lines at 1, _description_lines. rewrite (ml_universal m Hm).
    exact (ml_lines m Hm).
  - destruct (ends_with lf d) eqn:Hlf; [|destruct (ends_with cr d) eqn:Hcr];
      unfold marker_lines at 1, _description_lines;
      match goal with |- filter _ (_ <$> str_split lf ?t) = _ => fold (lf_marker_lines t) end.
    + destruct (universal_ends_lf d (or_intror Hlf)) as [x Hx].
      rewrite universal_app by (intros _; apply Hm). rewrite (ml_universal m Hm).
      by apply (marker_lines_end d m x).
    + destruct (universal_ends_lf d (or_introl Hcr)) as [x Hx].
      rewrite universal_cr_lf, (ml_universal m Hm) by done. by apply (marker_lines_end d m x).
    + rewrite universal_app by congruence.
      change (universal_newlines (String lf m)) with (String lf (universal_newlines m)).
      rewrite (ml_universal m Hm), lf_marker_lines_join, (ml_lines m Hm). done.
Qed.

(** ** The marker is a clean line *)

Lemma prefix_app p s : String.prefix p (p ++ s) = true.
Proof. induction p as [|c p IH]; [by destruct s|]. rewrite str_app_cons. cbn. by destruct (Ascii.ascii_dec c c). Qed.

Lemma str_free_has c s : str_has c s = negb (str_free c s).
Proof.
  induction s as [|d s IH]; simpl; [done|]. rewrite IH.
  by case_decide.
Qed.

Lemma universal_free s : str_free cr s = true → universal_newlines s = s.
Proof.
  induction s as [|c s IH]; [done|]. cbn [str_free]. rewrite andb_true_iff. intros [Hc Hs].
  rewrite universal_cons, IH; [done..|]. by case_decide.
Qed.

Lemma str_rstrip_of_free cs s : (∀ c, c ∈ cs → str_free c s = true) → str_rstrip_of cs s = s.
Proof.
  induction s as [|d s IH]; intros Hs; [done|].
  assert (d ∉ cs) by (intros Hd; specialize (Hs d Hd); cbn [str_free] in Hs; by rewrite decide_True in Hs).
  cbn [str_rstrip_of]. rewrite IH; [|intros c Hc; specialize (Hs c Hc); cbn [str_free] in Hs; by apply andb_true_iff in Hs as [_ ?]].
  destruct s; [by rewrite decide_False|done].
Qed.

(** [c] is not one of the sixteen hexadecimal digits. *)
Definition not_hex (c : Ascii.ascii) : bool := forallb (λ n, negb (bool_decide (hex_digit n = c))) (N.of_nat <$> seq 0 16).

Lemma hex_digits_free c k n : not_hex c = true → str_free c (hex_digits k n) = true.
Proof.
  unfold not_hex. rewrite forallb_elem_of. intros Hc.
  induction k as [|k IH]; cbn [hex_digits str_free]; [done|]. rewrite IH, andb_true_r.
  specialize (Hc (N.shiftr n (4 * N.of_nat k) mod 16)%N).
  rewrite negb_true_iff, bool_decide_eq_false in Hc. rewrite decide_False; [done|]. apply Hc.
  assert (Hlt : (N.shiftr n (4 * N.of_nat k) mod 16 < 16)%N) by by apply N.mod_lt.
  revert Hlt. generalize (N.shiftr n (4 * N.of_nat k) mod 16)%N as m. intros m Hlt.
  rewrite <- (N2Nat.id m). apply list_elem_of_fmap_2, elem_of_seq. lia.
Qed.

Lemma sha256_hex_free c s : not_hex c = true → str_free c (sha256_hex s) = true.
Proof.
  intros Hc. unfold sha256_hex. induction (sha256_digest s) as [|b bs IH]; [done|]. cbn [fold_right].
  by rewrite str_free_app, hex_digits_free, IH.
Qed.

#[global] Opaque sha256_hex.

Lemma draft_marker_free c v h :
  1 <= v → is_digit c = false → not_hex c = true → str_free c "mm-draft:" = true →
  str_free c (draft_marker v (sha256_hex h)) = true.
Proof.
  intros Hv Hd Hh Hm. unfold draft_marker. rewrite str_free_app, Hm. cbn [andb].
  rewrite str_free_app, all_digits_free; [|done|apply pretty_all_digits; lia]. cbn [andb].
  rewrite str_free_app, sha256_hex_free, andb_true_r by done.
  cbn [str_free]. rewrite decide_False; [done|]. by intros <-.
Qed.

Lemma draft_marker_line v h : 1 <= v → marker_line (draft_marker v (sha256_hex h)).
Proof.
  intros Hv.
  assert (Hf : ∀ c, is_digit c = false → not_hex c = true → str_free c "mm-draft:" = true →
    str_free c (draft_marker v (sha256_hex h)) = true) by (intros; by apply draft_marker_free).
  split; [|by apply universal_free, Hf|by unfold draft_marker..].
  unfold lf_marker_lines. rewrite str_split_free by by rewrite str_free_has, Hf.
  cbn [fmap list_fmap]. rewrite str_rstrip_of_free.
  - rewrite filter_cons_True; [done|]. apply prefix_app.
  - intros c. rewrite !elem_of_cons. intros [->|[->|Hc]]; [by apply Hf..|by apply elem_of_nil in Hc].
Qed.

(** ** Requests that reach the transport *)

(** A transport that also keeps the calls it was given, latest first. *)
Definition recording {T} (tr : FixtureTransport T) : FixtureTransport (list FixtureCall * T) := λ call s,
  let '(r, t) := tr call s.2 in (r, (call :: s.1, t)).

(** A listing of drafts, or the creation of one; neither can publish. *)
Definition measured (c : FixtureCall) : Prop :=
  _LISTINGS_RE (fc_path c) = true ∧
  (fc_method c = "GET" ∧ fc_body c = None ∧ NoDup (fc_query c).*1 ∧
     (∀ k, k ∈ (fc_query c).*1 → k ∈ _GET_KEYS) ∧ ("state", "draft") ∈ fc_query c ∨
   fc_method c = "POST" ∧ fc_query c = [] ∧ ∃ b, fc_body c = Some b ∧ b.*1 ≡ₚ _BODY_KEYS).

Lemma refuse_ok {A} (b : bool) code (k : result exn A) a :
  (if b then refused code else k) = Ok a ↔ b = false ∧ k = Ok a.
Proof. destruct b; simpl; [split; [done|by intros [? _]]|split; [done|by intros [_ ?]]]. Qed.

Lemma normal_keys_ok part pairs acc out :
  NoDup acc.*1 → normal_keys part pairs acc = Ok out → out = (acc ++ pairs)%list ∧ NoDup out.*1.
Proof.
  revert acc. induction pairs as [|[raw v] pairs IH]; intros acc Hacc; simpl.
  - intros [= <-]. by rewrite app_nil_r.
  - rewrite !refuse_ok, !negb_false_iff, !bool_decide_eq_true, bool_decide_eq_false.
    intros (Hraw & Hstrip & Hnew & H). rewrite <- Hstrip, <- Hraw in *.
    apply IH in H as [-> Hnd].
    + split; [by rewrite <- app_assoc|done].
    + rewrite fmap_app. apply NoDup_app. split; [done|]. split; [|by apply NoDup_singleton].
      intros x Hx. simpl. rewrite list_elem_of_singleton. by intros ->.
Qed.

Lemma field_elem k fields v : field k fields = Some v → (k, v) ∈ fields.
Proof.
  unfold field. intros ([i [k' v']] & (Hi & <- & _)%list_find_Some & ->)%fmap_Some.
  by apply list_elem_of_lookup_2 in Hi.
Qed.

Lemma body_keys_perm (ks : list string) :
  NoDup ks → Forall (λ k, k ∈ _BODY_KEYS) ks → Forall (λ k, k ∈ ks) _BODY_KEYS → ks ≡ₚ _BODY_KEYS.
Proof.
  rewrite !Forall_forall. intros Hnd H1 H2. apply NoDup_Permutation; [done| |by split; auto].
  apply (bool_decide_unpack _). by vm_compute.
Qed.

Lemma refuse_get_measured query body : _refuse_get query body = Ok tt →
  body = None ∧ NoDup query.*1 ∧ (∀ k, k ∈ query.*1 → k ∈ _GET_KEYS) ∧ ("state", "draft") ∈ query.
Proof.
  unfold _refuse_get. destruct body as [b|]; [done|]. rewrite rbind_ok. intros (fields & Hf & H).
  rewrite !refuse_ok, !negb_false_iff, !bool_decide_eq_true in H. destruct H as (Hkeys & Hstate & _).
  apply normal_keys_ok in Hf as [-> Hnd]; [|constructor]. simpl in *.
  rewrite Forall_forall in Hkeys. split_and!; [done..|by apply field_elem].
Qed.

Lemma refuse_post_measured query body : _refuse_post query body = Ok tt →
  query = [] ∧ ∃ b, body = Some b ∧ b.*1 ≡ₚ _BODY_KEYS.
Proof.
  unfold _refuse_post. rewrite rbind_ok. intros (? & _ & H).
  rewrite refuse_ok, negb_false_iff, bool_decide_eq_true in H. destruct H as [-> H].
  split; [done|]. destruct body as [b|]; [|done]. exists b. split; [done|].
  apply rbind_ok in H as (fields & Hf & H). apply normal_keys_ok in Hf as [-> Hnd]; [|constructor].
  rewrite !refuse_ok, !negb_false_iff, !bool_decide_eq_true in H. destruct H as (H1 & H2 & _).
  by apply body_keys_perm.
Qed.

Section requests.
Context {T : Type} (tr : option (FixtureTransport T)).

Local Abbreviation rec_tr := (recording <$> tr).

(** The calls a computation adds are [measured]. *)
Definition only_measured (s s' : list FixtureCall * T) : Prop :=
  ∃ cs, s'.1 = (cs ++ s.1)%list ∧ Forall measured cs.

#[local] Instance only_measured_preorder : PreOrder only_measured.
Proof.
  split; [by exists []|]. intros s1 s2 s3 (c1 & E1 & H1) (c2 & E2 & H2).
  exists (c2 ++ c1)%list. rewrite E2, E1, app_assoc. split; [done|]. by apply Forall_app.
Qed.

(** What one request does to the log. *)
Lemma exchange_log method path query body s :
  (exchange rec_tr method path query body s).2.1 = s.1 ∨
  let call := {| fc_method := method; fc_path := path; fc_query := query; fc_body := body |} in
  (exchange rec_tr method path query body s).2.1 = call :: s.1 ∧ measured call.
Proof.
  unfold exchange. destruct tr as [t|]; [simpl|by left].
  unfold pybind, lift_result, _measured_pair. destruct (_LISTINGS_RE path) eqn:Hre; simpl; [|by left].
  case_bool_decide as Hin; [by left|].
  assert (Hm : method = "GET" ∨ method = "POST").
  { unfold MEASURED_ALLOWLIST in Hin.
    rewrite !elem_of_cons in Hin. destruct Hin as [[= ->]|[[= ->]|Hin]]; [by left|by right|].
    by apply elem_of_nil in Hin. }
  destruct Hm as [-> | ->]; simpl.
  - destruct (_refuse_get query body) as [[]|] eqn:Hr; simpl; [|by left]. right.
    unfold recording. destruct (t _ s.2). simpl. split; [done|]. split; [done|].
    left. by apply refuse_get_measured in Hr as (? & ? & ? & ?).
  - destruct (_refuse_post query body) as [[]|] eqn:Hr; simpl; [|by left]. right.
    unfold recording. destruct (t _ s.2). simpl. split; [done|]. split; [done|].
    right. by apply refuse_post_measured in Hr as (? & ?).
Qed.

Lemma within_exchange_measured method path query body :
  within only_measured (exchange rec_tr method path query body).
Proof.
  intros s. unfold only_measured. destruct (exchange_log method path query body s) as [->|[-> Hm]]; [by exists []|].
  eexists [_]. split; [done|]. by apply Forall_singleton.
Qed.

Lemma within_read_loop (R : relation (list FixtureCall * T)) `{!PreOrder R} pages spec marker w :
  (∀ path query, within R (exchange rec_tr "GET" path query None)) →
  within R (read_loop rec_tr pages spec marker w).
Proof.
  intros HR. revert w. induction pages as [|pages IH]; intros w; simpl; [auto with orch|].
  apply within_bind; [done| |intros payload; apply within_bind; [done|auto with orch|]].
  - apply within_try; [done..|]. intros e. destruct (isa _ _); auto with orch.
  - intros page. destruct page.2; auto with orch.
Qed.

Lemma within_adopt (R : relation (list FixtureCall * T)) `{!PreOrder R} spec marker :
  (∀ path query, within R (exchange rec_tr "GET" path query None)) →
  within R (_adopt rec_tr spec marker).
Proof.
  intros HR. unfold _adopt, _read_pages.
  do 2 (apply within_bind; [done|by apply within_read_loop|intros ?]).
  case_decide; auto with orch.
Qed.
End requests.

(** ** Files of the ledger *)

Abbreviation dot := (Ascii.Ascii false true true true false true false false).

Lemma path_no_dot v h : 1 <= v → str_free dot (_path v (sha256_hex h)) = true.
Proof.
  intros Hv. unfold _path. rewrite str_free_app, all_digits_free; [|done|apply pretty_all_digits; lia].
  rewrite str_free_app. by rewrite sha256_hex_free.
Qed.

(** The file [p] is kept. *)
Definition keeps_file (p : string) (s s' : FileSystem) : Prop :=
  is_Some (fs_files s !! p) → is_Some (fs_files s' !! p).

#[export] Instance keeps_file_preorder p : PreOrder (keeps_file p).
Proof. split; [by intros s ?|]. intros a b c H1 H2 H. by apply H2, H1. Qed.

Section files.
Context (p : string).

Lemma next_fault_keeps : within (keeps_file p) next_fault.
Proof. intros [fs [|f l]]; by intros H. Qed.

Lemma set_files_keeps f :
  (∀ fs, is_Some (fs !! p) → is_Some (f fs !! p)) → within (keeps_file p) (set_files f).
Proof. intros Hf. apply within_modify. intros [fs l] H. by apply Hf. Qed.

Lemma insert_keeps q x : within (keeps_file p) (set_files <[q := x]>).
Proof. apply set_files_keeps. intros fs H. destruct (decide (q = p)) as [->|]; [by rewrite lookup_insert_eq|by rewrite lookup_insert_ne]. Qed.

Lemma delete_keeps q : q ≠ p → within (keeps_file p) (set_files (delete q)).
Proof. intros Hq. apply set_files_keeps. intros fs H. by rewrite lookup_delete_ne. Qed.

#[local] Hint Resolve next_fault_keeps insert_keeps delete_keeps : orch.

Lemma os_error_keeps {A} : within (keeps_file p) (os_error (A := A)).
Proof. unfold os_error. solve_within. Qed.
#[local] Hint Resolve os_error_keeps : orch.

Lemma ledger_get_keeps v h : within (keeps_file p) (ledger_get v h).
Proof. unfold ledger_get. solve_within. Qed.
#[local] Hint Resolve ledger_get_keeps : orch.

Lemma create_exclusive_keeps q payload : within (keeps_file p) (_create_exclusive q payload).
Proof. unfold _create_exclusive. solve_within. Qed.
#[local] Hint Resolve create_exclusive_keeps : orch.

Lemma put_pending_keeps v h : within (keeps_file p) (put_pending v h).
Proof. unfold put_pending. solve_within. Qed.

Lemma ledger_record_keeps v h i : (∀ q, p ≠ q ++ ".next") → within (keeps_file p) (ledger_record v h i).
Proof.
  intros Hp. unfold ledger_record, unlink, replace_and_sync.
  assert (Hne : _path v h ++ ".next" ≠ p) by (intros E; by eapply Hp).
  pose proof (delete_keeps _ Hne) as Hd.
  assert (Hr : ∀ f, within (keeps_file p)
    (set_files (λ fs, <[_path v h := f]> (delete (_path v h ++ ".next") fs)))).
  { intros f. apply set_files_keeps. intros fs H. destruct (decide (_path v h = p)) as [<-|].
    - by rewrite lookup_insert_eq.
    - by rewrite lookup_insert_ne, lookup_delete_ne. }
  solve_within.
Qed.
End files.

(** Reading the ledger changes no file, and finds nothing only where there is nothing. *)
Lemma ledger_get_files v h s :
  fs_files (ledger_get v h s).2 = fs_files s ∧
  ∀ s', ledger_get v h s = (Ok None, s') → fs_files s !! _path v h = None.
Proof.
  unfold ledger_get, pybind, gets, next_fault, lift_result.
  destruct (fs_files s !! _path v h) as [f|] eqn:Hf; simpl; [|by split].
  destruct (fs_faults s) as [|[|k] l], f as [text|]; simpl; try by split.
  - destruct (parse_entry _ _ _); by split.
  - destruct (parse_entry _ _ _); by split.
Qed.

(** A row of the ledger has one of the two statuses. *)
Lemma put_pending_file v h s s' : put_pending v h s = (Ok tt, s') → is_Some (fs_files s' !! _path v h).
Proof.
  unfold put_pending, pybind. pose proof (ledger_get_files v h s) as [Hf Hn].
  destruct (ledger_get v h s) as [[[e|]|e] s1] eqn:Hg; simpl in *; [| |done].
  - intros [= <-]. revert Hg Hf. unfold ledger_get, pybind, gets.
    destruct (fs_files s !! _path v h) eqn:Hl; [|done]. intros _ ->. by rewrite Hl.
  - unfold _create_exclusive, pybind, gets. rewrite Hf, (Hn s1 eq_refl).
    unfold next_fault, set_files, modify. destruct (fs_faults s1) as [|[|[n|]] l]; simpl; try done;
      intros [= <-]; simpl; rewrite lookup_insert_eq; by eexists.
Qed.

(** ** At most one creation per draft *)

(** The call creates a listing whose description has the line [m]. *)
Definition carries (m : string) (c : FixtureCall) : bool :=
  bool_decide (fc_method c = "POST") &&
  match fc_body c ≫= field "description" with
  | Some d => bool_decide (m ∈ marker_lines d)
  | None => false
  end.

Definition posts (m : string) (log : list FixtureCall) : nat := length (filter (λ c, carries m c = true) log).

Lemma posts_cons m c log : posts m (c :: log) = ((if carries m c then 1 else 0) + posts m log)%nat.
Proof.
  unfold posts. rewrite filter_cons. destruct (carries m c) eqn:Hc; [by rewrite decide_True|].
  by rewrite decide_False.
Qed.

Section once.
Context {T : Type} (tr : option (FixtureTransport T)).

Local Abbreviation rec_tr := (recording <$> tr).

(** The file [p] is kept, and a creation of the draft [m] is sent only while writing it. *)
Definition once (m p : string) (s s' : FileSystem * (list FixtureCall * T)) : Prop :=
  keeps_file p s.1 s'.1 ∧
  (posts m s'.2.1 ≤ posts m s.2.1 +
    (if decide (is_Some (fs_files s.1 !! p)) then 0
     else if decide (is_Some (fs_files s'.1 !! p)) then 1 else 0))%nat.

#[local] Instance once_preorder m p : PreOrder (once m p).
Proof.
  split; [intros s; split; [done|lia]|].
  intros a b c [H1 H2] [H3 H4]. split; [by etrans|]. unfold keeps_file in *.
  repeat case_decide; naive_solver lia.
Qed.

(** The log gains no creation of [m]. *)
Definition no_post (m : string) (s s' : list FixtureCall * T) : Prop := posts m s'.1 = posts m s.1.

#[local] Instance no_post_preorder m : PreOrder (no_post m).
Proof. split; [done|]. intros a b c H1 H2. unfold no_post in *. congruence. Qed.

Lemma within_file m p {A} (c : M FileSystem exn A) :
  within (keeps_file p) c → within (once m p) (on_fst c).
Proof.
  intros Hc. eapply within_on_fst; [exact Hc|]. intros a a' t Ha. split; [done|]. simpl. lia.
Qed.

Lemma within_net m p {A} (c : M (list FixtureCall * T) exn A) :
  within (no_post m) c → within (once m p) (on_snd c).
Proof.
  intros Hc. eapply within_on_snd; [exact Hc|]. intros s a a' Ha. unfold no_post in Ha.
  split; [done|]. simpl. lia.
Qed.

Lemma exchange_no_post m method path query body :
  carries m {| fc_method := method; fc_path := path; fc_query := query; fc_body := body |} = false →
  within (no_post m) (exchange rec_tr method path query body).
Proof.
  intros Hc s. unfold no_post. destruct (exchange_log tr method path query body s) as [->|[-> _]]; [done|].
  by rewrite posts_cons, Hc.
Qed.

Lemma adopt_no_post m spec marker : within (no_post m) (_adopt rec_tr spec marker).
Proof. apply within_adopt; [apply _|]. intros. by apply exchange_no_post. Qed.

Lemma create_call_carries m spec marker :
  marker_line marker → marker_lines (ds_description spec) = [] →
  carries m {| fc_method := "POST"; fc_path := _listings_path (ds_shop_id spec); fc_query := [];
               fc_body := Some (create_body spec marker) |} = bool_decide (m = marker).
Proof.
  intros Hm Hd. unfold carries. simpl. rewrite marker_lines_with_marker, Hd by done. simpl.
  apply bool_decide_ext. by rewrite list_elem_of_singleton.
Qed.

Lemma within_create_log spec marker s :
  let s' := (_create rec_tr spec marker s).2 in
  s'.1 = s.1 ∨ s'.1 = {| fc_method := "POST"; fc_path := _listings_path (ds_shop_id spec); fc_query := [];
                         fc_body := Some (create_body spec marker) |} :: s.1.
Proof.
  unfold _create, pybind. pose proof (exchange_log tr "POST" (_listings_path (ds_shop_id spec)) []
    (Some (create_body spec marker)) s) as H.
  destruct (exchange _ _ _ _ _ s) as [[payload|e] s']; simpl in *;
    destruct H as [H|[H _]]; auto.
Qed.

Lemma require_spec_ok spec : _require_spec spec = Ok tt →
  1 <= ds_spec_version spec ∧ 1 <= ds_shop_id spec ∧ marker_lines (ds_description spec) = [].
Proof.
  unfold _require_spec.
  destruct (Z.ltb_spec (ds_spec_version spec) 1); [done|]. destruct (Z.ltb_spec (ds_shop_id spec) 1); [done|].
  simpl. destruct (_ <? 1); [done|]. simpl. destruct (_ <? 1); [done|]. simpl.
  destruct (_ || _ || _); [done|]. simpl. destruct (bool_decide (ds_price _ = _)); [done|]. simpl.
  case_bool_decide; [|done]. intros _. split_and!; [lia..|done].
Qed.

(** The marker determines the ledger file. *)
Lemma marker_path v1 v2 h1 h2 :
  1 <= v1 → 1 <= v2 → draft_marker v1 h1 = draft_marker v2 h2 → _path v1 h1 = _path v2 h2.
Proof.
  intros H1 H2 E. unfold draft_marker, _path in *.
  apply (f_equal (strip_prefix "mm-draft:")) in E. rewrite !strip_prefix_app in E. injection E as E.
  apply (str_field_inj colon) in E as [-> ->]; [done|..];
    (apply all_digits_free; [done|apply pretty_all_digits; lia]).
Qed.

Definition spec_marker (spec : DraftSpec) : string := draft_marker (ds_spec_version spec) (fixture_hash spec).
Definition spec_path (spec : DraftSpec) : string := _path (ds_spec_version spec) (fixture_hash spec).

Lemma fixture_hash_hex spec : ∃ t, fixture_hash spec = sha256_hex t.
Proof. by eexists. Qed.

Lemma spec_marker_line spec : 1 <= ds_spec_version spec → marker_line (spec_marker spec).
Proof. unfold spec_marker. destruct (fixture_hash_hex spec) as [t ->]. apply draft_marker_line. Qed.

Lemma path_not_temporary spec q : 1 <= ds_spec_version spec → spec_path spec ≠ q ++ ".next".
Proof.
  intros Hv E. unfold spec_path in E. destruct (fixture_hash_hex spec) as [t Ht]. rewrite Ht in E.
  pose proof (path_no_dot _ t Hv) as H. rewrite E, str_free_app, andb_true_iff in H. by destruct H.
Qed.

(** A creation of another draft. *)
Lemma create_other m p spec :
  1 <= ds_spec_version spec → marker_lines (ds_description spec) = [] → m ≠ spec_marker spec →
  within (once m p) (on_snd (_create rec_tr spec (spec_marker spec))).
Proof.
  intros Hv Hd Hm. apply within_net. intros s. unfold no_post.
  destruct (within_create_log spec (spec_marker spec) s) as [->| ->]; [done|].
  rewrite posts_cons, create_call_carries; [|by apply spec_marker_line|done].
  by rewrite bool_decide_false.
Qed.

(** A creation of this draft, after its file is written. *)
Lemma pending_then_create p spec s :
  1 <= ds_spec_version spec → marker_lines (ds_description spec) = [] → p = spec_path spec →
  fs_files s.1 !! p = None →
  once (spec_marker spec) p s
    ((do* on_fst (put_pending (ds_spec_version spec) (fixture_hash spec));
      on_snd (_create rec_tr spec (spec_marker spec))) s).2.
Proof.
  intros Hv Hd -> Hn. destruct s as [fs net]. simpl in Hn. unfold pybind, on_fst, on_snd. simpl.
  pose proof (put_pending_keeps (spec_path spec) (ds_spec_version spec) (fixture_hash spec) fs) as Hk.
  destruct (put_pending _ _ fs) as [[[]|e] fs'] eqn:Hp; simpl in *.
  - apply put_pending_file in Hp. fold (spec_path spec) in Hp.
    pose proof (within_create_log spec (spec_marker spec) net) as Hlog.
    destruct (_create _ _ _ net) as [r net']. simpl in Hlog. split; [done|]. simpl.
    rewrite Hn, decide_False by (by intros []). rewrite decide_True by done.
    destruct Hlog as [->| ->]; [lia|]. rewrite posts_cons. case_match; lia.
  - split; [done|]. simpl. lia.
Qed.
End once.

Lemma pybind_assoc {S E A B C} (m : M S E A) (k : A → M S E B) (h : B → M S E C) s :
  pybind (pybind m k) h s = pybind m (λ a, pybind (k a) h) s.
Proof. unfold pybind. by destruct (m s) as [[a|e] s']. Qed.

Section at_most_once.
Context {T : Type} (tr : option (FixtureTransport T)).

Local Abbreviation rec_tr := (recording <$> tr).
#[local] Existing Instance once_preorder.

(** The end of a call: the result is recorded and returned. *)
Lemma record_once m p spec i digest (r : DraftReceipt) :
  (∀ q, p ≠ q ++ ".next") →
  within (once (T := T) m p) (do* on_fst (ledger_record (ds_spec_version spec) digest i); pyret r).
Proof.
  intros Hp. apply within_bind; [apply _| |intros []; apply within_ret; apply _].
  by apply within_file, ledger_record_keeps.
Qed.

Lemma create_draft_once m p spec :
  (∀ q, p ≠ q ++ ".next") → (1 <= ds_spec_version spec → m = spec_marker spec → p = spec_path spec) →
  within (once m p) (create_draft rec_tr spec).
Proof.
  intros Htmp Hpath s. unfold create_draft. unfold pybind at 1, lift_result at 1.
  destruct (_require_spec spec) as [[]|e] eqn:Hreq; [|reflexivity].
  apply require_spec_ok in Hreq as (Hv & _ & Hd). specialize (Hpath Hv).
  fold (spec_marker spec).
  pose proof (ledger_get_files (ds_spec_version spec) (fixture_hash spec) s.1) as [Hfs Hnone].
  pose proof (within_file m p _ (ledger_get_keeps p (ds_spec_version spec) (fixture_hash spec)) s) as Hget.
  unfold pybind at 1. unfold on_fst in Hget. unfold on_fst at 1.
  destruct (ledger_get _ _ s.1) as [[existing|e] fs1]; [|exact Hget].
  etrans; [exact Hget|]. clear Hget. simpl in Hfs, Hnone. simpl.
  case_bool_decide as Hrec.
  { destruct (existing ≫= le_listing_id); [apply within_ret|apply within_raise]; apply _. }
  pose proof (within_net m p _ (adopt_no_post tr m spec (spec_marker spec)) (fs1, s.2)) as Hadopt.
  unfold pybind at 1. unfold on_snd in Hadopt. unfold on_snd at 1. simpl in Hadopt. simpl.
  destruct (_adopt _ _ _ s.2) as [[[adopted|]|e] net]; [| |exact Hadopt];
    (etrans; [exact Hadopt|]); [by apply record_once|].
  case_bool_decide as Hpen; [apply within_lift; apply _|].
  destruct existing as [[v h [] i]|]; [done|done|]. rewrite <- pybind_assoc. unfold pybind at 1.
  assert (Hfinal : once m p (fs1, net)
    ((do* on_fst (put_pending (ds_spec_version spec) (fixture_hash spec));
      on_snd (_create rec_tr spec (spec_marker spec))) (fs1, net)).2).
  { destruct (decide (m = spec_marker spec)) as [->|Hm].
    - apply pending_then_create; [done..|by apply Hpath|]. simpl.
      rewrite Hfs, Hpath by done. by eapply Hnone.
    - apply within_bind; [apply _|by apply within_file, put_pending_keeps|intros []].
      by apply create_other. }
  destruct ((do* _; _) (fs1, net)) as [[created|e] s2]; [|exact Hfinal].
  etrans; [exact Hfinal|]. by apply record_once.
Qed.

(** A run of calls; one that raises leaves what it did. *)
Definition create_all (specs : list DraftSpec) (s : FileSystem * (list FixtureCall * T))
    : FileSystem * (list FixtureCall * T) :=
  fold_left (λ s spec, (create_draft rec_tr spec s).2) specs s.

(** C6: a draft is posted at most once.  Whatever the transport answers or raises, whichever
    file operations fail, and however many calls for this and other drafts are made: the
    calls send at most one creation whose description carries the marker of the draft, and
    none if the ledger had a file for it, readable or not, at the start. *)
Theorem draft_posted_at_most_once spec specs s :
  1 <= ds_spec_version spec →
  (posts (spec_marker spec) (create_all specs s).2.1 ≤
   posts (spec_marker spec) s.2.1 + if decide (is_Some (fs_files s.1 !! spec_path spec)) then 0 else 1)%nat.
Proof.
  intros Hv.
  assert (H : once (spec_marker spec) (spec_path spec) s (create_all specs s)).
  { revert s. induction specs as [|spec' specs IH]; intros s; [simpl; reflexivity|].
    simpl. etrans; [|apply IH]. apply create_draft_once; [intros q; by apply path_not_temporary|].
    intros Hv' E. by apply marker_path. }
  destruct H as [_ H]. repeat case_decide; lia.
Qed.
End at_most_once.

(** C35: the marker survives the round trip through the provider: a listing created from a valid
    draft, read back with any convention of line breaks, is recognised by the marker of that
    draft and by no other. *)
Theorem marker_roundtrip spec d m :
  _require_spec spec = Ok tt →
  universal_newlines d = universal_newlines (_with_marker (ds_description spec) (spec_marker spec)) →
  _line_marker (Some (JStr d)) m = Ok (bool_decide (m = spec_marker spec)).
Proof.
  intros (Hv & _ & Hd)%require_spec_ok Hu.
  assert (Hl : marker_lines d = [spec_marker spec]).
  { transitivity (marker_lines (_with_marker (ds_description spec) (spec_marker spec))).
    - unfold marker_lines, _description_lines. by rewrite Hu.
    - rewrite marker_lines_with_marker, Hd; [done|by apply spec_marker_line]. }
  unfold _line_marker. rewrite Hl. simpl. rewrite andb_false_r. f_equal.
  apply bool_decide_ext. split; [by intros [=]|by intros ->].
Qed.

Definition sample_spec : DraftSpec := {|
  ds_product_id := 1; ds_spec_version := 1; ds_shop_id := 7; ds_title := "Planner";
  ds_description := "A planner." ++ String cr ""; ds_price := "9.99"; ds_quantity := 999;
  ds_who_made := "i_did"; ds_when_made := "2020_2026"; ds_taxonomy_id := 2078 |}.

Lemma marker_roundtrip_witness :
  _line_marker (Some (JStr (_with_marker (ds_description sample_spec) (spec_marker sample_spec))))
    (spec_marker sample_spec) = Ok true.
Proof.
  rewrite (marker_roundtrip sample_spec _ (spec_marker sample_spec)); [|vm_compute; reflexivity|reflexivity].
  by rewrite bool_decide_true.
Defined.

(** A shop whose answers to a creation are lost. *)
Definition silent_shop : FixtureTransport unit := λ call t,
  if decide (fc_method call = "GET") then (Ok [("results", JList []); ("count", JInt 0)], t)
  else (Raise (Exn OSError "timed out"), t).

Lemma draft_posted_at_most_once_witness :
  (posts (spec_marker sample_spec)
    (create_all (Some silent_shop) [sample_spec; sample_spec]
       ({| fs_files := ∅; fs_faults := [] |}, ([], tt))).2.1 ≤ 1)%nat.
Proof.
  eapply Nat.le_trans.
  - apply (draft_posted_at_most_once (Some silent_shop) sample_spec [sample_spec; sample_spec]
      ({| fs_files := ∅; fs_faults := [] |}, ([], tt))). vm_compute. discriminate.
  - cbn [fst snd]. change (posts (spec_marker sample_spec) []) with 0%nat. by case_decide; lia.
Defined.

Section allowlist.
Context {T : Type} (tr : option (FixtureTransport T)).

(** The calls a computation adds, the ledger left aside. *)
Definition only_requests (s s' : FileSystem * (list FixtureCall * T)) : Prop := only_measured s.2 s'.2.

#[local] Existing Instance only_measured_preorder.
#[local] Instance only_requests_preorder : PreOrder only_requests.
Proof. split; [intros s; unfold only_requests; reflexivity|]. intros a b c. unfold only_requests. by etrans. Qed.

Lemma create_draft_requests spec : within only_requests (create_draft (recording <$> tr) spec).
Proof.
  assert (Hfs : ∀ A (c : M FileSystem exn A), within only_requests (on_fst c)).
  { intros A c. eapply (within_on_fst (λ _ _, True)); [done|]. intros. unfold only_requests. reflexivity. }
  assert (Hnet : ∀ A (c : M _ exn A), within only_measured c → within only_requests (on_snd c)).
  { intros A c Hc. by eapply within_on_snd; [exact Hc|]. }
  assert (Hcreate : ∀ m, within only_requests (on_snd (_create (recording <$> tr) spec m))).
  { intros m. apply Hnet. unfold _create. apply within_bind; [apply _|by apply within_exchange_measured|].
    intros p. apply within_lift. apply _. }
  assert (Hadopt : ∀ m, within only_requests (on_snd (_adopt (recording <$> tr) spec m))).
  { intros m. apply Hnet. apply within_adopt; [apply _|]. intros. by apply within_exchange_measured. }
  unfold create_draft. solve_within.
Qed.

(** Every request that any run of calls sends lists the drafts of a shop, or creates a
    listing with exactly the eight body keys: no request can publish, because none names a
    listing and none has a state to set. *)
Theorem requests_on_allowlist specs s :
  ∃ cs, (create_all tr specs s).2.1 = (cs ++ s.2.1)%list ∧ Forall measured cs.
Proof.
  assert (H : only_requests s (create_all tr specs s)).
  { revert s. induction specs as [|spec specs IH]; intros s; [simpl; reflexivity|].
    simpl. etrans; [|apply IH]. apply create_draft_requests. }
  exact H.
Qed.
End allowlist.
