(* ===== verification/DraftShop.v ===== *)
(** * The draft client and an honest shop

    Against a shop that answers listings truthfully, may lose a creation on its way and may
    lose the answer to one, the client is a four-phase state machine: a draft is untried,
    stuck, posted without an answer, or done; a lost answer is adopted by the next call.  The file
    operations succeed here.  A shop with more drafts than the client lists makes an untried or
    unanswered draft stay where it is, with a refusal. *)

From S2P Require Import Prelude PyText PyLines Sha256 PySort Errors Tables Files DraftClient DraftOnce.
Open Scope string_scope.
Open Scope Z_scope.

(** ** The shop *)

(** A bound far above every listing number, and within what the ledger reads back. *)
Definition id_bound : Z := 10 ^ 4000.

#[global] Opaque id_bound.

(** What a transport over the states [T] promises: [drafts shop t] are the drafts that a shop
    holds, with their descriptions, in the order in which it lists them. *)
Class HonestShop {T : Type} (tr : FixtureTransport T) (drafts : Z → T → list (Z * string))
    (render : Z * string → list (string * json)) : Prop := {
  render_id r : json_get "listing_id" (render r) = Some (JInt r.1);
  render_state r : json_get "state" (render r) = Some (JStr "draft");
  render_description r : json_get "description" (render r) = Some (JStr r.2);
  shop_get shop offset t : 0 <= offset → ∃ payload,
    tr {| fc_method := "GET"; fc_path := _listings_path shop; fc_query := _draft_query offset;
          fc_body := None |} t = (Ok payload, t) ∧
    json_get "results" payload =
      Some (JList ((λ r, JDict (render r)) <$> take 100 (drop (Z.to_nat offset) (drafts shop t)))) ∧
    json_get "count" payload = Some (JInt (Z.of_nat (length (drafts shop t))));
  shop_post shop body d t : field "description" body = Some d →
    ∃ r t', tr {| fc_method := "POST"; fc_path := _listings_path shop; fc_query := [];
                  fc_body := Some body |} t = (r, t') ∧
      ((drafts shop t' = drafts shop t ∧ ∃ e, r = Raise e) ∨
       (∃ i, 1 <= i < id_bound ∧ i ∉ (drafts shop t).*1 ∧ drafts shop t' ≡ₚ (i, d) :: drafts shop t ∧
         (r = Ok (render (i, d)) ∨ ∃ e, r = Raise e)))
}.

(** The drafts of a shop that the client can tell apart. *)
Record shop_ok (m : string) (rows : list (Z * string)) : Prop := {
  so_ids : NoDup rows.*1;
  so_bounds : Forall (λ r : Z * string, 1 <= r.1 < id_bound) rows;
  so_clean : Forall (λ r : Z * string, m ∈ marker_lines r.2 → marker_lines r.2 = [m]) rows
}.

(** The drafts that carry the marker. *)
Definition ours (m : string) (rows : list (Z * string)) : list (Z * string) :=
  filter (λ r : Z * string, marker_lines r.2 = [m]) rows.

(** ** Reading the pages *)

Section walk.
Context (m : string) (render : Z * string → list (string * json))
  (render_id' : ∀ r, json_get "listing_id" (render r) = Some (JInt r.1))
  (render_state' : ∀ r, json_get "state" (render r) = Some (JStr "draft"))
  (render_description' : ∀ r, json_get "description" (render r) = Some (JStr r.2)).

(** The loop variables after the rows [pre]. *)
Definition walked (pre : list (Z * string)) (w : Walk) : Prop :=
  wk_found w = head (ours m pre).*1 ∧ wk_ids w = pre.*1 ∧
  wk_texts w = universal_newlines <$> pre.*2 ∧ wk_seen_ids w = list_to_set pre.*1.

Lemma line_marker_row d :
  (m ∈ marker_lines d → marker_lines d = [m]) →
  _line_marker (Some (JStr d)) m = Ok (bool_decide (marker_lines d = [m])).
Proof.
  intros Hd. unfold _line_marker. case_bool_decide as Hin; [|done].
  rewrite (Hd Hin). done.
Qed.

Lemma scan_row_ok pre r w :
  shop_ok m (pre ++ [r]) → (length (ours m (pre ++ [r])) ≤ 1)%nat → walked pre w →
  ∃ w', scan_row m (JDict (render r)) w = Ok w' ∧ walked (pre ++ [r]) w' ∧
    wk_seen w' = wk_seen w ∧ wk_expected w' = wk_expected w ∧ wk_offset w' = wk_offset w.
Proof.
  intros [Hids Hb Hc] Hone (Hf & Hi & Ht & Hs).
  rewrite Forall_app, Forall_singleton in Hb, Hc. destruct Hb as [_ Hb], Hc as [_ Hc].
  rewrite fmap_app in Hids. apply NoDup_app in Hids as (_ & Hnew & _).
  unfold scan_row. rewrite render_id'. rewrite decide_False.
  2:{ rewrite Hs, elem_of_list_to_set. intros Hin. apply (Hnew _ Hin). by apply list_elem_of_singleton. }
  rewrite render_description', line_marker_row by done. cbn [rbind].
  unfold ours in *. rewrite filter_app, filter_cons, filter_nil in Hone.
  unfold walked, ours. rewrite !fmap_app, filter_app, filter_cons, filter_nil.
  case_bool_decide as Hm.
  - rewrite decide_True in Hone |- * by done. rewrite length_app in Hone. simpl in Hone.
    assert (Hpre : filter (λ r : Z * string, marker_lines r.2 = [m]) pre = []) by (apply nil_length_inv; lia).
    unfold _draft_listing_id. rewrite render_state', render_id'. simpl.
    destruct (Z.ltb_spec r.1 1); [lia|]. cbn [rbind]. rewrite Hf, Hpre. cbn [rbind].
    eexists. split; [done|]. simpl. rewrite Hi, Ht, Hs. split_and!; try done.
    rewrite list_to_set_app_L. simpl. set_solver.
  - rewrite decide_False by done. cbn [rbind]. eexists. split; [done|]. simpl.
    rewrite app_nil_r, Hi, Ht, Hs. split_and!; try done. rewrite list_to_set_app_L. simpl. set_solver.
Qed.

Lemma shop_ok_app pre rs : shop_ok m (pre ++ rs) → shop_ok m pre.
Proof.
  intros [Hids Hb Hc]. rewrite fmap_app in Hids. rewrite Forall_app in Hb, Hc.
  apply NoDup_app in Hids. split; naive_solver.
Qed.

Lemma ours_app_le pre rs : (length (ours m pre) ≤ length (ours m (pre ++ rs)))%nat.
Proof. unfold ours. rewrite filter_app, length_app. lia. Qed.

Lemma scan_rows_ok pre rs w :
  shop_ok m (pre ++ rs) → (length (ours m (pre ++ rs)) ≤ 1)%nat → walked pre w →
  ∃ w', scan_rows m ((λ r, JDict (render r)) <$> rs) w = Ok w' ∧ walked (pre ++ rs) w' ∧
    wk_seen w' = wk_seen w ∧ wk_expected w' = wk_expected w ∧ wk_offset w' = wk_offset w.
Proof.
  revert pre w. induction rs as [|r rs IH]; intros pre w Hok Hone Hw; cbn [scan_rows fmap list_fmap].
  - exists w. by rewrite app_nil_r.
  - assert (E : (pre ++ r :: rs = (pre ++ [r]) ++ rs)%list) by by rewrite <- app_assoc.
    rewrite E in Hok, Hone.
    destruct (scan_row_ok pre r w) as (w1 & -> & Hw1 & S1 & E1 & O1);
      [by eapply shop_ok_app|pose proof (ours_app_le (pre ++ [r]) rs); lia|done|].
    cbn [rbind]. destruct (IH (pre ++ [r])%list w1) as (w2 & -> & Hw2 & S2 & E2 & O2); [done..|].
    exists w2. rewrite E. split_and!; [done..|congruence|congruence|congruence].
Qed.

(** The loop variables after [k] full pages. *)
Definition walked_pages (rows : list (Z * string)) (k : nat) (w : Walk) : Prop :=
  walked (take (100 * k) rows) w ∧ wk_seen w = 100 * Z.of_nat k ∧ wk_offset w = 100 * Z.of_nat k ∧
  default (Z.of_nat (length rows)) (wk_expected w) = Z.of_nat (length rows).

Lemma take_page (rows : list (Z * string)) k :
  (take (100 * k) rows ++ take 100 (drop (100 * k) rows) = take (100 * S k) rows)%list.
Proof.
  replace (100 * S k)%nat with (100 * k + 100)%nat by lia.
  by rewrite <- take_take_drop.
Qed.

Lemma read_page_ok rows k w payload :
  shop_ok m rows → (length (ours m rows) ≤ 1)%nat → (100 * k ≤ length rows)%nat → walked_pages rows k w →
  json_get "results" payload =
    Some (JList ((λ r, JDict (render r)) <$> take 100 (drop (100 * k) rows))) →
  json_get "count" payload = Some (JInt (Z.of_nat (length rows))) →
  ∃ w', if decide (length rows < 100 * S k)%nat then read_page m payload w = Ok (w', true) ∧ walked rows w'
        else read_page m payload w = Ok (w', false) ∧ walked_pages rows (S k) w'.
Proof.
  intros Hok Hone Hk (Hw & Hseen & Hoff & Hexp) Hres Hcount.
  unfold read_page. rewrite Hres, Hcount. destruct (Z.ltb_spec (Z.of_nat (length rows)) 0); [lia|].
  rewrite Hexp, bool_decide_true by done. cbn [negb].
  set (page := take 100 (drop (100 * k) rows)) in *.
  assert (Hlen : length page = Nat.min 100 (length rows - 100 * k)) by (unfold page; by rewrite length_take, length_drop).
  rewrite length_fmap. unfold PAGE_LIMIT.
  destruct (Z.ltb_spec 100 (Z.of_nat (length page))); [lia|].
  pose proof (take_page rows k) as Hpage. fold page in Hpage.
  assert (Hpre : ∃ rest, ((take (100 * k) rows ++ page) ++ rest = rows)%list).
  { exists (drop (100 * S k) rows). rewrite Hpage. apply take_drop. }
  destruct Hpre as [rest Hrest].
  destruct (scan_rows_ok (take (100 * k) rows) page w) as (w1 & -> & Hw1 & S1 & E1 & O1); [| |done|].
  { apply (shop_ok_app _ rest). by rewrite Hrest. }
  { pose proof (ours_app_le (take (100 * k) rows ++ page) rest) as H1. rewrite Hrest in H1. lia. }
  cbn [rbind]. rewrite Hpage in Hw1. cbn [wk_seen wk_found wk_ids wk_texts wk_seen_ids wk_expected wk_offset].
  case_decide as Hlast.
  - destruct (Z.ltb_spec (Z.of_nat (length page)) 100); [|lia].
    destruct (Z.eqb_spec (wk_seen w1 + Z.of_nat (length page)) (Z.of_nat (length rows))); [|lia].
    cbn [negb]. eexists. split; [done|]. rewrite take_ge in Hw1 by lia. exact Hw1.
  - destruct (Z.ltb_spec (Z.of_nat (length page)) 100); [lia|].
    eexists. split; [done|]. unfold walked_pages. simpl. split_and!; [exact Hw1|lia..|done].
Qed.
End walk.

(** ** The walk as a whole *)

Lemma listings_re_shop shop : 1 <= shop → _LISTINGS_RE (_listings_path shop) = true.
Proof.
  intros Hs. unfold _LISTINGS_RE, _listings_path. rewrite strip_prefix_app, pretty_pos_go by lia.
  destruct (pretty_go_head (Z.to_N shop) "" ltac:(lia)) as (n & r & Hn & -> & Hr).
  rewrite str_app_cons. unfold is_digit. rewrite pretty_char_value by lia.
  rewrite bool_decide_true by by eexists. rewrite bool_decide_false by (intros [=]; lia). cbn [andb negb].
  specialize (Hr eq_refl). clear - Hr. induction r as [|c r IH]; [done|].
  rewrite str_app_cons. cbn [digits_then]. cbn [all_digits] in Hr. apply andb_true_iff in Hr as [-> Hr].
  rewrite IH by done. by rewrite orb_true_r.
Qed.

Section honest.
Context {T : Type} (tr : FixtureTransport T) (drafts : Z → T → list (Z * string))
  (render : Z * string → list (string * json)) `{!HonestShop tr drafts render}.

Lemma exchange_get shop k t : 1 <= shop → (k < 10)%nat →
  exchange (Some tr) "GET" (_listings_path shop) (_draft_query (100 * Z.of_nat k)) None t =
  tr {| fc_method := "GET"; fc_path := _listings_path shop; fc_query := _draft_query (100 * Z.of_nat k);
        fc_body := None |} t.
Proof.
  intros Hs Hk. unfold exchange, pybind, lift_result, _measured_pair. rewrite listings_re_shop by done.
  cbn [negb].
  assert (Hin : bool_decide (("GET", _LISTINGS_PATH) ∉ MEASURED_ALLOWLIST) = false) by (by vm_compute).
  rewrite Hin.
  assert (Hq : _refuse_get (_draft_query (100 * Z.of_nat k)) None = Ok tt).
  { assert (k ∈ seq 0 10) as H by (apply elem_of_seq; lia). clear Hk.
    revert k H.
    apply Forall_forall. repeat (apply Forall_cons; split; [by vm_compute|]). apply Forall_nil. done. }
  by rewrite Hq.
Qed.

(** The marked draft and the sorted identifiers and texts of the whole shop. *)
Definition walk_result (m : string) (rows : list (Z * string)) : option Z * list Z * list string :=
  (head (ours m rows).*1, py_sorted Z.leb rows.*1, py_sorted String.leb (universal_newlines <$> rows.*2)).

Lemma read_loop_ok spec m pages k w t :
  let rows := drafts (ds_shop_id spec) t in
  1 <= ds_shop_id spec → shop_ok m rows → (length (ours m rows) ≤ 1)%nat →
  (100 * k ≤ length rows < 100 * (k + pages))%nat → (k + pages ≤ 10)%nat → walked_pages m rows k w →
  read_loop (Some tr) pages spec m w t = (Ok (walk_result m rows), t).
Proof.
  intros rows Hs Hok Hone. revert k w. induction pages as [|pages IH]; intros k w Hk Hp Hw; [lia|].
  cbn [read_loop]. unfold pybind at 1, try_except. pose proof Hw as (_ & _ & Hoff & _). rewrite Hoff.
  rewrite exchange_get by (done || lia).
  destruct (shop_get (ds_shop_id spec) (100 * Z.of_nat k) t ltac:(lia)) as (payload & -> & Hres & Hcount).
  replace (Z.to_nat (100 * Z.of_nat k)) with (100 * k)%nat in Hres by lia.
  destruct (read_page_ok m render render_id render_state render_description rows k w payload)
    as (w' & Hread); [done..|lia|done|done|done|].
  unfold pybind, lift_result. case_decide as Hlast.
  - destruct Hread as [-> (Hf & Hi & Ht & _)]. cbn [fst snd]. rewrite Hf, Hi, Ht. done.
  - destruct Hread as [-> Hw']. cbn [fst snd]. apply (IH (S k)); [lia|lia|done].
Qed.

(** A shop of more than the pages the client reads. *)
Lemma read_loop_full spec m pages k w t :
  let rows := drafts (ds_shop_id spec) t in
  1 <= ds_shop_id spec → shop_ok m rows → (length (ours m rows) ≤ 1)%nat →
  (100 * (k + pages) ≤ length rows)%nat → (k + pages ≤ 10)%nat → walked_pages m rows k w →
  read_loop (Some tr) pages spec m w t = (refused "page_cap", t).
Proof.
  intros rows Hs Hok Hone. revert k w. induction pages as [|pages IH]; intros k w Hk Hp Hw; [done|].
  cbn [read_loop]. unfold pybind at 1, try_except. pose proof Hw as (_ & _ & Hoff & _). rewrite Hoff.
  rewrite exchange_get by (done || lia).
  destruct (shop_get (ds_shop_id spec) (100 * Z.of_nat k) t ltac:(lia)) as (payload & -> & Hres & Hcount).
  replace (Z.to_nat (100 * Z.of_nat k)) with (100 * k)%nat in Hres by lia.
  destruct (read_page_ok m render render_id render_state render_description rows k w payload)
    as (w' & Hread); [done..|lia|done|done|done|].
  rewrite decide_False in Hread by lia. destruct Hread as [Hread Hw'].
  unfold pybind, lift_result. rewrite Hread. cbn [fst snd]. apply (IH (S k)); [lia|lia|done].
Qed.

Lemma adopt_full spec m t :
  let rows := drafts (ds_shop_id spec) t in
  1 <= ds_shop_id spec → shop_ok m rows → (length (ours m rows) ≤ 1)%nat → (1000 ≤ length rows)%nat →
  _adopt (Some tr) spec m t = (refused "page_cap", t).
Proof.
  intros rows Hs Hok Hone Hlen.
  assert (Hread : _read_pages (Some tr) spec m t = (refused "page_cap", t)).
  { apply (read_loop_full spec m PAGE_CAP 0 walk_start t); unfold PAGE_CAP; try done; fold rows; lia. }
  unfold _adopt, pybind. by rewrite Hread.
Qed.

Lemma adopt_ok spec m t :
  let rows := drafts (ds_shop_id spec) t in
  1 <= ds_shop_id spec → shop_ok m rows → (length (ours m rows) ≤ 1)%nat → (length rows < 1000)%nat →
  _adopt (Some tr) spec m t = (Ok (head (ours m rows).*1), t).
Proof.
  intros rows Hs Hok Hone Hlen.
  assert (Hread : _read_pages (Some tr) spec m t = (Ok (walk_result m rows), t)).
  { apply (read_loop_ok spec m PAGE_CAP 0 walk_start t); unfold PAGE_CAP; try done; fold rows; lia. }
  unfold _adopt, pybind. rewrite Hread, Hread.
  by rewrite decide_True.
Qed.
End honest.

(** ** The ledger without faults *)

Definition pending_text : string := "pending" ++ String lf "".
Definition recorded_text (i : Z) : string := "recorded" ++ String lf (pretty i ++ String lf "").

Lemma substring_all n s : (String.length s ≤ n)%nat → String.substring 0 n s = s.
Proof.
  revert s. induction n as [|n IH]; intros [|c s] Hn; simpl in *; [done|lia|done|].
  rewrite IH by lia. done.
Qed.

#[local] Transparent id_bound.
Lemma recorded_length i : 1 <= i < id_bound → (String.length (recorded_text i) ≤ 4096)%nat.
Proof.
  intros Hi. unfold recorded_text. rewrite str_app_length. cbn [String.length]. rewrite str_app_length.
  assert (String.length (pretty i) <= 4000)%nat as H; [|cbn; lia].
  apply pretty_length. split; [lia|]. exact (proj2 Hi).
Qed.
#[local] Opaque id_bound.

Lemma parse_recorded v h i : 1 <= i →
  parse_entry v h (recorded_text i) =
    Ok {| le_spec_version := v; le_fixture_hash := h; le_status := recorded; le_listing_id := Some i |}.
Proof.
  intros Hi. unfold parse_entry. rewrite decide_False by done.
  replace (String.prefix ("recorded" ++ String lf "") (recorded_text i)) with true
    by (symmetry; apply (prefix_app ("recorded" ++ String lf ""))).
  unfold recorded_text. rewrite !str_split_join.
  rewrite (str_split_free lf (pretty i))
    by (rewrite str_free_has, all_digits_free; [done|done|apply pretty_all_digits; lia]).
  change (str_split lf "recorded") with ["recorded"]. cbn [app].
  assert (isdigit (pretty i) = true) as ->.
  { unfold isdigit. rewrite pretty_all_digits, andb_true_r by lia.
    rewrite pretty_pos_go by lia. destruct (pretty_go_head (Z.to_N i) "" ltac:(lia)) as (n & r & _ & -> & _).
    done. }
  rewrite int_pretty by lia. by destruct (Z.leb_spec 1 i); [|lia].
Qed.

Section ledger.
Context (v : Z) (h : string) (fs : gmap string LedgerFile).

Local Abbreviation fault_free fs := {| fs_files := fs; fs_faults := [] |}.

Lemma get_absent : fs !! _path v h = None → ledger_get v h (fault_free fs) = (Ok None, fault_free fs).
Proof. intros Hf. unfold ledger_get, pybind, gets. simpl. by rewrite Hf. Qed.

Lemma get_pending : fs !! _path v h = Some (Text pending_text) →
  ledger_get v h (fault_free fs) =
    (Ok (Some {| le_spec_version := v; le_fixture_hash := h; le_status := pending; le_listing_id := None |}),
     fault_free fs).
Proof. intros Hf. unfold ledger_get, pybind, gets. simpl. by rewrite Hf. Qed.

Lemma get_recorded i : 1 <= i < id_bound → fs !! _path v h = Some (Text (recorded_text i)) →
  ledger_get v h (fault_free fs) =
    (Ok (Some {| le_spec_version := v; le_fixture_hash := h; le_status := recorded; le_listing_id := Some i |}),
     fault_free fs).
Proof.
  intros Hi Hf. unfold ledger_get, pybind, gets. cbn [fs_files]. rewrite Hf. unfold next_fault, lift_result.
  cbn [fs_faults]. by rewrite substring_all, parse_recorded by (apply recorded_length || lia; done).
Qed.

Lemma put_pending_absent : fs !! _path v h = None →
  put_pending v h (fault_free fs) = (Ok tt, fault_free (<[_path v h := Text pending_text]> fs)).
Proof.
  intros Hf. unfold put_pending, pybind. rewrite get_absent by done.
  unfold _create_exclusive, pybind, gets. cbn [fs_files]. by rewrite Hf.
Qed.

Lemma record_text i : ∃ fs', ledger_record v h i (fault_free fs) = (Ok tt, fault_free fs') ∧
  fs' !! _path v h = Some (Text (recorded_text i)).
Proof.
  unfold ledger_record, unlink, _create_exclusive, replace_and_sync, pybind, gets, next_fault, set_files, modify.
  cbn [fs_files fs_faults]. rewrite lookup_delete_eq. cbn [fs_files fs_faults]. rewrite lookup_insert_eq.
  cbn [fs_files fs_faults]. eexists. split; [done|]. by rewrite lookup_insert_eq.
Qed.
End ledger.

(** ** The phases of a draft *)

Inductive phase : Set :=
  | Untried
  | Stuck
  | Unanswered (listing_id : Z)
  | Done (listing_id : Z).

Definition receipt_of (spec : DraftSpec) (i : Z) : DraftReceipt :=
  _receipt spec (fixture_hash spec) (spec_marker spec) i.

(** What one call returns in a phase, and the phase it leads to.  A shop is [full] when it holds
    more drafts than the client reads; then it refuses every draft that is not done. *)
Inductive draft_step (spec : DraftSpec) (full : bool) : phase → result exn DraftReceipt → phase → Prop :=
  | step_lost e : full = false → draft_step spec full Untried (Raise e) Stuck
  | step_unanswered e i : full = false → draft_step spec full Untried (Raise e) (Unanswered i)
  | step_created i : full = false → draft_step spec full Untried (Ok (receipt_of spec i)) (Done i)
  | step_stuck : full = false → draft_step spec full Stuck (refused "pending") Stuck
  | step_adopted i : full = false → draft_step spec full (Unanswered i) (Ok (receipt_of spec i)) (Done i)
  | step_done i : draft_step spec full (Done i) (Ok (receipt_of spec i)) (Done i)
  | step_full ph : full = true → (∀ i, ph ≠ Done i) → draft_step spec full ph (refused "page_cap") ph.

Section phases.
Context {T : Type} (tr : FixtureTransport T) (drafts : Z → T → list (Z * string))
  (render : Z * string → list (string * json)) `{!HonestShop tr drafts render} (spec : DraftSpec).

Local Abbreviation shop_drafts t := (drafts (ds_shop_id spec) t).

(** The shop holds as many drafts as the client reads, or more. *)
Definition shop_full (s : FileSystem * T) : bool := (1000 <=? length (shop_drafts s.2))%nat.

(** The ledger and the shop in a phase: at most one draft is marked. *)
Definition in_phase (ph : phase) (s : FileSystem * T) : Prop :=
  let m := spec_marker spec in
  let file := fs_files s.1 !! spec_path spec in
  shop_ok m (shop_drafts s.2) ∧
  match ph with
  | Untried => file = None ∧ ours m (shop_drafts s.2) = []
  | Stuck => file = Some (Text pending_text) ∧ ours m (shop_drafts s.2) = []
  | Unanswered i => file = Some (Text pending_text) ∧ (ours m (shop_drafts s.2)).*1 = [i]
  | Done i => file = Some (Text (recorded_text i)) ∧ (ours m (shop_drafts s.2)).*1 = [i]
  end.

Lemma shop_ok_perm m rows rows' : rows ≡ₚ rows' → shop_ok m rows → shop_ok m rows'.
Proof. intros Hp [H1 H2 H3]. split; by rewrite <- Hp. Qed.

(** A shop to which the listing of this draft was added. *)
Lemma shop_ok_created m i d rows rows' :
  marker_lines d = [m] → 1 <= i < id_bound → i ∉ rows.*1 → rows' ≡ₚ (i, d) :: rows → shop_ok m rows →
  ours m rows = [] → shop_ok m rows' ∧ (ours m rows').*1 = [i].
Proof.
  intros Hd Hi Hnew Hp [H1 H2 H3] Hours. split.
  - apply (shop_ok_perm _ _ _ (symmetry Hp)). split; simpl; [by constructor|by constructor|by constructor].
  - assert (Ho : ours m rows' ≡ₚ [(i, d)]).
    { unfold ours in *. rewrite Hp, filter_cons_True, Hours by done. done. }
    apply Permutation_singleton_r in Ho. by rewrite Ho.
Qed.

Lemma ours_bound m i rows : shop_ok m rows → (ours m rows).*1 = [i] → 1 <= i < id_bound.
Proof.
  intros [_ Hb _] Ho. rewrite Forall_forall in Hb.
  assert (Hin : i ∈ (ours m rows).*1) by (rewrite Ho; by apply list_elem_of_singleton).
  apply list_elem_of_fmap in Hin as ([j d] & -> & Hin). unfold ours in Hin.
  apply list_elem_of_filter in Hin as [_ Hin]. by apply (Hb (j, d)).
Qed.

Lemma refuse_post_create m : _refuse_post [] (Some (create_body spec m)) = Ok tt.
Proof. reflexivity. Qed.

(** A creation is lost on its way, answered, or done without an answer. *)
Lemma create_ok t : _require_spec spec = Ok tt →
  let m := spec_marker spec in
  ∃ r t', _create (Some tr) spec m t = (r, t') ∧
    ((shop_drafts t' = shop_drafts t ∧ ∃ e, r = Raise e) ∨
     (∃ i d, marker_lines d = [m] ∧ 1 <= i < id_bound ∧ i ∉ (shop_drafts t).*1 ∧
        shop_drafts t' ≡ₚ (i, d) :: shop_drafts t ∧ (r = Ok i ∨ ∃ e, r = Raise e))).
Proof.
  intros (Hv & Hs & Hd)%require_spec_ok m.
  assert (Hl : marker_lines (_with_marker (ds_description spec) m) = [m])
    by (rewrite marker_lines_with_marker, Hd; [done|by apply spec_marker_line]).
  destruct (shop_post (ds_shop_id spec) (create_body spec m) (_with_marker (ds_description spec) m) t eq_refl)
    as (r & t' & Hpost & Hcase).
  unfold _create, exchange, pybind, lift_result, _measured_pair. rewrite listings_re_shop by done. cbn [negb].
  assert (Hin : bool_decide (("POST", _LISTINGS_PATH) ∉ MEASURED_ALLOWLIST) = false) by (by vm_compute).
  rewrite Hin. rewrite decide_False, decide_True, refuse_post_create by done. rewrite Hpost.
  destruct Hcase as [[Hsame [e ->]]|(i & Hi & Hnew & Hp & [->|[e ->]])].
  - eexists _, _. split; [done|]. left. split; [done|]. by eexists.
  - exists (Ok i), t'. split.
    + unfold _draft_listing_id. rewrite render_state, render_description, render_id. cbn [bool_decide].
      cbn [negb]. unfold _line_marker. cbn [fst snd]. rewrite Hl.
      rewrite (bool_decide_true ("draft" = "draft")) by done. cbn [negb length Nat.ltb Nat.leb rbind].
      rewrite andb_false_r. cbn [rbind]. rewrite (bool_decide_true ([m] = [m])) by done. cbn [negb].
      destruct (Z.ltb_spec i 1); [lia|done].
    + right. exists i. eexists. split_and!; [exact Hl|lia|lia|done|done|by left].
  - eexists _, _. split; [done|]. right. exists i. eexists. split_and!; [exact Hl|lia|lia|done|done|].
    right. by eexists.
Qed.

(** Recording the listing ends in [Done]. *)
Lemma record_done fs net i :
  shop_ok (spec_marker spec) (shop_drafts net) → (ours (spec_marker spec) (shop_drafts net)).*1 = [i] →
  ∃ s', (do* on_fst (ledger_record (ds_spec_version spec) (fixture_hash spec) i);
         pyret (receipt_of spec i)) ({| fs_files := fs; fs_faults := [] |}, net) =
          (Ok (receipt_of spec i), s') ∧ s'.2 = net ∧ fs_faults s'.1 = [] ∧ in_phase (Done i) s'.
Proof.
  intros Hok Ho.
  destruct (record_text (ds_spec_version spec) (fixture_hash spec) fs i) as (fs' & Hrec & Hfile).
  unfold pybind, on_fst. cbn [fst snd]. rewrite Hrec. eexists. do 3 (split; [done|]). by split.
Qed.

(** An untried draft: the pending file, then the creation. *)
Lemma untried_step fs net r s' : _require_spec spec = Ok tt →
  fs !! spec_path spec = None → shop_ok (spec_marker spec) (shop_drafts net) →
  ours (spec_marker spec) (shop_drafts net) = [] →
  (do* on_fst (put_pending (ds_spec_version spec) (fixture_hash spec));
   let* created := on_snd (_create (Some tr) spec (spec_marker spec)) in
   do* on_fst (ledger_record (ds_spec_version spec) (fixture_hash spec) created);
   pyret (receipt_of spec created)) ({| fs_files := fs; fs_faults := [] |}, net) = (r, s') →
  ∃ ph', draft_step spec false Untried r ph' ∧ in_phase ph' s' ∧ fs_faults s'.1 = [].
Proof.
  intros Hreq Hf Hok Ho.
  unfold pybind at 1, on_fst at 1. cbn [fst snd]. rewrite put_pending_absent by done.
  unfold pybind at 1, on_snd. cbn [fst snd].
  set (fs1 := <[_ := _]> fs).
  assert (Hf1 : fs1 !! spec_path spec = Some (Text pending_text)) by by apply lookup_insert_eq.
  clearbody fs1.
  destruct (create_ok net Hreq) as (c & net' & -> & [[Hsame [e ->]]|(i & d & Hd & Hi & Hnew & Hp & Hr)]).
  - intros [= <- <-]. exists Stuck. split; [by apply step_lost|]. unfold in_phase. simpl. by rewrite Hsame.
  - destruct (shop_ok_created _ i d _ _ Hd Hi Hnew Hp Hok Ho) as [Hok' Ho'].
    destruct Hr as [->|[e ->]].
    + destruct (record_done fs1 net' i Hok' Ho') as (s1 & Hrun & _ & Hph).
      cbn beta iota. rewrite Hrun. intros [= <- <-]. exists (Done i). split; [by apply step_created|naive_solver].
    + intros [= <- <-]. exists (Unanswered i). split; [by apply step_unanswered|]. by split.
Qed.

Lemma one_marked i (rows : list (Z * string)) m : (ours m rows).*1 = [i] → (length (ours m rows) ≤ 1)%nat.
Proof. intros Hi. by rewrite <- (length_fmap fst), Hi. Qed.

(** The read of the shop that every call but one of a finished draft begins with. *)
Lemma adopt_read net : 1 <= ds_shop_id spec → shop_ok (spec_marker spec) (shop_drafts net) →
  (length (ours (spec_marker spec) (shop_drafts net)) ≤ 1)%nat →
  _adopt (Some tr) spec (spec_marker spec) net =
    (if (1000 <=? length (shop_drafts net))%nat then refused "page_cap"
     else Ok (head (ours (spec_marker spec) (shop_drafts net)).*1), net).
Proof.
  intros Hs Hok Hone. destruct (Nat.leb_spec 1000 (length (shop_drafts net))).
  - by apply (adopt_full tr drafts render).
  - by apply (adopt_ok tr drafts render).
Qed.

(** C7: while no file operation fails, and against an honest shop of any size, whose drafts have
    distinct ids and carry the draft's marker, if at all, as their only marker, the client
    refines the four-phase machine of a draft: every call makes one step of it.  In a shop of
    fewer than 1000 drafts a lost answer is adopted by the next call, and a creation that never
    arrived leaves the draft stuck, which every later call refuses.  In a shop of 1000 or more
    every call for a draft that is not done refuses with [page_cap] and changes nothing.  A
    finished draft gives the same receipt in either.  Only a call of an untried draft changes
    the shop. *)
Theorem draft_client_refines ph s r s' :
  _require_spec spec = Ok tt → fs_faults s.1 = [] → in_phase ph s → create_draft (Some tr) spec s = (r, s') →
  ∃ ph', draft_step spec (shop_full s) ph r ph' ∧ in_phase ph' s' ∧ fs_faults s'.1 = [] ∧
    (ph = Untried ∧ shop_full s = false ∨ s'.2 = s.2).
Proof.
  intros Hreq Hfaults Hph. destruct s as [[fs faults] net]. pose proof Hph as (Hok & Hcase).
  cbn [fst snd fs_faults fs_files] in Hfaults, Hok, Hcase. subst faults.
  pose proof (require_spec_ok _ Hreq) as (_ & Hs & _).
  unfold create_draft, shop_full. rewrite Hreq. fold (spec_marker spec). cbn [snd].
  unfold pybind at 1, lift_result at 1. unfold pybind at 1, on_fst at 1. cbn [fst snd].
  destruct ph as [| |i|i].
  - destruct Hcase as (Hf & Ho). rewrite get_absent by done. cbn [fmap option_fmap option_map].
    rewrite bool_decide_false by done. unfold pybind at 1, on_snd at 1. cbn [fst snd].
    rewrite adopt_read by (done || (rewrite Ho; simpl; lia)). rewrite Ho.
    destruct (1000 <=? length (shop_drafts net))%nat.
    { intros [= <- <-]. exists Untried. split; [by apply step_full|]. split; [done|]. auto. }
    cbn [fmap list_fmap head]. rewrite bool_decide_false by done. intros Hrun.
    apply untried_step in Hrun as (ph' & Hstep & Hph' & Hfl); [|done..]. exists ph'. split_and!; [done..|by left].
  - destruct Hcase as (Hf & Ho). rewrite get_pending by done. cbn [fmap option_fmap option_map le_status].
    rewrite bool_decide_false by done. unfold pybind at 1, on_snd at 1. cbn [fst snd].
    rewrite adopt_read by (done || (rewrite Ho; simpl; lia)). rewrite Ho.
    destruct (1000 <=? length (shop_drafts net))%nat; [intros [= <- <-]; exists Stuck; split; [by apply step_full|auto]|].
    cbn [fmap list_fmap head].
    rewrite bool_decide_true by done. intros [= <- <-]. exists Stuck. split; [by apply step_stuck|]. auto.
  - destruct Hcase as (Hf & Ho). rewrite get_pending by done. cbn [fmap option_fmap option_map le_status].
    rewrite bool_decide_false by done. unfold pybind at 1, on_snd at 1. cbn [fst snd].
    rewrite adopt_read by (done || by eapply one_marked). rewrite Ho.
    destruct (1000 <=? length (shop_drafts net))%nat;
      [intros [= <- <-]; exists (Unanswered i); split; [by apply step_full|auto]|].
    cbn [head]. destruct (record_done fs net i Hok Ho) as (s1 & Hrun & Hnet & Hfl & Hph').
    intros Hr. unfold receipt_of in Hrun. rewrite Hrun in Hr. injection Hr as <- <-.
    exists (Done i). split; [by apply step_adopted|]. auto.
  - destruct Hcase as (Hf & Ho). pose proof (ours_bound _ _ _ Hok Ho) as Hi.
    rewrite (get_recorded _ _ _ i) by done. cbn [fmap option_fmap option_map le_status].
    rewrite bool_decide_true by done. intros [= <- <-]. exists (Done i). split; [apply step_done|]. auto.
Qed.
End phases.

(** ** A shop in memory *)

(** What happens to a creation. *)
Inductive delivery : Set := Answered | AnswerLost | RequestLost.

#[export] Instance delivery_eq_dec : EqDecision delivery.
Proof. solve_decision. Defined.

Record MemoryShop := {
  ms_drafts : list (Z * string);
  ms_deliveries : list delivery
}.

Definition memory_render (r : Z * string) : list (string * json) :=
  [("listing_id", JInt r.1); ("state", JStr "draft"); ("description", JStr r.2)].

Definition next_id (rows : list (Z * string)) : Z := 1 + foldr Z.max 0 rows.*1.

Definition memory_transport : FixtureTransport MemoryShop := λ call t,
  if decide (fc_method call = "GET") then
    let offset := default 0 (field "offset" (fc_query call) ≫= int_digits 0 false) in
    let rows := take 100 (drop (Z.to_nat offset) (ms_drafts t)) in
    (Ok [("results", JList ((λ r, JDict (memory_render r)) <$> rows));
         ("count", JInt (Z.of_nat (length (ms_drafts t))))], t)
  else
    let row := (next_id (ms_drafts t), default "" (fc_body call ≫= field "description")) in
    let delivery := default Answered (head (ms_deliveries t)) in
    let t' rows := {| ms_drafts := rows; ms_deliveries := tail (ms_deliveries t) |} in
    if bool_decide (delivery = RequestLost) || (id_bound <=? row.1) then
      (Raise (Exn OSError "timed out"), t' (ms_drafts t))
    else (if decide (delivery = AnswerLost) then Raise (Exn OSError "timed out") else Ok (memory_render row),
          t' (row :: ms_drafts t)).

Lemma next_id_fresh rows : next_id rows ∉ rows.*1 ∧ 1 <= next_id rows.
Proof.
  assert (H0 : 0 <= foldr Z.max 0 rows.*1) by (induction rows.*1; simpl; lia).
  assert (H : ∀ i, i ∈ rows.*1 → i <= foldr Z.max 0 rows.*1).
  { clear H0. induction rows.*1 as [|j l IH]; intros i; simpl; [by intros ?%elem_of_nil|].
    rewrite elem_of_cons. intros [->|Hi]; [lia|]. specialize (IH i Hi). lia. }
  unfold next_id. split; [|lia]. intros Hin%H. lia.
Qed.

Lemma int_pretty_nonneg z : 0 <= z → int_digits 0 false (pretty z) = Some z.
Proof. intros Hz. destruct (decide (z = 0)) as [->|]; [done|]. apply int_pretty. lia. Qed.

#[export] Instance memory_shop_honest : HonestShop memory_transport (λ _, ms_drafts) memory_render.
Proof.
  split; [done..| |].
  - intros shop offset t Ho. unfold memory_transport. cbn [fc_method fc_query].
    rewrite decide_True by done. eexists. split; [done|].
    change (field "offset" (_draft_query offset)) with (Some (pretty offset)).
    change (Some (pretty offset) ≫= int_digits 0 false) with (int_digits 0 false (pretty offset)).
    by rewrite int_pretty_nonneg.
  - intros shop body d t Hd. unfold memory_transport. cbn [fc_method fc_body].
    rewrite decide_False by done. change (Some body ≫= field "description") with (field "description" body).
    rewrite Hd. cbn [default fst]. destruct (next_id_fresh (ms_drafts t)) as [Hnew Hpos].
    destruct (bool_decide _); cbn [orb]; [eexists _, _; split; [done|left; eauto]|].
    destruct (Z.leb_spec id_bound (next_id (ms_drafts t))); [eexists _, _; split; [done|left; eauto]|].
    eexists _, _. split; [done|]. right. exists (next_id (ms_drafts t)).
    split_and!; [lia..|done|done|]. case_decide; eauto.
Qed.

Definition lossy_start : FileSystem * MemoryShop :=
  ({| fs_files := ∅; fs_faults := [] |}, {| ms_drafts := [(3, "another draft")]; ms_deliveries := [AnswerLost] |}).

Lemma draft_client_refines_witness :
  ∃ ph', draft_step sample_spec false Untried (create_draft (Some memory_transport) sample_spec lossy_start).1 ph'.
Proof.
  destruct (create_draft (Some memory_transport) sample_spec lossy_start) as [r s'] eqn:Hrun.
  destruct (draft_client_refines memory_transport (λ _, ms_drafts) memory_render sample_spec Untried lossy_start r s')
    as (ph' & Hstep & _); [vm_compute; reflexivity|reflexivity| |exact Hrun|exists ph'; exact Hstep].
  split; [|split; reflexivity].
  split; [repeat constructor; by intros ?%elem_of_nil|constructor; [|constructor]; split; [done|]|].
  - by vm_compute.
  - generalize (spec_marker sample_spec) as m. intros m. constructor; [|constructor]. cbn [snd].
    assert (E : marker_lines "another draft" = []) by (vm_compute; reflexivity).
    rewrite E. by intros ?%elem_of_nil.
Defined.

(** The listings that a number of calls return. *)
Fixpoint attempts (n : nat) (s : FileSystem * MemoryShop) : list (option Z) * (FileSystem * MemoryShop) :=
  match n with
  | O => ([], s)
  | S n =>
      let '(r, s) := create_draft (Some memory_transport) sample_spec s in
      let '(rs, s) := attempts n s in
      (match r with Ok r => Some (dr_listing_id r) | Raise _ => None end :: rs, s)
  end.

(** The answer to the creation is lost; the second call adopts the listing, the third reads
    the ledger, and the shop holds one listing of the draft. *)
Example lost_answer_is_adopted :
  let '(results, s) := attempts 3 lossy_start in
  (results, (ms_drafts s.2).*1) = ([None; Some 4; Some 4], [4; 3]).
Proof. vm_compute. reflexivity. Qed.
