(* ===== verification/DraftListing.v ===== *)
(** * Draft listing jobs

    [assets/etsy_draft.py] and [assets/draft_listing_successor.py]: the gates from product QA to
    a draft, and the one [DraftListingJob] of a product that a ready draft leaves behind.  The
    state is the database beside the ledger and the remote side of the draft client. *)

From S2P Require Import Prelude PyText PyLines Sha256 PySort Enums Errors TransitionGuard Tables.
From S2P Require Import WorkflowsConfig Evolution Samples Repositories DependencyResolver SuccessorFactory.
From S2P Require Import Leases EventDispatcher Worker AssetLineage Files DraftClient.
Open Scope string_scope.
Open Scope Z_scope.
Import JobStatus.

(** ** Gates *)

Definition IMAGE_ROLES : list string :=
  ["hero"; "overview"; "hub_1"; "hub_2"; "hub_3"; "hub_4"; "hub_5"; "colour_options"; "devices"; "how_it_works"].

Definition _PDF_ROLES : list string := ["readme"; "free_gift"].

Record DraftEvidence := {
  dv_product_id : uuid;
  dv_spec_version : Z;
  dv_shop_id : Z;
  dv_product_qa : string;
  dv_claims_passed : bool;
  dv_assets : list BoundAsset;
  dv_pdf_roles : list string;
  dv_links_passed : bool;
  dv_title : string;
  dv_description : string;
  dv_price : string;
  dv_quantity : Z;
  dv_who_made : string;
  dv_when_made : string;
  dv_taxonomy_id : Z
}.

Definition gate_error {A} (gate : string) : result exn A := Raise (Exn DraftGateError gate).

Definition of_kind (k : AssetKind) (assets : list BoundAsset) : list BoundAsset :=
  filter (λ a, ba_kind a = k) assets.

(** The chain of gates, each refusal with its name. *)
Definition draft_gates (e : DraftEvidence) : result exn unit :=
  do? (if decide (dv_product_qa e ≠ "passed") then gate_error "product_qa" else Ok tt);
  do? (if negb (dv_claims_passed e) then gate_error "claims" else Ok tt);
  do? (if (length (of_kind screenshot (dv_assets e)) <? 1)%nat then gate_error "screenshots" else Ok tt);
  do? (if negb (length (of_kind listing_image (dv_assets e)) =? length IMAGE_ROLES)%nat
       then gate_error "listing_images" else Ok tt);
  do? (if negb (length (of_kind walkthrough (dv_assets e)) =? 1)%nat then gate_error "video" else Ok tt);
  do? (if negb (length (of_kind delivery_pdf (dv_assets e)) =? length _PDF_ROLES)%nat ||
          negb (bool_decide (py_sorted String.leb (dv_pdf_roles e) = ["free_gift"; "readme"]))
       then gate_error "delivery_pdfs" else Ok tt);
  do? (if negb (dv_links_passed e) then gate_error "links" else Ok tt);
  match split_current (dv_assets e) (dv_product_id e) (dv_spec_version e) with
  | Some (current, _) =>
      if negb (length current =? length (dv_assets e))%nat then gate_error "asset_qa" else Ok tt
  | None => Raise (Exn RuntimeError "unreachable: the walk ends")
  end.

Definition draft_spec (e : DraftEvidence) : DraftSpec :=
  {| ds_product_id := dv_product_id e; ds_spec_version := dv_spec_version e; ds_shop_id := dv_shop_id e;
     ds_title := dv_title e; ds_description := dv_description e; ds_price := dv_price e;
     ds_quantity := dv_quantity e; ds_who_made := dv_who_made e; ds_when_made := dv_when_made e;
     ds_taxonomy_id := dv_taxonomy_id e |}.

Definition prepare_etsy_draft {T} (tr : option (FixtureTransport T)) (e : DraftEvidence)
    : M (FileSystem * T) exn DraftReceipt :=
  do* lift_result (draft_gates e);
  create_draft tr (draft_spec e).

(** ** The job *)

Section successor.
Context `{Backend} (cfg : WorkflowsConfig).

Definition product_job_id (product_id : uuid) : uuid := derive_product_job_id product_id "DraftListingJob".

(** One round of the loop; the row is flushed with its assignments. *)
Definition ready_one (occurred_at : datetime) (job_id : uuid) : Session unit :=
  let* found := get_job job_id in
  match found with
  | None => pyraise (Exn RuntimeError "draft successor missing")
  | Some job =>
      do* lift_result (require_job_transition (j_status job) READY);
      flush_jobs [(job_id, promoted occurred_at job)]
  end.

Definition _record_ready_draft (e : DraftEvidence) (receipt : DraftReceipt) (workflow_id : uuid)
    (occurred_at : datetime) : Session unit :=
  let product_job := product_job_id (dv_product_id e) in
  let* existing := get_job product_job in
  if decide (j_status <$> existing = Some READY) then pyret tt
  else
    let* job_ids := dispatch cfg EventName.ASSETS_COMPLETED "products" (dv_product_id e) (Some workflow_id) None
      (Some (JDict [("spec_version", JInt (dv_spec_version e));
                    ("listing_id", JInt (dr_listing_id receipt))])) (Some occurred_at) in
    let target_ids := match job_ids, existing with
                      | [], Some _ => [product_job]
                      | _, _ => job_ids
                      end in
    for_fold (λ _ job_id, ready_one occurred_at job_id) target_ids tt.

(** The nested transaction undoes the writes of a call that raises. *)
Definition create_ready_draft_listing_job {T} (tr : option (FixtureTransport T)) (e : DraftEvidence)
    (workflow_id : uuid) (occurred_at : datetime) : M (DB * (FileSystem * T)) exn DraftReceipt :=
  let* receipt := on_snd (prepare_etsy_draft tr e) in
  do* on_fst (atomically (_record_ready_draft e receipt workflow_id occurred_at));
  pyret receipt.
End successor.

(** ** The gates *)

Lemma gate_ok (b : bool) gate (k : result exn unit) :
  (do? (if b then gate_error gate else Ok tt); k) = Ok tt ↔ b = false ∧ k = Ok tt.
Proof. destruct b; simpl; [split; [done|by intros [? _]]|split; [done|by intros [_ ?]]]. Qed.

(** The last gate: every asset is of the product and current. *)
Lemma asset_qa_iff assets p v :
  match split_current assets p v with
  | Some (current, _) => if negb (length current =? length assets)%nat then gate_error "asset_qa" else Ok tt
  | None => Raise (Exn RuntimeError "unreachable: the walk ends")
  end = Ok tt ↔ ∀ a, a ∈ assets → ba_product_id a = p ∧ ¬ Stale assets v (identity a).
Proof.
  destruct (split_current_split assets p v) as (current & old & -> & Hc & Ho & _ & _ & Hperm).
  set (owned := filter (λ a, ba_product_id a = p) assets) in *.
  pose proof (filter_le (λ a, ba_product_id a = p) assets) as Hle. fold owned in Hle.
  apply Permutation_length in Hperm. rewrite length_app in Hperm.
  destruct (Nat.eqb_spec (length current) (length assets)) as [Hl|Hl]; simpl.
  - split; [intros _|done].
    assert (Hall : Forall (λ a, ba_product_id a = p) assets) by (apply (filter_length_all (λ a, ba_product_id a = p)); fold owned; lia).
    assert (Howned : owned = assets) by by apply (filter_all (λ a, ba_product_id a = p)), Forall_forall.
    rewrite Forall_forall in Hall. intros a Ha. split; [by apply Hall|].
    rewrite <- Howned in Ha |- *. intros Hst. assert (a ∈ old) as Hold by by apply Ho.
    destruct old; [by apply elem_of_nil in Hold|simpl in Hperm; lia].
  - split; [done|]. intros Hall. exfalso. apply Hl.
    assert (Howned : owned = assets) by (apply (filter_all (λ a, ba_product_id a = p)); intros a Ha; by apply Hall).
    rewrite Howned in *. destruct old as [|a old]; [simpl in Hperm; lia|].
    destruct (Ho a) as [[Ha Hst] _]; [left|]. by apply Hall in Ha as [_ ?].
Qed.

(** The evidence that passes: what each gate stands for. *)
Definition ready_evidence (e : DraftEvidence) : Prop :=
  dv_product_qa e = "passed" ∧ dv_claims_passed e = true ∧ dv_links_passed e = true ∧
  (1 ≤ length (of_kind screenshot (dv_assets e)))%nat ∧
  length (of_kind listing_image (dv_assets e)) = 10%nat ∧
  length (of_kind walkthrough (dv_assets e)) = 1%nat ∧
  length (of_kind delivery_pdf (dv_assets e)) = 2%nat ∧
  dv_pdf_roles e ≡ₚ ["readme"; "free_gift"] ∧
  ∀ a, a ∈ dv_assets e → ba_product_id a = dv_product_id e ∧
    ¬ Stale (dv_assets e) (dv_spec_version e) (identity a).

Lemma pdf_roles_iff roles :
  py_sorted String.leb roles = ["free_gift"; "readme"] ↔ roles ≡ₚ ["readme"; "free_gift"].
Proof.
  split; intros H.
  - rewrite <- (py_sorted_perm String.leb roles), H. apply Permutation_swap.
  - apply Permutation_sym, Permutation_length_2_inv in H as [-> | ->]; reflexivity.
Qed.

Lemma draft_gates_ready e : draft_gates e = Ok tt ↔ ready_evidence e.
Proof.
  unfold draft_gates, ready_evidence.
  assert (Hqa : ∀ k, (do? (if decide (dv_product_qa e ≠ "passed") then gate_error "product_qa" else Ok tt); k) =
    Ok tt ↔ dv_product_qa e = "passed" ∧ k = Ok tt).
  { intros k. destruct (decide (dv_product_qa e = "passed")) as [->|Hd]; [|rewrite decide_True by done]; simpl;
    [by rewrite (and_comm _ (k = _)); naive_solver|naive_solver]. }
  rewrite Hqa, !gate_ok, asset_qa_iff, orb_false_iff, !negb_false_iff, !Nat.eqb_eq, Nat.ltb_ge,
    bool_decide_eq_true, pdf_roles_iff. tauto.
Qed.

Lemma gates_raise e x : draft_gates e = Raise x → ∃ gate, x = Exn DraftGateError gate.
Proof.
  unfold draft_gates, gate_error. intros H.
  repeat match type of H with
  | (do? (if ?b then _ else _); _) = _ => destruct b; simpl in H; [injection H as <-; by eexists|]
  end.
  destruct (split_current_split (dv_assets e) (dv_product_id e) (dv_spec_version e)) as (c & o & E & _).
  rewrite E in H. destruct (negb _); [|done]. injection H as <-. by eexists.
Qed.

(** ** What recording a draft does *)

(** A job that may be tried again can be readied. *)
Lemma readied_ok o j :
  job_edge (j_status j) READY → j_attempt j < j_max_attempts j → job_ok j → edit_ok j (promoted o j).
Proof.
  intros Hs Hlt [Hwf _].
  assert (Hr : j_status j ≠ RUNNING).
  { intros E. rewrite E in Hs. revert Hs. unfold job_edge. simpl. rewrite !elem_of_cons, elem_of_nil.
    intros [?|[?|[?|[?|[]]]]]; done. }
  pose proof (lease_free _ Hwf Hr) as Hl. destruct Hwf as [_ (Ha & Hm & Hb)]. split.
  - split; simpl; [reflexivity|by apply rtc_once|lia|lia].
  - split; [unfold lease_consistent; simpl; by apply Hl|]. by split.
Qed.

Section spec.
Context `{Backend} (cfg : WorkflowsConfig)
  (draft_only : mapped_successors cfg (EventName.EventName_value EventName.ASSETS_COMPLETED) =
                Some ["DraftListingJob"]).

Lemma append_once_cases n ty a w j p k o db b db' :
  db_ok db → append_once n ty a w j p k o db = (Ok b, db') →
  jobs db' = jobs db ∧ if b then db' = db ∧ logged k db else ¬ logged k db.
Proof.
  intros Hok. unfold append_once, try_except, EventRepository.append, pybind.
  destruct (by_dedupe_key_spec k db Hok) as [(i & e & Hi & Hk & E)|[Hn E]]; rewrite E.
  - unfold pyraise. cbn [exn_type]. replace (isa EventAppendError EventAppendError) with true by done.
    rewrite E. unfold pyret. simpl. intros [= <- <-]. split; [done|]. split; [done|]. by exists i, e.
  - unfold clock_now, gets, insert_event. destruct (negb _ && _ && _); simpl; [|by intros ?].
    intros [= <- <-]. split; [done|]. intros (i & e & Hi & Hk). by apply (Hn i e).
Qed.

(** The event of a finished product, under the key of today or the one of an earlier release. *)
Definition product_event_logged (a w : uuid) (db : DB) : Prop :=
  logged (EventName.EventName_value EventName.ASSETS_COMPLETED ++ ":" ++ uuid_str a ++ ":product") db ∨
  logged (_dedupe_key EventName.ASSETS_COMPLETED a (Some w) None) db.

(** The spawned draft job: the row that is there, or a fresh one. *)
Lemma create_draft_job w p a o db i db' :
  _create_successor_job cfg w p (Some a) "DraftListingJob" o db = (Ok i, db') →
  i = product_job_id a ∧
  (db' = db ∧ is_Some (jobs db !! i) ∨
   jobs db !! i = None ∧ ∃ j, db' = set_jobs (<[i := j]> (jobs db)) db ∧ fresh_job j ∧
     j_type j = "DraftListingJob" ∧ j_workflow_id j = w).
Proof.
  unfold _create_successor_job. destruct (find_job_def cfg _) as [d|]; [|done]. rewrite decide_True by done.
  unfold get_job, gets, pybind. fold (product_job_id a). generalize (product_job_id a) as pid. intros pid.
  destruct (jobs db !! pid) as [j|] eqn:Hj.
  - intros [= <- <-]. split; [done|]. left. by rewrite Hj.
  - unfold insert_successor, clock_now, gets, pybind, pyret.
    destruct (insert_job _ _ db) as [[[]|e] db1] eqn:E; [|done]. intros [= <- <-].
    apply insert_job_run in E as [Hn ->]. split; [done|]. right. split; [done|].
    eexists. split; [done|]. split; [apply new_job_fresh|done].
Qed.

(** Dispatching the product event: nothing when it is logged, or the draft job. *)
Lemma dispatch_assets a w p o db ids db' :
  db_ok db → dispatch cfg EventName.ASSETS_COMPLETED "products" a (Some w) None p o db = (Ok ids, db') →
  product_event_logged a w db ∧ ids = [] ∧ db' = db ∨
  ¬ product_event_logged a w db ∧ ids = [product_job_id a] ∧
    (jobs db' = jobs db ∧ is_Some (jobs db !! product_job_id a) ∨
     jobs db !! product_job_id a = None ∧ ∃ j, jobs db' = <[product_job_id a := j]> (jobs db) ∧ fresh_job j ∧
       j_type j = "DraftListingJob" ∧ j_workflow_id j = w).
Proof.
  intros Hok. unfold dispatch, gets, pybind, event_key.
  rewrite decide_False by (intros [_ [=]]). rewrite decide_True by done. unfold pybind, pyret at 1.
  unfold product_event_logged.
  destruct (by_dedupe_key_spec (_dedupe_key EventName.ASSETS_COMPLETED a (Some w) None) db Hok)
    as [(i & e & Hi & Hk & E)|[Hn E]]; rewrite E; simpl.
  { intros [= <- <-]. left. split; [right; by exists i, e|done]. }
  destruct (append_once _ _ _ _ _ _ _ _ db) as [[b|x] db1] eqn:Ha; [|done].
  apply append_once_cases in Ha as [Hjobs Hb]; [|done].
  destruct b; simpl; [destruct Hb as [-> Hl]; intros [= <- <-]; by left; split; [left|]|].
  unfold create_successors, gets, pybind. rewrite draft_only. cbn [for_fold]. unfold spawn_one.
  rewrite decide_False by (intros [_ [=]]). unfold pybind.
  destruct (_create_successor_job _ _ _ _ _ _ db1) as [[i|e] db2] eqn:Hc; [|done].
  intros [= <- <-]. apply create_draft_job in Hc as (-> & Hc). right.
  split; [intros [Hl|(i & e & Hi & Hk)]; [by apply Hb|by apply (Hn i e)]|]. split; [done|].
  rewrite Hjobs in Hc. destruct Hc as [[-> Hs]|(Hnone & j & -> & Hj)]; [by left; rewrite Hjobs|].
  right. split; [done|]. by exists j.
Qed.

Lemma ready_one_run o i db r db' :
  ready_one o i db = (Ok r, db') →
  ∃ j, jobs db !! i = Some j ∧ job_edge (j_status j) READY ∧
    db' = set_jobs (<[i := set_j_version (j_version j + 1) (promoted o j)]> (jobs db)) db.
Proof.
  unfold ready_one, get_job, gets, pybind, lift_result.
  destruct (jobs db !! i) as [j|] eqn:Hj; [|done].
  destruct (require_job_transition (j_status j) READY) as [[]|e] eqn:Hr; [|done].
  apply require_job_transition_ok in Hr. intros Hf. exists j. split; [done|]. split; [done|].
  destruct (flush_jobs_cases [(i, promoted o j)] db) as [[Hc E]|[_ E]]; rewrite E in Hf; [|done].
  injection Hf as <- <-. unfold store_job. simpl. rewrite Hj. rewrite decide_False; [done|].
  unfold job_mutable. simpl. intros [= Hs]. rewrite <- Hs in Hr. revert Hr. unfold job_edge. simpl.
  rewrite !elem_of_cons. intros [?|[?|Hx]]; [done..|by apply elem_of_nil in Hx].
Qed.

(** What recording does, before the nested transaction decides. *)
Lemma record_run e rc w o db r db' : db_ok db →
  _record_ready_draft cfg e rc w o db = (Ok r, db') →
  let pid := product_job_id (dv_product_id e) in
  (∀ k, k ≠ pid → jobs db' !! k = jobs db !! k) ∧
  match jobs db !! pid with
  | Some j =>
      j_status j = READY ∧ db' = db ∨
      job_edge (j_status j) READY ∧
        jobs db' !! pid = Some (set_j_version (j_version j + 1) (promoted o j))
  | None =>
      product_event_logged (dv_product_id e) w db ∧ db' = db ∨
      ¬ product_event_logged (dv_product_id e) w db ∧
      ∃ j, jobs db' !! pid = Some j ∧ j_status j = READY ∧ j_type j = "DraftListingJob" ∧
        j_workflow_id j = w ∧ j_attempt j = 0
  end.
Proof.
  intros Hok. unfold _record_ready_draft. cbv zeta.
  unfold pybind at 1, get_job at 1, gets at 1.
  case_decide as Hready.
  { intros [= <- <-]. split; [done|].
    destruct (jobs db !! product_job_id (dv_product_id e)); simpl in Hready; [|done].
    injection Hready as ->. by left. }
  intros (ids & db1 & Hd & Hloop)%pybind_ok.
  apply dispatch_assets in Hd; [|done].
  destruct Hd as [(Hlog & -> & ->)|(Hlog & -> & Hjobs)].
  - destruct (jobs db !! product_job_id (dv_product_id e)) as [j|] eqn:Hj; cbn [for_fold] in Hloop.
    + apply pybind_ok in Hloop as ([] & db2 & Hone & Hret). apply pyret_ok in Hret as [_ <-].
      apply ready_one_run in Hone as (j' & Hj' & Hedge & ->). rewrite Hj in Hj'. injection Hj' as <-.
      split; [intros k Hk; simpl; by rewrite lookup_insert_ne|]. right. split; [done|]. apply lookup_insert_eq.
    + apply pyret_ok in Hloop as [_ <-]. split; [done|by left].
  - cbn [for_fold] in Hloop.
    apply pybind_ok in Hloop as ([] & db2 & Hone & Hret). apply pyret_ok in Hret as [_ <-].
    apply ready_one_run in Hone as (j' & Hj' & Hedge & ->).
    destruct Hjobs as [[Hsame [j Hj]]|(Hn & j & Hins & Hfresh & Hty & Hw)].
    + rewrite Hsame in *. rewrite Hj in Hj'. injection Hj' as <-. rewrite Hj.
      split; [intros k Hk; simpl; by rewrite lookup_insert_ne|]. right. split; [done|]. apply lookup_insert_eq.
    + rewrite Hins, lookup_insert_eq in Hj'. injection Hj' as <-. rewrite Hn.
      split; [intros k Hk; simpl; by rewrite Hins, !lookup_insert_ne|]. right. split; [done|]. eexists.
      split; [apply lookup_insert_eq|]. destruct Hfresh as (_ & Ha & _). done.
Qed.

(** C11: a ready draft leaves exactly one ready job for its product, in a valid database and
    with the repository's event map. A call that raises leaves the database as it was, and one
    that a gate refuses does not reach the client. A call that returns has passed every gate and
    has the receipt of the client; it changes no job but the draft job of the product. If the
    product has the job, the call finds it READY or moves it there along the job table. If the
    product has none, the call creates it READY for the given workflow, unless the event of the
    finished product is logged already, under its key of today or the older one of this
    workflow; then the call changes nothing. *)
Theorem ready_draft_leaves_one_job {T} (tr : option (FixtureTransport T)) e w o db c r db' c' :
  db_ok db → create_ready_draft_listing_job cfg tr e w o (db, c) = (r, (db', c')) →
  match r with
  | Raise x => db' = db ∧ (¬ ready_evidence e → c' = c ∧ ∃ gate, x = Exn DraftGateError gate)
  | Ok receipt =>
      let pid := product_job_id (dv_product_id e) in
      ready_evidence e ∧ create_draft tr (draft_spec e) c = (Ok receipt, c') ∧
      (∀ k, k ≠ pid → jobs db' !! k = jobs db !! k) ∧
      match jobs db !! pid with
      | Some j =>
          j_status j = READY ∧ db' = db ∨
          job_edge (j_status j) READY ∧
            jobs db' !! pid = Some (set_j_version (j_version j + 1) (promoted o j))
      | None =>
          product_event_logged (dv_product_id e) w db ∧ db' = db ∨
          ¬ product_event_logged (dv_product_id e) w db ∧
          ∃ j, jobs db' !! pid = Some j ∧ j_status j = READY ∧ j_type j = "DraftListingJob" ∧
            j_workflow_id j = w ∧ j_attempt j = 0
      end
  end.
Proof.
  intros Hok. unfold create_ready_draft_listing_job, prepare_etsy_draft.
  unfold pybind at 1, on_snd at 1. cbn [fst snd]. unfold pybind at 1, lift_result at 1.
  destruct (draft_gates e) as [[]|x] eqn:Hg.
  2:{ intros [= <- <- <-]. split; [done|]. intros _. split; [done|]. by eapply gates_raise. }
  apply draft_gates_ready in Hg.
  destruct (create_draft tr (draft_spec e) c) as [[receipt|x] c1] eqn:Hc; [|by intros [= <- <- <-]].
  unfold pybind at 1, on_fst. cbn [fst snd]. unfold atomically.
  destruct (_record_ready_draft cfg e receipt w o db) as [[[]|x] db1] eqn:Hr; [|by intros [= <- <- <-]].
  intros [= <- <- <-]. split; [done|]. split; [done|]. by apply (record_run e receipt w o db tt).
Qed.

(** Recording a draft keeps the database valid, if the job it readies may be tried again. *)
Lemma record_ready_draft_contract e rc w o db :
  (∀ j, jobs db !! product_job_id (dv_product_id e) = Some j → j_attempt j < j_max_attempts j) →
  contract db (_record_ready_draft cfg e rc w o db).2.
Proof.
  intros Hbudget. enough (db_ok db → contract db (_record_ready_draft cfg e rc w o db).2) as Hc
    by (intros Hok; by apply Hc).
  intros Hok. unfold _record_ready_draft. cbv zeta.
  unfold pybind at 1, get_job at 1, gets at 1. case_decide as Hready; [change (contract db db); reflexivity|].
  unfold pybind at 1. set (p := Some (JDict _)).
  pose proof (dispatch_contract cfg EventName.ASSETS_COMPLETED "products" (dv_product_id e) (Some w) None p (Some o)
    db) as Hdc.
  destruct (dispatch _ _ _ _ _ _ _ _ db) as [[ids|x] db1] eqn:Hd; [|exact Hdc].
  cbn [snd] in Hdc. etrans; [exact Hdc|]. apply dispatch_assets in Hd; [|done].
  assert (Hone : (∀ j, jobs db1 !! product_job_id (dv_product_id e) = Some j → j_attempt j < j_max_attempts j) →
    contract db1 (ready_one o (product_job_id (dv_product_id e)) db1).2).
  { intros Hb1. unfold ready_one, get_job, gets, pybind, lift_result.
    destruct (jobs db1 !! product_job_id (dv_product_id e)) as [j|] eqn:Hj; [|reflexivity].
    destruct (require_job_transition (j_status j) READY) as [[]|x] eqn:Hr; [|reflexivity].
    apply require_job_transition_ok in Hr. apply flush_job_contract. intros old Hold Hjo. rewrite Hj in Hold.
    injection Hold as <-. apply readied_ok; [done| |done]. by apply Hb1. }
  assert (Hloop : ∀ ids', ids' = [] ∨ ids' = [product_job_id (dv_product_id e)] →
    (∀ j, jobs db1 !! product_job_id (dv_product_id e) = Some j → j_attempt j < j_max_attempts j) →
    contract db1 (for_fold (λ _ i, ready_one o i) ids' tt db1).2).
  { intros ids' [-> | ->] Hb1; cbn [for_fold]; [change (contract db1 db1); reflexivity|].
    specialize (Hone Hb1). unfold pybind. destruct (ready_one _ _ db1) as [[[]|x] db2]; exact Hone. }
  destruct Hd as [(_ & -> & ->)|(_ & -> & Hjobs)].
  - apply Hloop; [|done]. by destruct (jobs db !! _); [right|left].
  - assert (Hb1 : ∀ j, jobs db1 !! product_job_id (dv_product_id e) = Some j → j_attempt j < j_max_attempts j).
    { destruct Hjobs as [[-> _]|(_ & j & -> & Hf & _)]; [done|]. intros j'. rewrite lookup_insert_eq.
      intros [= <-]. destruct Hf as (_ & Ha & Hm & _). lia. }
    apply Hloop; [by right|done].
Qed.
End spec.

(** ** Samples *)

Definition sample_asset (k : AssetKind) (hash : string) : BoundAsset :=
  {| ba_product_id := 7; ba_spec_version := 1; ba_build_version := 1; ba_source_screenshot_sha256 := [];
     ba_merchandising_version := "m"; ba_template_version := "t"; ba_output_sha256 := hash;
     ba_width_px := Some 10; ba_height_px := Some 10; ba_page_count := None; ba_qa_status := passed;
     ba_storage_uri := fixture_storage_uri 7 1 hash; ba_kind := k |}.

Definition sample_evidence : DraftEvidence :=
  {| dv_product_id := 7; dv_spec_version := 1; dv_shop_id := 7; dv_product_qa := "passed";
     dv_claims_passed := true;
     dv_assets := (sample_asset screenshot "s" ::
       (sample_asset listing_image <$> IMAGE_ROLES) ++
       [sample_asset walkthrough "w"; sample_asset delivery_pdf "r"; sample_asset delivery_pdf "g"])%list;
     dv_pdf_roles := ["readme"; "free_gift"]; dv_links_passed := true; dv_title := "Planner";
     dv_description := "A planner."; dv_price := "9.99"; dv_quantity := 999; dv_who_made := "i_did";
     dv_when_made := "2020_2026"; dv_taxonomy_id := 2078 |}.

(** A shop that answers one creation. *)
Definition answering_shop : FixtureTransport unit := λ call t,
  if decide (fc_method call = "GET") then (Ok [("results", JList []); ("count", JInt 0)], t)
  else (Ok [("state", JStr "draft"); ("listing_id", JInt 41);
            ("description", from_option JStr JNull (fc_body call ≫= field "description"))], t).

Definition empty_ledger : FileSystem * unit := ({| fs_files := ∅; fs_faults := [] |}, tt).

Lemma canonical_draft_only :
  mapped_successors canonical_workflows (EventName.EventName_value EventName.ASSETS_COMPLETED) =
    Some ["DraftListingJob"].
Proof. vm_compute. reflexivity. Qed.

Definition ready_sample (db : DB) : result exn DraftReceipt * (DB * (FileSystem * unit)) :=
  @create_ready_draft_listing_job reference_backend canonical_workflows unit (Some answering_shop)
    sample_evidence 100 5 (db, empty_ledger).

Lemma ready_draft_leaves_one_job_witness :
  ∃ receipt db' c', ready_sample (sample_db []) = (Ok receipt, (db', c')) ∧
    ready_evidence sample_evidence ∧
    (∃ j, jobs db' !! product_job_id 7 = Some j ∧ j_status j = READY) ∧
    ∀ k, k ≠ product_job_id 7 → jobs db' !! k = None.
Proof.
  destruct (ready_sample (sample_db [])) as [[receipt|x] [db' c']] eqn:E;
    [|exfalso; vm_compute in E; discriminate].
  assert (Hok : db_ok (sample_db [])) by solve_db_ok.
  destruct (@ready_draft_leaves_one_job reference_backend canonical_workflows canonical_draft_only unit
    (Some answering_shop) sample_evidence 100 5 (sample_db []) empty_ledger (Ok receipt) db' c' Hok E)
    as (Hready & _ & Hother & Hjob).
  exists receipt, db', c'. split; [reflexivity|]. split; [exact Hready|]. split.
  - change (jobs (sample_db []) !! product_job_id (dv_product_id sample_evidence)) with (@None Job) in Hjob.
    destruct Hjob as [[[(i & e & Hi & _)|(i & e & Hi & _)] _]|(_ & j & Hj & Hst & _)].
    + exfalso. destruct i; discriminate Hi.
    + exfalso. destruct i; discriminate Hi.
    + exists j. split; [exact Hj|exact Hst].
  - intros k Hk. rewrite (Hother k Hk). reflexivity.
Defined.

(** The status of the draft job after a call. *)
Definition job_after (job : uuid) (run : result exn DraftReceipt * (DB * (FileSystem * unit)))
    : option (JobStatus * Z * Z) :=
  (λ j, (j_status j, j_attempt j, j_max_attempts j)) <$> jobs run.2.1 !! job.

Definition draft_job_after (db : DB) : option (JobStatus * Z * Z) :=
  job_after (product_job_id 7) (ready_sample db).

Definition failed_draft_job (attempt : Z) : Job :=
  set_j_attempt attempt (set_j_status FAILED (new_job 100 "DraftListingJob" "listing_versions" 100 "A01"
    (JDict []) "AgentResult" 0 "DraftListingJob:7" SideEffectClass.EXTERNAL_WRITE RetryClass.RECONCILE_FIRST
    AutonomyMode.SIMULATION 0)).

(** The job a worker claims after a call. *)
Definition claimed (db : DB) : option uuid :=
  match @claim_ready_job reference_backend ∅ "worker-1" 10 LEASE_DURATION db with
  | (Ok (Some (k, _)), _) => Some k
  | _ => None
  end.

Definition claimed_after (db : DB) : option uuid := claimed (ready_sample db).2.1.

(** A failed draft job without an attempt left, which no retry rule lets run again and which
    must be reconciled first, is made READY, and a worker claims it. *)
Lemma exhausted_draft_job_readied :
  let db := sample_db [(product_job_id 7, failed_draft_job 3)] in
  draft_job_after db = Some (READY, 3, 3) ∧ claimed_after db = Some (product_job_id 7).
Proof. split; vm_compute; reflexivity. Qed.

(** An event that an earlier release logged for this workflow leaves the product without its
    job, although the call returns the receipt. *)
Lemma older_event_leaves_no_job :
  let old := _dedupe_key EventName.ASSETS_COMPLETED 7 (Some 100%N) None in
  match @EventRepository.append reference_backend EventName.ASSETS_COMPLETED "products" 7 old 0 (Some 100%N) None None None (sample_db []) with
  | (Ok _, db) => draft_job_after db = None ∧
      match ready_sample db with (Ok _, _) => True | _ => False end
  | _ => False
  end.
Proof. vm_compute. done. Qed.
