(* ===== verification/Dedupe.v ===== *)
(** * Catalogue dedupe

    [domain/services/dedupe.py] and the contracts it reads and returns ([domain/models/products.py]):
    a product spec is too close to the catalogue when it shares identity and category, most of
    the words of its title, or its concept fingerprint with another spec.

    Titles are ASCII, where NFKD is the identity and [casefold] is [lower]. *)

From Stdlib Require Import QArith.QArith_base.
From S2P Require Import Prelude PyText PyLines Enums Errors Contracts.
Close Scope Q_scope.
Open Scope string_scope.
Open Scope Z_scope.

(** ** Contracts *)

Inductive LineageKind : Set := ORIGINAL | RECONCEPT | SUCCESSOR.

#[export] Instance LineageKind_eq_dec : EqDecision LineageKind.
Proof. solve_decision. Defined.

Record ProductShapeRules := {
  sr_rule_version : string;
  sr_hubs_minimum : Z;
  sr_hubs_maximum : Z;
  sr_colour_variants_minimum : Z;
  sr_colour_variants_maximum : Z;
}.

Definition validate_ranges (r : ProductShapeRules) : result exn unit :=
  do? check (sr_hubs_minimum r <=? sr_hubs_maximum r) "hubs minimum cannot exceed maximum";
  check (sr_colour_variants_minimum r <=? sr_colour_variants_maximum r) "colour variants minimum cannot exceed maximum".

Record ProductSpec := {
  sp_spec_id : uuid;
  sp_workflow_id : uuid;
  sp_product_id : uuid;
  sp_version : Z;
  sp_lineage_kind : LineageKind;
  sp_parent_spec_id : option uuid;
  sp_parent_product_id : option uuid;
  sp_parent_decision_id : option uuid;
  sp_parent_workflow_id : option uuid;
  sp_shape_rules : ProductShapeRules;
  sp_identity : string;
  sp_base_category : string;
  sp_buyer_problem : string;
  sp_title : string;
  sp_tier : string;
  sp_real_price : Q;
  sp_anchor_price : Q;
  sp_currency : string;
  sp_hubs : list string;
  sp_colour_variants : list string;
  sp_features : list string;
  sp_experiment_plan : string;
  sp_concept_fingerprint : string;
  sp_source_evidence : list EvidenceReference;
  sp_created_at : datetime;
}.

Definition validate_prices_and_lineage (s : ProductSpec) : result exn unit :=
  do? check (Qle_bool (sp_real_price s) (sp_anchor_price s)) "anchor_price must be at least real_price";
  do? check (bool_decide (sp_parent_spec_id s ≠ Some (sp_spec_id s))) "parent_spec_id cannot equal spec_id";
  let parent_fields := [sp_parent_spec_id s; sp_parent_product_id s; sp_parent_decision_id s; sp_parent_workflow_id s] in
  match sp_lineage_kind s with
  | ORIGINAL => check (negb (existsb given parent_fields)) "ORIGINAL ProductSpec forbids parent lineage"
  | RECONCEPT => check (given (sp_parent_spec_id s)) "RECONCEPT ProductSpec requires parent_spec_id"
  | SUCCESSOR =>
      do? check (forallb given parent_fields) "SUCCESSOR ProductSpec requires complete parent lineage";
      check (bool_decide (sp_parent_workflow_id s ≠ Some (sp_workflow_id s)))
        "successor workflow must differ from parent workflow"
  end.

Definition within (least most : Z) (l : list string) : bool :=
  (least <=? Z.of_nat (length l)) && (Z.of_nat (length l) <=? most).

Definition validate_playbook_shape (s : ProductSpec) : result exn unit :=
  let rules := sp_shape_rules s in
  let range least most := pretty least ++ "-" ++ pretty most in
  let hubs := str_lower <$> sp_hubs s in
  do? check (all_unique hubs) "hubs must be unique";
  do? check (within (sr_hubs_minimum rules) (sr_hubs_maximum rules) hubs)
    ("product requires " ++ range (sr_hubs_minimum rules) (sr_hubs_maximum rules) ++ " hubs, got " ++
     pretty (Z.of_nat (length hubs)));
  let variants := str_lower <$> sp_colour_variants s in
  do? check (all_unique variants) "colour variants must be unique";
  check (within (sr_colour_variants_minimum rules) (sr_colour_variants_maximum rules) variants)
    ("product requires " ++ range (sr_colour_variants_minimum rules) (sr_colour_variants_maximum rules) ++
     " colour variants, got " ++ pretty (Z.of_nat (length variants))).

Inductive CollisionReason : Set := EXACT_IDENTITY_CATEGORY | TITLE_SIMILARITY | CONCEPT_FINGERPRINT.

#[export] Instance CollisionReason_eq_dec : EqDecision CollisionReason.
Proof. solve_decision. Defined.

Record DedupeCollision := {
  dc_other_spec_id : uuid;
  dc_reason : CollisionReason;
  dc_similarity : Q;
  dc_evidence : list EvidenceReference;
}.

Record DedupeResult := {
  dr_result_id : uuid;
  dr_workflow_id : uuid;
  dr_spec_id : uuid;
  dr_outcome : BranchOutcome;
  dr_rule_version : string;
  dr_normalized_title : string;
  dr_concept_fingerprint : string;
  dr_title_similarity_threshold : Q;
  dr_compared_spec_ids : list uuid;
  dr_collisions : list DedupeCollision;
  dr_differentiation_evidence : list string;
  dr_completed_at : datetime;
}.

(** The loop over the collisions. *)
Definition cites_compared (r : DedupeResult) (c : DedupeCollision) : result exn unit :=
  do? check (bool_decide (dc_other_spec_id c ∈ dr_compared_spec_ids r)) "every collision must cite a compared spec";
  check (negb (bool_decide (dc_reason c = TITLE_SIMILARITY) &&
               negb (Qle_bool (dr_title_similarity_threshold r) (dc_similarity c))))
    "a TITLE_SIMILARITY collision must meet the configured threshold".

Definition validate_outcome (r : DedupeResult) : result exn unit :=
  do? check (bool_decide (dr_outcome r ∈ [BranchOutcome.PASS; BranchOutcome.TOO_CLOSE]))
    "DedupeResult outcome must be PASS or TOO_CLOSE";
  do? check (negb (Qle_bool (dr_title_similarity_threshold r) 0)) "title_similarity_threshold must be positive";
  do? check (all_unique (dr_compared_spec_ids r)) "compared_spec_ids must be unique";
  do? check (bool_decide (dr_spec_id r ∉ dr_compared_spec_ids r)) "a spec is not compared with itself";
  do? traverse (cites_compared r) (dr_collisions r);
  if decide (dr_outcome r = BranchOutcome.PASS) then
    do? check (bool_decide (dr_collisions r = [])) "PASS forbids collisions";
    check (bool_decide (dr_compared_spec_ids r = []) || negb (bool_decide (dr_differentiation_evidence r = [])))
      "PASS against an existing catalogue requires differentiation"
  else
    do? check (negb (bool_decide (dr_collisions r = []))) "TOO_CLOSE requires collision evidence";
    check (bool_decide (dr_differentiation_evidence r = [])) "TOO_CLOSE cannot claim differentiation; reconcept instead".

(** ** Titles *)

(** [\w] *)
Definition is_word (c : Ascii.ascii) : bool :=
  let n := Ascii.N_of_ascii c in
  (is_digit c || (65 <=? n) && (n <=? 90) || (97 <=? n) && (n <=? 122) || (n =? 95))%N.

Fixpoint str_filter (p : Ascii.ascii → bool) (s : string) : string :=
  match s with
  | EmptyString => EmptyString
  | String c r => if p c then String c (str_filter p r) else str_filter p r
  end.

Definition space : Ascii.ascii := Ascii.ascii_of_N 32.

(** [re.sub(r"\s+", " ", s)]; [blank] tells whether the run has been written. *)
Fixpoint collapse_blanks (blank : bool) (s : string) : string :=
  match s with
  | EmptyString => EmptyString
  | String c r =>
      if is_space c then if blank then collapse_blanks true r else String space (collapse_blanks true r)
      else String c (collapse_blanks false r)
  end.

Definition normalize_title (title : string) : string :=
  str_strip (collapse_blanks false (str_filter (λ c, is_word c || is_space c) (str_lower title))).

(** [s.split()]; [word] is what has been read of the current word. *)
Fixpoint words_from (word s : string) : list string :=
  match s with
  | EmptyString => if decide (word = "") then [] else [word]
  | String c r =>
      if is_space c then if decide (word = "") then words_from "" r else word :: words_from "" r
      else words_from (word ++ String c "") r
  end.

Definition tokenize_title (normalized_title : string) : gset string := list_to_set (words_from "" normalized_title).

(** ** Similarity *)

(** The float [n / m] for integers with [0 < n <= m]: 53 bits, rounded to even. *)
Definition float_ratio (n m : Z) : Q :=
  let s := 52 + Z.log2_up ((m + n - 1) / n) in
  Qmake (Qround_even (n * 2 ^ s # Z.to_pos m)) (Z.to_pos (2 ^ s)).

(** [0.70] *)
Definition JACCARD_THRESHOLD : Q := float_ratio 7 10.

Definition calculate_jaccard_similarity (tokens_a tokens_b : gset string) : Q :=
  if bool_decide (tokens_a = ∅) && bool_decide (tokens_b = ∅) then 1%Q
  else if bool_decide (tokens_a = ∅) || bool_decide (tokens_b = ∅) then 0%Q
  else
    let intersection := Z.of_nat (size (tokens_a ∩ tokens_b)) in
    if intersection =? 0 then 0%Q else float_ratio intersection (Z.of_nat (size (tokens_a ∪ tokens_b))).

(** [f"{q:.3f}"] of a value that is not negative *)
Definition format_3f (q : Q) : string :=
  let t := Qround_even (q * 1000)%Q in pretty (t / 1000) ++ "." ++ dec_digits 3 (t mod 1000).

(** ** The check *)

Definition normalized (s : string) : string := str_strip (str_lower s).

Definition same_identity (candidate existing : ProductSpec) : bool :=
  bool_decide (normalized (sp_identity candidate) = normalized (sp_identity existing)) &&
  bool_decide (normalized (sp_base_category candidate) = normalized (sp_base_category existing)).

Definition title_similarity (candidate existing : ProductSpec) : Q :=
  calculate_jaccard_similarity (tokenize_title (normalize_title (sp_title candidate)))
    (tokenize_title (normalize_title (sp_title existing))).

(** A collision with its one piece of evidence. *)
Definition collision (candidate existing : ProductSpec) (reason : CollisionReason) (similarity : Q)
    (source_reference summary : string) (now : datetime) : result exn DedupeCollision :=
  let? summary := non_empty_str "EvidenceReference" summary in
  if Qle_bool 0 similarity && Qle_bool similarity 1 then
    Ok {| dc_other_spec_id := sp_spec_id existing; dc_reason := reason; dc_similarity := similarity;
          dc_evidence := [{| er_evidence_id := sp_spec_id candidate; er_evidence_type := "DEDUPE_CHECK";
                             er_source_reference := source_reference; er_observed_at := now;
                             er_sha256 := None; er_artifact_id := None; er_producing_job_id := None;
                             er_safe_summary := summary |}] |}
  else validation_error "DedupeCollision".

(** [if hit: collisions.append(...)]; the [n]th collision is observed at [now n]. *)
Definition append_if (hit : bool) (c : datetime → result exn DedupeCollision) (now : nat → datetime)
    (collisions : list DedupeCollision) : result exn (list DedupeCollision) :=
  if hit then let? c := c (now (length collisions)) in Ok (collisions ++ [c])%list else Ok collisions.

(** One round of the loop. *)
Definition check_spec (now : nat → datetime) (candidate : ProductSpec)
    (st : list DedupeCollision * list uuid) (existing : ProductSpec) : result exn (list DedupeCollision * list uuid) :=
  if decide (sp_spec_id existing = sp_spec_id candidate) then Ok st
  else
    let compared := (st.2 ++ [sp_spec_id existing])%list in
    let? collisions := append_if (same_identity candidate existing)
      (collision candidate existing EXACT_IDENTITY_CATEGORY 1 "SPEC_IDENTITY_CATEGORY"
         ("identity=" ++ sp_identity candidate ++ ", category=" ++ sp_base_category candidate)) now st.1 in
    let similarity := title_similarity candidate existing in
    let? collisions := append_if (Qle_bool JACCARD_THRESHOLD similarity)
      (collision candidate existing TITLE_SIMILARITY similarity "TITLE_TOKENS"
         ("candidate=" ++ normalize_title (sp_title candidate) ++ ", existing=" ++
          normalize_title (sp_title existing) ++ ", jaccard=" ++ format_3f similarity)) now collisions in
    let? collisions := append_if (bool_decide (sp_concept_fingerprint candidate = sp_concept_fingerprint existing))
      (collision candidate existing CONCEPT_FINGERPRINT 1 "CONCEPT_FINGERPRINT"
         ("fingerprint=" ++ sp_concept_fingerprint candidate)) now collisions in
    Ok (collisions, compared).

Fixpoint check_specs (now : nat → datetime) (candidate : ProductSpec) (st : list DedupeCollision * list uuid)
    (existing_specs : list ProductSpec) : result exn (list DedupeCollision * list uuid) :=
  match existing_specs with
  | [] => Ok st
  | existing :: rest => let? st := check_spec now candidate st existing in check_specs now candidate st rest
  end.

Definition differentiation (s : ProductSpec) : list string :=
  ["Identity: " ++ sp_identity s; "Category: " ++ sp_base_category s; "Buyer problem: " ++ sp_buyer_problem s;
   "Features: " ++ pretty (Z.of_nat (length (sp_features s))) ++ " unique features";
   "Hubs: " ++ pretty (Z.of_nat (length (sp_hubs s))) ++ " unique hubs"].

(** The constructor: its fields and then its validator, all as one [ValidationError]. *)
Definition dedupe_result (r : DedupeResult) : result exn DedupeResult :=
  let? rule_version := non_empty_str "DedupeResult" (dr_rule_version r) in
  let? normalized_title := non_empty_str "DedupeResult" (dr_normalized_title r) in
  let? evidence := traverse (non_empty_str "DedupeResult") (dr_differentiation_evidence r) in
  let r := {| dr_result_id := dr_result_id r; dr_workflow_id := dr_workflow_id r; dr_spec_id := dr_spec_id r;
              dr_outcome := dr_outcome r; dr_rule_version := rule_version; dr_normalized_title := normalized_title;
              dr_concept_fingerprint := dr_concept_fingerprint r;
              dr_title_similarity_threshold := dr_title_similarity_threshold r;
              dr_compared_spec_ids := dr_compared_spec_ids r; dr_collisions := dr_collisions r;
              dr_differentiation_evidence := evidence; dr_completed_at := dr_completed_at r |} in
  if hex_text 64 (dr_concept_fingerprint r) then
    match validate_outcome r with
    | Ok _ => Ok r
    | Raise _ => validation_error "DedupeResult"
    end
  else validation_error "DedupeResult".

Definition check_dedupe (now : nat → datetime) (candidate_spec : ProductSpec) (existing_specs : list ProductSpec)
    (rule_version : string) : result exn DedupeResult :=
  let? checked := check_specs now candidate_spec ([], []) existing_specs in
  let '(collisions, compared_spec_ids) := checked in
  dedupe_result
    {| dr_result_id := sp_spec_id candidate_spec; dr_workflow_id := sp_workflow_id candidate_spec;
       dr_spec_id := sp_spec_id candidate_spec;
       dr_outcome := if decide (collisions = []) then BranchOutcome.PASS else BranchOutcome.TOO_CLOSE;
       dr_rule_version := rule_version; dr_normalized_title := normalize_title (sp_title candidate_spec);
       dr_concept_fingerprint := sp_concept_fingerprint candidate_spec;
       dr_title_similarity_threshold := JACCARD_THRESHOLD; dr_compared_spec_ids := compared_spec_ids;
       dr_collisions := collisions;
       dr_differentiation_evidence :=
         if decide (collisions = []) then if decide (existing_specs = []) then [] else differentiation candidate_spec
         else [];
       dr_completed_at := sp_created_at candidate_spec |}.

(** ** The threshold *)

(** The nearest integer is at most one half away. *)
Lemma round_even_near (a : Z) (d : positive) :
  let r := Qround_even (a # d) in 2 * r * Zpos d - Zpos d <= 2 * a <= 2 * r * Zpos d + Zpos d.
Proof.
  cbn zeta. unfold Qround_even. cbn [Qnum Qden]. pose proof (Z.div_mod a (Zpos d) ltac:(lia)).
  pose proof (Z.mod_pos_bound a (Zpos d) ltac:(lia)).
  destruct (Z.compare_spec (2 * (a mod Zpos d)) (Zpos d)); [destruct (Z.even _)| |]; lia.
Qed.

Lemma float_ratio_parts n m : 0 < n <= m →
  ∃ s M, 52 <= s ∧ float_ratio n m = (M # Z.to_pos (2 ^ s))%Q ∧
    2 * M * m - m <= 2 * (n * 2 ^ s) <= 2 * M * m + m ∧ (n < m → m <= 2 * n → s = 53).
Proof.
  intros Hn. unfold float_ratio. set (s := 52 + _). exists s. eexists. split; [|split; [done|split]].
  - pose proof (Z.log2_up_nonneg ((m + n - 1) / n)). lia.
  - pose proof (round_even_near (n * 2 ^ s) (Z.to_pos m)) as H. cbn zeta in H. rewrite Z2Pos.id in H by lia. exact H.
  - intros Hlt Hle. unfold s. assert ((m + n - 1) / n = 2) as ->; [|done].
    symmetry. apply (Z.div_unique _ _ _ (m - n - 1)); lia.
Qed.

Lemma float_ratio_unit n m : 0 < n <= m → Qle_bool 0 (float_ratio n m) = true ∧ Qle_bool (float_ratio n m) 1 = true.
Proof.
  intros Hn. destruct (float_ratio_parts n m Hn) as (s & M & Hs & -> & HM & _).
  pose proof (Z.pow_pos_nonneg 2 s ltac:(lia) ltac:(lia)) as Hp. unfold Qle_bool. cbn [Qnum Qden].
  rewrite !Z.leb_le. rewrite Z2Pos.id by lia. split; nia.
Qed.

(** The comparison of floats is the one of the fractions. *)
Lemma threshold_exact n m : 0 < n <= m → m < 2 ^ 40 →
  Qle_bool JACCARD_THRESHOLD (float_ratio n m) = (7 * m <=? 10 * n).
Proof.
  intros Hn Hm. destruct (float_ratio_parts n m Hn) as (s & M & Hs & -> & HM & H53).
  change JACCARD_THRESHOLD with (6305039478318694 # 9007199254740992)%Q. unfold Qle_bool. cbn [Qnum Qden].
  pose proof (Z.pow_pos_nonneg 2 s ltac:(lia) ltac:(lia)) as Hp. rewrite Z2Pos.id by lia.
  apply Bool.eq_iff_eq_true. rewrite !Z.leb_le. destruct (decide (n = m)) as [->|Hne].
  { assert (0 < m) by lia. split; [lia|]. intros _. revert HM Hp. clear Hm H53. generalize (2 ^ s). intros p HM Hp.
    assert (2 * M <= 2 * p + 1) by (apply (Z.mul_le_mono_pos_r _ _ m); nia).
    assert (2 * p <= 2 * M + 1) by (apply (Z.mul_le_mono_pos_r _ _ m); nia). lia. }
  destruct (decide (m <= 2 * n)) as [Hle|Hgt].
  - rewrite (H53 ltac:(lia) Hle) in *. change (2 ^ 53) with 9007199254740992 in *. change (2 ^ 40) with 1099511627776 in *.
    split; intros H; [apply Z.le_ngt; intros Hlt|]; nia.
  - split; intros H; [|lia]. exfalso. assert (H52 : 2 ^ 52 <= 2 ^ s) by (apply Z.pow_le_mono_r; lia).
    revert HM H52 H. generalize (2 ^ s). intros p HM H52 H.
    assert (2 * (n * p) <= m * p) by nia. assert (2 * M <= p + 1) by (apply (Z.mul_le_mono_pos_r _ _ m); lia). lia.
Qed.

(** ** What collides *)

Abbreviation words s := (tokenize_title (normalize_title (sp_title s))).

(** Seven tenths of the words of both titles are shared. *)
Definition similar_titles (candidate existing : ProductSpec) : bool :=
  7 * Z.of_nat (size (words candidate ∪ words existing)) <=? 10 * Z.of_nat (size (words candidate ∩ words existing)).

Definition same_concept (candidate existing : ProductSpec) : bool :=
  bool_decide (sp_concept_fingerprint candidate = sp_concept_fingerprint existing).

(** The rules that [existing] breaks, in the order of the code. *)
Definition reasons (candidate existing : ProductSpec) : list CollisionReason :=
  (if same_identity candidate existing then [EXACT_IDENTITY_CATEGORY] else []) ++
  (if similar_titles candidate existing then [TITLE_SIMILARITY] else []) ++
  (if same_concept candidate existing then [CONCEPT_FINGERPRINT] else []).

Definition cited (c : DedupeCollision) : uuid * CollisionReason := (dc_other_spec_id c, dc_reason c).

Definition reasons_of (candidate existing : ProductSpec) : list (uuid * CollisionReason) :=
  (λ why, (sp_spec_id existing, why)) <$> reasons candidate existing.

Lemma bool_decide_comm {A} `{!EqDecision A} (a b : A) : bool_decide (a = b) = bool_decide (b = a).
Proof. apply bool_decide_ext. split; by intros ->. Qed.

(** Who is too close to whom does not depend on the order. *)
Lemma reasons_sym a b : reasons a b = reasons b a.
Proof.
  unfold reasons, same_identity, similar_titles, same_concept.
  rewrite (union_comm_L (words a)), (intersection_comm_L (words a)).
  rewrite (bool_decide_comm (normalized (sp_identity a))), (bool_decide_comm (normalized (sp_base_category a))).
  by rewrite (bool_decide_comm (sp_concept_fingerprint a)).
Qed.

Lemma jaccard_unit a b :
  Qle_bool 0 (calculate_jaccard_similarity a b) = true ∧ Qle_bool (calculate_jaccard_similarity a b) 1 = true.
Proof.
  unfold calculate_jaccard_similarity. destruct (_ && _); [done|]. destruct (_ || _); [done|].
  destruct (Z.eqb_spec (Z.of_nat (size (a ∩ b))) 0); [done|]. apply float_ratio_unit. split; [lia|].
  apply Nat2Z.inj_le, subseteq_size. set_solver.
Qed.

Lemma jaccard_threshold a b : Z.of_nat (size (a ∪ b)) < 2 ^ 40 →
  Qle_bool JACCARD_THRESHOLD (calculate_jaccard_similarity a b) =
  (7 * Z.of_nat (size (a ∪ b)) <=? 10 * Z.of_nat (size (a ∩ b))).
Proof.
  intros Hm. unfold calculate_jaccard_similarity.
  assert (Hsize : ∀ c : gset string, c ≠ ∅ → 0 < Z.of_nat (size c)).
  { intros c Hc. assert (size c ≠ 0%nat); [|lia]. intros He%size_empty_inv. by apply Hc, leibniz_equiv. }
  destruct (decide (a = ∅)) as [->|Ha], (decide (b = ∅)) as [->|Hb].
  - done.
  - rewrite (bool_decide_false (b = ∅)) by done. cbn [andb orb].
    rewrite (left_absorb_L ∅ (∩)), (left_id_L ∅ (∪)), size_empty.
    symmetry. apply Z.leb_gt. specialize (Hsize b Hb). lia.
  - rewrite (bool_decide_false (a = ∅)) by done. cbn [andb orb].
    rewrite (right_absorb_L ∅ (∩)), (right_id_L ∅ (∪)), size_empty.
    symmetry. apply Z.leb_gt. specialize (Hsize a Ha). lia.
  - rewrite (bool_decide_false (a = ∅)), (bool_decide_false (b = ∅)) by done. cbn [andb orb].
    assert (Hsub : (size (a ∩ b) <= size (a ∪ b))%nat) by (apply subseteq_size; set_solver).
    destruct (Z.eqb_spec (Z.of_nat (size (a ∩ b))) 0) as [Hz|Hz].
    + rewrite Hz. symmetry. apply Z.leb_gt. assert (a ∪ b ≠ ∅) as Hu by set_solver. specialize (Hsize _ Hu). lia.
    + apply threshold_exact; lia.
Qed.

(** ** The loop *)

(** Text that starts with more than a space makes a valid piece of evidence. *)
Lemma collision_ok c e why q ref chr s now :
  Qle_bool 0 q = true → Qle_bool q 1 = true → is_space chr = false →
  ∃ x, collision c e why q ref (String chr s) now = Ok x ∧ cited x = (sp_spec_id e, why) ∧ dc_similarity x = q.
Proof.
  intros H0 H1 Hc. unfold collision, non_empty_str. rewrite (strip_nonblank _ _ Hc), H0, H1. by eexists.
Qed.

(** A title collision meets the threshold. *)
Definition meets (x : DedupeCollision) : Prop :=
  dc_reason x = TITLE_SIMILARITY → Qle_bool JACCARD_THRESHOLD (dc_similarity x) = true.

Lemma append_if_ok hit make now cs other why :
  (hit = true → ∀ t, ∃ x, make t = Ok x ∧ cited x = (other, why) ∧ meets x) →
  ∃ l, append_if hit make now cs = Ok (cs ++ l)%list ∧
    cited <$> l = (λ w, (other, w)) <$> (if hit then [why] else []) ∧ Forall meets l.
Proof.
  intros Hmake. unfold append_if. destruct hit; [|exists []; by rewrite app_nil_r].
  destruct (Hmake eq_refl (now (length cs))) as (x & -> & Hx & Hs). exists [x]. cbn [rbind].
  split_and!; [done|cbn; congruence|by constructor].
Qed.

Lemma collision_meets c e why q ref chr s now :
  Qle_bool 0 q = true → Qle_bool q 1 = true → is_space chr = false →
  (why = TITLE_SIMILARITY → Qle_bool JACCARD_THRESHOLD q = true) →
  ∃ x, collision c e why q ref (String chr s) now = Ok x ∧ cited x = (sp_spec_id e, why) ∧ meets x.
Proof.
  intros H0 H1 Hc Hq. destruct (collision_ok c e why q ref chr s now H0 H1 Hc) as (x & Hx & Hcite & Hsim).
  exists x. split_and!; [done|done|]. unfold meets. rewrite Hsim. injection Hcite as _ ->. done.
Qed.

Lemma check_spec_ok now c cs ids e :
  Z.of_nat (size (words c ∪ words e)) < 2 ^ 40 → sp_spec_id e ≠ sp_spec_id c →
  ∃ l, check_spec now c (cs, ids) e = Ok (cs ++ l, ids ++ [sp_spec_id e])%list ∧
    cited <$> l = reasons_of c e ∧ Forall meets l.
Proof.
  intros Hm Hid. unfold check_spec. rewrite decide_False by done. cbn [fst snd].
  pose proof (jaccard_threshold _ _ Hm) as Hthr. pose proof (jaccard_unit (words c) (words e)) as [H0 H1].
  change (calculate_jaccard_similarity (words c) (words e)) with (title_similarity c e) in Hthr, H0, H1.
  destruct (append_if_ok (same_identity c e) (collision c e EXACT_IDENTITY_CATEGORY 1 "SPEC_IDENTITY_CATEGORY"
    ("identity=" ++ sp_identity c ++ ", category=" ++ sp_base_category c)) now cs (sp_spec_id e) EXACT_IDENTITY_CATEGORY)
    as (l1 & -> & C1 & F1); [by intros _ t; apply collision_meets|].
  cbn [rbind]. set (text := "candidate=" ++ _).
  destruct (append_if_ok (Qle_bool JACCARD_THRESHOLD (title_similarity c e))
    (collision c e TITLE_SIMILARITY (title_similarity c e) "TITLE_TOKENS" text)
    now (cs ++ l1) (sp_spec_id e) TITLE_SIMILARITY) as (l2 & -> & C2 & F2); [by intros Hhit t; apply collision_meets|].
  cbn [rbind]. destruct (append_if_ok (same_concept c e) (collision c e CONCEPT_FINGERPRINT 1 "CONCEPT_FINGERPRINT"
    ("fingerprint=" ++ sp_concept_fingerprint c)) now ((cs ++ l1) ++ l2) (sp_spec_id e) CONCEPT_FINGERPRINT)
    as (l3 & H3 & C3 & F3); [by intros _ t; apply collision_meets|].
  unfold same_concept in H3. rewrite H3. cbn [rbind]. exists (l1 ++ l2 ++ l3)%list. split_and!.
  - by rewrite !app_assoc.
  - unfold reasons_of, reasons. by rewrite !fmap_app, C1, C2, C3, Hthr.
  - by rewrite !Forall_app.
Qed.

Definition others (c : ProductSpec) (existing : list ProductSpec) : list ProductSpec :=
  filter (λ e, sp_spec_id e ≠ sp_spec_id c) existing.

Lemma check_specs_ok now c existing cs ids :
  Forall (λ e, Z.of_nat (size (words c ∪ words e)) < 2 ^ 40) existing →
  ∃ l, check_specs now c (cs, ids) existing = Ok (cs ++ l, ids ++ (sp_spec_id <$> others c existing))%list ∧
    cited <$> l = others c existing ≫= reasons_of c ∧ Forall meets l.
Proof.
  intros Hall. revert cs ids. induction Hall as [|e existing Hm Hall IH]; intros cs ids.
  - exists []. by rewrite !app_nil_r.
  - cbn [check_specs]. unfold others. rewrite filter_cons. fold (others c existing).
    destruct (decide (sp_spec_id e = sp_spec_id c)) as [Hid|Hid].
    + rewrite decide_False by naive_solver. unfold check_spec. rewrite decide_True by done. cbn [rbind]. apply IH.
    + rewrite decide_True by done. destruct (check_spec_ok now c cs ids e Hm Hid) as (l1 & -> & C1 & F1). cbn [rbind].
      destruct (IH (cs ++ l1) (ids ++ [sp_spec_id e]))%list as (l2 & -> & C2 & F2). exists (l1 ++ l2)%list.
      rewrite fmap_cons, fmap_app, bind_cons, C1, C2, Forall_app, <- !app_assoc. done.
Qed.

(** ** The result *)

(** [s] starts with more than a space. *)
Definition starts (s : string) : bool := match s with String c _ => negb (is_space c) | EmptyString => false end.

Lemma non_empty_app model s t : starts s = true → ∃ u, non_empty_str model (s ++ t) = Ok u.
Proof.
  destruct s as [|c s]; [done|]. intros Hc%negb_true_iff. unfold non_empty_str.
  change (String c s ++ t) with (String c (s ++ t)). rewrite (strip_nonblank _ _ Hc). by eexists.
Qed.

Lemma traverse_all {E A B} (f : A → result E B) l : Forall (λ a, ∃ b, f a = Ok b) l → ∃ k, traverse f l = Ok k.
Proof. induction 1 as [|a l [b Hb] _ [k IH]]; [by exists []|]. exists (b :: k). cbn [traverse]. by rewrite Hb, IH. Qed.

Lemma differentiation_valid s :
  ∃ l, traverse (non_empty_str "DedupeResult") (differentiation s) = Ok l ∧ l ≠ [].
Proof.
  destruct (traverse_all (non_empty_str "DedupeResult") (differentiation s)) as [l Hl].
  { unfold differentiation. repeat constructor; by apply non_empty_app. }
  exists l. split; [done|]. intros ->. apply traverse_Forall2 in Hl. inversion Hl.
Qed.

Lemma validate_outcome_ok r :
  dr_title_similarity_threshold r = JACCARD_THRESHOLD →
  NoDup (dr_compared_spec_ids r) → dr_spec_id r ∉ dr_compared_spec_ids r →
  Forall (λ x, dc_other_spec_id x ∈ dr_compared_spec_ids r ∧ meets x) (dr_collisions r) →
  dr_outcome r = (if decide (dr_collisions r = []) then BranchOutcome.PASS else BranchOutcome.TOO_CLOSE) →
  (dr_collisions r ≠ [] → dr_differentiation_evidence r = []) →
  (dr_collisions r = [] → dr_compared_spec_ids r ≠ [] → dr_differentiation_evidence r ≠ []) →
  validate_outcome r = Ok tt.
Proof.
  intros Ht Hdup Hself Hcite Ho Hclose Hpass. unfold validate_outcome.
  assert (Hout : dr_outcome r ∈ [BranchOutcome.PASS; BranchOutcome.TOO_CLOSE]) by (rewrite Ho; case_decide; set_solver).
  rewrite (bool_decide_true _ Hout), Ht. cbn [check rbind]. change (negb (Qle_bool JACCARD_THRESHOLD 0)) with true.
  unfold all_unique. rewrite (bool_decide_true _ Hdup), (bool_decide_true _ Hself). cbn [check rbind].
  destruct (traverse_all (cites_compared r) (dr_collisions r)) as [l ->].
  { eapply Forall_impl; [exact Hcite|]. intros x [Hx Hmeets]. exists tt. unfold cites_compared.
    rewrite (bool_decide_true _ Hx), Ht. cbn [check rbind]. unfold check.
    destruct (decide (dc_reason x = TITLE_SIMILARITY)) as [Hr|Hr]; [by rewrite (Hmeets Hr), andb_false_r|].
    by rewrite bool_decide_false. }
  cbn [rbind]. rewrite Ho. destruct (decide (dr_collisions r = [])) as [Hc|Hc].
  - rewrite decide_True, (bool_decide_true _ Hc) by done. cbn [check rbind].
    destruct (decide (dr_compared_spec_ids r = [])) as [Hn|Hn]; [by rewrite (bool_decide_true _ Hn)|].
    by rewrite (bool_decide_false _ Hn), (bool_decide_false _ (Hpass Hc Hn)).
  - rewrite decide_False, (bool_decide_false _ Hc) by done. cbn [check rbind negb].
    by rewrite (bool_decide_true _ (Hclose Hc)).
Qed.

(** What a result needs besides the comparison. *)
Definition acceptable (rule_version title fingerprint : string) (compared : list uuid) : Prop :=
  str_strip rule_version ≠ "" ∧ str_strip title ≠ "" ∧ hex_text 64 fingerprint = true ∧ NoDup compared.

Lemma non_empty_str_spec model s :
  non_empty_str model s = if decide (str_strip s = "") then validation_error model else Ok (str_strip s).
Proof. unfold non_empty_str, str_truth. by case_decide. Qed.

Lemma normalize_stripped t : str_strip (normalize_title t) = normalize_title t.
Proof. apply strip_strip. Qed.

(** [DedupeResult] accepts what the loop collects when the rest is acceptable, and nothing else. *)
Lemma dedupe_result_spec r :
  dr_title_similarity_threshold r = JACCARD_THRESHOLD →
  dr_spec_id r ∉ dr_compared_spec_ids r →
  Forall (λ x, dc_other_spec_id x ∈ dr_compared_spec_ids r ∧ meets x) (dr_collisions r) →
  dr_outcome r = (if decide (dr_collisions r = []) then BranchOutcome.PASS else BranchOutcome.TOO_CLOSE) →
  (∃ l, traverse (non_empty_str "DedupeResult") (dr_differentiation_evidence r) = Ok l ∧
     (dr_collisions r ≠ [] → l = []) ∧ (dr_collisions r = [] → dr_compared_spec_ids r ≠ [] → l ≠ [])) →
  let accepted := acceptable (dr_rule_version r) (dr_normalized_title r) (dr_concept_fingerprint r) (dr_compared_spec_ids r) in
  match dedupe_result r with
  | Ok r' => accepted ∧ dr_outcome r' = dr_outcome r ∧ dr_collisions r' = dr_collisions r ∧
      dr_compared_spec_ids r' = dr_compared_spec_ids r
  | Raise e => exn_type e = ValidationError ∧ ¬ accepted
  end.
Proof.
  intros Ht Hself Hcite Ho (l & Hl & Hclose & Hpass) accepted. unfold accepted, acceptable, dedupe_result.
  rewrite !non_empty_str_spec.
  destruct (decide (str_strip (dr_rule_version r) = "")); [split; [done|by intros (? & _)]|]. cbn [rbind].
  destruct (decide (str_strip (dr_normalized_title r) = "")); [split; [done|by intros (_ & ? & _)]|]. cbn [rbind].
  rewrite Hl. cbn [rbind dr_concept_fingerprint].
  destruct (hex_text 64 (dr_concept_fingerprint r)) eqn:Hh; [|split; [done|]; intros (_ & _ & ? & _); congruence].
  destruct (decide (NoDup (dr_compared_spec_ids r))) as [Hdup|Hdup]; [by rewrite validate_outcome_ok|].
  set (r' := Build_DedupeResult _ _ _ _ _ _ _ _ _ _ _ _).
  assert (∃ e, validate_outcome r' = Raise e) as [e ->]; [|split; [done|by intros (_ & _ & _ & ?)]].
  unfold validate_outcome, check at 1 2 3, all_unique. cbn [dr_compared_spec_ids r']. rewrite (bool_decide_false _ Hdup).
  destruct (bool_decide _); [|by eexists]. destruct (negb _); by eexists.
Qed.

(** C31: Dedupe decides by the three rules and reports exactly what it found.  The catalogue is
    compared without the candidate itself; a spec is cited, in order, for the same identity and
    category, for sharing at least seven tenths of the words of both titles, and for the same
    concept; the outcome is [PASS] when nothing is cited and [TOO_CLOSE] otherwise.  A result is
    refused with [ValidationError] exactly when the rule version is blank, nothing is left of the
    candidate's title, its fingerprint is no SHA-256, or the catalogue lists a spec twice. *)
Theorem dedupe_decides now c existing rule_version :
  Forall (λ e, Z.of_nat (size (words c ∪ words e)) < 2 ^ 40) existing →
  let compared := sp_spec_id <$> others c existing in
  let cites := others c existing ≫= reasons_of c in
  let accepted := acceptable rule_version (normalize_title (sp_title c)) (sp_concept_fingerprint c) compared in
  match check_dedupe now c existing rule_version with
  | Ok r => accepted ∧ dr_outcome r = (if decide (cites = []) then BranchOutcome.PASS else BranchOutcome.TOO_CLOSE) ∧
      cited <$> dr_collisions r = cites ∧ dr_compared_spec_ids r = compared
  | Raise e => exn_type e = ValidationError ∧ ¬ accepted
  end.
Proof.
  intros Hall compared cites. unfold check_dedupe.
  destruct (check_specs_ok now c existing [] [] Hall) as (l & -> & Hcites & Hmeets). fold compared cites in Hcites |- *.
  cbn [rbind app].
  assert (Hnil : l = [] ↔ cites = []) by (rewrite <- Hcites; split; [by intros ->|apply fmap_nil_inv]).
  assert (Hother : Forall (λ x, dc_other_spec_id x ∈ compared ∧ meets x) l).
  { rewrite Forall_forall in *. intros x Hx. split; [|by apply Hmeets].
    assert (Hin : cited x ∈ cites) by (rewrite <- Hcites; by apply list_elem_of_fmap_2).
    apply list_elem_of_bind in Hin as (e & Hin & He). apply list_elem_of_fmap in Hin as (why & [= -> _] & _).
    by apply list_elem_of_fmap_2. }
  set (r := Build_DedupeResult _ _ _ _ _ _ _ _ _ _ _ _).
  pose proof (dedupe_result_spec r eq_refl) as Hspec. cbn zeta in Hspec. cbn [dr_rule_version dr_normalized_title
    dr_concept_fingerprint dr_compared_spec_ids dr_spec_id dr_collisions dr_outcome dr_differentiation_evidence r] in Hspec.
  assert (Hself : sp_spec_id c ∉ compared).
  { unfold compared, others. intros (e & He & Hin)%list_elem_of_fmap. apply list_elem_of_filter in Hin as [Hne _]. congruence. }
  specialize (Hspec Hself Hother eq_refl).
  assert (Hevidence : ∃ d, traverse (non_empty_str "DedupeResult") (dr_differentiation_evidence r) = Ok d ∧
    (l ≠ [] → d = []) ∧ (l = [] → compared ≠ [] → d ≠ [])).
  { cbn [dr_differentiation_evidence r]. destruct (decide (l = [])) as [->|Hl]; [|by exists []].
    destruct (decide (existing = [])) as [->|Hex]; [by exists []|].
    destruct (differentiation_valid c) as (d & -> & Hd). by exists d. }
  specialize (Hspec Hevidence). destruct (dedupe_result r) as [r'|e]; [|exact Hspec].
  destruct Hspec as (Ha & -> & -> & ->). split_and!; [done| |done|done].
  destruct (decide (l = [])), (decide (cites = [])); tauto.
Qed.

(** ** A small catalogue *)

Definition sample_rules : ProductShapeRules :=
  {| sr_rule_version := "1.0.0"; sr_hubs_minimum := 1; sr_hubs_maximum := 8; sr_colour_variants_minimum := 1; sr_colour_variants_maximum := 8 |}.

Definition sample_spec (id : uuid) (identity title : string) (fingerprint : N) : ProductSpec :=
  {| sp_spec_id := id; sp_workflow_id := 100; sp_product_id := 200; sp_version := 1; sp_lineage_kind := ORIGINAL;
     sp_parent_spec_id := None; sp_parent_product_id := None; sp_parent_decision_id := None;
     sp_parent_workflow_id := None; sp_shape_rules := sample_rules; sp_identity := identity;
     sp_base_category := "Planner"; sp_buyer_problem := "time"; sp_title := title; sp_tier := "low";
     sp_real_price := 9; sp_anchor_price := 19; sp_currency := "USD"; sp_hubs := ["Home"];
     sp_colour_variants := ["Sage"]; sp_features := ["Tracker"]; sp_experiment_plan := "plan";
     sp_concept_fingerprint := hex_digits 64 fingerprint; sp_source_evidence := [];
     sp_created_at := 0 |}.

Definition sample_candidate : ProductSpec := sample_spec 1 "Busy nurse" "One two three four, FIVE six seven" 1.

(** Seven of ten words; another letter case and the same concept; nothing in common; itself. *)
Definition sample_catalogue : list ProductSpec :=
  [sample_spec 2 "Runner" "Seven six five four three two one zero nine eight" 2;
   sample_spec 3 "BUSY NURSE" "Shift planner" 1; sample_spec 4 "Student" "One two three four five six" 3;
   sample_spec 5 "Student" "Exam tracker" 4; sample_candidate].

Definition outline (r : result exn DedupeResult) : result exn (BranchOutcome * list (uuid * CollisionReason) * list uuid) :=
  match r with
  | Ok r => Ok (dr_outcome r, cited <$> dr_collisions r, dr_compared_spec_ids r)
  | Raise e => Raise e
  end.

Definition sample_now (n : nat) : datetime := Z.of_nat n.

Example sample_too_close : outline (check_dedupe sample_now sample_candidate sample_catalogue "1.0.0") =
  Ok (BranchOutcome.TOO_CLOSE,
      [(2%N, TITLE_SIMILARITY); (3%N, EXACT_IDENTITY_CATEGORY); (3%N, CONCEPT_FINGERPRINT); (4%N, TITLE_SIMILARITY)],
      [2%N; 3%N; 4%N; 5%N]).
Proof. vm_compute. reflexivity. Qed.

Example sample_pass :
  outline (check_dedupe sample_now (sample_spec 9 "Teacher" "Term planner" 9) sample_catalogue "1.0.0") =
  Ok (BranchOutcome.PASS, [], [2%N; 3%N; 4%N; 5%N; 1%N]).
Proof. vm_compute. reflexivity. Qed.

(** A valid title without letters or digits has no dedupe result. *)
Example unnamed_title_refused :
  outline (check_dedupe sample_now (sample_spec 1 "Nurse" "!!!" 1) [] "1.0.0") =
  Raise (Exn ValidationError "validation error for DedupeResult").
Proof. vm_compute. reflexivity. Qed.

Lemma dedupe_decides_witness :
  Forall (λ e, Z.of_nat (size (words sample_candidate ∪ words e)) < 2 ^ 40) sample_catalogue ∧
  match check_dedupe sample_now sample_candidate sample_catalogue "1.0.0" with
  | Ok r => dr_outcome r = BranchOutcome.TOO_CLOSE ∧
      cited <$> dr_collisions r =
        [(2%N, TITLE_SIMILARITY); (3%N, EXACT_IDENTITY_CATEGORY); (3%N, CONCEPT_FINGERPRINT); (4%N, TITLE_SIMILARITY)]
  | Raise _ => False
  end.
Proof.
  assert (Hall : Forall (λ e, Z.of_nat (size (words sample_candidate ∪ words e)) < 2 ^ 40) sample_catalogue).
  { repeat constructor; vm_compute; reflexivity. }
  split; [exact Hall|]. pose proof (dedupe_decides sample_now sample_candidate sample_catalogue "1.0.0" Hall) as H.
  vm_compute in H |- *. exact (conj (proj1 (proj2 H)) (proj1 (proj2 (proj2 H)))).
Defined.
