(* ===== verification/RealDraft.v ===== *)
(** * Authority of the one-product draft run

    [application/real_draft_authority.py]: a run may prepare, write and read the draft of one
    product in one shop, and nothing else; a draft counts as read back only from a current,
    verified observation of the provider. *)

From S2P Require Import Prelude PyText PyLines PyTime Errors.
From Stdlib Require Import QArith.QArith_base.
Close Scope Q_scope.
Open Scope string_scope.
Open Scope Z_scope.

Definition _ALLOWED_OPERATIONS : list string :=
  ["local.render"; "local.qa";
   "notion.private_product.read"; "notion.private_product.write";
   "notion.private_variant.read"; "notion.private_variant.write";
   "etsy.create_draft"; "etsy.upload_image"; "etsy.upload_video"; "etsy.upload_file";
   "etsy.read_draft"].

(** [timedelta(minutes=5)] *)
Definition _MAX_READBACK_AGE : timedelta := 300000000.

Definition run_refused {A} (code : string) : result exn A := Raise (Exn DraftRunRefused code).

Definition run_refuse_if (c : bool) (code : string) : result exn unit := if c then run_refused code else Ok tt.

Inductive ReadbackSource : Set := real_api | real_browser | fixture.

#[export] Instance ReadbackSource_eq_dec : EqDecision ReadbackSource.
Proof. solve_decision. Defined.

Record DraftReadbackProof := {
  rb_run_id : string;
  rb_product_id : uuid;
  rb_shop_name : string;
  rb_shop_id : Z;
  rb_listing_id : Z;
  rb_state : string;
  rb_source : ReadbackSource;
  rb_verified : bool;
  rb_observed_at : datetime;
  rb_copy_sha256 : string;
  rb_image_ids : list Z;
  rb_video_ids : list Z;
  rb_file_ids : list Z;
}.

Definition text_between (least most : nat) (s : string) : bool :=
  (least <=? String.length s)%nat && (String.length s <=? most)%nat.

Definition unique_attachment_ids (ids : list Z) : bool := all_unique ids.

Definition positive_ids (ids : list Z) : bool := forallb (λ i, 0 <? i) ids.

(** The field constraints and validators; [require_timezone] is the type of [rb_observed_at]. *)
Definition readback_valid (p : DraftReadbackProof) : bool :=
  text_between 1 128 (rb_run_id p) && text_between 1 64 (rb_shop_name p) && text_between 1 32 (rb_state p) &&
  (0 <? rb_shop_id p) && (0 <? rb_listing_id p) && hex_text 64 (rb_copy_sha256 p) &&
  forallb (λ ids, positive_ids ids && unique_attachment_ids ids) [rb_image_ids p; rb_video_ids p; rb_file_ids p].

Definition SHOP_NAME := "QuietlyBuiltStudio".

Record DraftRunAuthority := {
  au_run_id : string;
  au_product_id : uuid;
  au_verified_shop_id : option Z;
  au_verified_notion_parent_id : option uuid;
}.

Definition is_alnum (c : Ascii.ascii) : bool :=
  let n := Ascii.N_of_ascii c in
  (is_digit c || (65 <=? n) && (n <=? 90) || (97 <=? n) && (n <=? 122))%N.

(** [^[A-Za-z0-9][A-Za-z0-9_.-]{0,127}$] *)
Definition run_id_text (s : string) : bool :=
  text_between 1 128 s && match s with String c _ => is_alnum c | EmptyString => false end &&
  str_all (λ c, is_alnum c || str_has c "_.-") s.

(** The field constraints. *)
Definition authority_valid (a : DraftRunAuthority) : bool :=
  run_id_text (au_run_id a) && from_option (λ s, 0 <? s) true (au_verified_shop_id a).

(** [shop_name: Literal["QuietlyBuiltStudio"]] *)
Definition au_shop_name (a : DraftRunAuthority) : string := SHOP_NAME.

(** An argument that may or may not be an [int], and one that may or may not be a
    [Decimal]. *)
Inductive id_value : Set :=
  | Int (z : Z)
  | NotInt.

#[export] Instance id_value_eq_dec : EqDecision id_value.
Proof. solve_decision. Defined.

Inductive amount_value : Set :=
  | Finite (q : Q)
  | NotFinite
  | NotDecimal.

(** [Decimal("0")], the default cost *)
Definition no_cost : amount_value := Finite 0.

Definition is_zero (a : amount_value) : bool := match a with Finite q => Qeq_bool q 0 | _ => false end.

Definition is_positive (a : amount_value) : bool := match a with Finite q => negb (Qle_bool q 0) | _ => false end.

(** The keyword arguments of [authorize]. *)
Record Request := {
  rq_run_id : string;
  rq_product_id : uuid;
  rq_shop_name : option string;
  rq_shop_id : option id_value;
  rq_notion_parent_id : option uuid;
  rq_listing_state : string;
  rq_cost : amount_value;
  rq_price : option amount_value;
}.

Definition authorize (a : DraftRunAuthority) (operation : string) (q : Request) : result exn unit :=
  do? run_refuse_if (bool_decide (operation ∉ _ALLOWED_OPERATIONS)) "operation_not_authorized";
  do? run_refuse_if (bool_decide (rq_run_id q ≠ au_run_id a) || bool_decide (rq_product_id q ≠ au_product_id a))
    "run_product_scope";
  do? run_refuse_if (negb (is_zero (rq_cost q))) "zero_spend_required";
  do? run_refuse_if (match rq_price q with Some p => negb (is_positive p) | None => false end)
    "positive_listing_price_required";
  do? run_refuse_if (match rq_shop_name q with Some n => bool_decide (n ≠ au_shop_name a) | None => false end)
    "shop_scope";
  do? run_refuse_if
    (match rq_shop_id q with Some i => bool_decide (Some i ≠ Int <$> au_verified_shop_id a) | None => false end)
    "shop_scope";
  do? run_refuse_if (bool_decide (rq_listing_state q ≠ "draft")) "draft_state_required";
  do? run_refuse_if (String.prefix "notion." operation &&
      (bool_decide (au_verified_notion_parent_id a = None) ||
       bool_decide (rq_notion_parent_id q ≠ au_verified_notion_parent_id a)))
    "verified_notion_parent_required";
  run_refuse_if (String.prefix "etsy." operation &&
      (bool_decide (au_verified_shop_id a = None) || bool_decide (rq_shop_id q ≠ Int <$> au_verified_shop_id a) ||
       bool_decide (rq_shop_name q ≠ Some (au_shop_name a))))
    "verified_shop_required".

(** [type(expected) is not int or expected < 1 or actual != expected] *)
Definition count_differs (actual : nat) (expected : id_value) : bool :=
  match expected with
  | Int n => (n <? 1) || negb (Z.of_nat actual =? n)
  | NotInt => true
  end.

(** What the readback asks for: the values the proof carries. *)
Definition readback_request (p : DraftReadbackProof) : Request :=
  {| rq_run_id := rb_run_id p; rq_product_id := rb_product_id p; rq_shop_name := Some (rb_shop_name p);
     rq_shop_id := Some (Int (rb_shop_id p)); rq_notion_parent_id := None; rq_listing_state := rb_state p;
     rq_cost := no_cost; rq_price := None |}.

Definition check_counts (counts : list (nat * id_value)) : result exn unit :=
  do? traverse (λ c, run_refuse_if (count_differs c.1 c.2) "attachment_count_mismatch") counts;
  Ok tt.

Definition verify_readback (a : DraftRunAuthority) (p : DraftReadbackProof) (expected_listing_id : id_value)
    (expected_copy_sha256 : string) (now : moment)
    (expected_image_count expected_video_count expected_file_count : id_value) : result exn unit :=
  do? authorize a "etsy.read_draft" (readback_request p);
  do? run_refuse_if (bool_decide (rb_source p = fixture) || negb (rb_verified p)) "real_verified_readback_required";
  do? run_refuse_if
    (match expected_listing_id with
     | Int n => (n <=? 0) || negb (rb_listing_id p =? n)
     | NotInt => true
     end || bool_decide (rb_copy_sha256 p ≠ expected_copy_sha256))
    "listing_copy_mismatch";
  match now with
  | Naive _ => run_refused "trusted_clock_required"
  | Aware now =>
      let age := now - rb_observed_at p in
      do? run_refuse_if ((age <? 0) || (_MAX_READBACK_AGE <? age)) "fresh_readback_required";
      check_counts
        [(length (rb_image_ids p), expected_image_count); (length (rb_video_ids p), expected_video_count);
         (length (rb_file_ids p), expected_file_count)]
  end.

(** ** What is authorised *)

Example run_ids : run_id_text <$> ["run-1"; "a"; ""; "-a"; "a b"] = [true; true; false; false; false].
Proof. reflexivity. Qed.

Lemma run_refuse_if_ok c code : run_refuse_if c code = Ok tt ↔ c = false.
Proof. destruct c; simpl; naive_solver. Qed.

Lemma do_ok {A} (r : result exn unit) (k : result exn A) a : rbind r (λ _, k) = Ok a ↔ r = Ok tt ∧ k = Ok a.
Proof. destruct r as [[]|]; simpl; naive_solver. Qed.

Lemma is_zero_iff a : is_zero a = true ↔ ∃ q, a = Finite q ∧ (q == 0)%Q.
Proof. destruct a; simpl; rewrite ?Qeq_bool_iff; naive_solver. Qed.

Lemma bool_decide_not_false P `{!Decision P} : bool_decide (¬ P) = false ↔ P.
Proof. rewrite bool_decide_eq_false. split; [apply dec_stable|naive_solver]. Qed.

(** [authorize] accepts exactly the listed operations on the run's product, at no cost, on a
    draft; Notion operations under the verified parent, Etsy operations in the verified shop. *)
Lemma authorize_iff a op q :
  authorize a op q = Ok tt ↔
  op ∈ _ALLOWED_OPERATIONS ∧ rq_run_id q = au_run_id a ∧ rq_product_id q = au_product_id a ∧
  is_zero (rq_cost q) = true ∧ (∀ p, rq_price q = Some p → is_positive p = true) ∧
  (∀ n, rq_shop_name q = Some n → n = SHOP_NAME) ∧
  (∀ i, rq_shop_id q = Some i → ∃ s, i = Int s ∧ au_verified_shop_id a = Some s) ∧
  rq_listing_state q = "draft" ∧
  (String.prefix "notion." op = true →
     ∃ p, au_verified_notion_parent_id a = Some p ∧ rq_notion_parent_id q = Some p) ∧
  (String.prefix "etsy." op = true →
     ∃ s, au_verified_shop_id a = Some s ∧ rq_shop_id q = Some (Int s) ∧ rq_shop_name q = Some SHOP_NAME).
Proof.
  unfold authorize. rewrite !do_ok, !run_refuse_if_ok, bool_decide_not_false, orb_false_iff, !negb_false_iff.
  rewrite !bool_decide_not_false.
  assert (Hprice : (match rq_price q with Some p => negb (is_positive p) | None => false end) = false ↔
    ∀ p, rq_price q = Some p → is_positive p = true).
  { destruct (rq_price q); [rewrite negb_false_iff|]; naive_solver. }
  assert (Hname : (match rq_shop_name q with Some n => bool_decide (n ≠ au_shop_name a) | None => false end) = false ↔
    ∀ n, rq_shop_name q = Some n → n = SHOP_NAME).
  { destruct (rq_shop_name q); [rewrite bool_decide_not_false|]; naive_solver. }
  assert (Hshop : (match rq_shop_id q with Some i => bool_decide (Some i ≠ Int <$> au_verified_shop_id a) | None => false end)
    = false ↔ ∀ i, rq_shop_id q = Some i → ∃ s, i = Int s ∧ au_verified_shop_id a = Some s).
  { destruct (rq_shop_id q) as [i|]; [rewrite bool_decide_not_false|naive_solver].
    destruct (au_verified_shop_id a); naive_solver. }
  assert (Hnotion : String.prefix "notion." op &&
      (bool_decide (au_verified_notion_parent_id a = None) ||
       bool_decide (rq_notion_parent_id q ≠ au_verified_notion_parent_id a)) = false ↔
    (String.prefix "notion." op = true →
     ∃ p, au_verified_notion_parent_id a = Some p ∧ rq_notion_parent_id q = Some p)).
  { destruct (String.prefix "notion." op); [|naive_solver]. simpl.
    rewrite orb_false_iff, bool_decide_not_false, bool_decide_eq_false.
    destruct (au_verified_notion_parent_id a); naive_solver. }
  assert (Hetsy : String.prefix "etsy." op &&
      (bool_decide (au_verified_shop_id a = None) || bool_decide (rq_shop_id q ≠ Int <$> au_verified_shop_id a) ||
       bool_decide (rq_shop_name q ≠ Some (au_shop_name a))) = false ↔
    (String.prefix "etsy." op = true →
     ∃ s, au_verified_shop_id a = Some s ∧ rq_shop_id q = Some (Int s) ∧ rq_shop_name q = Some SHOP_NAME)).
  { destruct (String.prefix "etsy." op); [|naive_solver]. simpl.
    rewrite !orb_false_iff, !bool_decide_not_false, bool_decide_eq_false.
    destruct (au_verified_shop_id a); naive_solver. }
  rewrite Hprice, Hname, Hshop, Hnotion, Hetsy. tauto.
Qed.

Lemma run_refuse_if_raises c code e : run_refuse_if c code = Raise e → exn_type e = DraftRunRefused.
Proof. destruct c; simpl; [by intros [= <-]|done]. Qed.

Lemma do_raises {A} (r : result exn unit) (k : result exn A) (P : exn → Prop) :
  (∀ e, r = Raise e → P e) → (∀ e, k = Raise e → P e) → ∀ e, rbind r (λ _, k) = Raise e → P e.
Proof. intros Hr Hk e. destruct r; simpl; [apply Hk|intros [= <-]; by apply Hr]. Qed.

(** A refusal of the authority is a [DraftRunRefused]. *)
Lemma authorize_raises a op q e : authorize a op q = Raise e → exn_type e = DraftRunRefused.
Proof.
  revert e. unfold authorize.
  repeat (apply do_raises; [intros e; apply run_refuse_if_raises|]). intros e. apply run_refuse_if_raises.
Qed.

Lemma count_differs_false n c : count_differs n c = false ↔ c = Int (Z.of_nat n) ∧ (0 < n)%nat.
Proof.
  destruct c as [z|]; simpl; [|naive_solver].
  rewrite orb_false_iff, negb_false_iff, Z.ltb_ge, Z.eqb_eq. split; [intros []|intros [[= ->] ?]]; [split; [f_equal|]|]; lia.
Qed.

Lemma check_counts_ok counts : check_counts counts = Ok tt ↔ Forall (λ c, count_differs c.1 c.2 = false) counts.
Proof.
  unfold check_counts. rewrite rbind_ok. split.
  - intros (l & Hl & _). apply traverse_Forall2 in Hl. induction Hl as [|c [] counts l Hc _ IH]; constructor; [|done].
    by apply run_refuse_if_ok in Hc.
  - intros Hall. exists (replicate (length counts) tt). split; [|done]. apply traverse_Forall2.
    induction Hall as [|c counts Hc _ IH]; constructor; [by apply run_refuse_if_ok|done].
Qed.

Lemma check_counts_raises counts e : check_counts counts = Raise e → exn_type e = DraftRunRefused.
Proof.
  unfold check_counts. induction counts as [|c counts IH]; [done|]. simpl. unfold run_refuse_if, run_refused.
  destruct (count_differs _ _); simpl; [by intros [= <-]|]. destruct (traverse _ counts); simpl in *; [done|].
  intros [= <-]. by apply IH.
Qed.

Lemma readback_authorized a p :
  authorize a "etsy.read_draft" (readback_request p) = Ok tt ↔
  rb_run_id p = au_run_id a ∧ rb_product_id p = au_product_id a ∧ rb_shop_name p = SHOP_NAME ∧
  au_verified_shop_id a = Some (rb_shop_id p) ∧ rb_state p = "draft".
Proof.
  rewrite authorize_iff. unfold readback_request. cbn -[elem_of]. split.
  - intros (_ & ? & ? & _ & _ & Hn & Hs & ? & _ & _). destruct (Hs _ eq_refl) as (s & [= <-] & ?). split_and!; auto.
  - intros (? & ? & Hn & Hs & ?). split_and!; try done; [by_decide|by intros n [= <-]| |].
    + intros i [= <-]. eauto.
    + intros _. exists (rb_shop_id p). by rewrite Hn.
Qed.

(** C10: A draft counts as read back exactly when the observation is of this run's product in its
    verified shop, verified, from a real provider and not a fixture, of the expected listing
    with the expected copy, at most five minutes old and not in the future on an aware clock,
    with the expected positive numbers of images, videos and files; anything else is refused
    with [DraftRunRefused]. *)
Theorem readback_admits_exactly a p listing sha now images videos files :
  match verify_readback a p listing sha now images videos files with
  | Raise e => exn_type e = DraftRunRefused
  | Ok _ => True
  end ∧
  (verify_readback a p listing sha now images videos files = Ok tt ↔
   rb_run_id p = au_run_id a ∧ rb_product_id p = au_product_id a ∧ rb_shop_name p = SHOP_NAME ∧
   au_verified_shop_id a = Some (rb_shop_id p) ∧ rb_state p = "draft" ∧
   rb_source p ≠ fixture ∧ rb_verified p = true ∧
   listing = Int (rb_listing_id p) ∧ 0 < rb_listing_id p ∧ rb_copy_sha256 p = sha ∧
   (∃ t, now = Aware t ∧ 0 <= t - rb_observed_at p <= 5 * 60 * 1000000) ∧
   Forall2 (λ (ids : list Z) c, c = Int (Z.of_nat (length ids)) ∧ ids ≠ [])
     [rb_image_ids p; rb_video_ids p; rb_file_ids p] [images; videos; files]).
Proof.
  split.
  { destruct (verify_readback _ _ _ _ _ _ _ _) as [|e] eqn:H; [done|]. revert e H. unfold verify_readback.
    apply do_raises; [apply authorize_raises|]. do 2 (apply do_raises; [intros e; apply run_refuse_if_raises|]).
    destruct now as [now|]; [|by intros e [= <-]]. apply do_raises; [intros e; apply run_refuse_if_raises|].
    intros e. apply check_counts_raises. }
  unfold verify_readback. rewrite do_ok, readback_authorized.
  rewrite !do_ok, !run_refuse_if_ok, !orb_false_iff, bool_decide_not_false, bool_decide_eq_false, negb_false_iff.
  assert (Hlisting : match listing with Int n => (n <=? 0) || negb (rb_listing_id p =? n) | NotInt => true end = false ↔
    listing = Int (rb_listing_id p) ∧ 0 < rb_listing_id p).
  { destruct listing as [n|]; [|naive_solver]. rewrite orb_false_iff, negb_false_iff, Z.leb_gt, Z.eqb_eq.
    split; [intros [? <-]|intros [[= ->] ?]]; by split. }
  rewrite Hlisting.
  assert (Hclock : (match now with
      | Aware now => let age := now - rb_observed_at p in
          do? run_refuse_if ((age <? 0) || (_MAX_READBACK_AGE <? age)) "fresh_readback_required";
          check_counts [(length (rb_image_ids p), images); (length (rb_video_ids p), videos); (length (rb_file_ids p), files)]
      | Naive _ => run_refused "trusted_clock_required"
      end = Ok tt) ↔
    (∃ t, now = Aware t ∧ 0 <= t - rb_observed_at p <= 5 * 60 * 1000000) ∧
    Forall2 (λ (ids : list Z) c, c = Int (Z.of_nat (length ids)) ∧ ids ≠ [])
     [rb_image_ids p; rb_video_ids p; rb_file_ids p] [images; videos; files]).
  { destruct now as [now|]; [|naive_solver]. cbv zeta.
    rewrite do_ok, run_refuse_if_ok, orb_false_iff, !Z.ltb_ge, check_counts_ok, !Forall_cons, !Forall2_cons, Forall_nil, Forall2_nil.
    simpl. rewrite !count_differs_false. unfold _MAX_READBACK_AGE.
    assert (Hlen : ∀ l : list Z, (0 < length l)%nat ↔ l ≠ []) by (intros [|]; simpl; split; (done || lia)).
    rewrite !Hlen. split; [intros [? ?]; split; [by exists now|tauto]|intros [(t & [= <-] & ?) ?]; split; [lia|tauto]]. }
  rewrite Hclock. tauto.
Qed.
