(* ===== verification/DraftEffects.v ===== *)
(** * Effects of the one-product draft run

    [application/real_draft_effects.py]: an external write runs under a durable reservation.
    One transaction reserves the key and decides whether this execution may create; the
    provider is then called outside any transaction, and what it said is recorded in further
    ones.

    Between its transactions and provider calls an execution can be overtaken by others, so a
    body is a program ([Prog]) whose transactions and calls are steps; [exec_step] runs any
    number of them interleaved on one database. *)

From S2P Require Import Prelude PyText Enums Errors Tables Contracts Samples Tracking Repositories Idempotency.
From S2P Require Import RealDraft.
Open Scope string_scope.
Open Scope Z_scope.

(** ** Programs with suspension points *)

(** [Mapping[str, object]] *)
Definition ProviderObject : Type := list (string * json).

(** A coroutine: it commits a transaction, calls [create] under an active key, or calls
    [reconcile], and goes on with the result; then it ends. *)
Inductive Prog (E A : Type) : Type :=
  | Done (r : result E A)
  | Transact {B : Type} (m : Session B) (k : result exn B → Prog E A)
  | Create (active_key : string) (k : result exn ProviderObject → Prog E A)
  | Reconcile (known_id : option string) (k : result exn (option ProviderObject) → Prog E A).
Arguments Done {E A} r.
Arguments Transact {E A B} m k.
Arguments Create {E A} active_key k.
Arguments Reconcile {E A} known_id k.

(** What follows a program, given its outcome. *)
Fixpoint and_then {E F A B} (p : Prog E A) (f : result E A → Prog F B) : Prog F B :=
  match p with
  | Done r => f r
  | Transact m k => Transact m (λ r, and_then (k r) f)
  | Create key k => Create key (λ r, and_then (k r) f)
  | Reconcile known k => Reconcile known (λ r, and_then (k r) f)
  end.

Definition prog_bind {E A B} (p : Prog E A) (f : A → Prog E B) : Prog E B :=
  and_then p (λ r, match r with Ok a => f a | Raise e => Done (Raise e) end).

Notation "'let!' x := p 'in' f" := (prog_bind p (λ x, f))
  (at level 10, x name, p at level 100, f at level 200) : py_scope.
Notation "'do!' p ; f" := (prog_bind p (λ _, f))
  (at level 10, p at level 100, f at level 200) : py_scope.

(** [async with self.factory() as session, session.begin(): m] *)
Definition transact {B} (m : Session B) : Prog exn B := Transact m Done.

(** ** The text of a provider's identifier *)

(** [repr(v)] and [str(v)] of a decoded value *)
Fixpoint py_repr (v : json) : string :=
  match v with
  | JNull => "None"
  | JBool true => "True"
  | JBool false => "False"
  | JInt z => pretty z
  | JStr s => str_repr s
  | JList l => "[" ++ String.concat ", " (py_repr <$> l) ++ "]"
  | JDict d => "{" ++ String.concat ", " ((λ kv, str_repr kv.1 ++ ": " ++ py_repr kv.2) <$> d) ++ "}"
  end.

Definition py_str (v : json) : string := match v with JStr s => s | v => py_repr v end.

(** [str(observed.get("id", ""))] *)
Definition object_id (o : ProviderObject) : string := from_option py_str "" (json_get "id" o).

(** ** [SqlDraftEffects] *)

Record SqlDraftEffects := {
  se_authority : DraftRunAuthority;
  se_job_id : uuid;
  se_lease_owner : string;
}.

Definition uncertain (code : string) : exn := Exn DraftEffectUncertain code.

Definition refuse_when (c : bool) (code : string) : Session unit := lift_result (run_refuse_if c code).

Section effects.
Context `{Backend} (shop_name : uuid → string).

(** The name of the shop of a workflow; [shop_name] is the column [shops.name]. *)
Definition workflow_shop_name (workflow_id : uuid) (db : DB) : option string :=
  match workflow_runs db !! workflow_id with
  | Some w => if decide (wf_shop_id w ∈ shops db) then Some (shop_name (wf_shop_id w)) else None
  | None => None
  end.

(** [job.input.get("run_id")] *)
Definition job_run_id (j : Job) : result exn (option json) :=
  match j_input j with
  | JDict d => Ok (json_get "run_id" d)
  | _ => Raise (Exn AttributeError "get")
  end.

Definition _scoped_job (self : SqlDraftEffects) : Session Job :=
  let authority := se_authority self in
  let* job := get_job (se_job_id self) in
  match job with
  | None => lift_result (run_refused "durable_job_scope_or_lease")
  | Some job =>
      do* refuse_when (bool_decide (j_object_id job ≠ au_product_id authority)) "durable_job_scope_or_lease";
      let* run_id := lift_result (job_run_id job) in
      do* refuse_when
        (negb (match run_id with Some (JStr s) => String.eqb s (au_run_id authority) | _ => false end) ||
         bool_decide (j_allowed_mode job ≠ AutonomyMode.DRAFT) ||
         bool_decide (j_side_effect_class job ≠ SideEffectClass.EXTERNAL_WRITE))
        "durable_job_scope_or_lease";
      let* name := gets (workflow_shop_name (j_workflow_id job)) in
      do* refuse_when (bool_decide (name ≠ Some (au_shop_name authority))) "durable_workflow_shop_scope";
      pyret job
  end.

Definition _job (self : SqlDraftEffects) : Session Job :=
  let* job := _scoped_job self in
  let* now := clock_now in
  do* refuse_when
    (bool_decide (j_status job ≠ JobStatus.RUNNING) ||
     bool_decide (j_lease_owner job ≠ Some (se_lease_owner self)) ||
     match j_lease_expires_at job with Some t => t <=? now | None => true end)
    "durable_job_scope_or_lease";
  pyret job.

(** Called by an adapter right before it writes, with the key of the active effect. *)
Definition assert_lease (self : SqlDraftEffects) (active_key : option string) : Prog exn unit :=
  match active_key with
  | None => Done (run_refused "active_effect_reservation_required")
  | Some key => transact
      (do* _job self;
       let* reservation := get_idempotency_record key in
       refuse_when
         (match reservation with
          | None => true
          | Some (_, r) => bool_decide (idem_job_id r ≠ se_job_id self) || given (idem_completed_at r)
          end) "active_effect_reservation_required")
  end.

(** The arguments of [execute] besides the provider's two calls. *)
Record Effect := {
  ef_operation_key : string;
  ef_provider : string;
  ef_operation : string;
  ef_notion_parent_id : option uuid;
  ef_shop_id : option id_value;
}.

(** [record_effect_attempt] with the number after the [prior] attempt. *)
Definition record_next (self : SqlDraftEffects) (e : Effect) (key : string) (prior : option (uuid * EffectAttempt))
    (state : EffectState) (provider_object_id : option string) : Session unit :=
  do* record_effect_attempt key (se_job_id self) None (ef_provider e) (ef_operation e) state provider_object_id
    (match prior with Some (_, a) => eff_reconciliation_attempt a + 1 | None => 0 end) None;
  pyret tt.

(** The first transaction: the key, the provider's identifier so far, and whether this
    execution may create. *)
Definition reserve_effect (self : SqlDraftEffects) (e : Effect) : Session (string * option string * bool) :=
  let* job := _job self in
  let key := derive_idempotency_key (j_type job) (j_workflow_id job) (j_object_id job) (ef_operation_key e) in
  do* refuse_when (200 <? String.length key)%nat "effect_key_too_long";
  let* existing := get_idempotency_record key in
  do* refuse_when
    (match existing with
     | Some (_, r) => bool_decide (idem_job_id r ≠ se_job_id self) || bool_decide (idem_operation r ≠ ef_operation e)
     | None => false
     end) "reservation_scope";
  do* match existing with
      | None => do* reserve_idempotency_key key (se_job_id self) (ef_operation e) SideEffectClass.EXTERNAL_WRITE None;
                pyret tt
      | Some _ => pyret tt
      end;
  let* latest := get_latest_effect_attempt key in
  let known_id := match latest with Some (_, a) => eff_provider_object_id a | None => None end in
  let may_create :=
    match existing with
    | None => true
    | Some (_, r) =>
        match latest with
        | Some (_, a) => bool_decide (eff_state a = EffectState.ABSENT) && negb (given (idem_completed_at r))
        | None => false
        end
    end in
  do* (if may_create then record_next self e key latest EffectState.UNKNOWN known_id else pyret tt);
  pyret (key, known_id, may_create).

(** The check right before the write. *)
Definition recheck_effect (self : SqlDraftEffects) (key : string) : Session unit :=
  do* _job self;
  let* reservation := get_idempotency_record key in
  if match reservation with None => true | Some (_, r) => given (idem_completed_at r) end
  then pyraise (uncertain "effect_already_reconciled_before_write") else pyret tt.

(** The accepted object's identity, recorded before anything else can fail. *)
Definition accept_effect (self : SqlDraftEffects) (e : Effect) (key created_id : string) : Session unit :=
  do* _scoped_job self;
  let* prior := get_latest_effect_attempt key in
  let* reservation := get_idempotency_record key in
  match reservation with
  | None => pyraise (uncertain "accepted_effect_reservation_missing")
  | Some (_, r) =>
      if bool_decide (idem_job_id r ≠ se_job_id self) || bool_decide (idem_operation r ≠ ef_operation e)
      then pyraise (uncertain "accepted_effect_reservation_missing")
      else if given (idem_completed_at r) then
        if match prior with
           | None => true
           | Some (_, a) => bool_decide (eff_state a ≠ EffectState.CONFIRMED) ||
                            bool_decide (eff_provider_object_id a ≠ Some created_id)
           end
        then pyraise (uncertain "concurrent_confirmation_identity_mismatch") else pyret tt
      else record_next self e key prior EffectState.UNKNOWN (Some created_id)
  end.

(** The handler's transaction: what is known after an exception. *)
Definition settle_failure (self : SqlDraftEffects) (e : Effect) (key : string) (definite_absence : bool)
    (known_id : option string) : Session unit :=
  do* _job self;
  let* prior := get_latest_effect_attempt key in
  let* record := get_idempotency_record key in
  match record with
  | Some (_, r) =>
      if given (idem_completed_at r) then pyret tt
      else record_next self e key prior
             (if definite_absence then EffectState.ABSENT else EffectState.UNKNOWN)
             (if definite_absence then None else known_id)
  | None => pyret tt
  end.

(** The last transaction: the confirmed attempt, its receipt, and the completed reservation. *)
Definition confirm_effect (self : SqlDraftEffects) (e : Effect) (key object_id : string) : Session unit :=
  do* _job self;
  let* reservation := get_idempotency_record key in
  match reservation with
  | None => lift_result (run_refused "reservation_missing")
  | Some (_, r) =>
      if given (idem_completed_at r) then pyret tt
      else
        let* prior := get_latest_effect_attempt key in
        do* record_next self e key prior EffectState.CONFIRMED (Some object_id);
        do* record_receipt (se_job_id self) key (ef_provider e) (ef_operation e) SideEffectClass.EXTERNAL_WRITE
          AutonomyMode.DRAFT EffectState.CONFIRMED (Some object_id) None None
          (Some (JDict [("run_id", JStr (au_run_id (se_authority self)));
                        ("product_id", JStr (uuid_str (au_product_id (se_authority self))));
                        ("provenance", JStr "real_provider_readback");
                        ("scope", JStr "one_private_product_etsy_draft")])) None;
        mark_idempotency_completed key None
  end.

(** ** [execute] *)

(** The variables of the [try] block that its handler reads. *)
Record Locals := {
  lo_mutation_started : bool;
  lo_create_returned : bool;
  lo_known_id : option string;
}.

(** An exception leaves the block with the variables as they are. *)
Definition at_ {A} (l : Locals) (p : Prog exn A) : Prog (exn * Locals) A :=
  and_then p (λ r, Done (match r with Ok a => Ok a | Raise e => Raise (e, l) end)).

Definition throw {A} (l : Locals) (e : exn) : Prog (exn * Locals) A := Done (Raise (e, l)).

(** The write: [create] under the active key, then what it made is recorded and read back. *)
Definition create_and_read (self : SqlDraftEffects) (e : Effect) (key : string) (l : Locals)
    : Prog (exn * Locals) (ProviderObject * Locals) :=
  do! at_ l (transact (recheck_effect self key));
  let l := {| lo_mutation_started := true; lo_create_returned := false; lo_known_id := lo_known_id l |} in
  let! created := at_ l (Create key Done) in
  let l := {| lo_mutation_started := true; lo_create_returned := true; lo_known_id := lo_known_id l |} in
  let created_id := object_id created in
  if negb (str_truth created_id) then throw l (uncertain "provider_object_id_missing")
  else
    let l := {| lo_mutation_started := true; lo_create_returned := true; lo_known_id := Some created_id |} in
    do! at_ l (transact (accept_effect self e key created_id));
    do! at_ l (transact (_job self));
    let! observed := at_ l (Reconcile (Some created_id) Done) in
    match observed with
    | Some o => if decide (object_id o = created_id) then Done (Ok (o, l))
                else throw l (uncertain "fresh_provider_readback_missing")
    | None => throw l (uncertain "fresh_provider_readback_missing")
    end.

(** The [try] block: the observed object and its identifier. *)
Definition attempt_effect (self : SqlDraftEffects) (e : Effect) (key : string) (known_id : option string)
    (may_create : bool) : Prog (exn * Locals) (ProviderObject * string) :=
  let l := {| lo_mutation_started := false; lo_create_returned := false; lo_known_id := known_id |} in
  let! found := at_ l (Reconcile known_id Done) in
  let! seen :=
    match found with
    | Some o => Done (Ok (o, l))
    | None => if negb may_create then throw l (uncertain "pending_effect_not_yet_reconciled")
              else create_and_read self e key l
    end in
  let l := seen.2 in
  let id := object_id seen.1 in
  if negb (str_truth id) || match lo_known_id l with Some k => bool_decide (id ≠ k) | None => false end
  then throw l (uncertain "provider_object_identity_mismatch")
  else Done (Ok (seen.1, id)).

Definition provider_scope (e : Effect) : result exn unit :=
  run_refuse_if (bool_decide (ef_provider e ∉ ["notion"; "etsy"]) ||
                 negb (String.prefix (ef_provider e ++ ".") (ef_operation e))) "provider_scope".

Definition effect_request (self : SqlDraftEffects) (e : Effect) : Request :=
  let authority := se_authority self in
  {| rq_run_id := au_run_id authority; rq_product_id := au_product_id authority;
     rq_shop_name := if decide (ef_provider e = "etsy") then Some (au_shop_name authority) else None;
     rq_shop_id := ef_shop_id e; rq_notion_parent_id := ef_notion_parent_id e; rq_listing_state := "draft";
     rq_cost := no_cost; rq_price := None |}.

(** Only a trusted adapter's own refusal is definite once the write has started. *)
Definition definite_absence (may_create : bool) (exc : exn) (l : Locals) : bool :=
  may_create && (negb (lo_mutation_started l) || (isa (exn_type exc) DraftRunRefused && negb (lo_create_returned l))).

Definition execute (self : SqlDraftEffects) (e : Effect) : Prog exn ProviderObject :=
  do! Done (provider_scope e);
  do! Done (authorize (se_authority self) (ef_operation e) (effect_request self e));
  let! reserved := transact (reserve_effect self e) in
  let '(key, known_id, may_create) := reserved in
  and_then (attempt_effect self e key known_id may_create) (λ outcome,
    match outcome with
    | Ok (observed, id) =>
        do! transact (confirm_effect self e key id);
        Done (Ok observed)
    | Raise (exc, l) =>
        do! transact (settle_failure self e key (definite_absence may_create exc l) (lo_known_id l));
        if isa (exn_type exc) DraftEffectUncertain || isa (exn_type exc) DraftRunRefused
        then Done (Raise exc)
        else Done (Raise (uncertain "provider_effect_requires_read_reconciliation"))
    end).
End effects.

(** ** Executions side by side *)

(** The connection breaks: whether the transaction was committed stays open. *)
Definition connection_lost : exn := Exn OSError "connection lost".

Inductive prog_step {E A} : Prog E A → DB → Prog E A → DB → list (string * result exn ProviderObject) → Prop :=
  | step_commit B (m : Session B) k db a db' :
      m db = (Ok a, db') → prog_step (Transact m k) db (k (Ok a)) db' []
  | step_rollback B (m : Session B) k db e db' :
      m db = (Raise e, db') → prog_step (Transact m k) db (k (Raise e)) db []
  | step_lost B (m : Session B) k db :
      prog_step (Transact m k) db (k (Raise connection_lost)) db []
  | step_unanswered B (m : Session B) k db a db' :
      m db = (Ok a, db') → prog_step (Transact m k) db (k (Raise connection_lost)) db' []
  | step_create key k db r : prog_step (Create key k) db (k r) db [(key, r)]
  | step_reconcile known k db r : prog_step (Reconcile known k) db (k r) db [].

(** Executions of any effects, the database, the calls of [create] so far with their outcomes,
    and the keys under which the rest of the system may have recorded an absence. *)
Record World := {
  wd_running : list (Prog exn ProviderObject);
  wd_db : DB;
  wd_created : list (string * result exn ProviderObject);
  wd_absent : list string;
}.

Section worlds.
Context `{Backend} (shop_name : uuid → string).

(** An execution starts, one makes a step, or the rest of the system changes the database:
    reservations and attempts stay and grow, and it may record under the keys [absent] that
    nothing was found. *)
Inductive exec_step (w : World) : World → Prop :=
  | exec_start self e :
      exec_step w {| wd_running := wd_running w ++ [execute shop_name self e]; wd_db := wd_db w;
                     wd_created := wd_created w; wd_absent := wd_absent w |}
  | exec_run i p p' db' created :
      wd_running w !! i = Some p → prog_step p (wd_db w) p' db' created →
      exec_step w {| wd_running := <[i := p']> (wd_running w); wd_db := db';
                     wd_created := wd_created w ++ created; wd_absent := wd_absent w |}
  | exec_other absent db' :
      spares absent (wd_db w) db' →
      exec_step w {| wd_running := wd_running w; wd_db := db'; wd_created := wd_created w;
                     wd_absent := absent ++ wd_absent w |}.

Definition started (db : DB) : World :=
  {| wd_running := []; wd_db := db; wd_created := []; wd_absent := [] |}.
End worlds.

(** ** Closed effects *)

(** The attempts with the highest number for [key] include one that found nothing. *)
Definition absent_latest (key : string) (db : DB) : Prop :=
  ∃ i a, effect_attempts db !! i = Some a ∧ eff_key a = key ∧ eff_state a = EffectState.ABSENT ∧
    ∀ i' a', effect_attempts db !! i' = Some a' → eff_key a' = key →
      eff_reconciliation_attempt a' <= eff_reconciliation_attempt a.

(** The key is reserved and no execution may create under it. *)
Definition closed (key : string) (db : DB) : Prop :=
  ∃ i r, idempotency_records db !! i = Some r ∧ idem_key r = key ∧
    (is_Some (idem_completed_at r) ∨ ¬ absent_latest key db).

Definition keeps_closed (key : string) (db db' : DB) : Prop := closed key db → closed key db'.

#[export] Instance keeps_closed_preorder key : PreOrder (keeps_closed key).
Proof. split; [by intros ??|]. intros a b c H1 H2 Ha. auto. Qed.

Section closed.
Context `{Backend} (shop_name : uuid → string) (κ : string).

(** Reservations only appear or become completed, attempts only appear. *)
Lemma closed_transfer db db' :
  (∀ i r, idempotency_records db !! i = Some r → idem_key r = κ →
     ∃ r', idempotency_records db' !! i = Some r' ∧ idem_key r' = κ ∧
       (is_Some (idem_completed_at r) → is_Some (idem_completed_at r'))) →
  (absent_latest κ db' → absent_latest κ db) →
  keeps_closed κ db db'.
Proof.
  intros Hi Ha (i & r & Hr & Hk & Hc). destruct (Hi i r Hr Hk) as (r' & Hr' & Hk' & Hc').
  exists i, r'. split_and!; [done..|]. destruct Hc; [left|right]; naive_solver.
Qed.

(** Steps of the rest of the system under other keys. *)
Lemma spares_closed K db db' : spares K db db' → κ ∉ K → keeps_closed κ db db'.
Proof.
  intros [Hres Hatt Habs] HK. apply closed_transfer.
  - intros i r Hr Hk. destruct (Hres i r Hr) as (r' & ? & ? & ?). exists r'. split_and!; [done|congruence|done].
  - intros (i & a & Ha & Hk & Hs & Hmax). exists i, a.
    destruct (Habs i a Ha Hs) as [Hin|Ha0]; [by rewrite Hk in Hin|]. split_and!; [done..|].
    intros i' a' Ha' Hk'. destruct (Hatt i' a' Ha') as (a2 & Ha2 & Hk2 & Hle).
    etrans; [exact Hle|]. apply (Hmax i'); [done|congruence].
Qed.

Lemma read_closed {A} (f : DB → A) : within (keeps_closed κ) (gets (E := exn) f).
Proof. apply within_gets, _. Qed.

Lemma reserve_closed k j o c now : within (keeps_closed κ) (reserve_idempotency_key k j o c now).
Proof.
  intros db. unfold reserve_idempotency_key, now_or, gets, pybind, try_except, insert_idempotency. simpl.
  destruct (negb _ && _) eqn:Hins; simpl; [|reflexivity].
  apply closed_transfer; [|done]. intros i r Hr Hk. exists r. simpl.
  rewrite lookup_insert_ne; [done|]. intros <-. apply (uuid4_fresh (dom (idempotency_records db))).
  by eapply elem_of_dom_2.
Qed.

Lemma record_closed k j r p o s i n now :
  k ≠ κ ∨ s ≠ EffectState.ABSENT → within (keeps_closed κ) (record_effect_attempt k j r p o s i n now).
Proof.
  intros Hks db. unfold record_effect_attempt, now_or, gets, pybind, insert_effect_attempt. simpl.
  destruct (negb _ && _ && _) eqn:Hins; simpl; [|reflexivity].
  apply closed_transfer; [naive_solver|]. intros (i0 & a & Ha & Hk & Hs & Hmax). simpl in *.
  apply lookup_insert_Some in Ha as [[<- <-]|[Hne Ha]]; [simpl in *; destruct Hks; congruence|].
  exists i0, a. split_and!; [done..|]. intros i' a' Ha' Hk'. apply (Hmax i'); [|done].
  rewrite lookup_insert_ne; [done|]. intros <-.
  apply (uuid4_fresh (dom (effect_attempts db))). by eapply elem_of_dom_2.
Qed.

Lemma receipt_closed j k p o c m s i a u d now : within (keeps_closed κ) (record_receipt j k p o c m s i a u d now).
Proof.
  intros db. unfold record_receipt, now_or, gets, pybind, insert_receipt. simpl.
  destruct (negb _ && _ && _) eqn:Hins; simpl; [|reflexivity]. apply closed_transfer; naive_solver.
Qed.

Lemma completed_closed k now : within (keeps_closed κ) (mark_idempotency_completed k now).
Proof.
  intros db. unfold mark_idempotency_completed, now_or, gets, lift_result, pybind.
  destruct (one_or_none _) as [[[rid r]|]|e] eqn:Ho; simpl; try reflexivity.
  assert (Hr : idempotency_records db !! rid = Some r ∧ idem_key r = k).
  { destruct (select _ _ _ db) as [|x [|]] eqn:Hs; simplify_eq/=.
    assert (Hin : (rid, r) ∈ [(rid, r)]) by left. rewrite <- Hs in Hin.
    apply elem_of_select in Hin as [Hin Hk]. by apply bool_decide_eq_true in Hk. }
  apply closed_transfer; [|done]. intros i r' Hr' Hk. simpl.
  destruct (decide (rid = i)) as [<-|Hne]; [|rewrite lookup_insert_ne by done; eauto].
  rewrite lookup_insert_eq. destruct Hr as [Hr _]. rewrite Hr in Hr'. simplify_eq. eexists. split_and!; [done..|eauto].
Qed.

#[local] Hint Resolve read_closed reserve_closed record_closed receipt_closed completed_closed : orch.

Lemma refuse_closed c code : within (keeps_closed κ) (refuse_when c code).
Proof. apply within_lift, _. Qed.

Lemma job_closed self : within (keeps_closed κ) (_job shop_name self).
Proof. unfold _job, _scoped_job, get_job, clock_now, refuse_when. solve_within. Qed.

Lemma scoped_job_closed self : within (keeps_closed κ) (_scoped_job shop_name self).
Proof. unfold _scoped_job, get_job, refuse_when. solve_within. Qed.

Lemma reservation_closed key : within (keeps_closed κ) (get_idempotency_record key).
Proof. unfold get_idempotency_record. solve_within. Qed.

Lemma latest_closed key : within (keeps_closed κ) (get_latest_effect_attempt key).
Proof. apply within_gets, _. Qed.

Lemma next_closed self e key prior s i :
  key ≠ κ ∨ s ≠ EffectState.ABSENT → within (keeps_closed κ) (record_next self e key prior s i).
Proof. intros Hs. unfold record_next. pose proof (λ j r p o n now, record_closed key j r p o s i n now Hs). solve_within. Qed.
#[local] Hint Resolve refuse_closed job_closed scoped_job_closed reservation_closed latest_closed : orch.

Lemma recheck_closed self key : within (keeps_closed κ) (recheck_effect shop_name self key).
Proof. unfold recheck_effect. solve_within. Qed.

Lemma accept_closed self e key id : within (keeps_closed κ) (accept_effect shop_name self e key id).
Proof.
  unfold accept_effect. pose proof (λ prior i, next_closed self e key prior EffectState.UNKNOWN i ltac:(by right)). solve_within.
Qed.

Lemma confirm_closed self e key id : within (keeps_closed κ) (confirm_effect shop_name self e key id).
Proof.
  unfold confirm_effect. pose proof (λ prior i, next_closed self e key prior EffectState.CONFIRMED i ltac:(by right)). solve_within.
Qed.

Lemma settle_closed self e key absent known :
  key ≠ κ ∨ absent = false → within (keeps_closed κ) (settle_failure shop_name self e key absent known).
Proof.
  intros Ha. unfold settle_failure.
  assert (Hs : key ≠ κ ∨ (if absent then EffectState.ABSENT else EffectState.UNKNOWN) ≠ EffectState.ABSENT)
    by (destruct Ha as [Ha|Ha]; rewrite ?Ha; auto).
  pose proof (λ prior i, next_closed self e key prior _ i Hs). solve_within.
Qed.

(** ** The first transaction *)

Lemma latest_is_max key db :
  match get_latest_effect_attempt key db with
  | (Ok (Some (i, a)), db') => db' = db ∧ effect_attempts db !! i = Some a ∧ eff_key a = key ∧
      ∀ i' a', effect_attempts db !! i' = Some a' → eff_key a' = key →
        eff_reconciliation_attempt a' <= eff_reconciliation_attempt a
  | (Ok None, db') => db' = db ∧ ∀ i' a', effect_attempts db !! i' = Some a' → eff_key a' ≠ key
  | (Raise _, _) => False
  end.
Proof.
  unfold get_latest_effect_attempt, gets.
  pose proof (elem_of_select effect_attempts (λ _ a, bool_decide (eff_key a = key))
    (λ r, - eff_reconciliation_attempt r.2) db) as Hin.
  pose proof (select_sorted effect_attempts (λ _ a, bool_decide (eff_key a = key))
    (λ r, - eff_reconciliation_attempt r.2) db) as Hsort.
  fold (EffectAttemptRepository.newest_attempts (λ a, bool_decide (eff_key a = key)) db) in *.
  destruct (EffectAttemptRepository.newest_attempts _ db) as [|[i a] rows]; simpl.
  - split; [done|]. intros i a Hi Hk. apply (not_elem_of_nil (i, a)), Hin. by rewrite bool_decide_eq_true.
  - destruct (proj1 (Hin (i, a))) as [Ha Hk]; [left|]. apply bool_decide_eq_true in Hk. split_and!; [done..|].
    intros i' a' Ha' Hk'. assert (Hx : (i', a') ∈ (i, a) :: rows) by (apply Hin; by rewrite bool_decide_eq_true).
    apply elem_of_cons in Hx as [Hx|Hx]; [by simplify_eq|]. apply StronglySorted_inv in Hsort as [_ Hall].
    apply (proj1 (Forall_forall _ _) Hall) in Hx. simpl in Hx. lia.
Qed.

(** After an attempt numbered above all others, that is the latest. *)
Lemma next_not_absent self e key prior s i db u db' :
  s ≠ EffectState.ABSENT → get_latest_effect_attempt key db = (Ok prior, db) →
  record_next self e key prior s i db = (Ok u, db') → ¬ absent_latest key db'.
Proof.
  intros Hs Hprior Hrec. pose proof (latest_is_max key db) as Hmax. rewrite Hprior in Hmax.
  unfold record_next, record_effect_attempt, now_or, gets, pybind, insert_effect_attempt in Hrec. simpl in Hrec.
  set (n := match prior with Some (_, a) => eff_reconciliation_attempt a + 1 | None => 0 end) in *.
  destruct (negb _ && _ && _) eqn:Hins; simpl in Hrec; [|done]. injection Hrec as _ <-.
  set (eid := uuid4 _). intros (i0 & a & Ha & Hk & Hst & Hall). simpl in Ha, Hall.
  apply lookup_insert_Some in Ha as [[<- <-]|[Hne Ha]]; [done|].
  specialize (Hall eid _ (lookup_insert_eq _ _ _) eq_refl). simpl in Hall. unfold n in Hall.
  destruct prior as [[ip ap]|].
  - destruct Hmax as (_ & _ & _ & Hmax). specialize (Hmax i0 a Ha Hk). lia.
  - destruct Hmax as [_ Hnone]. by apply (Hnone i0 a).
Qed.

Lemma reserve_effect_closed self e : within (keeps_closed κ) (reserve_effect shop_name self e).
Proof.
  unfold reserve_effect. pose proof (λ key prior i, next_closed self e key prior EffectState.UNKNOWN i ltac:(by right)).
  solve_within.
Qed.

Lemma reservation_found key db :
  match get_idempotency_record key db with
  | (Ok (Some (i, r)), db') => db' = db ∧ idempotency_records db !! i = Some r ∧ idem_key r = key ∧
      ∀ i' r', idempotency_records db !! i' = Some r' → idem_key r' = key → r' = r
  | (Ok None, db') => db' = db ∧ ∀ i' r', idempotency_records db !! i' = Some r' → idem_key r' ≠ key
  | (Raise _, db') => db' = db
  end.
Proof.
  unfold get_idempotency_record, gets, pybind, lift_result.
  pose proof (λ x, elem_of_select idempotency_records (λ _ r, bool_decide (idem_key r = key)) unordered db x) as Hin.
  destruct (select _ _ _ db) as [|[i r] [|]]; simpl; [| |done].
  - split; [done|]. intros i r Hi Hk. apply (not_elem_of_nil (i, r)), Hin. by rewrite bool_decide_eq_true.
  - destruct (proj1 (Hin (i, r))) as [Hr Hk]; [left|]. apply bool_decide_eq_true in Hk. split_and!; [done..|].
    intros i' r' Hr' Hk'. assert (Hx : (i', r') ∈ [(i, r)]) by (apply Hin; by rewrite bool_decide_eq_true).
    apply list_elem_of_singleton in Hx. by simplify_eq.
Qed.

(** Reads of a transaction leave the database alone. *)
Lemma job_reads self : within eq (_job shop_name self).
Proof. unfold _job, _scoped_job, get_job, clock_now, refuse_when. solve_within. Qed.

Lemma bind_read {A B} (m : Session A) (k : A → Session B) db b db' :
  within eq m → pybind m k db = (Ok b, db') → ∃ a, m db = (Ok a, db) ∧ k a db = (Ok b, db').
Proof.
  intros Hm (a & s & Ha & Hk)%pybind_ok. specialize (Hm db). rewrite Ha in Hm. simpl in Hm. subst s. eauto.
Qed.

Lemma refuse_reads c code : within eq (refuse_when c code).
Proof. apply within_lift, _. Qed.

Lemma reservation_reads key : within eq (get_idempotency_record key).
Proof. unfold get_idempotency_record. solve_within. Qed.

Lemma latest_reads key : within eq (get_latest_effect_attempt key).
Proof. apply within_gets, _. Qed.

(** An execution that may create has found the effect open and has closed it. *)
Lemma reserve_takes self e key known db db' :
  reserve_effect shop_name self e db = (Ok (key, known, true), db') → ¬ closed key db ∧ closed key db'.
Proof.
  unfold reserve_effect. intros Hrun. apply bind_read in Hrun as (job & _ & Hrun); [|apply job_reads].
  set (k := derive_idempotency_key _ _ _ _) in Hrun.
  apply bind_read in Hrun as (_ & _ & Hrun); [|apply refuse_reads].
  apply bind_read in Hrun as (existing & Hex & Hrun); [|apply reservation_reads].
  apply bind_read in Hrun as (_ & _ & Hrun); [|apply refuse_reads].
  apply pybind_ok in Hrun as (u & db1 & Hres & Hrun).
  apply bind_read in Hrun as (latest & Hlat & Hrun); [|apply latest_reads].
  set (may := match existing with Some (_, r) => _ | None => true end) in Hrun.
  apply pybind_ok in Hrun as (u2 & db2 & Hnext & Hret). apply pyret_ok in Hret as [Heq ->].
  injection Heq as Hk _ Hmay. rewrite Hk in *. clear k Hk. rewrite Hmay in Hnext.
  pose proof (reservation_found key db) as Hfound. rewrite Hex in Hfound.
  pose proof (latest_is_max key db1) as Hmax. rewrite Hlat in Hmax.
  assert (Hab : ¬ absent_latest key db') by (eapply next_not_absent; [|exact Hlat|exact Hnext]; done).
  assert (Hidem : idempotency_records db' = idempotency_records db1).
  { clear -Hnext. unfold record_next, record_effect_attempt, now_or, gets, pybind, insert_effect_attempt in Hnext.
    simpl in Hnext. destruct (negb _ && _ && _); simpl in Hnext; [|done]. by injection Hnext as _ <-. }
  destruct existing as [[i r]|]; subst may.
  - apply pyret_ok in Hres as [_ <-]. destruct Hfound as (_ & Hr & Hrk & Honly).
    destruct latest as [[ia a]|]; [|done]. apply andb_true_iff in Hmay as [Hst%bool_decide_eq_true Hopen].
    destruct Hmax as (_ & Ha & Hak & Hmax). split.
    + intros (i' & r' & Hr' & Hk' & [Hc|Hn]).
      * rewrite (Honly _ _ Hr' Hk') in Hc. unfold given in Hopen. by rewrite bool_decide_true in Hopen.
      * apply Hn. by exists ia, a.
    + exists i, r. rewrite Hidem. split_and!; [done..|by right].
  - split.
    + destruct Hfound as [_ Hnone]. intros (i' & r' & Hr' & Hk' & _). by apply (Hnone i' r').
    + apply pybind_ok in Hres as (res & db3 & Hres & Hu). apply pyret_ok in Hu as [_ <-].
      destruct (reserve_cases key (se_job_id self) (ef_operation e) SideEffectClass.EXTERNAL_WRITE None db)
        as [(_ & _ & r & db4 & E & (i & r' & Hi & Hk') & _)|(_ & m & E)]; rewrite Hres in E; [|done].
      injection E as _ <-. exists i, r'. rewrite Hidem. split_and!; [done..|by right].
Qed.
End closed.

(** ** One execution alone *)

(** The provider refused for certain, so nothing was created. *)
Definition refused_for_certain (r : result exn ProviderObject) : bool :=
  match r with Raise e => isa (exn_type e) DraftRunRefused | Ok _ => false end.

Section discipline.
Context `{Backend} (shop_name : uuid → string) (κ : string).

(** What a transaction does to the permission to create under [κ]: it is kept while the key
    stays closed, taken when the key was open and is closed now, or given back. *)
Definition passes (mine mine' : bool) (db db' : DB) : Prop :=
  (mine' = mine ∧ keeps_closed κ db db') ∨
  (mine = false ∧ mine' = true ∧ ¬ closed κ db ∧ closed κ db') ∨
  (mine = true ∧ mine' = false).

(** [p] creates under [κ] only with the permission, which a creation that was not refused for
    certain uses up; when it ends, [Q] holds of the permission and the outcome. *)
Fixpoint disciplined {E A} (mine : bool) (p : Prog E A) (Q : bool → result E A → Prop) : Prop :=
  match p with
  | Done r => Q mine r
  | Transact m k =>
      (∀ db a db', m db = (Ok a, db') →
         (∃ mine', passes mine mine' db db' ∧ disciplined mine' (k (Ok a)) Q) ∧
         (∃ mine', passes mine mine' db db' ∧ disciplined mine' (k (Raise connection_lost)) Q)) ∧
      (∀ e, disciplined mine (k (Raise e)) Q)
  | Create key k => ∀ r,
      if decide (key = κ) then mine = true ∧ disciplined (refused_for_certain r) (k r) Q
      else disciplined mine (k r) Q
  | Reconcile _ k => ∀ r, disciplined mine (k r) Q
  end.

Lemma disciplined_then {E F A B} (p : Prog E A) (f : result E A → Prog F B) mine Q :
  disciplined mine p (λ mine' r, disciplined mine' (f r) Q) → disciplined mine (and_then p f) Q.
Proof.
  revert mine. induction p as [r|C m k IH|key k IH|known k IH]; intros mine; simpl; [done|..].
  - intros [Hok Hr]. split; [|intros e; by apply IH].
    intros db a db' Ha. destruct (Hok db a db' Ha) as [(m1 & ? & ?) (m2 & ? & ?)].
    split; [exists m1|exists m2]; (split; [done|by apply IH]).
  - intros Hk r. specialize (Hk r). destruct (decide (key = κ)); [|by apply IH].
    destruct Hk as [? Hk]. split; [done|by apply IH].
  - intros Hk r. by apply IH.
Qed.

Lemma disciplined_mono {E A} (p : Prog E A) mine (Q Q' : bool → result E A → Prop) :
  (∀ b r, Q b r → Q' b r) → disciplined mine p Q → disciplined mine p Q'.
Proof.
  intros HQ. revert mine. induction p as [r|C m k IH|key k IH|known k IH]; intros mine; simpl; [apply HQ|..].
  - intros [Hok Hr]. split; [|intros e; by apply IH].
    intros db a db' Ha. destruct (Hok db a db' Ha) as [(m1 & ? & ?) (m2 & ? & ?)].
    split; [exists m1|exists m2]; (split; [done|by apply IH]).
  - intros Hk r. specialize (Hk r). destruct (decide (key = κ)); [|by apply IH].
    destruct Hk as [? Hk]. split; [done|by apply IH].
  - intros Hk r. by apply IH.
Qed.

Lemma disciplined_bind {E A B} (p : Prog E A) (f : A → Prog E B) mine Q :
  disciplined mine p (λ mine' r, match r with Ok a => disciplined mine' (f a) Q | Raise e => Q mine' (Raise e) end) →
  disciplined mine (prog_bind p f) Q.
Proof. intros Hp. apply disciplined_then. revert Hp. by apply disciplined_mono; intros b []. Qed.

(** A transaction that keeps the key closed keeps the permission. *)
Lemma disciplined_transact {B} (m : Session B) mine Q :
  within (keeps_closed κ) m → (∀ r, Q mine r) → disciplined mine (transact m) Q.
Proof.
  intros Hm HQ. simpl. split; [|done]. intros db a db' Ha. specialize (Hm db). rewrite Ha in Hm. simpl in Hm.
  split; exists mine; (split; [by left|done]).
Qed.

Lemma disciplined_at {A} l (p : Prog exn A) mine Q :
  disciplined mine p (λ mine' r, Q mine' (match r with Ok a => Ok a | Raise e => Raise (e, l) end)) →
  disciplined mine (at_ l p) Q.
Proof. intros Hp. by apply disciplined_then. Qed.

(** What the handler of [execute] relies on. *)
Definition block_post {A} (key : string) (may_create mine : bool) (r : result (exn * Locals) A) : Prop :=
  match r with
  | Ok _ => True
  | Raise (exc, l) => key = κ → definite_absence may_create exc l = true → mine = true
  end.

Lemma post_returned {A} key may_create mine exc l :
  lo_mutation_started l = true → lo_create_returned l = true →
  block_post (A := A) key may_create mine (Raise (exc, l)).
Proof. intros Hm Hr _ Hd. unfold definite_absence in Hd. by rewrite Hm, Hr, andb_false_r, andb_false_r in Hd. Qed.

Definition create_post (key : string) (mine : bool) (r : result (exn * Locals) (ProviderObject * Locals)) : Prop :=
  match r with
  | Ok (_, l) => lo_mutation_started l = true ∧ lo_create_returned l = true
  | Raise _ => block_post key true mine r
  end.

Lemma create_and_read_disciplined self e key l mine :
  (key = κ → mine = true) →
  disciplined mine (create_and_read shop_name self e key l) (create_post key).
Proof.
  intros Hmine. unfold create_and_read. apply disciplined_bind, disciplined_at, disciplined_transact; [apply recheck_closed|].
  intros [u|exc]; [|by intros Hk _; apply Hmine]. apply disciplined_bind, disciplined_at. intros created.
  assert (Hrest : ∀ mine' o, disciplined mine' (
      let l := {| lo_mutation_started := true; lo_create_returned := true; lo_known_id := lo_known_id l |} in
      if negb (str_truth (object_id o)) then throw l (uncertain "provider_object_id_missing")
      else
        let l := {| lo_mutation_started := true; lo_create_returned := true; lo_known_id := Some (object_id o) |} in
        do! at_ l (transact (accept_effect shop_name self e key (object_id o)));
        do! at_ l (transact (_job shop_name self));
        let! observed := at_ l (Reconcile (Some (object_id o)) Done) in
        match observed with
        | Some o' => if decide (object_id o' = object_id o) then Done (Ok (o', l))
                    else throw l (uncertain "fresh_provider_readback_missing")
        | None => throw l (uncertain "fresh_provider_readback_missing")
        end) (create_post key)).
  { intros mine' o. cbv zeta. destruct (str_truth (object_id o)); [|by apply post_returned].
    apply disciplined_bind, disciplined_at, disciplined_transact; [apply accept_closed|].
    intros [v|exc]; [|by apply post_returned].
    apply disciplined_bind, disciplined_at, disciplined_transact; [apply job_closed|].
    intros [j|exc]; [|by apply post_returned].
    apply disciplined_bind, disciplined_at. intros [[o'|]|exc]; [|by apply post_returned..].
    simpl. destruct (decide _); [done|by apply post_returned]. }
  destruct (decide (key = κ)) as [Hk|Hk].
  - split; [by apply Hmine|]. destruct created as [o|exc]; [apply Hrest|]. intros _ Hd.
    unfold definite_absence in Hd. simpl in *. by rewrite andb_true_r in Hd.
  - destruct created as [o|exc]; [apply Hrest|]. by intros Hk'.
Qed.

Lemma attempt_disciplined self e key known may_create mine :
  (key = κ → may_create = true → mine = true) →
  disciplined mine (attempt_effect shop_name self e key known may_create) (block_post key may_create).
Proof.
  intros Hmine. unfold attempt_effect.
  set (l := {| lo_mutation_started := false; lo_create_returned := false; lo_known_id := known |}).
  assert (Hbefore : ∀ A exc, block_post (A := A) key may_create mine (Raise (exc, l))).
  { intros A exc Hk [Hmay _]%andb_true_iff. auto. }
  apply disciplined_bind, disciplined_at. intros [found|exc]; [|by apply Hbefore].
  assert (Hcheck : ∀ mine' (seen : ProviderObject * Locals),
    (∀ exc, block_post (A := ProviderObject * string) key may_create mine' (Raise (exc, seen.2))) →
    disciplined mine' (if negb (str_truth (object_id seen.1)) ||
        match lo_known_id seen.2 with Some k => bool_decide (object_id seen.1 ≠ k) | None => false end
      then throw seen.2 (uncertain "provider_object_identity_mismatch")
      else Done (Ok (seen.1, object_id seen.1))) (block_post key may_create)).
  { intros mine' seen Hseen. destruct (_ || _); [apply Hseen|done]. }
  apply disciplined_bind. destruct found as [o|]; [by apply Hcheck|].
  destruct may_create; [|intros _ Hf; discriminate Hf].
  eapply disciplined_mono; [|apply create_and_read_disciplined; auto].
  intros b [[o l']|[exc l']]; [|done]. intros [Hm Hr]. apply Hcheck. intros exc. by apply post_returned.
Qed.

(** An execution starts without the permission and keeps the discipline. *)
Lemma execute_disciplined self e : disciplined false (execute shop_name self e) (λ _ _, True).
Proof.
  unfold execute. apply disciplined_bind. destruct (provider_scope e); [|done].
  apply disciplined_bind. destruct (authorize _ _ _); [|done]. apply disciplined_bind.
  split; [|done]. intros db [[key known] may] db' Hres.
  pose proof (reserve_effect_closed shop_name κ self e db) as Hkeep. rewrite Hres in Hkeep. simpl in Hkeep.
  split; [|exists false; split; [by left|done]].
  exists (may && bool_decide (key = κ)). split.
  { destruct may; [|by left]. case_bool_decide as Hk; [|by left]. subst key.
    apply reserve_takes in Hres as [? ?]. by right; left. }
  apply disciplined_then. eapply disciplined_mono; [|apply attempt_disciplined; intros -> ->; by rewrite bool_decide_true].
  intros mine [[o id]|[exc l]] Hpost.
  - apply disciplined_bind, disciplined_transact; [apply confirm_closed|by intros []].
  - assert (Hend : ∀ mine' r, disciplined mine' (match r : result exn unit with
        | Ok _ => if isa (exn_type exc) DraftEffectUncertain || isa (exn_type exc) DraftRunRefused
                  then Done (Raise exc) else Done (Raise (uncertain "provider_effect_requires_read_reconciliation"))
        | Raise e => Done (Raise e)
        end : Prog exn ProviderObject) (λ _ _, True)) by (intros mine' []; [by destruct (_ || _)|done]).
    apply disciplined_then. split; [|intros e'; apply (Hend mine (Raise e'))].
    intros db1 u db2 Hs. pose proof (settle_closed shop_name κ self e key (definite_absence may exc l) (lo_known_id l)) as Hk.
    destruct (decide (key = κ ∧ definite_absence may exc l = true)) as [[Hkey Hd]|Hn].
    + specialize (Hpost Hkey Hd) as ->. split; exists false; (split; [by right; right|apply (Hend false)]).
    + specialize (Hk ltac:(destruct (decide (key = κ)), (definite_absence may exc l); naive_solver) db1).
      rewrite Hs in Hk. simpl in Hk. split; exists mine; (split; [by left|apply (Hend mine)]).
Qed.
End discipline.

(** ** All executions together *)

Local Open Scope list_scope.

Section together.
Context `{Backend} (shop_name : uuid → string) (κ : string).

Lemma passes_refl mine db : passes κ mine mine db db.
Proof. left. split; [done|reflexivity]. Qed.

Lemma prog_step_disciplined {E A} mine (p : Prog E A) db p' db' created Q :
  prog_step p db p' db' created → disciplined κ mine p Q →
  ∃ mine', disciplined κ mine' p' Q ∧
    (passes κ mine mine' db db' ∧ κ ∉ created.*1 ∨
     ∃ r, created = [(κ, r)] ∧ mine = true ∧ mine' = refused_for_certain r ∧ db' = db).
Proof.
  destruct 1 as [B m k db a db' Hm|B m k db e db' Hm|B m k db|B m k db a db' Hm|key k db r|kn k db r]; simpl.
  - intros [Hd _]. destruct (Hd db a db' Hm) as [(mine' & Hp & Hk) _]. exists mine'. split; [done|left].
    split; [done|apply not_elem_of_nil].
  - intros [_ Hd]. exists mine. split; [done|left]. split; [apply passes_refl|apply not_elem_of_nil].
  - intros [_ Hd]. exists mine. split; [done|left]. split; [apply passes_refl|apply not_elem_of_nil].
  - intros [Hd _]. destruct (Hd db a db' Hm) as [_ (mine' & Hp & Hk)]. exists mine'. split; [done|left].
    split; [done|apply not_elem_of_nil].
  - intros Hd. specialize (Hd r). case_decide as Hk.
    + destruct Hd as [-> Hd]. subst key. exists (refused_for_certain r). split; [done|right]. by exists r.
    + exists mine. split; [done|left]. split; [apply passes_refl|]. by intros ->%list_elem_of_singleton.
  - intros Hd. exists mine. split; [done|left]. split; [apply passes_refl|apply not_elem_of_nil].
Qed.

(** Some creation under [κ] was not refused for certain. *)
Definition created_once (created : list (string * result exn ProviderObject)) : Prop :=
  ∃ r, (κ, r) ∈ created ∧ refused_for_certain r = false.

(** One execution at most has the permission; it has it while the key is closed and nothing was
    created; and what was created keeps the key closed. *)
Record world_ok (w : World) (mines : list bool) : Prop := {
  wo_disciplined : Forall2 (λ mine p, disciplined κ mine p (λ _ _, True)) mines (wd_running w);
  wo_one : ∀ i j, mines !! i = Some true → mines !! j = Some true → i = j;
  wo_held : ∀ i, mines !! i = Some true → closed κ (wd_db w) ∧ ¬ created_once (wd_created w);
  wo_made : created_once (wd_created w) → closed κ (wd_db w);
  wo_last : ∀ pre r post, wd_created w = pre ++ (κ, r) :: post →
    refused_for_certain r = false → κ ∉ post.*1;
}.

Lemma created_other created l : κ ∉ l.*1 → created_once (created ++ l) ↔ created_once created.
Proof.
  intros Hl. unfold created_once. setoid_rewrite elem_of_app. split; [|naive_solver].
  intros (r & [Hr|Hr] & Hf); [eauto|]. exfalso. apply Hl. by apply (list_elem_of_fmap_2 fst) in Hr.
Qed.

Lemma last_other created l :
  (∀ pre r post, created = pre ++ (κ, r) :: post → refused_for_certain r = false → κ ∉ post.*1) →
  κ ∉ l.*1 →
  ∀ pre r post, created ++ l = pre ++ (κ, r) :: post → refused_for_certain r = false → κ ∉ post.*1.
Proof.
  intros Hlast Hl pre r post Heq Hf.
  apply app_eq_app in Heq as (m & [[-> Heq]|[-> Heq]]).
  - destruct m as [|[k' r'] m]; simpl in *.
    + rewrite <- Heq, fmap_cons in Hl. exfalso. apply Hl. by left.
    + injection Heq as -> -> ->. rewrite fmap_app, not_elem_of_app. split; [by eapply Hlast|done].
  - rewrite Heq in Hl. exfalso. apply Hl. rewrite fmap_app, elem_of_app. right. by left.
Qed.

Lemma insert_true (mines : list bool) i mine' j :
  <[i := mine']> mines !! j = Some true → (j = i ∧ mine' = true) ∨ (j ≠ i ∧ mines !! j = Some true).
Proof. rewrite list_lookup_insert_Some. naive_solver. Qed.

(** A step without a creation under [κ]. *)
Lemma run_other w mines i mine mine' p' db' created :
  world_ok w mines → mines !! i = Some mine → disciplined κ mine' p' (λ _ _, True) →
  passes κ mine mine' (wd_db w) db' → κ ∉ created.*1 →
  world_ok {| wd_running := <[i := p']> (wd_running w); wd_db := db'; wd_created := wd_created w ++ created;
              wd_absent := wd_absent w |}
    (<[i := mine']> mines).
Proof.
  intros Hok Hi Hd Hp Hc.
  assert (Hdis : Forall2 (λ mine p, disciplined κ mine p (λ _ _, True)) (<[i := mine']> mines) (<[i := p']> (wd_running w)))
    by (apply Forall2_insert; [apply (wo_disciplined _ _ Hok)|done]).
  pose proof (created_other (wd_created w) created Hc) as Honce.
  destruct Hp as [[-> Hkeep]|[(-> & -> & Hopen & Hclosed)|[-> ->]]].
  - rewrite (list_insert_id mines) in * by done. split; simpl; [done|apply (wo_one _ _ Hok)| | |].
    + intros j Hj. destruct (wo_held _ _ Hok j Hj) as [Hcl Hn]. split; [by apply Hkeep|by rewrite Honce].
    + rewrite Honce. intros Hm. apply Hkeep. by apply (wo_made _ _ Hok).
    + apply last_other; [apply (wo_last _ _ Hok)|done].
  - assert (Hnone : ∀ j, mines !! j ≠ Some true) by (intros j Hj; by destruct (wo_held _ _ Hok j Hj)).
    assert (Hnot : ¬ created_once (wd_created w)) by (intros Hm; by apply Hopen, (wo_made _ _ Hok)).
    split; simpl; [done| | |done|].
    + intros j k [[-> _]|[_ Hj]]%insert_true [[-> _]|[_ Hk]]%insert_true; (done || by destruct (Hnone _ Hj) || by destruct (Hnone _ Hk)).
    + intros j _. split; [done|by rewrite Honce].
    + apply last_other; [apply (wo_last _ _ Hok)|done].
  - destruct (wo_held _ _ Hok i Hi) as [_ Hnot].
    assert (Hnone : ∀ j, <[i := false]> mines !! j ≠ Some true).
    { intros j [[_ ?]|[Hne Hj]]%insert_true; [done|]. by apply Hne, (wo_one _ _ Hok). }
    split; simpl; [done| | | |].
    + intros j k Hj. by destruct (Hnone j).
    + intros j Hj. by destruct (Hnone j).
    + by rewrite Honce.
    + apply last_other; [apply (wo_last _ _ Hok)|done].
Qed.

(** A creation under [κ]. *)
Lemma run_create w mines i p' r :
  world_ok w mines → mines !! i = Some true → disciplined κ (refused_for_certain r) p' (λ _ _, True) →
  world_ok {| wd_running := <[i := p']> (wd_running w); wd_db := wd_db w; wd_created := wd_created w ++ [(κ, r)];
              wd_absent := wd_absent w |}
    (<[i := refused_for_certain r]> mines).
Proof.
  intros Hok Hi Hd. destruct (wo_held _ _ Hok i Hi) as [Hclosed Hnot].
  assert (Hdis : Forall2 (λ mine p, disciplined κ mine p (λ _ _, True)) (<[i := refused_for_certain r]> mines)
    (<[i := p']> (wd_running w))) by (apply Forall2_insert; [apply (wo_disciplined _ _ Hok)|done]).
  assert (Hsub : ∀ j, <[i := refused_for_certain r]> mines !! j = Some true → mines !! j = Some true ∧ refused_for_certain r = true).
  { intros j [[-> ?]|[Hne Hj]]%insert_true; [done|]. by destruct Hne; apply (wo_one _ _ Hok). }
  split; simpl; [done| | |done|].
  - intros j k [Hj _]%Hsub [Hk _]%Hsub. by apply (wo_one _ _ Hok).
  - intros j [_ Hr]%Hsub. split; [done|]. intros (r' & [Hin|Hin]%elem_of_app & Hf); [apply Hnot; by exists r'|].
    apply list_elem_of_singleton in Hin. congruence.
  - intros pre r' post Heq Hf. destruct post as [|x post _] using rev_ind; [apply not_elem_of_nil|exfalso].
    rewrite app_comm_cons, app_assoc in Heq. apply app_inj_tail in Heq as [Heq _]. apply Hnot. exists r'.
    rewrite Heq. split; [|done]. rewrite elem_of_app. right. by left.
Qed.

Lemma world_step w w' mines :
  exec_step shop_name w w' → κ ∉ wd_absent w' → world_ok w mines → ∃ mines', world_ok w' mines'.
Proof.
  intros Hstep Hab Hok. destruct Hstep as [self e|i p p' db' created Hp Hstep|absent db' Hsp].
  - exists (mines ++ [false]).
    assert (Hold : ∀ j, (mines ++ [false]) !! j = Some true → mines !! j = Some true).
    { intros j Hj. apply lookup_app_Some in Hj as [|[_ Hj]]; [done|]. by destruct (j - length mines)%nat. }
    split; simpl; [|intros j k Hj Hk; by apply (wo_one _ _ Hok); apply Hold|intros j Hj; by apply (wo_held _ _ Hok j), Hold|
      apply (wo_made _ _ Hok)|apply (wo_last _ _ Hok)].
    apply Forall2_app; [apply (wo_disciplined _ _ Hok)|]. constructor; [apply execute_disciplined|constructor].
  - destruct (Forall2_lookup_r _ _ _ _ _ (wo_disciplined _ _ Hok) Hp) as (mine & Hi & Hd).
    destruct (prog_step_disciplined _ _ _ _ _ _ _ Hstep Hd) as (mine' & Hd' & [[Hpass Hc]|(r & -> & -> & -> & ->)]).
    + exists (<[i := mine']> mines). by eapply run_other.
    + exists (<[i := refused_for_certain r]> mines). by apply run_create.
  - exists mines. simpl in Hab. apply not_elem_of_app in Hab as [Hab _].
    pose proof (spares_closed shop_name κ absent _ _ Hsp Hab) as Hkeep.
    split; simpl; [apply (wo_disciplined _ _ Hok)|apply (wo_one _ _ Hok)| | |apply (wo_last _ _ Hok)].
    + intros j Hj. destruct (wo_held _ _ Hok j Hj) as [Hcl Hn]. split; [by apply Hkeep|done].
    + intros Hm. by apply Hkeep, (wo_made _ _ Hok).
Qed.

Lemma started_ok db : world_ok (started db) [].
Proof.
  split; simpl; [constructor|done|done| |].
  - intros (r & Hr & _). by apply elem_of_nil in Hr.
  - intros pre r post Heq. by destruct pre.
Qed.
End together.

Lemma steps_absent `{Backend} shop_name w w' : rtc (exec_step shop_name) w w' → wd_absent w ⊆ wd_absent w'.
Proof.
  induction 1 as [w|w w1 w2 Hstep _ IH]; [done|]. etrans; [|exact IH].
  destruct Hstep; simpl; [done..|]. set_solver.
Qed.

(** C5: An effect is created at most once.  However many executions of it and of other effects run
    side by side, whatever their providers answer or raise, and wherever they stop or lose the
    connection: after a creation under a key that was not refused for certain there is no
    further creation under that key.  The rest of the system may change everything meanwhile: it
    may complete reservations and add attempts, under this key too, but it deletes neither, and
    under this key it never records that nothing was found.  (Where an operator settles the
    effect as ABSENT after a lost answer, a second creation follows.) *)
Theorem effect_created_at_most_once `{Backend} shop_name db w pre key r post :
  rtc (exec_step shop_name) (started db) w → key ∉ wd_absent w →
  wd_created w = pre ++ (key, r) :: post → refused_for_certain r = false →
  key ∉ post.*1.
Proof.
  intros Hsteps Hab. assert (∃ mines, world_ok key w mines) as [mines Hok].
  { pose proof (started_ok key db) as H0. revert H0. generalize ([] : list bool).
    induction Hsteps as [w|w w1 w2 Hstep Hrest IH]; intros mines Hok; [by exists mines|].
    assert (Hab1 : key ∉ wd_absent w1) by (pose proof (steps_absent _ _ _ Hrest); set_solver).
    destruct (world_step _ _ _ _ _ Hstep Hab1 Hok) as [mines' Hok']. by eapply IH. }
  apply (wo_last _ _ _ Hok).
Qed.

(** ** One execution from start to end *)

(** The provider's two calls on its own state. *)
Record Provider (T : Type) := {
  pv_create : T → result exn ProviderObject * T;
  pv_reconcile : option string → T → result exn (option ProviderObject) * T;
}.
Arguments pv_create {T} _ _.
Arguments pv_reconcile {T} _ _ _.

(** The outcome, the database, the provider and the creations of a run that nothing
    interrupts. *)
Fixpoint run {E A T} (pv : Provider T) (p : Prog E A) (db : DB) (t : T)
    : result E A * DB * T * list (string * result exn ProviderObject) :=
  match p with
  | Done r => (r, db, t, [])
  | Transact m k =>
      match m db with
      | (Ok a, db') => run pv (k (Ok a)) db' t
      | (Raise e, _) => run pv (k (Raise e)) db t
      end
  | Create key k =>
      let (r, t') := pv_create pv t in
      let '(outcome, db', t'', created) := run pv (k r) db t' in
      (outcome, db', t'', (key, r) :: created)
  | Reconcile known k => let (r, t') := pv_reconcile pv known t in run pv (k r) db t'
  end.

Lemma run_next `{Backend} shop_name w i p p1 db1 made1 o db' made' :
  wd_running w !! i = Some p → prog_step p (wd_db w) p1 db1 made1 →
  (let w1 := {| wd_running := <[i := p1]> (wd_running w); wd_db := db1;
                wd_created := wd_created w ++ made1; wd_absent := wd_absent w |} in
   wd_running w1 !! i = Some p1 →
   rtc (exec_step shop_name) w1
     {| wd_running := <[i := o]> (wd_running w1); wd_db := db'; wd_created := wd_created w1 ++ made';
       wd_absent := wd_absent w1 |}) →
  rtc (exec_step shop_name) w
    {| wd_running := <[i := o]> (wd_running w); wd_db := db'; wd_created := wd_created w ++ (made1 ++ made');
       wd_absent := wd_absent w |}.
Proof.
  intros Hi Hstep Hrest. eapply rtc_l; [by eapply exec_run|]. simpl in Hrest.
  rewrite list_insert_insert_eq, <- app_assoc in Hrest. apply Hrest.
  apply list_lookup_insert_eq. by eapply lookup_lt_Some.
Qed.

(** A run is a sequence of steps. *)
Lemma run_steps `{Backend} shop_name {T} (pv : Provider T) p w i t outcome db' t' created :
  wd_running w !! i = Some p → run pv p (wd_db w) t = (outcome, db', t', created) →
  rtc (exec_step shop_name) w
    {| wd_running := <[i := Done outcome]> (wd_running w); wd_db := db'; wd_created := wd_created w ++ created;
       wd_absent := wd_absent w |}.
Proof.
  revert w t created. induction p as [r|C m k IH|key k IH|known k IH]; intros w t created Hi Hrun; simpl in *.
  - injection Hrun as <- <- <- <-. rewrite list_insert_id, app_nil_r by done. by destruct w.
  - destruct (m (wd_db w)) as [[a|e] db1] eqn:Hm.
    + apply (run_next shop_name w i _ _ db1 [] _ _ created Hi (step_commit _ m k _ a db1 Hm)).
      intros w1 Hi1. exact (IH _ w1 t _ Hi1 Hrun).
    + apply (run_next shop_name w i _ _ _ [] _ _ created Hi (step_rollback _ m k _ e db1 Hm)).
      intros w1 Hi1. exact (IH _ w1 t _ Hi1 Hrun).
  - destruct (pv_create pv t) as [r t1]. destruct (run pv (k r) (wd_db w) t1) as [[[o db1] t2] made1] eqn:Hk.
    injection Hrun as <- <- <- <-.
    apply (run_next shop_name w i _ _ _ [(key, r)] _ _ made1 Hi (step_create key k _ r)).
    intros w1 Hi1. exact (IH _ w1 t1 _ Hi1 Hk).
  - destruct (pv_reconcile pv known t) as [r t1].
    apply (run_next shop_name w i _ _ _ [] _ _ created Hi (step_reconcile known k _ r)).
    intros w1 Hi1. exact (IH _ w1 t1 _ Hi1 Hrun).
Qed.

(** Effects executed one after the other. *)
Fixpoint run_all `{Backend} (shop_name : uuid → string) (self : SqlDraftEffects) {T} (pv : Provider T)
    (es : list Effect) (db : DB) (t : T) : DB * list (string * result exn ProviderObject) :=
  match es with
  | [] => (db, [])
  | e :: es =>
      let '(_, db1, t1, made1) := run pv (execute shop_name self e) db t in
      let '(db2, made2) := run_all shop_name self pv es db1 t1 in
      (db2, made1 ++ made2)
  end.

Lemma run_all_steps `{Backend} shop_name self {T} (pv : Provider T) es w t :
  ∃ running, rtc (exec_step shop_name) w
    {| wd_running := running; wd_db := (run_all shop_name self pv es (wd_db w) t).1;
       wd_created := wd_created w ++ (run_all shop_name self pv es (wd_db w) t).2; wd_absent := wd_absent w |}.
Proof.
  revert w t. induction es as [|e es IH]; intros w t; simpl.
  - exists (wd_running w). rewrite app_nil_r. by destruct w.
  - destruct (run pv _ _ _) as [[[o db1] t1] made1] eqn:Hrun.
    destruct (run_all shop_name self pv es db1 t1) as [db2 made2] eqn:Hall. simpl.
    set (w0 := {| wd_running := wd_running w ++ [execute shop_name self e]; wd_db := wd_db w;
               wd_created := wd_created w; wd_absent := wd_absent w |}).
    assert (Hlast : wd_running w0 !! length (wd_running w) = Some (execute shop_name self e)) by (apply list_lookup_middle; lia).
    pose proof (run_steps shop_name pv _ w0 _ t _ _ _ _ Hlast Hrun) as Hsteps.
    set (w1 := {| wd_running := _; wd_db := db1; wd_created := _; wd_absent := _ |}) in Hsteps.
    destruct (IH w1 t1) as [running Hrest]. simpl in Hrest. rewrite Hall, <- app_assoc in Hrest. exists running.
    eapply rtc_l; [apply (exec_start shop_name w self e)|]. etrans; [exact Hsteps|exact Hrest].
Qed.

(** ** A run with a lost answer *)

Definition sample_self : SqlDraftEffects :=
  {| se_authority := {| au_run_id := "run-1"; au_product_id := 7; au_verified_shop_id := Some 42;
                        au_verified_notion_parent_id := None |};
     se_job_id := 1; se_lease_owner := "worker-1" |}.

Definition sample_effect_job : Job :=
  {| j_workflow_id := 100; j_type := "DraftListingJob"; j_object_type := "products"; j_object_id := 7;
     j_owner_agent_id := "A01"; j_status := JobStatus.RUNNING; j_input := JDict [("run_id", JStr "run-1")];
     j_success_contract := JDict []; j_scheduled_at := 0; j_attempt := 0; j_max_attempts := 3;
     j_idempotency_key := "draft"; j_side_effect_class := SideEffectClass.EXTERNAL_WRITE;
     j_retry_class := RetryClass.RECONCILE_FIRST; j_allowed_mode := AutonomyMode.DRAFT;
     j_lease_owner := Some "worker-1"; j_lease_expires_at := Some 100; j_heartbeat_at := Some 0;
     j_created_at := 0; j_updated_at := 0; j_version := 1 |}.

Definition sample_effect_db : DB := sample_db [(1%N, sample_effect_job)].

Definition sample_shop_name (shop : uuid) : string := SHOP_NAME.

Definition sample_effect (operation_key : string) : Effect :=
  {| ef_operation_key := operation_key; ef_provider := "etsy"; ef_operation := "etsy.create_draft";
     ef_notion_parent_id := None; ef_shop_id := Some (Int 42) |}.

Definition sample_key (operation_key : string) : string :=
  derive_idempotency_key "DraftListingJob" 100 7 operation_key.

(** A provider that finds nothing and never answers a creation. *)
Definition silent_provider : Provider unit :=
  {| pv_create := λ t, (Raise (Exn OSError "timeout"), t); pv_reconcile := λ _ t, (Ok None, t) |}.

(** A provider that creates what it is asked for and finds it again. *)
Definition honest_provider : Provider (list string) :=
  {| pv_create := λ t, (Ok [("id", JStr "L1")], "L1"%string :: t);
     pv_reconcile := λ known t, (Ok (match t with id :: _ => Some [("id", JStr id)] | [] => None end), t) |}.

(** The unanswered creation is not repeated; the other effect is created. *)
Example silent_run :
  (run_all (H := reference_backend) sample_shop_name sample_self silent_provider
     [sample_effect "draft"; sample_effect "draft"; sample_effect "image"] sample_effect_db tt).2 =
  [(sample_key "draft", Raise (Exn OSError "timeout")); (sample_key "image", Raise (Exn OSError "timeout"))].
Proof. vm_compute. reflexivity. Qed.

(** A creation that is answered and read back is confirmed, receipted and completed; executing
    it again only reads. *)
Example honest_run :
  let '(db, created) := run_all (H := reference_backend) sample_shop_name sample_self honest_provider
     [sample_effect "draft"; sample_effect "draft"] sample_effect_db [] in
  (created, (λ r, (rc_key r.2, rc_effect_state r.2, rc_provider_object_id r.2)) <$> map_to_list (receipts db),
   (λ r, (idem_key r.2, given (idem_completed_at r.2))) <$> map_to_list (idempotency_records db)) =
  ([(sample_key "draft", Ok [("id", JStr "L1")])],
   [(sample_key "draft", EffectState.CONFIRMED, Some "L1"%string)], [(sample_key "draft", true)]).
Proof. vm_compute. reflexivity. Qed.

Lemma effect_created_at_most_once_witness :
  ∃ w, rtc (exec_step (H := reference_backend) sample_shop_name) (started sample_effect_db) w ∧
    wd_created w = [(sample_key "draft", Raise (Exn OSError "timeout")); (sample_key "image", Raise (Exn OSError "timeout"))] ∧
    sample_key "draft" ∉ [(sample_key "image", Raise (A := ProviderObject) (Exn OSError "timeout"))].*1.
Proof.
  destruct (run_all_steps (H := reference_backend) sample_shop_name sample_self silent_provider
    [sample_effect "draft"; sample_effect "draft"; sample_effect "image"] (started sample_effect_db) tt) as [running Hsteps].
  change (wd_db (started sample_effect_db)) with sample_effect_db in Hsteps.
  rewrite silent_run in Hsteps. eexists. split; [exact Hsteps|]. split; [reflexivity|].
  apply (effect_created_at_most_once (H := reference_backend) _ _ _ [] _ (Raise (Exn OSError "timeout")) _ Hsteps);
    [apply not_elem_of_nil|reflexivity..].
Defined.

(** An execution that found nothing for certain is overtaken by one that may not create: the
    latter's failure is recorded as unknown over the former's absence, and nobody may create
    any more. *)
Example overtaken_absence_is_stuck :
  let self := sample_self in
  let e := sample_effect "draft" in
  let key := sample_key "draft" in
  let Hb := reference_backend in
  let may_create (r : result exn (string * option string * bool) * DB) :=
    match r.1 with Ok (_, _, may) => Some may | Raise _ => None end in
  let first := reserve_effect sample_shop_name self e sample_effect_db in
  let second := reserve_effect sample_shop_name self e first.2 in
  let absent := settle_failure sample_shop_name self e key true None second.2 in
  let unknown := settle_failure sample_shop_name self e key false None absent.2 in
  (may_create first, may_create second, may_create (reserve_effect sample_shop_name self e absent.2),
   may_create (reserve_effect sample_shop_name self e unknown.2)) = (Some true, Some false, Some true, Some false).
Proof. vm_compute. reflexivity. Qed.

(** A provider object whose [id] is [None] counts as identified. *)
Example null_identifier_accepted : object_id [("id", JNull)] = "None" ∧ str_truth (object_id [("id", JNull)]) = true.
Proof. done. Qed.
