(* ===== verification/JsonText.v ===== *)
(** * JSON text

    [json.dumps(v, sort_keys=True, ensure_ascii=True)] and [json.loads] on values without
    floats.  A character of a string is the code point of its number, so code points end at
    255; a text with a float or a higher code point does not decode here.

    What is written is read back, is printable ASCII, and cannot be cut short unnoticed. *)

From Stdlib Require Import Strings.Ascii.
From S2P Require Import Prelude PyText PyLines PySort PyDict Tables.
Open Scope string_scope.
Open Scope Z_scope.

(** ** Writing *)

Definition char (n : N) : Ascii.ascii := Ascii.ascii_of_N n.

Definition after_backslash (c : Ascii.ascii) : string := String backslash (String c EmptyString).

Definition json_char (c : Ascii.ascii) : string :=
  let n := Ascii.N_of_ascii c in
  if decide (c = dquote ∨ c = backslash) then after_backslash c
  else if (n =? 10)%N then after_backslash "n"%char
  else if (n =? 13)%N then after_backslash "r"%char
  else if (n =? 9)%N then after_backslash "t"%char
  else if (n =? 12)%N then after_backslash "f"%char
  else if (n =? 8)%N then after_backslash "b"%char
  else if ((n <? 32) || (126 <? n))%N then after_backslash "u"%char ++ hex_digits 4 n
  else String c EmptyString.

Fixpoint json_chars (s : string) : string :=
  match s with
  | EmptyString => EmptyString
  | String c r => json_char c ++ json_chars r
  end.

Definition json_string (s : string) : string := String dquote (json_chars s ++ String dquote EmptyString).

(** [json.dumps(v)] *)
Fixpoint render (v : json) : string :=
  match v with
  | JNull => "null"
  | JBool true => "true"
  | JBool false => "false"
  | JInt z => pretty z
  | JStr s => json_string s
  | JList l => "[" ++ String.concat ", " (render <$> l) ++ "]"
  | JDict d => "{" ++ String.concat ", " ((λ kv, json_string kv.1 ++ ": " ++ render kv.2) <$> d) ++ "}"
  end.

Definition sort_items (d : list (string * json)) : list (string * json) :=
  py_sorted (λ a b, String.leb a.1 b.1) d.

(** The value with the items of every object sorted by key. *)
Fixpoint canon (v : json) : json :=
  match v with
  | JList l => JList (canon <$> l)
  | JDict d => JDict (sort_items ((λ kv, (kv.1, canon kv.2)) <$> d))
  | v => v
  end.

(** [json.dumps(v, sort_keys=True)] *)
Definition dumps (v : json) : string := render (canon v).

(** ** Reading *)

Definition is_ws (c : Ascii.ascii) : bool :=
  let n := Ascii.N_of_ascii c in ((n =? 32) || (n =? 9) || (n =? 10) || (n =? 13))%N.

Fixpoint skip_ws (s : string) : string :=
  match s with
  | EmptyString => EmptyString
  | String c r => if is_ws c then skip_ws r else s
  end.

Definition unescape (c : Ascii.ascii) : option Ascii.ascii :=
  if decide (c = dquote ∨ c = backslash ∨ c = "/"%char) then Some c
  else if decide (c = "n"%char) then Some (char 10)
  else if decide (c = "r"%char) then Some (char 13)
  else if decide (c = "t"%char) then Some (char 9)
  else if decide (c = "f"%char) then Some (char 12)
  else if decide (c = "b"%char) then Some (char 8)
  else None.

Definition hex_value (c : Ascii.ascii) : option N :=
  let n := Ascii.N_of_ascii c in
  (if (48 <=? n) && (n <=? 57) then Some (n - 48)
   else if (97 <=? n) && (n <=? 102) then Some (n - 87)
   else if (65 <=? n) && (n <=? 70) then Some (n - 55)
   else None)%N.

(** The character of four hexadecimal digits. *)
Definition hex_code (a b c d : Ascii.ascii) : option Ascii.ascii :=
  match hex_value a, hex_value b, hex_value c, hex_value d with
  | Some a, Some b, Some c, Some d =>
      let n := (4096 * a + 256 * b + 16 * c + d)%N in if (n <? 256)%N then Some (char n) else None
  | _, _, _, _ => None
  end.

Definition cons_char (c : option Ascii.ascii) (r : option (string * string)) : option (string * string) :=
  match c, r with
  | Some c, Some (s, r) => Some (String c s, r)
  | _, _ => None
  end.

(** The text of a string after its opening quote, and what follows its closing one. *)
Fixpoint parse_chars (s : string) : option (string * string) :=
  match s with
  | EmptyString => None
  | String c r =>
      if decide (c = dquote) then Some (EmptyString, r)
      else if decide (c = backslash) then
        match r with
        | EmptyString => None
        | String e r1 =>
            if decide (e = "u"%char) then
              match r1 with
              | String h1 (String h2 (String h3 (String h4 r2))) => cons_char (hex_code h1 h2 h3 h4) (parse_chars r2)
              | _ => None
              end
            else cons_char (unescape e) (parse_chars r1)
        end
      else if (Ascii.N_of_ascii c <? 32)%N then None
      else cons_char (Some c) (parse_chars r)
  end.

(** The digits that follow, as the continuation of [acc]. *)
Fixpoint parse_digits (acc : Z) (s : string) : Z * string :=
  match s with
  | EmptyString => (acc, EmptyString)
  | String c r => match digit_value c with
                  | Some d => parse_digits (10 * acc + d) r
                  | None => (acc, s)
                  end
  end.

Definition parse_natural (s : string) : option (Z * string) :=
  match s with
  | EmptyString => None
  | String c r => match digit_value c with
                  | Some d => if d =? 0 then Some (0, r) else Some (parse_digits d r)
                  | None => None
                  end
  end.

Definition parse_number (s : string) : option (json * string) :=
  match strip_prefix "-" s with
  | Some r => (λ p, (JInt (- p.1), p.2)) <$> parse_natural r
  | None => (λ p, (JInt p.1, p.2)) <$> parse_natural s
  end.

(** [null], [true] or [false] *)
Definition parse_word (s : string) : option (json * string) :=
  match strip_prefix "null" s, strip_prefix "true" s, strip_prefix "false" s with
  | Some r, _, _ => Some (JNull, r)
  | _, Some r, _ => Some (JBool true, r)
  | _, _, Some r => Some (JBool false, r)
  | None, None, None => None
  end.

(** A later value of a key replaces an earlier one. *)
Definition dict_of (items : list (string * json)) : list (string * json) :=
  fold_left (λ d kv, dict_put kv.1 kv.2 d) items [].

(** A value at the start of the text, the items of an array after its bracket or a comma, and
    the members of an object likewise, each with the text that follows. *)
Fixpoint parse_value (fuel : nat) (s : string) {struct fuel} : option (json * string) :=
  match fuel with
  | O => None
  | S fuel =>
      match s with
      | EmptyString => None
      | String c r =>
          if decide (c = dquote) then (λ p, (JStr p.1, p.2)) <$> parse_chars r
          else if decide (c = "["%char) then
            match strip_prefix "]" (skip_ws r) with
            | Some r => Some (JList [], r)
            | None => (λ p, (JList p.1, p.2)) <$> parse_items fuel (skip_ws r)
            end
          else if decide (c = "{"%char) then
            match strip_prefix "}" (skip_ws r) with
            | Some r => Some (JDict [], r)
            | None => (λ p, (JDict (dict_of p.1), p.2)) <$> parse_members fuel (skip_ws r)
            end
          else match parse_word s with Some p => Some p | None => parse_number s end
      end
  end
with parse_items (fuel : nat) (s : string) {struct fuel} : option (list json * string) :=
  match fuel with
  | O => None
  | S fuel =>
      match parse_value fuel s with
      | None => None
      | Some (v, r) =>
          match skip_ws r with
          | EmptyString => None
          | String c r =>
              if decide (c = "]"%char) then Some ([v], r)
              else if decide (c = ","%char) then (λ p, (v :: p.1, p.2)) <$> parse_items fuel (skip_ws r)
              else None
          end
      end
  end
with parse_members (fuel : nat) (s : string) {struct fuel} : option (list (string * json) * string) :=
  match fuel with
  | O => None
  | S fuel =>
      match strip_prefix (String dquote "") s with
      | None => None
      | Some r =>
          match parse_chars r with
          | None => None
          | Some (k, r) =>
              match strip_prefix ":" (skip_ws r) with
              | None => None
              | Some r =>
                  match parse_value fuel (skip_ws r) with
                  | None => None
                  | Some (v, r) =>
                      match skip_ws r with
                      | EmptyString => None
                      | String c r =>
                          if decide (c = "}"%char) then Some ([(k, v)], r)
                          else if decide (c = ","%char) then (λ p, ((k, v) :: p.1, p.2)) <$> parse_members fuel (skip_ws r)
                          else None
                      end
                  end
              end
          end
      end
  end.

(** [json.loads(s)]; [None] is a [JSONDecodeError].  Every call consumes a character. *)
Definition loads (s : string) : option json :=
  match parse_value (S (String.length s)) (skip_ws s) with
  | Some (v, r) => if decide (skip_ws r = "") then Some v else None
  | None => None
  end.

(** ** Values *)

(** Induction through the items of arrays and objects. *)
Lemma json_induction (P : json → Prop) :
  P JNull → (∀ b, P (JBool b)) → (∀ z, P (JInt z)) → (∀ s, P (JStr s)) →
  (∀ l, Forall P l → P (JList l)) → (∀ d, Forall (λ kv, P kv.2) d → P (JDict d)) → ∀ v, P v.
Proof.
  intros Hn Hb Hi Hs Hl Hd. fix IH 1. intros [|b|z|s|l|d]; [done|done|done|done| |].
  - apply Hl. induction l as [|v l IHl]; constructor; auto.
  - apply Hd. induction d as [|[k v] d IHd]; constructor; auto.
Qed.

(** No object has a key twice. *)
Fixpoint json_ok (v : json) : Prop :=
  match v with
  | JList l => foldr (λ v P, json_ok v ∧ P) True l
  | JDict d => NoDup d.*1 ∧ foldr (λ kv P, json_ok kv.2 ∧ P) True d
  | _ => True
  end.

Lemma json_ok_list l : json_ok (JList l) ↔ Forall json_ok l.
Proof. simpl. induction l as [|v l IH]; simpl; rewrite ?Forall_nil, ?Forall_cons; naive_solver. Qed.

Lemma json_ok_dict d : json_ok (JDict d) ↔ NoDup d.*1 ∧ Forall (λ kv, json_ok kv.2) d.
Proof.
  simpl. f_equiv. induction d as [|v l IH]; simpl; rewrite ?Forall_nil, ?Forall_cons; naive_solver.
Qed.

Lemma sort_items_perm d : sort_items d ≡ₚ d.
Proof. apply py_sorted_perm. Qed.

Lemma canon_ok v : json_ok v → json_ok (canon v).
Proof.
  induction v as [|b|z|s|l IH|d IH] using json_induction; try done.
  - rewrite json_ok_list. intros Hl. apply json_ok_list, Forall_fmap. rewrite Forall_forall in *. simpl. auto.
  - rewrite json_ok_dict. intros [Hk Hd]. apply json_ok_dict. rewrite sort_items_perm.
    split; [by rewrite <- list_fmap_compose|]. rewrite Forall_fmap. rewrite Forall_forall in *. simpl. auto.
Qed.

(** ** Text *)

Definition printable (c : Ascii.ascii) : bool :=
  let n := Ascii.N_of_ascii c in ((32 <=? n) && (n <=? 126))%N.

Lemma json_char_printable c : str_all printable (json_char c) = true.
Proof. destruct c as [[] [] [] [] [] [] [] []]; reflexivity. Qed.

Lemma json_string_printable s : str_all printable (json_string s) = true.
Proof.
  unfold json_string. cbn [str_all]. rewrite str_all_app. apply andb_true_iff; split; [done|].
  induction s as [|c s IH]; simpl; [done|]. by rewrite str_all_app, json_char_printable.
Qed.

Lemma all_digits_printable s : all_digits s = true → str_all printable s = true.
Proof.
  induction s as [|c s IH]; simpl; [done|]. rewrite !andb_true_iff. intros [Hc Hs]. split; [|auto].
  revert Hc. destruct c as [[] [] [] [] [] [] [] []]; (done || (intros []%bool_decide_eq_true; done)).
Qed.

Lemma pretty_printable (z : Z) : str_all printable (pretty z) = true.
Proof.
  destruct z as [|p|p]; [done| |].
  - by apply all_digits_printable, pretty_all_digits.
  - change (pretty (Z.neg p)) with ("-" ++ pretty (Z.pos p)). rewrite str_all_app.
    apply andb_true_iff; split; [done|]. by apply all_digits_printable, pretty_all_digits.
Qed.

Lemma concat_printable l :
  Forall (λ s, str_all printable s = true) l → str_all printable (String.concat ", " l) = true.
Proof.
  induction 1 as [|s l Hs Hl IH]; [done|]. destruct l as [|t l]; [done|].
  change (String.concat ", " (s :: t :: l)) with (s ++ ", " ++ String.concat ", " (t :: l)).
  rewrite !str_all_app, Hs, IH. done.
Qed.

Lemma render_printable v : str_all printable (render v) = true.
Proof.
  induction v as [|b|z|s|l IH|d IH] using json_induction; [done|by destruct b|apply pretty_printable|
    apply json_string_printable| |]; cbn [render].
  - rewrite !str_all_app, concat_printable; [done|]. by apply Forall_fmap.
  - rewrite !str_all_app, concat_printable; [done|]. apply Forall_fmap. eapply Forall_impl; [done|].
    intros [k v] Hv. unfold compose. cbn [fst snd] in *. by rewrite !str_all_app, json_string_printable, Hv.
Qed.

(** ** Reading what was written *)

Lemma parse_json_char c t : parse_chars (json_char c ++ t) = cons_char (Some c) (parse_chars t).
Proof. destruct c as [[] [] [] [] [] [] [] []]; reflexivity. Qed.

Lemma parse_json_chars s r : parse_chars (json_chars s ++ String dquote r) = Some (s, r).
Proof. induction s as [|c s IH]; [done|]. simpl. by rewrite <- str_app_assoc, parse_json_char, IH. Qed.

(** No digit follows. *)
Definition stops (s : string) : Prop := match s with String c _ => digit_value c = None | EmptyString => True end.

Lemma parse_digits_stops acc t q ok z :
  all_digits t = true → int_digits acc ok t = Some z → stops q → parse_digits acc (t ++ q) = (z, q).
Proof.
  revert acc ok. induction t as [|c t IH]; intros acc ok; simpl.
  - intros _ Hz Hq. destruct ok; [|done]. injection Hz as <-. destruct q; simpl in *; [done|]. by rewrite Hq.
  - rewrite andb_true_iff. intros [[d Hd]%bool_decide_eq_true Ht] Hz Hq. rewrite Hd in *. eauto.
Qed.

Lemma parse_pretty_pos z q : 0 < z → stops q → parse_natural (pretty z ++ q) = Some (z, q).
Proof.
  intros Hz Hq. pose proof (int_pretty z Hz) as Hint. pose proof (pretty_all_digits z ltac:(lia)) as Hdig.
  rewrite pretty_pos_go in * by done.
  destruct (pretty_go_head (Z.to_N z) "" ltac:(lia)) as (n & r & Hn & Heq & _). rewrite Heq in *. simpl in *.
  rewrite pretty_char_value in * by lia. apply andb_true_iff in Hdig as [_ Hdig].
  rewrite (proj2 (Z.eqb_neq _ _)) by lia. f_equal. by eapply parse_digits_stops.
Qed.

Lemma pretty_pos_head z : 0 < z → ∃ n r, (n < 10)%N ∧ pretty z = String (pretty_N_char n) r.
Proof.
  intros Hz. rewrite pretty_pos_go by done.
  destruct (pretty_go_head (Z.to_N z) "" ltac:(lia)) as (n & r & Hn & Heq & _). exists n, r. split; [lia|done].
Qed.

Lemma parse_value_int n z q : stops q → parse_value (S n) (pretty z ++ q) = Some (JInt z, q).
Proof.
  intros Hq. assert (Hnum : ∀ c r, c = "-"%char ∨ (∃ n, (n < 10)%N ∧ c = pretty_N_char n) →
    parse_value (S n) (String c r) = parse_number (String c r)).
  { intros c r [->|(d & Hd & ->)]; [done|].
    assert (d = 0 ∨ d = 1 ∨ d = 2 ∨ d = 3 ∨ d = 4 ∨ d = 5 ∨ d = 6 ∨ d = 7 ∨ d = 8 ∨ d = 9)%N as H by lia.
    by repeat destruct H as [->|H]; [done..|subst]. }
  destruct z as [|p|p].
  - change (pretty 0 ++ q) with (String (pretty_N_char 0) q). rewrite Hnum; [done|]. right. by exists 0%N.
  - pose proof (parse_pretty_pos (Z.pos p) q ltac:(lia) Hq) as Hp.
    destruct (pretty_pos_head (Z.pos p) ltac:(lia)) as (d & r & Hd & Heq). rewrite Heq in *.
    change (String (pretty_N_char d) r ++ q) with (String (pretty_N_char d) (r ++ q)) in *.
    rewrite Hnum by (right; by exists d). unfold parse_number. simpl strip_prefix.
    rewrite decide_False; [by rewrite Hp|]. intros Hc.
    pose proof (pretty_char_value d Hd) as Hv. rewrite <- Hc in Hv. done.
  - change (pretty (Z.neg p) ++ q) with (String "-"%char (pretty (Z.pos p) ++ q)).
    rewrite Hnum by by left. unfold parse_number. simpl strip_prefix. cbv iota.
    by rewrite (parse_pretty_pos (Z.pos p) q).
Qed.

Lemma render_head v : ∃ c r, render v = String c r ∧ is_ws c = false ∧ c ≠ "]"%char.
Proof.
  destruct v as [|[]|[|p|p]|s|l|d]; try (by eexists _, _).
  destruct (pretty_pos_head (Z.pos p) ltac:(lia)) as (n & r & Hn & Heq). cbn [render]. rewrite Heq.
    eexists _, _. split; [done|].
    assert (n = 0 ∨ n = 1 ∨ n = 2 ∨ n = 3 ∨ n = 4 ∨ n = 5 ∨ n = 6 ∨ n = 7 ∨ n = 8 ∨ n = 9)%N as H by lia.
    by repeat destruct H as [->|H]; [done..|subst].
Qed.

Lemma skip_ws_cons c r : is_ws c = false → skip_ws (String c r) = String c r.
Proof. intros Hc. simpl. by rewrite Hc. Qed.

Definition member_text (kv : string * json) : string := json_string kv.1 ++ ": " ++ render kv.2.

Lemma concat_cons2 s t l : String.concat ", " (s :: t :: l) = s ++ ", " ++ String.concat ", " (t :: l).
Proof. done. Qed.

Definition reads (v : json) : Prop :=
  ∀ n q, (String.length (render v) < n)%nat → stops q → parse_value n (render v ++ q) = Some (v, q).

Lemma parse_items_render l n q :
  Forall reads l → l ≠ [] → (S (String.length (String.concat ", " (render <$> l))) < n)%nat →
  parse_items n (String.concat ", " (render <$> l) ++ String "]" q) = Some (l, q).
Proof.
  intros Hall. revert n q. induction Hall as [|v l Hv Hl IH]; intros [|n] q Hne Hn; [done|done|lia|].
  destruct l as [|w l].
  - simpl in *. rewrite Hv; [done|lia|done].
  - rewrite !fmap_cons, concat_cons2 in *. rewrite !str_app_length in Hn. change (String.length ", ") with 2%nat in Hn.
    rewrite <- !str_app_assoc. cbn [parse_items]. rewrite Hv; [|lia|done].
    destruct (render_head w) as (c & r & Hw & Hc & _). specialize (IH n q ltac:(done)).
    change (render w :: (render <$> l)) with (render <$> w :: l) in *.
    assert (∃ t, String.concat ", " (render <$> w :: l) = String c t) as [t Ht].
    { rewrite fmap_cons, Hw. destruct l; [by exists r|]. by eexists. }
    rewrite Ht in *. change (skip_ws (", " ++ ?x)) with (String "," (String " " x)). cbv iota.
    rewrite decide_False, decide_True by done.
    change (skip_ws (String " " ?x)) with (skip_ws x). change (String c t ++ ?x) with (String c (t ++ x)) in *.
    rewrite skip_ws_cons, IH by (done || lia). done.
Qed.

Lemma member_head kv t : ∃ r, member_text kv ++ t = String dquote r.
Proof. by eexists. Qed.

Lemma parse_members_render d n q :
  Forall (λ kv, reads kv.2) d → d ≠ [] → (S (String.length (String.concat ", " (member_text <$> d))) < n)%nat →
  parse_members n (String.concat ", " (member_text <$> d) ++ String "}" q) = Some (d, q).
Proof.
  intros Hall. revert n q. induction Hall as [|[k v] d Hv Hd IH]; intros [|n] q Hne Hn; [done|done|lia|].
  change (reads v) in Hv.
  assert (Hone : ∀ t, (String.length (render v) < n)%nat → stops t → parse_members (S n) (member_text (k, v) ++ t) =
    match skip_ws t with
    | EmptyString => None
    | String c r => if decide (c = "}"%char) then Some ([(k, v)], r)
                    else if decide (c = ","%char) then (λ p, ((k, v) :: p.1, p.2)) <$> parse_members n (skip_ws r)
                    else None
    end).
  { intros t Hlen Ht. unfold member_text, json_string. cbn [fst snd].
    change (String dquote ?a ++ ?b) with (String dquote (a ++ b)). cbn [parse_members].
    simpl strip_prefix. cbv iota. rewrite <- !str_app_assoc.
    change ((String dquote "" ++ ?b)) with (String dquote b). rewrite parse_json_chars. cbv beta iota.
    change (skip_ws (": " ++ ?x)) with (String ":" (String " " x)). cbn [strip_prefix].
    rewrite decide_True by done. destruct (render_head v) as (c & r & Hr & Hc & _).
    change (skip_ws (String " " ?x)) with (skip_ws x).
    replace (skip_ws (render v ++ t)) with (render v ++ t) by (rewrite Hr; symmetry; by apply skip_ws_cons).
    by rewrite Hv. }
  assert (Hlen : (String.length (member_text (k, v)) >= String.length (render v))%nat).
  { unfold member_text. cbn [fst snd]. rewrite !str_app_length. lia. }
  destruct d as [|kv d].
  - change (String.concat ", " (member_text <$> [(k, v)])) with (member_text (k, v)) in *.
    rewrite Hone; [done|lia|done].
  - rewrite !fmap_cons, concat_cons2 in *. rewrite !str_app_length in Hn. change (String.length ", ") with 2%nat in Hn.
    rewrite <- !str_app_assoc, Hone by (done || lia). specialize (IH n q ltac:(done)).
    change (skip_ws (", " ++ ?x)) with (String "," (String " " x)). cbv iota.
    rewrite decide_False, decide_True by done. change (skip_ws (String " " ?x)) with (skip_ws x).
    assert (∃ t, String.concat ", " (member_text kv :: (member_text <$> d)) ++ String "}" q = String dquote t) as [t Ht].
    { destruct d; [by eexists|]. rewrite fmap_cons, concat_cons2, <- str_app_assoc. apply member_head. }
    change (member_text <$> kv :: d) with (member_text kv :: (member_text <$> d)) in IH.
    rewrite Ht in *. rewrite skip_ws_cons, IH by (done || lia). done.
Qed.

Lemma dict_of_nodup d : NoDup d.*1 → dict_of d = d.
Proof.
  unfold dict_of. assert (H : ∀ acc, NoDup (acc ++ d)%list.*1 →
    fold_left (λ d kv, dict_put kv.1 kv.2 d) d acc = (acc ++ d)%list); [|intros; by apply H].
  induction d as [|[k v] d IH]; intros acc Hk; cbn [fold_left fst snd]; [by rewrite app_nil_r|].
  rewrite dict_put_new; [rewrite IH; by rewrite <- app_assoc|].
  apply dict_get_none. rewrite fmap_app, fmap_cons in Hk. apply NoDup_app in Hk as (_ & Hk & _).
  intros Hin. apply (Hk k Hin). by left.
Qed.

Lemma parse_render v : json_ok v → reads v.
Proof.
  induction v as [|b|z|s|l IH|d IH] using json_induction; intros Hok [|n] q Hn Hq; try lia.
  - done.
  - by destruct b.
  - by apply parse_value_int.
  - cbn [render]. unfold json_string. change (String dquote ?a ++ ?b) with (String dquote (a ++ b)).
    cbn [parse_value]. rewrite decide_True, <- str_app_assoc by done.
    change (String dquote "" ++ q) with (String dquote q). by rewrite parse_json_chars.
  - apply json_ok_list in Hok. cbn [render] in *. rewrite <- !str_app_assoc. rewrite !str_app_length in Hn.
    destruct l as [|v l]; [done|].
    assert (Hall : Forall reads (v :: l)) by (rewrite Forall_forall in *; auto).
    destruct (render_head v) as (c & r & Hv & Hc & Hb).
    pose proof (parse_items_render (v :: l) n q Hall ltac:(done)) as Hitems.
    change (("]" ++ q)) with (String "]" q). cbn [String.length] in Hn.
    assert (∃ t, String.concat ", " (render <$> v :: l) = String c t) as [t Ht].
    { rewrite fmap_cons, Hv. destruct l; [by exists r|]. by eexists. }
    rewrite Ht in *. change (String c t ++ ?x) with (String c (t ++ x)) in *.
    change ("[" ++ ?x) with (String "[" x). cbn [parse_value]. rewrite decide_False, decide_True by done.
    rewrite skip_ws_cons by done. cbn [strip_prefix]. rewrite decide_False by congruence.
    rewrite Hitems by lia. done.
  - apply json_ok_dict in Hok as [Hk Hok]. cbn [render] in *. change (λ kv, json_string kv.1 ++ ": " ++ render kv.2) with member_text in *.
    rewrite <- !str_app_assoc. rewrite !str_app_length in Hn. destruct d as [|kv d]; [done|].
    assert (Hall : Forall (λ kv, reads kv.2) (kv :: d)) by (rewrite Forall_forall in *; auto).
    pose proof (parse_members_render (kv :: d) n q Hall ltac:(done)) as Hmem.
    change (("}" ++ q)) with (String "}" q). cbn [String.length] in Hn.
    assert (∃ t, String.concat ", " (member_text <$> kv :: d) ++ String "}" q = String dquote t) as [t Ht].
    { destruct d; [by eexists|]. rewrite !fmap_cons, concat_cons2, <- str_app_assoc. apply member_head. }
    rewrite Ht in *. change ("{" ++ ?x) with (String "{" x). cbn [parse_value].
    do 2 rewrite decide_False by done. rewrite decide_True by done.
    rewrite skip_ws_cons by done. cbn [strip_prefix]. rewrite decide_False by done.
    rewrite Hmem by lia. cbn [fmap option_fmap option_map fst snd]. by rewrite dict_of_nodup.
Qed.

(** ** A text cut short *)

Lemma skip_ws_extend s c r q : skip_ws s = String c r → skip_ws (s ++ q) = String c (r ++ q).
Proof.
  induction s as [|d s IH]; [done|]. change (String d s ++ q) with (String d (s ++ q)). cbn [skip_ws].
  destruct (is_ws d); [exact IH|by intros [= -> ->]].
Qed.

Lemma strip_prefix_extend p s r q : strip_prefix p s = Some r → strip_prefix p (s ++ q) = Some (r ++ q).
Proof. intros ->%strip_prefix_Some. rewrite <- str_app_assoc. apply strip_prefix_app. Qed.

Lemma cons_char_Some c p t r : cons_char c p = Some (t, r) → ∃ d t', c = Some d ∧ t = String d t' ∧ p = Some (t', r).
Proof. destruct c, p as [[]|]; simpl; naive_solver. Qed.

Lemma parse_chars_extend s t r q : parse_chars s = Some (t, r) → parse_chars (s ++ q) = Some (t, r ++ q).
Proof.
  remember (String.length s) as k eqn:Hk. revert s t r Hk. induction (lt_wf k) as [k _ IH]. intros s t r ->.
  assert (Hrec : ∀ s' c, (String.length s' < String.length s)%nat → cons_char c (parse_chars s') = Some (t, r) →
    cons_char c (parse_chars (s' ++ q)) = Some (t, r ++ q)).
  { intros s' c Hs (d & t' & -> & -> & Hp)%cons_char_Some. by rewrite (IH _ Hs s' t' r eq_refl Hp). }
  destruct s as [|c s]; [done|]. change (String c s ++ q) with (String c (s ++ q)). cbn [parse_chars].
  case_decide; [by intros [= <- <-]|]. case_decide.
  - destruct s as [|e s]; [done|]. change (String e s ++ q) with (String e (s ++ q)). cbv iota beta.
    case_decide; [|apply Hrec; simpl; lia].
    destruct s as [|h1 [|h2 [|h3 [|h4 s]]]]; [done..|]. apply Hrec. simpl. lia.
  - destruct (_ <? _)%N; [done|]. apply Hrec. simpl. lia.
Qed.

Lemma parse_digits_extend acc s z r q :
  parse_digits acc s = (z, r) → r ≠ "" → parse_digits acc (s ++ q) = (z, r ++ q).
Proof.
  revert acc. induction s as [|c s IH]; intros acc; [by intros [= <- <-]|].
  change (String c s ++ q) with (String c (s ++ q)). cbn [parse_digits].
  destruct (digit_value c); [apply IH|by intros [= <- <-]].
Qed.

Lemma parse_natural_extend s z r q :
  parse_natural s = Some (z, r) → r ≠ "" → parse_natural (s ++ q) = Some (z, r ++ q).
Proof.
  destruct s as [|c s]; [done|]. change (String c s ++ q) with (String c (s ++ q)). cbn [parse_natural].
  destruct (digit_value c) as [d|]; [|done]. destruct (d =? 0); [by intros [= <- <-]|].
  intros [= Hd] Hr. f_equal. by apply parse_digits_extend.
Qed.

Definition is_int (v : json) : Prop := ∃ z, v = JInt z.

(** The first character of a number. *)
Lemma parse_number_head s p : parse_number s = Some p →
  ∃ c r, s = String c r ∧ (c = "-"%char ∨ is_digit c = true).
Proof.
  unfold parse_number. destruct (strip_prefix "-" s) as [r|] eqn:Hs.
  - intros _. apply strip_prefix_Some in Hs as ->. exists "-"%char, r. auto.
  - destruct s as [|c s]; [done|]. cbn [parse_natural]. intros Hp. exists c, s. split; [done|]. right.
    unfold is_digit. apply bool_decide_eq_true. by destruct (digit_value c).
Qed.

Lemma parse_number_extend s v r q :
  parse_number s = Some (v, r) → r ≠ "" → parse_number (s ++ q) = Some (v, r ++ q).
Proof.
  intros Hp Hr. destruct (parse_number_head _ _ Hp) as (c & s' & -> & Hc). revert Hp. unfold parse_number.
  destruct (strip_prefix "-" (String c s')) as [t|] eqn:Hs.
  - rewrite (strip_prefix_extend _ _ _ q Hs). destruct (parse_natural t) as [[z u]|] eqn:Hn; [|done].
    intros [= <- <-]. by rewrite (parse_natural_extend _ _ _ q Hn).
  - change (String c s' ++ q) with (String c (s' ++ q)).
    assert (strip_prefix "-" (String c (s' ++ q)) = None) as ->.
    { revert Hs. cbn [strip_prefix]. by case_decide. }
    change (String c (s' ++ q)) with (String c s' ++ q).
    destruct (parse_natural (String c s')) as [[z u]|] eqn:Hn; [|done].
    intros [= <- <-]. by rewrite (parse_natural_extend _ _ _ q Hn).
Qed.

Lemma parse_word_number c r : c = "-"%char ∨ is_digit c = true → parse_word (String c r) = None.
Proof.
  intros Hc. unfold parse_word. cbn [strip_prefix].
  rewrite !decide_False; [done|..]; intros <-; destruct Hc as [|Hc]; done.
Qed.

Lemma parse_word_extend s v r q : parse_word s = Some (v, r) → parse_word (s ++ q) = Some (v, r ++ q).
Proof.
  unfold parse_word. destruct (strip_prefix "null" s) as [t|] eqn:H1.
  { intros [= <- <-]. by rewrite (strip_prefix_extend _ _ _ q H1). }
  destruct (strip_prefix "true" s) as [t|] eqn:H2.
  { intros [= <- <-]. rewrite (strip_prefix_extend _ _ _ q H2). apply strip_prefix_Some in H2 as ->. done. }
  destruct (strip_prefix "false" s) as [t|] eqn:H3; [|done].
  intros [= <- <-]. rewrite (strip_prefix_extend _ _ _ q H3). apply strip_prefix_Some in H3 as ->. done.
Qed.

Lemma parse_word_int s v r : parse_word s = Some (v, r) → ¬ is_int v.
Proof. unfold parse_word. repeat case_match; intros Hp [z ?]; simplify_eq. Qed.

Lemma parse_number_int s v r : parse_number s = Some (v, r) → is_int v.
Proof.
  unfold parse_number. destruct (strip_prefix _ _) as [t|]; [destruct (parse_natural t)|destruct (parse_natural s)];
    try done; intros [= <- <-]; by eexists.
Qed.

(** The bracket that closes an empty array or object. *)
Lemma strip_one c s r q :
  strip_prefix (String c "") (skip_ws s) = Some r → strip_prefix (String c "") (skip_ws (s ++ q)) = Some (r ++ q).
Proof.
  destruct (skip_ws s) as [|d t] eqn:Hs; [done|]. rewrite (skip_ws_extend _ _ _ q Hs).
  cbn [strip_prefix]. case_decide; [|done]. by intros [= <-].
Qed.

Lemma strip_none c s d t q :
  skip_ws s = String d t → strip_prefix (String c "") (skip_ws s) = None →
  strip_prefix (String c "") (skip_ws (s ++ q)) = None.
Proof. intros Hs. rewrite (skip_ws_extend _ _ _ q Hs), Hs. cbn [strip_prefix]. by case_decide. Qed.

Lemma parse_empty n : parse_value n "" = None ∧ parse_items n "" = None ∧ parse_members n "" = None.
Proof. by destruct n as [|[]]. Qed.

Definition extends {A} (p p' : string → option (A * string)) : Prop :=
  ∀ s a r q, p s = Some (a, r) → p' (s ++ q) = Some (a, r ++ q).

Section extend.
Context (n n' : nat).
Let value_extends : Prop := ∀ s v r q,
  parse_value n s = Some (v, r) → r ≠ "" ∨ ¬ is_int v → parse_value n' (s ++ q) = Some (v, r ++ q).
Context (IHv : value_extends) (IHi : extends (parse_items n) (parse_items n'))
  (IHm : extends (parse_members n) (parse_members n')).

Lemma parse_value_extend s v r q :
  parse_value (S n) s = Some (v, r) → r ≠ "" ∨ ¬ is_int v → parse_value (S n') (s ++ q) = Some (v, r ++ q).
Proof.
  destruct s as [|c s]; [done|]. change (String c s ++ q) with (String c (s ++ q)). cbn [parse_value].
  case_decide.
  { destruct (parse_chars s) as [[t u]|] eqn:Hp; [|done]. intros [= <- <-] _. by rewrite (parse_chars_extend _ _ _ _ Hp). }
  case_decide; [|case_decide].
  - destruct (strip_prefix "]" (skip_ws s)) as [u|] eqn:Hs; [intros [= <- <-] _; by rewrite (strip_one _ _ _ _ Hs)|].
    destruct (skip_ws s) as [|d t] eqn:Hw; [by rewrite (proj1 (proj2 (parse_empty n)))|].
    rewrite <- Hw in Hs. rewrite (strip_none _ _ _ _ q Hw Hs), (skip_ws_extend _ _ _ q Hw).
    destruct (parse_items n (String d t)) as [[l u]|] eqn:Hp; [|done]. intros [= <- <-] _.
    change (String d (t ++ q)) with (String d t ++ q). by rewrite (IHi _ _ _ q Hp).
  - destruct (strip_prefix "}" (skip_ws s)) as [u|] eqn:Hs; [intros [= <- <-] _; by rewrite (strip_one _ _ _ _ Hs)|].
    destruct (skip_ws s) as [|d t] eqn:Hw; [by rewrite (proj2 (proj2 (parse_empty n)))|].
    rewrite <- Hw in Hs. rewrite (strip_none _ _ _ _ q Hw Hs), (skip_ws_extend _ _ _ q Hw).
    destruct (parse_members n (String d t)) as [[l u]|] eqn:Hp; [|done]. intros [= <- <-] _.
    change (String d (t ++ q)) with (String d t ++ q). by rewrite (IHm _ _ _ q Hp).
  - change (String c (s ++ q)) with (String c s ++ q).
    destruct (parse_word (String c s)) as [[w u]|] eqn:Hw; [intros [= <- <-] _; by rewrite (parse_word_extend _ _ _ q Hw)|].
    intros Hp [Hr|Hi]; [|by destruct Hi; eapply parse_number_int].
    destruct (parse_number_head _ _ Hp) as (d & t & Heq & Hd). injection Heq as <- <-.
    change (String c s ++ q) with (String c (s ++ q)). rewrite (parse_word_number _ _ Hd).
    by apply (parse_number_extend (String c s)).
Qed.

Lemma ws_before s c t : skip_ws s = String c t → s ≠ "".
Proof. by destruct s. Qed.

Lemma parse_items_extend : extends (parse_items (S n)) (parse_items (S n')).
Proof.
  intros s l r q. cbn [parse_items]. destruct (parse_value n s) as [[v u]|] eqn:Hv; [|done].
  destruct (skip_ws u) as [|c t] eqn:Hu; [done|].
  rewrite (IHv _ _ _ q Hv) by (left; by eapply ws_before). rewrite (skip_ws_extend _ _ _ q Hu).
  case_decide; [by intros [= <- <-]|]. case_decide; [|done].
  destruct (skip_ws t) as [|d t'] eqn:Ht; [by rewrite (proj1 (proj2 (parse_empty n)))|].
  rewrite (skip_ws_extend _ _ _ q Ht). destruct (parse_items n (String d t')) as [[l' u']|] eqn:Hp; [|done].
  intros [= <- <-]. change (String d (t' ++ q)) with (String d t' ++ q). by rewrite (IHi _ _ _ q Hp).
Qed.

Lemma parse_members_extend : extends (parse_members (S n)) (parse_members (S n')).
Proof.
  intros s l r q. cbn [parse_members]. destruct (strip_prefix _ s) as [s1|] eqn:Hs; [|done].
  rewrite (strip_prefix_extend _ _ _ q Hs). destruct (parse_chars s1) as [[k u]|] eqn:Hk; [|done].
  rewrite (parse_chars_extend _ _ _ q Hk). destruct (strip_prefix ":" (skip_ws u)) as [s2|] eqn:Hc; [|done].
  rewrite (strip_one _ _ _ q Hc). destruct (skip_ws s2) as [|d t] eqn:Hw; [by rewrite (proj1 (parse_empty n))|].
  rewrite (skip_ws_extend _ _ _ q Hw). change (String d (t ++ q)) with (String d t ++ q).
  destruct (parse_value n (String d t)) as [[v u2]|] eqn:Hv; [|done].
  destruct (skip_ws u2) as [|c t2] eqn:Hu; [done|].
  rewrite (IHv _ _ _ q Hv) by (left; by eapply ws_before). rewrite (skip_ws_extend _ _ _ q Hu).
  case_decide; [by intros [= <- <-]|]. case_decide; [|done].
  destruct (skip_ws t2) as [|e t'] eqn:Ht; [by rewrite (proj2 (proj2 (parse_empty n)))|].
  rewrite (skip_ws_extend _ _ _ q Ht). destruct (parse_members n (String e t')) as [[l' u']|] eqn:Hp; [|done].
  intros [= <- <-]. change (String e (t' ++ q)) with (String e t' ++ q). by rewrite (IHm _ _ _ q Hp).
Qed.
End extend.

Lemma parse_extend n n' : (n <= n')%nat →
  (∀ s v r q, parse_value n s = Some (v, r) → r ≠ "" ∨ ¬ is_int v → parse_value n' (s ++ q) = Some (v, r ++ q)) ∧
  extends (parse_items n) (parse_items n') ∧ extends (parse_members n) (parse_members n').
Proof.
  revert n'. induction n as [|n IH]; intros [|n'] Hn; [by split_and!|by split_and!|lia|].
  destruct (IH n' ltac:(lia)) as (IHv & IHi & IHm). split_and!.
  - intros s v r q. by apply parse_value_extend.
  - by apply parse_items_extend.
  - by apply parse_members_extend.
Qed.

(** ** The two facts *)

(** What [dumps] writes, [loads] reads, up to the order of the items. *)
Lemma loads_dumps v : json_ok v → loads (dumps v) = Some (canon v).
Proof.
  intros Hv%canon_ok. unfold loads, dumps. destruct (render_head (canon v)) as (c & r & Hr & Hc & _).
  assert (skip_ws (render (canon v)) = render (canon v)) as -> by (rewrite Hr; by apply skip_ws_cons).
  pose proof (parse_render _ Hv (S (String.length (render (canon v)))) "" ltac:(lia) I) as Hp.
  rewrite str_app_nil_r in Hp. by rewrite Hp.
Qed.

(** No text of an object can be cut short and still decode. *)
Lemma loads_dumps_cut d p q : json_ok (JDict d) → dumps (JDict d) = p ++ q → q ≠ "" → loads p = None.
Proof.
  intros Hd%canon_ok Hpq Hq. destruct (loads p) as [v|] eqn:Hl; [exfalso|done]. revert Hl. unfold loads.
  unfold dumps in Hpq. pose proof (parse_render _ Hd) as Hread. cbn [canon] in *.
  destruct p as [|c p]; [done|].
  assert (c = "{"%char) as -> by (cbn [render] in Hpq; by injection Hpq).
  rewrite skip_ws_cons by done.
  destruct (parse_value _ _) as [[w r]|] eqn:Hp; [|done]. case_decide as Hr; [|done]. intros _.
  assert (Hint : ¬ is_int w).
  { revert Hp. cbn [parse_value]. do 2 rewrite decide_False by done. rewrite decide_True by done.
    destruct (strip_prefix _ _); [intros [= <- <-] [z ?]; done|].
    destruct (parse_members _ _) as [[]|]; [intros [= <- <-] [z ?]; done|done]. }
  set (n := S (String.length (String "{" p ++ q))).
  pose proof (proj1 (parse_extend (S (String.length (String "{" p))) n ltac:(unfold n; rewrite str_app_length; lia)) _ _ _ q Hp (or_intror Hint)) as Hext.
  rewrite <- Hpq in Hext. specialize (Hread n "" ltac:(unfold n; rewrite <- Hpq; apply Nat.lt_succ_diag_r) I).
  rewrite str_app_nil_r, Hext in Hread. injection Hread as _ Hnil. by destruct r, q.
Qed.
