(* ===== verification/PyStamp.v ===== *)
(** * A datetime by its fields

    [isoformat] of a datetime with or without an offset, and [fromisoformat] on the texts it
    writes (the other forms of ISO 8601 do not parse here). *)

From Stdlib Require Import Strings.Ascii.
From S2P Require Import Prelude PyText PyLines.
Open Scope string_scope.
Open Scope Z_scope.

(** The offset is [utcoffset()] in microseconds. *)
Record Stamp := {
  st_year : Z;
  st_month : Z;
  st_day : Z;
  st_hour : Z;
  st_minute : Z;
  st_second : Z;
  st_microsecond : Z;
  st_offset : option timedelta;
}.

Definition is_leap (y : Z) : bool := (y mod 4 =? 0) && (negb (y mod 100 =? 0) || (y mod 400 =? 0)).

Definition days_in_month (y m : Z) : Z :=
  if m =? 2 then if is_leap y then 29 else 28
  else if bool_decide (m ∈ [4; 6; 9; 11]) then 30 else 31.

Definition in_range (lo hi z : Z) : bool := (lo <=? z) && (z <=? hi).

(** What [datetime] and [timezone] accept. *)
Definition stamp_ok (t : Stamp) : bool :=
  in_range 1 9999 (st_year t) && in_range 1 12 (st_month t) &&
  in_range 1 (days_in_month (st_year t) (st_month t)) (st_day t) &&
  in_range 0 23 (st_hour t) && in_range 0 59 (st_minute t) && in_range 0 59 (st_second t) &&
  in_range 0 999999 (st_microsecond t) &&
  match st_offset t with Some o => Z.abs o <? day_us | None => true end.

(** [.ffffff], unless zero *)
Definition micro_text (us : Z) : string := if us =? 0 then "" else "." ++ dec_digits 6 us.

Definition offset_text (o : timedelta) : string :=
  let a := Z.abs o in
  let s := a / 1000000 in
  (if o <? 0 then "-" else "+") ++ dec_digits 2 (s / 3600) ++ ":" ++ dec_digits 2 (s / 60 mod 60) ++
  (if a mod 60000000 =? 0 then "" else ":" ++ dec_digits 2 (s mod 60) ++ micro_text (a mod 1000000)).

Definition stamp_text (t : Stamp) : string :=
  dec_digits 4 (st_year t) ++ "-" ++ dec_digits 2 (st_month t) ++ "-" ++ dec_digits 2 (st_day t) ++ "T" ++
  dec_digits 2 (st_hour t) ++ ":" ++ dec_digits 2 (st_minute t) ++ ":" ++ dec_digits 2 (st_second t) ++
  micro_text (st_microsecond t) ++ from_option offset_text "" (st_offset t).

(** Exactly [k] digits, as the continuation of [acc], and what follows. *)
Fixpoint take_digits (k : nat) (acc : Z) (s : string) : option (Z * string) :=
  match k with
  | O => Some (acc, s)
  | S k => match s with
           | EmptyString => None
           | String c r => match digit_value c with
                           | Some d => take_digits k (10 * acc + d) r
                           | None => None
                           end
           end
  end.

(** A separator and [k] digits. *)
Definition take_field (sep : string) (k : nat) (s : string) : option (Z * string) :=
  match strip_prefix sep s with Some r => take_digits k 0 r | None => None end.

Definition take_micro (s : string) : option (Z * string) :=
  match strip_prefix "." s with Some r => take_digits 6 0 r | None => Some (0, s) end.

(** Hours, minutes and perhaps seconds of an offset, to the end of the text. *)
Definition take_offset (s : string) : option timedelta :=
  match take_digits 2 0 s with
  | Some (h, r) =>
      match take_field ":" 2 r with
      | Some (m, r) =>
          let o := (h * 3600 + m * 60) * 1000000 in
          if decide (r = "") then Some o
          else match take_field ":" 2 r with
               | Some (x, r) =>
                   match take_micro r with
                   | Some (us, r) => if decide (r = "") then Some (o + x * 1000000 + us) else None
                   | None => None
                   end
               | None => None
               end
      | None => None
      end
  | None => None
  end.

(** The offset of a datetime, [None] in one without. *)
Definition parse_offset (s : string) : option (option timedelta) :=
  match strip_prefix "+" s, strip_prefix "-" s with
  | Some r, _ => Some <$> take_offset r
  | _, Some r => (λ o, Some (- o)) <$> take_offset r
  | None, None => if decide (s = "") then Some None else None
  end.

Definition parse_fields (s : string) : option Stamp :=
  '(y, s) ← take_digits 4 0 s; '(mo, s) ← take_field "-" 2 s; '(d, s) ← take_field "-" 2 s;
  '(h, s) ← take_field "T" 2 s; '(mi, s) ← take_field ":" 2 s; '(sec, s) ← take_field ":" 2 s;
  '(us, s) ← take_micro s; o ← parse_offset s;
  Some {| st_year := y; st_month := mo; st_day := d; st_hour := h; st_minute := mi; st_second := sec;
          st_microsecond := us; st_offset := o |}.

(** [datetime.fromisoformat(s)]; [None] is a [ValueError]. *)
Definition fromisoformat (s : string) : option Stamp :=
  match parse_fields s with
  | Some t => if stamp_ok t then Some t else None
  | None => None
  end.

(** ** What is written is read back *)

Lemma digit_value_hex z : 0 <= z < 10 → digit_value (hex_digit (Z.to_N z)) = Some z.
Proof.
  intros Hz. assert (z = 0 ∨ z = 1 ∨ z = 2 ∨ z = 3 ∨ z = 4 ∨ z = 5 ∨ z = 6 ∨ z = 7 ∨ z = 8 ∨ z = 9) as H by lia.
  by repeat destruct H as [->|H]; [done..|subst].
Qed.

Lemma take_dec_digits k m acc z q : 0 <= z < 10 ^ Z.of_nat k →
  take_digits (k + m) acc (dec_digits k z ++ q) = take_digits m (acc * 10 ^ Z.of_nat k + z) q.
Proof.
  revert m acc z q. induction k as [|k IH]; intros m acc z q Hz.
  - simpl in *. f_equal. lia.
  - rewrite Nat2Z.inj_succ, Z.pow_succ_r in * by lia. cbn [dec_digits]. rewrite <- str_app_assoc.
    replace (S k + m)%nat with (k + S m)%nat by lia.
    rewrite IH by (Z.div_mod_to_equations; lia).
    change (String ?c "" ++ q) with (String c q). cbn [take_digits].
    rewrite digit_value_hex by (apply Z.mod_pos_bound; lia). f_equal.
    pose proof (Z.div_mod z 10). lia.
Qed.

Lemma take_dec k z q : 0 <= z < 10 ^ Z.of_nat k → take_digits k 0 (dec_digits k z ++ q) = Some (z, q).
Proof. intros Hz. pose proof (take_dec_digits k 0 0 z q Hz) as H. by rewrite Nat.add_0_r in H. Qed.

Lemma take_field_dec sep k z q : 0 <= z < 10 ^ Z.of_nat k → take_field sep k (sep ++ dec_digits k z ++ q) = Some (z, q).
Proof. intros Hz. unfold take_field. rewrite strip_prefix_app. by apply take_dec. Qed.

Lemma take_micro_text us q :
  0 <= us <= 999999 → strip_prefix "." q = None → take_micro (micro_text us ++ q) = Some (us, q).
Proof.
  intros Hus Hq. unfold take_micro, micro_text. destruct (Z.eqb_spec us 0) as [->|].
  - change ("" ++ q) with q. by rewrite Hq.
  - rewrite <- str_app_assoc, strip_prefix_app. apply take_dec. lia.
Qed.

Lemma take_offset_text o : 0 <= o < day_us →
  take_offset (dec_digits 2 (o / 1000000 / 3600) ++ ":" ++ dec_digits 2 (o / 1000000 / 60 mod 60) ++
    (if o mod 60000000 =? 0 then "" else ":" ++ dec_digits 2 (o / 1000000 mod 60) ++ micro_text (o mod 1000000))) = Some o.
Proof.
  unfold day_us, take_offset. intros Ho.
  rewrite take_dec by (simpl; Z.div_mod_to_equations; lia).
  rewrite take_field_dec by (simpl; Z.div_mod_to_equations; lia).
  destruct (Z.eqb_spec (o mod 60000000) 0) as [Hz|Hz].
  - rewrite decide_True by done. f_equal. Z.div_mod_to_equations; lia.
  - rewrite decide_False by done. rewrite take_field_dec by (simpl; Z.div_mod_to_equations; lia).
    rewrite <- (str_app_nil_r (micro_text _)), take_micro_text by (done || (Z.div_mod_to_equations; lia)).
    rewrite decide_True by done. f_equal. Z.div_mod_to_equations; lia.
Qed.

Lemma parse_offset_text o : match o with Some o => Z.abs o <? day_us | None => true end = true →
  parse_offset (from_option offset_text "" o) = Some o.
Proof.
  destruct o as [o|]; [|done]. rewrite Z.ltb_lt. intros Ho. cbn [from_option]. unfold offset_text.
  pose proof (take_offset_text (Z.abs o) ltac:(lia)) as Ht. destruct (Z.ltb_spec o 0).
  - unfold parse_offset. change (strip_prefix "+" ("-" ++ ?x)) with (@None string).
    rewrite strip_prefix_app, Ht. simpl. do 2 f_equal. lia.
  - unfold parse_offset. rewrite strip_prefix_app, Ht. simpl. do 2 f_equal. lia.
Qed.

Lemma offset_text_no_dot o : strip_prefix "." (from_option offset_text "" o) = None.
Proof. destruct o as [o|]; [|done]. cbn [from_option]. unfold offset_text. by destruct (o <? 0). Qed.

Lemma fromisoformat_text t : stamp_ok t = true → fromisoformat (stamp_text t) = Some t.
Proof.
  intros Hok. unfold fromisoformat. assert (parse_fields (stamp_text t) = Some t) as ->; [|by rewrite Hok].
  unfold stamp_ok, in_range in Hok. rewrite !andb_true_iff, !Z.leb_le in Hok.
  assert (days_in_month (st_year t) (st_month t) <= 31) by (unfold days_in_month; repeat case_match; lia).
  destruct Hok as ((((((((Hy1 & Hy2) & Hm1 & Hm2) & Hd1 & Hd2) & Hh1 & Hh2) & Hi1 & Hi2) & Hs1 & Hs2) & Hu1 & Hu2) & Ho).
  unfold parse_fields, stamp_text. rewrite take_dec by (simpl; lia). cbn [mbind option_bind].
  do 5 (rewrite take_field_dec by (simpl; lia); cbn [mbind option_bind]).
  rewrite take_micro_text by (apply offset_text_no_dot || lia). cbn [mbind option_bind].
  rewrite parse_offset_text by done. by destruct t.
Qed.
