(* ===== verification/ReceiptLog.v ===== *)
(** * The log of Notion operation receipts

    [observability/receipts.py]: a receipt is checked and frozen when it is built; a log keeps
    receipts by key and, with a path, appends each as a line of JSON.  A write may stop at any
    byte: a torn last line is skipped on loading and cut off before the next append.

    A file holds ASCII text here; other bytes do not decode.  The lock of a path makes each
    operation of a log one step. *)

From Stdlib Require Import Strings.Ascii.
From S2P Require Import Prelude PyText PyLines PyDict Errors Tables Files JsonText PyStamp.
Open Scope string_scope.
Open Scope Z_scope.

(** ** Receipts *)

Inductive ReceiptStatus : Set := Success | Unknown | Failure.

Definition ReceiptStatus_value (s : ReceiptStatus) : string :=
  match s with Success => "Success" | Unknown => "Unknown" | Failure => "Failure" end.

Definition _STATUSES : list (string * ReceiptStatus) :=
  (λ s, (ReceiptStatus_value s, s)) <$> [Success; Unknown; Failure].

Definition _MAX_RECEIPT_DEPTH : nat := 32.

Definition duplicate_receipt {A} (idempotency_key : string) : result exn A :=
  Raise (Exn DuplicateReceiptError ("idempotency key " ++ str_repr idempotency_key ++ " is already recorded")).

(** The key of a mapping: a string or another object. *)
Inductive pykey : Set :=
  | KStr (s : string)
  | KOther.

(** A value of a mapping before it is frozen, [POther] one that JSON refuses; floats are left
    out.  Values are trees, so none contains itself. *)
Inductive pyval : Set :=
  | PNone
  | PBool (b : bool)
  | PInt (z : Z)
  | PStr (s : string)
  | PSeq (l : list pyval)
  | PMap (d : list (pykey * pyval))
  | POther.

Definition too_deep {A} : result exn A := value_error "more than 32 levels below the field mapping is rejected".

Fixpoint _freeze_value (depth : nat) (value : pyval) : result exn pyval :=
  match value with
  | PSeq l =>
      if (_MAX_RECEIPT_DEPTH <? depth)%nat then too_deep
      else let? l := traverse (_freeze_value (S depth)) l in Ok (PSeq l)
  | PMap d =>
      if (_MAX_RECEIPT_DEPTH <? depth)%nat then too_deep
      else
        let? d := traverse (λ kv,
          match kv.1 with
          | KOther => value_error "receipt mapping keys must be strings"
          | KStr _ => let? v := _freeze_value (S depth) kv.2 in Ok (kv.1, v)
          end) d in
        Ok (PMap d)
  | v => Ok v
  end.

Definition not_serializable {A} : result exn A := value_error "receipt fields must be JSON-serializable".

(** [_plain] and the check that [json.dumps] accepts the value. *)
Fixpoint _plain (value : pyval) : result exn json :=
  match value with
  | PNone => Ok JNull
  | PBool b => Ok (JBool b)
  | PInt z => Ok (JInt z)
  | PStr s => Ok (JStr s)
  | PSeq l => let? l := traverse _plain l in Ok (JList l)
  | PMap d =>
      let? d := traverse (λ kv,
        match kv.1 with
        | KStr k => let? v := _plain kv.2 in Ok (k, v)
        | KOther => not_serializable
        end) d in
      Ok (JDict (dict_of d))
  | POther => not_serializable
  end.

Record NotionOperationReceipt := {
  nr_job_id : string;
  nr_operation : string;
  nr_workspace : string;
  nr_target : string;
  nr_pre_state : option (list (string * json));
  nr_post_state : list (string * json);
  nr_provider_response : list (string * json);
  nr_evidence : string;
  nr_timestamp : Stamp;
  nr_idempotency_key : string;
  nr_status : ReceiptStatus;
}.

(** The arguments of the constructor. *)
Record ReceiptArgs := {
  ra_job_id : string;
  ra_operation : string;
  ra_workspace : string;
  ra_target : string;
  ra_pre_state : option pyval;
  ra_post_state : pyval;
  ra_provider_response : pyval;
  ra_evidence : string;
  ra_timestamp : Stamp;
  ra_idempotency_key : string;
  ra_status : string;
}.

Definition _require_text (field_name value : string) : result exn unit :=
  check (str_truth (str_strip value)) (field_name ++ " must be a non-empty string").

Definition _require_status (value : string) : result exn ReceiptStatus :=
  match dict_get value _STATUSES with
  | Some s => Ok s
  | None => value_error "status must be Success, Unknown, or Failure"
  end.

(** A [Stamp] whose fields are out of range is no [datetime]. *)
Definition _require_datetime (value : Stamp) : result exn unit :=
  do? check (stamp_ok value) "timestamp must be a datetime";
  check (bool_decide (is_Some (st_offset value))) "timestamp must be timezone-aware".

Definition _snapshot_mapping (field_name : string) (value : pyval) : result exn pyval :=
  match value with
  | PMap _ => _freeze_value 0 value
  | _ => value_error (field_name ++ " must be a mapping")
  end.

(** The object that a frozen mapping becomes. *)
Definition plain_mapping (value : pyval) : result exn (list (string * json)) :=
  let? v := _plain value in
  match v with JDict d => Ok d | _ => not_serializable end.

(** The constructor with [__post_init__]. *)
Definition new_receipt (a : ReceiptArgs) : result exn NotionOperationReceipt :=
  do? _require_text "job_id" (ra_job_id a);
  do? _require_text "operation" (ra_operation a);
  do? _require_text "workspace" (ra_workspace a);
  do? _require_text "target" (ra_target a);
  do? _require_text "evidence" (ra_evidence a);
  do? _require_text "idempotency_key" (ra_idempotency_key a);
  let? status := _require_status (ra_status a) in
  do? _require_datetime (ra_timestamp a);
  let? pre_state := match ra_pre_state a with
                    | None => Ok None
                    | Some v => let? v := _snapshot_mapping "pre_state" v in Ok (Some v)
                    end in
  let? post_state := _snapshot_mapping "post_state" (ra_post_state a) in
  let? provider_response := _snapshot_mapping "provider_response" (ra_provider_response a) in
  let? pre_state := match pre_state with
                    | None => Ok None
                    | Some v => let? d := plain_mapping v in Ok (Some d)
                    end in
  let? post_state := plain_mapping post_state in
  let? provider_response := plain_mapping provider_response in
  Ok {| nr_job_id := ra_job_id a; nr_operation := ra_operation a; nr_workspace := ra_workspace a;
        nr_target := ra_target a; nr_pre_state := pre_state; nr_post_state := post_state;
        nr_provider_response := provider_response; nr_evidence := ra_evidence a;
        nr_timestamp := ra_timestamp a; nr_idempotency_key := ra_idempotency_key a; nr_status := status |}.

Definition _json_payload (r : NotionOperationReceipt) : json :=
  JDict [("job_id", JStr (nr_job_id r)); ("operation", JStr (nr_operation r));
         ("workspace", JStr (nr_workspace r)); ("target", JStr (nr_target r));
         ("pre_state", from_option JDict JNull (nr_pre_state r)); ("post_state", JDict (nr_post_state r));
         ("provider_response", JDict (nr_provider_response r)); ("evidence", JStr (nr_evidence r));
         ("timestamp", JStr (stamp_text (nr_timestamp r))); ("idempotency_key", JStr (nr_idempotency_key r));
         ("status", JStr (ReceiptStatus_value (nr_status r)))].

(** ** Reading a receipt *)

Definition _text_field (payload : list (string * json)) (key : string) : result exn string :=
  match json_get key payload with
  | Some (JStr s) => Ok s
  | _ => value_error (key ++ " must be a string")
  end.

Definition _mapping_field (payload : list (string * json)) (key : string) : result exn json :=
  match json_get key payload with
  | Some (JDict d) => Ok (JDict d)
  | _ => value_error (key ++ " must be a JSON object")
  end.

Definition _status_field (payload : list (string * json)) : result exn string :=
  let? status := _text_field payload "status" in
  let? s := _require_status status in
  Ok (ReceiptStatus_value s).

(** A decoded value as an argument of the constructor. *)
Fixpoint of_json (v : json) : pyval :=
  match v with
  | JNull => PNone
  | JBool b => PBool b
  | JInt z => PInt z
  | JStr s => PStr s
  | JList l => PSeq (of_json <$> l)
  | JDict d => PMap ((λ kv, (KStr kv.1, of_json kv.2)) <$> d)
  end.

Definition _receipt_from_payload (payload : json) : result exn NotionOperationReceipt :=
  match payload with
  | JDict payload =>
      match json_get "timestamp" payload with
      | Some (JStr timestamp) =>
          let? pre_state := match json_get "pre_state" payload with
                            | None | Some JNull => Ok None
                            | Some (JDict d) => Ok (Some (of_json (JDict d)))
                            | Some _ => value_error "pre_state must be a JSON object or null"
                            end in
          let? job_id := _text_field payload "job_id" in
          let? operation := _text_field payload "operation" in
          let? workspace := _text_field payload "workspace" in
          let? target := _text_field payload "target" in
          let? post_state := _mapping_field payload "post_state" in
          let? provider_response := _mapping_field payload "provider_response" in
          let? evidence := _text_field payload "evidence" in
          match fromisoformat timestamp with
          | None => value_error ("Invalid isoformat string: " ++ str_repr timestamp)
          | Some timestamp =>
              let? idempotency_key := _text_field payload "idempotency_key" in
              let? status := _status_field payload in
              new_receipt
                {| ra_job_id := job_id; ra_operation := operation; ra_workspace := workspace; ra_target := target;
                   ra_pre_state := pre_state; ra_post_state := of_json post_state;
                   ra_provider_response := of_json provider_response; ra_evidence := evidence;
                   ra_timestamp := timestamp; ra_idempotency_key := idempotency_key; ra_status := status |}
          end
      | _ => value_error "receipt timestamp must be a string"
      end
  | _ => value_error "receipt record must be a JSON object"
  end.

(** ** The file *)

Definition _complete_json (line : string) : bool := bool_decide (is_Some (loads line)).

(** [data.decode("utf-8")] *)
Definition decode (data : string) : result exn string :=
  if str_all (λ c, Ascii.N_of_ascii c <? 128)%N data then Ok data else Raise (Exn UnicodeDecodeError "").

(** What is up to the last newline, and what follows. *)
Fixpoint split_tail (s : string) : string * string :=
  match s with
  | EmptyString => (EmptyString, EmptyString)
  | String c r =>
      let (prefix, tail) := split_tail r in
      if decide (prefix = "") then
        if decide (c = lf) then (String c "", tail) else (EmptyString, String c tail)
      else (String c prefix, tail)
  end.

Definition _log_text (data : string) : result exn string :=
  let (prefix, tail) := split_tail data in
  if decide (tail = "") then decode data
  else match decode tail with
       | Raise _ => decode prefix
       | Ok tail_text => let? p := decode prefix in Ok (p ++ tail_text)
       end.

Definition line_break (c : Ascii.ascii) : bool :=
  let n := Ascii.N_of_ascii c in ((10 <=? n) && (n <=? 13) || (28 <=? n) && (n <=? 30))%N.

(** [text.splitlines()] *)
Fixpoint splitlines (s : string) : list string :=
  match s with
  | EmptyString => []
  | String c r =>
      if line_break c then
        EmptyString ::
        match r with
        | String d r' => if decide (c = cr ∧ d = lf) then splitlines r' else splitlines r
        | EmptyString => []
        end
      else match splitlines r with
           | p :: ps => String c p :: ps
           | [] => [String c ""]
           end
  end.

(** The lines of the receipts; a torn tail is skipped, a complete one is kept. *)
Definition _logical_lines (text : string) : list string :=
  let lines := splitlines text in
  if decide ((split_tail text).2 = "") then lines
  else match last lines with
       | Some line => if _complete_json line then lines else removelast lines
       | None => lines
       end.

Abbreviation Store := (FileStore string).

Definition file_at (path : string) : M Store exn (option string) := gets (λ s, fs_files s !! path).

(** Writing at the end of the file, which is created if it is missing. *)
Definition write_end (path text : string) : M Store exn unit :=
  let put t := set_files (λ fs, <[path := default "" (fs !! path) ++ t]> fs) in
  let* fault := next_fault in
  match fault with
  | NoFault => put text
  | Fails None => os_error
  | Fails (Some kept) => do* put (String.substring 0 kept text); os_error
  end.

(** [handle.truncate(n)] where the bytes kept are [prefix]. *)
Definition truncate (path prefix : string) : M Store exn unit :=
  let* fault := next_fault in
  match fault with
  | NoFault => set_files <[path := prefix]>
  | Fails None => os_error
  | Fails (Some _) => do* set_files <[path := prefix]>; os_error
  end.

(** [open("rb+")] and the two reads are calls that may fail. *)
Definition _repair_tail (path : string) : M Store exn unit :=
  let* file := file_at path in
  match file with
  | None => pyret tt
  | Some data =>
      do* file_call;
      if decide (data = "") then pyret tt
      else
        do* file_call;
        let (prefix, tail) := split_tail data in
        if decide (tail = "") then pyret tt
        else
          do* file_call;
          match decode tail with
          | Ok text => if _complete_json text then write_end path (String lf "") else truncate path prefix
          | Raise _ => truncate path prefix
          end
  end.

(** The line of a receipt, without its newline. *)
Definition line (r : NotionOperationReceipt) : string := dumps (_json_payload r).

Definition _append (path : string) (r : NotionOperationReceipt) : M Store exn unit :=
  do* _repair_tail path;
  write_end path (line r ++ String lf "").

(** ** The log *)

(** [_by_key] *)
Definition Keys : Type := list (string * NotionOperationReceipt).

Definition read_bytes (path : string) : M Store exn string :=
  do* file_call;
  let* file := file_at path in
  pyret (default "" file).

(** One line: the keys seen in the file and the number of the next line. *)
Definition load_line (path : string) (st : list string * Z) (text : string)
    : M (Keys * Store) exn (list string * Z) :=
  let (seen, number) := st in
  if negb (str_truth (str_strip text)) then pyret (seen, number + 1)
  else
    match loads text with
    | None => lift_result (value_error (path ++ " line " ++ pretty number ++ " is not a receipt"))
    | Some payload =>
        let* receipt := lift_result (_receipt_from_payload payload) in
        let key := nr_idempotency_key receipt in
        if bool_decide (key ∈ seen) then lift_result (duplicate_receipt key)
        else
          let* by_key := gets fst in
          do* match dict_get key by_key with
              | Some _ => pyret tt
              | None => on_fst (modify (dict_put key receipt))
              end;
          pyret (key :: seen, number + 1)
    end.

Definition _load_new_keys (path : string) : M (Keys * Store) exn unit :=
  let* file := on_snd (file_at path) in
  match file with
  | None => pyret tt
  | Some _ =>
      let* data := on_snd (read_bytes path) in
      let* text := lift_result (_log_text data) in
      do* for_fold (load_line path) (_logical_lines text) ([], 1);
      pyret tt
  end.

Definition _load (path : string) : M (Keys * Store) exn unit :=
  do* on_fst (modify (λ _, []));
  _load_new_keys path.

(** The constructor, on a path whose directory exists. *)
Definition new_log (path : option string) : M (Keys * Store) exn unit :=
  do* on_fst (modify (λ _, []));
  match path with
  | None => pyret tt
  | Some path =>
      let* file := on_snd (file_at path) in
      match file with
      | None => pyret tt
      | Some _ => _load path
      end
  end.

Definition _store (path : option string) (r : NotionOperationReceipt) : M (Keys * Store) exn NotionOperationReceipt :=
  let* by_key := gets fst in
  match dict_get (nr_idempotency_key r) by_key with
  | Some _ => lift_result (duplicate_receipt (nr_idempotency_key r))
  | None =>
      do* match path with Some path => on_snd (_append path r) | None => pyret tt end;
      do* on_fst (modify (dict_put (nr_idempotency_key r) r));
      pyret r
  end.

Definition record (path : option string) (r : NotionOperationReceipt) : M (Keys * Store) exn NotionOperationReceipt :=
  do* match path with Some path => _load_new_keys path | None => pyret tt end;
  _store path r.

Definition get (idempotency_key : string) (by_key : Keys) : option NotionOperationReceipt :=
  dict_get idempotency_key by_key.

(** ** Logs in use *)

(** A log is made, or a receipt is built and recorded in the [i]th log.  A log is abandoned by
    not using it any more. *)
Inductive log_op : Type :=
  | MakeLog (path : option string)
  | RecordIn (i : nat) (a : ReceiptArgs).

(** The logs, the files, and what [record] has returned, with the path. *)
Record Desk := {
  dk_logs : list (option string * Keys);
  dk_store : Store;
  dk_recorded : list (option string * NotionOperationReceipt);
}.

Definition desk_step (d : Desk) (op : log_op) : Desk :=
  match op with
  | MakeLog path =>
      let '(r, (keys, s)) := new_log path ([], dk_store d) in
      {| dk_logs := match r with Ok _ => dk_logs d ++ [(path, keys)] | Raise _ => dk_logs d end;
         dk_store := s; dk_recorded := dk_recorded d |}
  | RecordIn i a =>
      match dk_logs d !! i, new_receipt a with
      | Some (path, keys), Ok r =>
          let '(res, (keys', s)) := record path r (keys, dk_store d) in
          {| dk_logs := <[i := (path, keys')]> (dk_logs d); dk_store := s;
             dk_recorded := match res with
                            | Ok r => dk_recorded d ++ [(path, r)]
                            | Raise _ => dk_recorded d
                            end |}
      | _, _ => d
      end
  end.

Definition desk_run (faults : list Fault) (ops : list log_op) : Desk :=
  fold_left desk_step ops {| dk_logs := []; dk_store := {| fs_files := ∅; fs_faults := faults |}; dk_recorded := [] |}.

(** ** What is frozen fits on a line *)

Lemma pyval_induction (P : pyval → Prop) :
  P PNone → (∀ b, P (PBool b)) → (∀ z, P (PInt z)) → (∀ s, P (PStr s)) → P POther →
  (∀ l, Forall P l → P (PSeq l)) → (∀ d, Forall (λ kv, P kv.2) d → P (PMap d)) → ∀ v, P v.
Proof.
  intros Hn Hb Hi Hs Ho Hl Hd. fix IH 1. intros [|b|z|s|l|d|]; [done|done|done|done| | |done].
  - apply Hl. induction l as [|v l IHl]; constructor; auto.
  - apply Hd. induction d as [|[k v] d IHd]; constructor; auto.
Qed.

(** At most 32 levels below the mapping at level 0. *)
Fixpoint fits (depth : nat) (v : json) : Prop :=
  match v with
  | JList l => (depth <= _MAX_RECEIPT_DEPTH)%nat ∧ foldr (λ v P, fits (S depth) v ∧ P) True l
  | JDict d => (depth <= _MAX_RECEIPT_DEPTH)%nat ∧ foldr (λ kv P, fits (S depth) kv.2 ∧ P) True d
  | _ => True
  end.

Lemma fits_list n l : fits n (JList l) ↔ (n <= _MAX_RECEIPT_DEPTH)%nat ∧ Forall (fits (S n)) l.
Proof. cbn [fits]. f_equiv. induction l as [|v l IH]; simpl; [by split|]. rewrite IH, Forall_cons. done. Qed.

Lemma fits_dict n d : fits n (JDict d) ↔ (n <= _MAX_RECEIPT_DEPTH)%nat ∧ Forall (λ kv, fits (S n) kv.2) d.
Proof. cbn [fits]. f_equiv. induction d as [|v l IH]; simpl; [by split|]. rewrite IH, Forall_cons. done. Qed.

Lemma canon_fits v n : fits n v → fits n (canon v).
Proof.
  revert n. induction v as [|b|z|s|l IH|d IH] using json_induction; intros n; try done.
  - rewrite fits_list. intros [Hn Hl]. apply fits_list. split; [done|].
    apply Forall_fmap. rewrite Forall_forall in *. unfold compose. auto.
  - rewrite fits_dict. intros [Hn Hd]. apply fits_dict. split; [done|]. rewrite sort_items_perm.
    apply Forall_fmap. rewrite Forall_forall in *. unfold compose. cbn [snd]. auto.
Qed.

Lemma dict_of_elem kv d : kv ∈ dict_of d → kv ∈ d.
Proof.
  unfold dict_of. assert (H : ∀ acc, kv ∈ fold_left (λ d kv, dict_put kv.1 kv.2 d) d acc → kv ∈ acc ∨ kv ∈ d).
  { induction d as [|[k v] d IH]; intros acc; cbn [fold_left fst snd]; [by left|]. intros [Hin|Hin]%IH; [|right; by right].
    revert Hin. clear. induction acc as [|[k1 v1] acc IH]; cbn [dict_put].
    - intros ->%list_elem_of_singleton. right. by left.
    - case_decide; [subst k1|].
      + intros [->|Hin]%elem_of_cons; [right; by left|left; by right].
      + intros [->|Hin]%elem_of_cons; [left; by left|]. destruct (IH Hin); [left; by right|by right]. }
  intros [[]%elem_of_nil|]%H; done.
Qed.

Lemma dict_of_keys d : NoDup (dict_of d).*1.
Proof.
  unfold dict_of. assert (H : ∀ acc : list (string * json), NoDup acc.*1 →
    NoDup (fold_left (λ d kv, dict_put kv.1 kv.2 d) d acc).*1); [|apply H; constructor].
  induction d as [|[k v] d IH]; intros acc Hacc; [done|]. by apply IH, dict_put_nodup.
Qed.

(** [_freeze_value] checks a value, and what passes becomes an object within the limits. *)
Lemma frozen_fits p n q v : _freeze_value n p = Ok q → _plain q = Ok v → fits n v ∧ json_ok v.
Proof.
  revert n q v. induction p as [|b|z|s| |l IH|d IH] using pyval_induction; intros n q v; cbn [_freeze_value].
  1-5: intros [= <-]; cbn [_plain]; by intros [= <-].
  - destruct (Nat.ltb_spec _MAX_RECEIPT_DEPTH n); [done|]. rewrite rbind_ok. intros (l' & Hl & [= <-]).
    cbn [_plain]. rewrite rbind_ok. intros (js & Hj & [= <-]). apply traverse_Forall2 in Hl, Hj.
    assert (Hall : Forall (λ v, fits (S n) v ∧ json_ok v) js).
    { revert l' js Hl Hj. induction IH as [|p l Hp _ IHl]; intros l' js Hl Hj; inversion Hl; subst;
        inversion Hj; subst; constructor; eauto. }
    rewrite fits_list, json_ok_list. rewrite !Forall_forall in *. split_and!; [done| |]; intros; by apply Hall.
  - destruct (Nat.ltb_spec _MAX_RECEIPT_DEPTH n); [done|]. rewrite rbind_ok. intros (d' & Hd & [= <-]).
    cbn [_plain]. rewrite rbind_ok. intros (js & Hj & [= <-]). apply traverse_Forall2 in Hd, Hj.
    assert (Hall : Forall (λ kv, fits (S n) kv.2 ∧ json_ok kv.2) js).
    { revert d' js Hd Hj. induction IH as [|[k p] d Hp _ IHd]; intros d' js Hd Hj; inversion Hd as [|? y ? ? Hy]; subst;
        inversion Hj as [|? z ? ? Hz]; subst; constructor; eauto.
      cbn [fst snd] in *. destruct k; [|done]. apply rbind_ok in Hy as (w & Hw & [= <-]).
      cbn [fst snd] in *. apply rbind_ok in Hz as (u & Hu & [= <-]). eauto. }
    rewrite fits_dict, json_ok_dict. rewrite !Forall_forall in *.
    split_and!; [done| |apply dict_of_keys|]; intros kv Hkv%dict_of_elem; by apply Hall.
Qed.

Lemma freeze_of_json v n : fits n v → _freeze_value n (of_json v) = Ok (of_json v).
Proof.
  revert n. induction v as [|b|z|s|l IH|d IH] using json_induction; intros n; try done.
  - rewrite fits_list. intros [Hn Hl]. cbn [of_json _freeze_value]. rewrite (proj2 (Nat.ltb_ge _ _) Hn).
    assert (traverse (_freeze_value (S n)) (of_json <$> l) = Ok (of_json <$> l)) as ->; [|done].
    apply traverse_Forall2, Forall2_fmap, Forall_Forall2_diag. rewrite Forall_forall in *. auto.
  - rewrite fits_dict. intros [Hn Hd]. cbn [of_json _freeze_value]. rewrite (proj2 (Nat.ltb_ge _ _) Hn).
    match goal with |- rbind ?t _ = _ => assert (t = Ok ((λ kv, (KStr kv.1, of_json kv.2)) <$> d)) as ->; [|done] end.
    apply traverse_Forall2, Forall2_fmap, Forall_Forall2_diag. rewrite Forall_forall in *. intros kv Hkv.
    cbn [fst snd]. by rewrite IH by auto.
Qed.

Lemma plain_of_json v : json_ok v → _plain (of_json v) = Ok v.
Proof.
  induction v as [|b|z|s|l IH|d IH] using json_induction; try done.
  - rewrite json_ok_list. intros Hl. cbn [of_json _plain].
    assert (traverse _plain (of_json <$> l) = Ok l) as ->; [|done].
    apply traverse_Forall2, Forall2_fmap_l, Forall_Forall2_diag. rewrite Forall_forall in *. auto.
  - rewrite json_ok_dict. intros [Hk Hd]. cbn [of_json _plain].
    match goal with |- rbind ?t _ = _ => assert (t = Ok d) as -> end.
    { apply traverse_Forall2, Forall2_fmap_l, Forall_Forall2_diag. rewrite Forall_forall in *. intros [k v] Hkv.
      specialize (IH _ Hkv (Hd _ Hkv)). cbn in *. by rewrite IH. }
    simpl. by rewrite dict_of_nodup.
Qed.

(** ** A receipt is read back *)

Definition sorted_items (d : list (string * json)) : list (string * json) :=
  sort_items ((λ kv, (kv.1, canon kv.2)) <$> d).

(** The receipt as its line gives it back: the items of its mappings are sorted. *)
Definition reread (r : NotionOperationReceipt) : NotionOperationReceipt :=
  {| nr_job_id := nr_job_id r; nr_operation := nr_operation r; nr_workspace := nr_workspace r;
     nr_target := nr_target r; nr_pre_state := sorted_items <$> nr_pre_state r;
     nr_post_state := sorted_items (nr_post_state r);
     nr_provider_response := sorted_items (nr_provider_response r); nr_evidence := nr_evidence r;
     nr_timestamp := nr_timestamp r; nr_idempotency_key := nr_idempotency_key r; nr_status := nr_status r |}.

Definition has_text (s : string) : Prop := str_truth (str_strip s) = true.

Definition mapping_ok (d : list (string * json)) : Prop := fits 0 (JDict d) ∧ json_ok (JDict d).

Record receipt_ok (r : NotionOperationReceipt) : Prop := {
  ro_texts : Forall has_text
    [nr_job_id r; nr_operation r; nr_workspace r; nr_target r; nr_evidence r; nr_idempotency_key r];
  ro_stamp : stamp_ok (nr_timestamp r) = true;
  ro_aware : is_Some (st_offset (nr_timestamp r));
  ro_pre : ∀ d, nr_pre_state r = Some d → mapping_ok d;
  ro_post : mapping_ok (nr_post_state r);
  ro_response : mapping_ok (nr_provider_response r);
}.

Definition args_of (r : NotionOperationReceipt) : ReceiptArgs :=
  {| ra_job_id := nr_job_id r; ra_operation := nr_operation r; ra_workspace := nr_workspace r;
     ra_target := nr_target r; ra_pre_state := (λ d, of_json (JDict d)) <$> nr_pre_state r;
     ra_post_state := of_json (JDict (nr_post_state r));
     ra_provider_response := of_json (JDict (nr_provider_response r)); ra_evidence := nr_evidence r;
     ra_timestamp := nr_timestamp r; ra_idempotency_key := nr_idempotency_key r;
     ra_status := ReceiptStatus_value (nr_status r) |}.

Lemma snapshot_ok name p q d : _snapshot_mapping name p = Ok q → plain_mapping q = Ok d → mapping_ok d.
Proof.
  unfold _snapshot_mapping, plain_mapping. destruct p; try done. intros Hq. rewrite rbind_ok.
  intros (v & Hv & Hd). destruct v; try done. injection Hd as ->. by eapply frozen_fits.
Qed.

Lemma snapshot_of_json name d : mapping_ok d →
  _snapshot_mapping name (of_json (JDict d)) = Ok (of_json (JDict d)) ∧ plain_mapping (of_json (JDict d)) = Ok d.
Proof.
  intros [Hf Hok]. unfold plain_mapping. rewrite (plain_of_json _ Hok). split; [|done].
  unfold _snapshot_mapping. cbn [of_json]. by apply (freeze_of_json _ _ Hf).
Qed.

Lemma check_then {A} c m (k : result exn A) a : rbind (check c m) (λ _, k) = Ok a ↔ c = true ∧ k = Ok a.
Proof. destruct c; simpl; naive_solver. Qed.

Lemma new_receipt_ok a r : new_receipt a = Ok r → receipt_ok r.
Proof.
  unfold new_receipt, _require_text. rewrite !check_then. intros (H1 & H2 & H3 & H4 & H5 & H6 & H).
  apply rbind_ok in H as (status & _ & H). unfold _require_datetime in H.
  apply rbind_ok in H as ([] & [Hs Ha%check_ok]%check_then & H).
  apply rbind_ok in H as (pre & Hpre & H). apply rbind_ok in H as (post & Hpost & H).
  apply rbind_ok in H as (resp & Hresp & H). apply rbind_ok in H as (pre' & Hpre' & H).
  apply rbind_ok in H as (post' & Hpost' & H). apply rbind_ok in H as (resp' & Hresp' & [= <-]).
  split; cbn; [rewrite !Forall_cons; split_and!; done|done|by apply bool_decide_eq_true in Ha| |exact (snapshot_ok _ _ _ _ Hpost Hpost')|exact (snapshot_ok _ _ _ _ Hresp Hresp')].
  intros d ->. destruct (ra_pre_state a) as [p|]; [|by injection Hpre as <-].
  apply rbind_ok in Hpre as (q & Hq & [= <-]). apply rbind_ok in Hpre' as (d' & Hd & [= ->]). exact (snapshot_ok _ _ _ _ Hq Hd).
Qed.

Lemma require_status_value s : _require_status (ReceiptStatus_value s) = Ok s.
Proof. by destruct s. Qed.

Lemma receipt_ok_new r : receipt_ok r → new_receipt (args_of r) = Ok r.
Proof.
  intros [Ht Hs Ha Hpre Hpost Hresp]. rewrite !Forall_cons in Ht. destruct Ht as (H1 & H2 & H3 & H4 & H5 & H6 & _).
  unfold new_receipt, _require_text. rewrite !check_then. split_and!; [done..|].
  cbn [ra_status args_of ra_timestamp]. rewrite require_status_value. cbn [rbind].
  unfold _require_datetime. rewrite Hs, (bool_decide_true _ Ha). cbn [rbind check args_of ra_post_state ra_provider_response].
  destruct (snapshot_of_json "post_state" _ Hpost) as [E1 E2].
  destruct (snapshot_of_json "provider_response" _ Hresp) as [E3 E4].
  assert (Hp : ∃ p, match ra_pre_state (args_of r) with
      | None => Ok None
      | Some v => let? v := _snapshot_mapping "pre_state" v in Ok (Some v)
      end = Ok (E := exn) p ∧ match p with None => Ok None | Some v => let? d := plain_mapping v in Ok (Some d) end
        = Ok (E := exn) (nr_pre_state r)).
  { cbn [args_of ra_pre_state]. destruct (nr_pre_state r) as [d|]; [|by exists None]. cbn [fmap option_fmap option_map].
    destruct (snapshot_of_json "pre_state" _ (Hpre d eq_refl)) as [F1 F2]. rewrite F1. exists (Some (of_json (JDict d))). split; [done|].
    by rewrite F2. }
  destruct Hp as (p & -> & Hp). cbn [rbind]. rewrite E1. cbn [rbind]. rewrite E3. cbn [rbind]. rewrite Hp. cbn [rbind].
  rewrite E2. cbn [rbind]. rewrite E4. by destruct r.
Qed.

Lemma sorted_items_ok d : mapping_ok d → mapping_ok (sorted_items d).
Proof. intros [Hf Hok]. split; [by apply (canon_fits (JDict d))|by apply (canon_ok (JDict d))]. Qed.

Lemma reread_ok r : receipt_ok r → receipt_ok (reread r).
Proof.
  intros [Ht Hs Ha Hpre Hpost Hresp]. split; cbn; [done..| | |]; try by apply sorted_items_ok.
  intros d. destruct (nr_pre_state r) as [d'|]; [|done]. intros [= <-]. by apply sorted_items_ok, Hpre.
Qed.

Lemma canon_payload r : canon (_json_payload r) =
  JDict [("evidence", JStr (nr_evidence r)); ("idempotency_key", JStr (nr_idempotency_key r));
         ("job_id", JStr (nr_job_id r)); ("operation", JStr (nr_operation r));
         ("post_state", JDict (sorted_items (nr_post_state r)));
         ("pre_state", from_option JDict JNull (sorted_items <$> nr_pre_state r));
         ("provider_response", JDict (sorted_items (nr_provider_response r)));
         ("status", JStr (ReceiptStatus_value (nr_status r))); ("target", JStr (nr_target r));
         ("timestamp", JStr (stamp_text (nr_timestamp r))); ("workspace", JStr (nr_workspace r))].
Proof. destruct r as [? ? ? ? [d|]]; reflexivity. Qed.

(** The value of a key of the payload. *)
Ltac look_up k v := change (json_get k _) with (Some v).

Lemma payload_read_back r : receipt_ok r → _receipt_from_payload (canon (_json_payload r)) = Ok (reread r).
Proof.
  intros Hr. rewrite <- (receipt_ok_new _ (reread_ok r Hr)), canon_payload.
  unfold _receipt_from_payload, _status_field, _text_field, _mapping_field.
  look_up "timestamp" (JStr (stamp_text (nr_timestamp r))).
  look_up "pre_state" (from_option JDict JNull (sorted_items <$> nr_pre_state r)).
  look_up "job_id" (JStr (nr_job_id r)).
  look_up "operation" (JStr (nr_operation r)).
  look_up "workspace" (JStr (nr_workspace r)).
  look_up "target" (JStr (nr_target r)).
  look_up "post_state" (JDict (sorted_items (nr_post_state r))).
  look_up "provider_response" (JDict (sorted_items (nr_provider_response r))).
  look_up "evidence" (JStr (nr_evidence r)).
  look_up "idempotency_key" (JStr (nr_idempotency_key r)).
  look_up "status" (JStr (ReceiptStatus_value (nr_status r))).
  cbv iota beta. rewrite (fromisoformat_text _ (ro_stamp _ Hr)).
  unfold args_of, reread. destruct (nr_pre_state r) as [d|];
    cbn [from_option fmap option_fmap option_map rbind]; rewrite require_status_value; reflexivity.
Qed.

Lemma payload_ok r : receipt_ok r → json_ok (_json_payload r).
Proof.
  intros [_ _ _ Hpre [_ Hpost] [_ Hresp]]. unfold _json_payload. apply json_ok_dict. split; [by apply (bool_decide_unpack _)|].
  repeat (constructor; [try done|]); [|constructor]. destruct (nr_pre_state r) as [d|]; [|done]. by apply Hpre.
Qed.

(** ** Lines *)

Lemma line_head r : ∃ t, line r = String "{" t.
Proof. unfold line, dumps. rewrite canon_payload. by eexists. Qed.

Lemma line_printable r : str_all printable (line r) = true.
Proof. apply render_printable. Qed.

Lemma loads_line r : receipt_ok r → loads (line r) = Some (canon (_json_payload r)).
Proof. intros Hr. by apply loads_dumps, payload_ok. Qed.

Lemma loads_torn r p q : receipt_ok r → line r = p ++ q → q ≠ "" → loads p = None.
Proof. intros Hr. by apply loads_dumps_cut, payload_ok. Qed.

(** A part of a line on one line of the file. *)
Definition on_line (s : string) : Prop := str_all printable s = true ∧ s ≠ "".

Lemma line_on_line r : on_line (line r).
Proof. split; [apply line_printable|]. by destruct (line_head r) as [t ->]. Qed.

Lemma torn_on_line r p q : line r = p ++ q → p ≠ "" → on_line p.
Proof.
  intros Heq Hp. split; [|done]. pose proof (line_printable r) as H. rewrite Heq, str_all_app in H.
  by apply andb_true_iff in H as [H _].
Qed.

Lemma str_all_impl (p q : Ascii.ascii → bool) s :
  (∀ c, p c = true → q c = true) → str_all p s = true → str_all q s = true.
Proof. intros Hpq. induction s as [|c s IH]; [done|]. cbn [str_all]. rewrite !andb_true_iff. naive_solver. Qed.

Lemma printable_range c : printable c = true ↔ (32 <= Ascii.N_of_ascii c <= 126)%N.
Proof. unfold printable. by rewrite andb_true_iff, !N.leb_le. Qed.

Lemma printable_ascii c : printable c = true → (Ascii.N_of_ascii c <? 128)%N = true.
Proof. rewrite printable_range. intros. apply N.ltb_lt. lia. Qed.

Lemma printable_break c : printable c = true → line_break c = false.
Proof.
  rewrite printable_range. intros Hc. unfold line_break.
  apply orb_false_iff; split; apply andb_false_iff; rewrite !N.leb_gt; lia.
Qed.

Lemma printable_lf c : printable c = true → c ≠ lf.
Proof. by intros H ->. Qed.

(** The text of the lines of the receipts. *)
Definition lines_text (rs : list NotionOperationReceipt) : string :=
  foldr (λ r t, line r ++ String lf t) EmptyString rs.

Lemma lines_text_app rs r : lines_text (rs ++ [r])%list = lines_text rs ++ line r ++ String lf "".
Proof.
  induction rs as [|r' rs IH]; [done|]. cbn [lines_text foldr app] in *. fold (lines_text rs).
  fold (lines_text (rs ++ [r])%list). by rewrite IH, <- str_app_assoc.
Qed.

Lemma decode_ok s : str_all (λ c, Ascii.N_of_ascii c <? 128)%N s = true → decode s = Ok s.
Proof. unfold decode. by intros ->. Qed.

Lemma decode_on_line s : str_all printable s = true → decode s = Ok s.
Proof. intros Hs. by apply decode_ok, (str_all_impl printable), Hs; apply printable_ascii. Qed.

Lemma lines_text_ascii rs : str_all (λ c, Ascii.N_of_ascii c <? 128)%N (lines_text rs) = true.
Proof.
  induction rs as [|r rs IH]; [done|]. cbn [lines_text foldr]. fold (lines_text rs). rewrite str_all_app.
  cbn [str_all]. rewrite IH, (str_all_impl printable _ _ printable_ascii (line_printable r)). done.
Qed.

Lemma split_tail_free s : str_all printable s = true → split_tail s = ("", s).
Proof.
  induction s as [|c s IH]; [done|]. cbn [str_all split_tail]. rewrite andb_true_iff. intros [Hc Hs].
  rewrite IH by done. rewrite decide_True, decide_False by (done || by apply printable_lf). done.
Qed.

Lemma split_tail_line s p t : split_tail s = (p, t) → split_tail (String lf s) = (String lf p, t).
Proof. intros Hs. cbn [split_tail]. rewrite Hs. case_decide; [by subst|done]. Qed.

Lemma split_tail_app a s p t :
  str_all printable a = true → split_tail s = (p, t) → p ≠ "" → split_tail (a ++ s) = (a ++ p, t).
Proof.
  intros Ha Hs Hp. induction a as [|c a IH]; [done|]. cbn [str_all] in Ha. apply andb_true_iff in Ha as [Hc Ha].
  change (String c a ++ s) with (String c (a ++ s)). cbn [split_tail]. rewrite (IH Ha).
  rewrite decide_False by (by destruct a). done.
Qed.

Lemma split_lines rs t : str_all printable t = true → split_tail (lines_text rs ++ t) = (lines_text rs, t).
Proof.
  intros Ht. induction rs as [|r rs IH]; [by apply split_tail_free|].
  cbn [lines_text foldr] in *. fold (lines_text rs) in *. rewrite <- str_app_assoc.
  apply split_tail_app; [apply line_printable| |done]. by apply split_tail_line.
Qed.

Lemma splitlines_free s : on_line s → splitlines s = [s].
Proof.
  intros [Hs Hne]. induction s as [|c s IH]; [done|]. cbn [str_all splitlines] in *. apply andb_true_iff in Hs as [Hc Hs].
  rewrite (printable_break _ Hc). destruct s as [|d s]; [done|]. by rewrite IH.
Qed.

Lemma splitlines_line a s : str_all printable a = true → a ≠ "" → splitlines (a ++ String lf s) = a :: splitlines s.
Proof.
  intros Ha Hne. induction a as [|c a IH]; [done|]. cbn [str_all] in Ha. apply andb_true_iff in Ha as [Hc Ha].
  change (String c a ++ ?x) with (String c (a ++ x)). cbn [splitlines]. rewrite (printable_break _ Hc).
  destruct a as [|d a]; [|by rewrite IH].
  change ("" ++ String lf s) with (String lf s). cbn [splitlines]. change (line_break lf) with true. cbv iota.
  destruct s as [|e s]; [done|]. rewrite decide_False; [done|]. by intros [? _].
Qed.

Lemma splitlines_lines rs t : splitlines (lines_text rs ++ t) = ((line <$> rs) ++ splitlines t)%list.
Proof.
  induction rs as [|r rs IH]; [done|]. cbn [lines_text foldr]. fold (lines_text rs).
  rewrite <- str_app_assoc. change (String lf (lines_text rs) ++ t) with (String lf (lines_text rs ++ t)).
  destruct (line_on_line r). by rewrite splitlines_line, IH.
Qed.

(** ** What a file holds *)

(** The receipts of a file: its lines are complete, or a further one is torn, or the last one
    has no newline. *)
Inductive holds : list NotionOperationReceipt → option string → Prop :=
  | holds_nothing : holds [] None
  | holds_lines rs : holds rs (Some (lines_text rs))
  | holds_torn rs r p q : receipt_ok r → line r = p ++ q → p ≠ "" → q ≠ "" → holds rs (Some (lines_text rs ++ p))
  | holds_open rs r : receipt_ok r → holds (rs ++ [r]) (Some (lines_text rs ++ line r)).

Record log_ok (rs : list NotionOperationReceipt) : Prop := {
  lo_receipts : Forall receipt_ok rs;
  lo_keys : NoDup (nr_idempotency_key <$> rs);
}.

Lemma log_text_lines rs t : str_all printable t = true → _log_text (lines_text rs ++ t) = Ok (lines_text rs ++ t).
Proof.
  intros Ht. unfold _log_text. rewrite (split_lines rs t Ht).
  rewrite (decode_ok (lines_text rs)), (decode_on_line t) by (done || apply lines_text_ascii). case_decide as He; [|done].
  subst t. rewrite str_app_nil_r. by apply decode_ok, lines_text_ascii.
Qed.

Lemma logical_lines_tail rs t : on_line t →
  _logical_lines (lines_text rs ++ t) = if _complete_json t then ((line <$> rs) ++ [t])%list else line <$> rs.
Proof.
  intros Ht. unfold _logical_lines. rewrite (split_lines rs t), splitlines_lines, (splitlines_free t) by apply Ht.
  rewrite decide_False by apply Ht. rewrite last_snoc. destruct (_complete_json t); [done|].
  by rewrite removelast_last.
Qed.

Lemma complete_line r : receipt_ok r → _complete_json (line r) = true.
Proof. intros Hr. unfold _complete_json. by rewrite (loads_line r Hr). Qed.

Lemma complete_torn r p q : receipt_ok r → line r = p ++ q → q ≠ "" → _complete_json p = false.
Proof. intros Hr Hp Hq. unfold _complete_json. by rewrite (loads_torn r p q Hr Hp Hq). Qed.

Lemma holds_text rs data : holds rs (Some data) →
  ∃ text, _log_text data = Ok text ∧ _logical_lines text = line <$> rs.
Proof.
  inversion 1 as [|? Hd|? r p q Hr Hp Hne Hq|? r Hr]; subst.
  - exists (lines_text rs). pose proof (log_text_lines rs "" eq_refl) as Ht. rewrite str_app_nil_r in Ht.
    split; [done|]. unfold _logical_lines. pose proof (split_lines rs "" eq_refl) as Hs.
    pose proof (splitlines_lines rs "") as Hl. rewrite str_app_nil_r in Hs, Hl. by rewrite Hs, Hl, app_nil_r.
  - pose proof (torn_on_line r p q Hp Hne) as Hline. eexists. split; [by apply log_text_lines, Hline|].
    by rewrite logical_lines_tail, (complete_torn r p q).
  - eexists. split; [apply log_text_lines, line_printable|].
    rewrite logical_lines_tail, complete_line by (done || apply line_on_line). by rewrite fmap_app.
Qed.

(** ** Loading *)

(** The keys of a log after it has read a file: what it has stays. *)
Definition add_key (by_key : Keys) (r : NotionOperationReceipt) : Keys :=
  match dict_get (nr_idempotency_key r) by_key with
  | Some _ => by_key
  | None => dict_put (nr_idempotency_key r) (reread r) by_key
  end.

Definition add_keys (by_key : Keys) (rs : list NotionOperationReceipt) : Keys := fold_left add_key rs by_key.

Lemma line_not_blank r : str_truth (str_strip (line r)) = true.
Proof. destruct (line_head r) as [t ->]. by apply strip_nonblank. Qed.

Lemma load_line_ok path r seen n keys s :
  receipt_ok r → nr_idempotency_key r ∉ seen →
  load_line path (seen, n) (line r) (keys, s) = (Ok (nr_idempotency_key r :: seen, n + 1), (add_key keys r, s)).
Proof.
  intros Hr Hk. unfold load_line. rewrite line_not_blank, (loads_line r Hr). cbn [negb].
  rewrite (payload_read_back r Hr). unfold pybind, lift_result, gets, add_key. cbn [fst].
  change (nr_idempotency_key (reread r)) with (nr_idempotency_key r). rewrite bool_decide_false by done.
  cbn [fst]. by destruct (dict_get _ keys).
Qed.

Lemma load_lines_ok path rs seen n keys s :
  Forall receipt_ok rs → NoDup (nr_idempotency_key <$> rs) → (∀ r, r ∈ rs → nr_idempotency_key r ∉ seen) →
  ∃ st, for_fold (load_line path) (line <$> rs) (seen, n) (keys, s) = (Ok st, (add_keys keys rs, s)).
Proof.
  revert seen n keys. induction rs as [|r rs IH]; intros seen n keys Hok Hk Hseen; [by eexists|].
  apply Forall_cons in Hok as [Hr Hok]. rewrite fmap_cons in Hk. apply NoDup_cons in Hk as [Hnew Hk].
  rewrite fmap_cons. cbn [for_fold]. unfold pybind.
  rewrite (load_line_ok path r seen n keys s Hr) by (apply Hseen; by left).
  apply IH; [done|done|]. intros r' Hr' [Heq|Hin]%elem_of_cons; [|by apply (Hseen r'); [right|]].
  apply Hnew. rewrite <- Heq. apply list_elem_of_fmap. by exists r'.
Qed.

(** A call that may fail and does nothing itself. *)
Lemma file_call_cases (s : Store) :
  ∃ s', fs_files s' = fs_files s ∧
    (file_call s = (Ok tt, s') ∨ file_call s = (Raise (Exn OSError ""), s') ∧ fs_faults s ≠ []).
Proof.
  unfold file_call, next_fault, pybind, os_error, pyraise, pyret. destruct (fs_faults s) as [|[|kept] faults] eqn:Hf.
  - exists s. auto.
  - eexists {| fs_files := fs_files s; fs_faults := faults |}. auto.
  - eexists {| fs_files := fs_files s; fs_faults := faults |}. auto.
Qed.

Lemma load_decoded path rs data keys s : log_ok rs → holds rs (Some data) →
  (let* text := lift_result (_log_text data) in
   do* for_fold (load_line path) (_logical_lines text) ([], 1);
   pyret tt) (keys, s) = (Ok tt, (add_keys keys rs, s)).
Proof.
  intros [Hok Hk] Hh. destruct (holds_text rs data Hh) as (text & Htext & Hlines).
  unfold pybind, lift_result. rewrite Htext, Hlines.
  destruct (load_lines_ok path rs [] 1 keys s Hok Hk (λ _ _, not_elem_of_nil _)) as [st Hst]. by rewrite Hst.
Qed.

Lemma read_bytes_cases path data (s : Store) : fs_files s !! path = Some data →
  ∃ s', fs_files s' = fs_files s ∧
    (read_bytes path s = (Ok data, s') ∨ read_bytes path s = (Raise (Exn OSError ""), s') ∧ fs_faults s ≠ []).
Proof.
  intros Hf. destruct (file_call_cases s) as (s' & Hs & Hcall). exists s'. split; [done|].
  unfold read_bytes, pybind, file_at, gets. destruct Hcall as [->|[-> Hfaults]]; [left|by right].
  by rewrite Hs, Hf.
Qed.

Lemma on_snd_bind {S T E A B} (m : M T E A) (k : A → M (S * T) E B) s t :
  pybind (on_snd m) k (s, t) = match m t with (Ok a, t') => k a (s, t') | (Raise e, t') => (Raise e, (s, t')) end.
Proof. unfold pybind, on_snd. cbn [fst snd]. by destruct (m t) as [[]]. Qed.

(** Loading fails with the read or succeeds; the files stay as they are. *)
Lemma load_holds path rs keys s :
  log_ok rs → holds rs (fs_files s !! path) →
  ∃ s', fs_files s' = fs_files s ∧
    (_load_new_keys path (keys, s) = (Ok tt, (add_keys keys rs, s')) ∨
     _load_new_keys path (keys, s) = (Raise (Exn OSError ""), (keys, s')) ∧ fs_faults s ≠ []).
Proof.
  intros Hok Hh. unfold _load_new_keys. rewrite on_snd_bind. unfold file_at at 1 2, gets at 1 2.
  destruct (fs_files s !! path) as [data|] eqn:Hf.
  - rewrite on_snd_bind. destruct (read_bytes_cases path data s Hf) as (s' & Hs & [->|[-> Hfaults]]); exists s';
      (split; [done|]); [left|by right]. by apply load_decoded.
  - inversion Hh; subst. exists s. split; [done|]. by left.
Qed.

(** ** Appending *)

Lemma substring_prefix k s : ∃ q, s = String.substring 0 k s ++ q.
Proof.
  revert k. induction s as [|c s IH]; intros [|k]; [by exists ""|by exists ""|by eexists|].
  destruct (IH k) as [q Hq]. exists q. cbn [String.substring]. change (String c ?a ++ q) with (String c (a ++ q)). congruence.
Qed.

(** Other files stay as they are. *)
Definition only_at (path : string) (s s' : Store) : Prop :=
  ∀ p, p ≠ path → fs_files s' !! p = fs_files s !! p.

Lemma only_at_trans path s1 s2 s3 : only_at path s1 s2 → only_at path s2 s3 → only_at path s1 s3.
Proof. intros H1 H2 p Hp. by rewrite H2, H1. Qed.

Lemma only_at_same path s s' : fs_files s' = fs_files s → only_at path s s'.
Proof. by intros Hs p _; rewrite Hs. Qed.

Lemma only_at_insert path s s' text : fs_files s' = <[path := text]> (fs_files s) → only_at path s s'.
Proof. by intros Hs p Hp; rewrite Hs, lookup_insert_ne. Qed.

(** A write is done, or stops somewhere. *)
Lemma write_end_cases path text (s : Store) :
  ∃ s', only_at path s s' ∧
    (write_end path text s = (Ok tt, s') ∧ fs_files s' !! path = Some (default "" (fs_files s !! path) ++ text) ∨
     write_end path text s = (Raise (Exn OSError ""), s') ∧
       (fs_files s' = fs_files s ∨
        ∃ p q, text = p ++ q ∧ fs_files s' !! path = Some (default "" (fs_files s !! path) ++ p))).
Proof.
  unfold write_end, next_fault, pybind, os_error, pyraise, set_files, modify.
  destruct (fs_faults s) as [|[|[kept|]] faults].
  - eexists. split; [|left; split; [done|cbn [fs_files]; by rewrite lookup_insert_eq]]. by eapply only_at_insert.
  - eexists. split; [|left; split; [done|cbn [fs_files]; by rewrite lookup_insert_eq]]. by eapply only_at_insert.
  - destruct (substring_prefix kept text) as [q Hq]. eexists.
    split; [|right; split; [done|right; exists (String.substring 0 kept text), q; split; [done|cbn [fs_files]; by rewrite lookup_insert_eq]]].
    by eapply only_at_insert.
  - eexists. split; [|right; split; [done|by left]]. by apply only_at_same.
Qed.

Lemma truncate_cases path prefix (s : Store) :
  ∃ s', only_at path s s' ∧
    (truncate path prefix s = (Ok tt, s') ∧ fs_files s' !! path = Some prefix ∨
     truncate path prefix s = (Raise (Exn OSError ""), s') ∧
       (fs_files s' = fs_files s ∨ fs_files s' !! path = Some prefix)).
Proof.
  unfold truncate, next_fault, pybind, os_error, pyraise, set_files, modify.
  destruct (fs_faults s) as [|[|[kept|]] faults].
  - eexists. split; [|left; split; [done|cbn [fs_files]; by rewrite lookup_insert_eq]]. by eapply only_at_insert.
  - eexists. split; [|left; split; [done|cbn [fs_files]; by rewrite lookup_insert_eq]]. by eapply only_at_insert.
  - eexists. split; [|right; split; [done|right; cbn [fs_files]; by rewrite lookup_insert_eq]]. by eapply only_at_insert.
  - eexists. split; [|right; split; [done|by left]]. by apply only_at_same.
Qed.

(** Where a write of a line can stop. *)
Lemma cut_line a p q : a ++ String lf "" = p ++ q → (∃ q', a = p ++ q' ∧ q' ≠ "") ∨ p = a ∨ p = a ++ String lf "".
Proof.
  revert p. induction a as [|c a IH]; intros [|d p]; simpl.
  - intros _. right. by left.
  - destruct p; [|by destruct p]. intros [= <- _]. right. by right.
  - intros _. left. by exists (String c a).
  - intros [= <- [(q' & -> & Hq)|[->| ->]]%IH]; [left; by exists q'|right; by left|right; by right].
Qed.

(** The two steps that [_repair_tail] ends with. *)
Lemma end_repair path rs r t s : receipt_ok r →
  fs_files s !! path = Some (lines_text rs ++ t) →
  t = line r →
  ∃ s', only_at path s s' ∧
    (write_end path (String lf "") s = (Ok tt, s') ∧ fs_files s' !! path = Some (lines_text (rs ++ [r])) ∨
     write_end path (String lf "") s = (Raise (Exn OSError ""), s') ∧ holds (rs ++ [r]) (fs_files s' !! path)).
Proof.
  intros Hr Hf ->. destruct (write_end_cases path (String lf "") s) as (s' & Honly & Hcase). exists s'. split; [done|].
  rewrite Hf in Hcase. change (default "" (Some ?x)) with x in Hcase. rewrite lines_text_app.
  destruct Hcase as [[-> Hs]|[-> [Hs|(p & q & Hp & Hs)]]]; [left|right..]; (split; [done|]).
  - by rewrite Hs, <- str_app_assoc.
  - rewrite Hs, Hf. by constructor.
  - rewrite Hs. destruct (cut_line "" p q Hp) as [(q' & He & _)|[->| ->]].
    + destruct p; [|done]. rewrite str_app_nil_r. by constructor.
    + rewrite str_app_nil_r. by constructor.
    + change ("" ++ String lf "") with (String lf ""). rewrite <- str_app_assoc, <- lines_text_app. constructor.
Qed.

(** After a repair the lines are complete; a failed one loses nothing. *)
Definition repaired (path : string) (rs : list NotionOperationReceipt) (s : Store) (o : result exn unit * Store) : Prop :=
  only_at path s o.2 ∧
  match o.1 with
  | Ok _ => default "" (fs_files o.2 !! path) = lines_text rs
  | Raise _ => holds rs (fs_files o.2 !! path)
  end.

Lemma file_call_then path rs s m :
  holds rs (fs_files s !! path) →
  (∀ s', fs_files s' = fs_files s → repaired path rs s' (m s')) →
  repaired path rs s ((do* file_call; m) s).
Proof.
  intros Hh Hm. unfold pybind. destruct (file_call_cases s) as (s' & Hs & [->|[-> _]]).
  - destruct (Hm s' Hs) as [Honly Hr]. split; [|done]. eapply only_at_trans; [|done]. by apply only_at_same.
  - split; cbn [fst snd]; [by apply only_at_same|by rewrite Hs].
Qed.

Lemma repaired_ret path rs s :
  default "" (fs_files s !! path) = lines_text rs → repaired path rs s (pyret tt s).
Proof. intros Hs. by split. Qed.

Lemma truncate_repaired path rs s :
  holds rs (fs_files s !! path) → repaired path rs s (truncate path (lines_text rs) s).
Proof.
  intros Hh. destruct (truncate_cases path (lines_text rs) s) as (s' & Honly & [[-> Hs]|[-> Hs]]); split; try done;
    cbn [fst snd]; [by rewrite Hs|].
  destruct Hs as [->| ->]; [done|constructor].
Qed.

Lemma repair_holds path rs s :
  holds rs (fs_files s !! path) → repaired path rs s (_repair_tail path s).
Proof.
  intros Hh. unfold _repair_tail, pybind at 1, file_at, gets. destruct (fs_files s !! path) as [data|] eqn:Hf.
  2: { inversion Hh; subst. apply repaired_ret. by rewrite Hf. }
  rewrite <- Hf in Hh. apply file_call_then; [done|]. intros s1 H1.
  case_decide as Hd; [apply repaired_ret; rewrite H1, Hf; rewrite Hf in Hh; inversion Hh; subst|].
  { done. }
  { by destruct (lines_text rs). }
  { destruct (line_head r) as [t Ht]. rewrite Ht in *. by destruct (lines_text rs0). }
  apply file_call_then; [by rewrite H1|]. intros s2 H2. rewrite H1 in H2. rewrite Hf in Hh.
  inversion Hh as [|? E|? r p q Hr Hp Hne Hq|rs' r Hr]; subst.
  - pose proof (split_lines rs "" eq_refl) as Hs. rewrite str_app_nil_r in Hs. rewrite Hs. apply repaired_ret.
    by rewrite H2, Hf.
  - pose proof (torn_on_line r p q Hp Hne) as Hline. rewrite (split_lines rs p) by apply Hline.
    rewrite decide_False by done. apply file_call_then; [by rewrite H2, Hf|]. intros s3 H3.
    rewrite decode_on_line, (complete_torn r p q) by (done || apply Hline).
    apply truncate_repaired. by rewrite H3, H2, Hf.
  - rewrite (split_lines rs' (line r)) by apply line_printable. rewrite decide_False by apply line_on_line.
    apply file_call_then; [by rewrite H2, Hf|]. intros s3 H3.
    rewrite decode_on_line, complete_line by (done || apply line_printable).
    destruct (end_repair path rs' r (line r) s3 Hr) as (s' & Honly & [[-> Hs]|[-> Hs]]); [by rewrite H3, H2, Hf|done| |].
    + split; [done|]. cbn [fst snd]. by rewrite Hs.
    + by split.
Qed.

(** An append adds the receipt or fails, and then the file holds it or not. *)
Lemma append_holds path rs r s :
  holds rs (fs_files s !! path) → receipt_ok r →
  ∃ res s', _append path r s = (res, s') ∧ only_at path s s' ∧
    match res with
    | Ok _ => holds (rs ++ [r]) (fs_files s' !! path)
    | Raise _ => holds rs (fs_files s' !! path) ∨ holds (rs ++ [r]) (fs_files s' !! path)
    end.
Proof.
  intros Hh Hr. unfold _append, pybind. destruct (repair_holds path rs s Hh) as [Honly Hrep].
  destruct (_repair_tail path s) as [[[]|e] s1]; cbn [fst snd] in *; [|exists (Raise e), s1; split_and!; [done..|by left]].
  destruct (write_end_cases path (line r ++ String lf "") s1) as (s2 & Honly2 & Hcase).
  assert (only_at path s s2) by by eapply only_at_trans. rewrite Hrep in Hcase.
  destruct Hcase as [[-> Hs]|[-> Hs]]; eexists _, s2; (split_and!; [done|done|]).
  - rewrite Hs, <- lines_text_app. constructor.
  - destruct Hs as [Hs|(p & q & Hp & Hs)].
    + left. rewrite Hs. destruct (fs_files s1 !! path) as [data|]; cbn in Hrep; subst.
      * constructor.
      * destruct rs as [|r' rs]; [constructor|]. exfalso. cbn [lines_text foldr] in Hrep.
        destruct (line_head r') as [t Ht]. by rewrite Ht in Hrep.
    + rewrite Hs. destruct (cut_line _ p q Hp) as [(q' & He & Hq)|[->| ->]].
      * left. destruct (decide (p = "")) as [->|Hne]; [rewrite str_app_nil_r; constructor|by eapply holds_torn].
      * right. by constructor.
      * right. rewrite <- lines_text_app. constructor.
Qed.

(** ** Recording *)

Lemma add_key_keeps k keys r : is_Some (dict_get k keys) → is_Some (dict_get k (add_key keys r)).
Proof.
  intros Hk. unfold add_key. destruct (dict_get (nr_idempotency_key r) keys) eqn:Hr; [done|].
  rewrite dict_get_put. by case_decide.
Qed.

Lemma add_keys_keep k keys rs : is_Some (dict_get k keys) → is_Some (dict_get k (add_keys keys rs)).
Proof.
  unfold add_keys. revert keys. induction rs as [|r rs IH]; intros keys Hk; [done|]. by apply IH, add_key_keeps.
Qed.

Lemma add_keys_has r keys rs : r ∈ rs → is_Some (dict_get (nr_idempotency_key r) (add_keys keys rs)).
Proof.
  revert keys. induction rs as [|r' rs IH]; intros keys; [by intros []%elem_of_nil|].
  intros [<-|Hr]%elem_of_cons; [|by apply IH]. apply (add_keys_keep _ (add_key keys r)).
  unfold add_key. destruct (dict_get (nr_idempotency_key r) keys) eqn:Hk; [by rewrite Hk|].
  rewrite dict_get_put. by rewrite decide_True.
Qed.

Definition entries (rs : list NotionOperationReceipt) : Keys := (λ r, (nr_idempotency_key r, reread r)) <$> rs.

Lemma add_keys_entries rs : NoDup (nr_idempotency_key <$> rs) → add_keys [] rs = entries rs.
Proof.
  intros Hk. unfold add_keys. change [] with (entries []). rewrite <- (app_nil_l rs) in Hk.
  rewrite <- (app_nil_l rs) at 2. revert Hk. generalize (@nil NotionOperationReceipt).
  induction rs as [|r rs IH]; intros acc Hk; cbn [fold_left]; [by rewrite app_nil_r|].
  rewrite fmap_app, fmap_cons in Hk. pose proof Hk as (_ & Hnew & _)%NoDup_app.
  assert (Hget : dict_get (nr_idempotency_key r) (entries acc) = None).
  { apply dict_get_none. unfold entries. rewrite <- list_fmap_compose. intros Hin. apply (Hnew (nr_idempotency_key r)); [done|by left]. }
  unfold add_key at 2. rewrite Hget, dict_put_new by done.
  change [(nr_idempotency_key r, reread r)] with (entries [r]). unfold entries at 1 2. rewrite <- fmap_app.
  fold (entries (acc ++ [r])%list). rewrite IH; rewrite <- app_assoc; [done|]. rewrite fmap_app. exact Hk.
Qed.

Lemma log_ok_snoc rs r :
  log_ok rs → receipt_ok r → nr_idempotency_key r ∉ nr_idempotency_key <$> rs → log_ok (rs ++ [r]).
Proof.
  intros [Hok Hk] Hr Hnew. split; [by apply Forall_app; split; [|constructor]|].
  rewrite fmap_app. apply NoDup_app. split_and!; [done|set_solver|apply NoDup_singleton].
Qed.

Lemma record_holds path rs keys s r :
  log_ok rs → holds rs (fs_files s !! path) → receipt_ok r →
  ∃ res keys' s' rs', record (Some path) r (keys, s) = (res, (keys', s')) ∧ only_at path s s' ∧
    log_ok rs' ∧ holds rs' (fs_files s' !! path) ∧
    match res with Ok r' => r' = r ∧ rs' = rs ++ [r] | Raise _ => rs' = rs ∨ rs' = rs ++ [r] end%list.
Proof.
  intros Hlog Hh Hr. unfold record, pybind at 1.
  destruct (load_holds path rs keys s Hlog Hh) as (s1 & H1 & [->|[-> _]]).
  2: { exists (Raise (Exn OSError "")), keys, s1, rs. split_and!; [done|by apply only_at_same|done|by rewrite H1|by left]. }
  unfold _store, gets, pybind at 1. cbn [fst].
  destruct (dict_get (nr_idempotency_key r) (add_keys keys rs)) eqn:Hget.
  { eexists (Raise _), _, s1, rs. split_and!; [done|by apply only_at_same|done|by rewrite H1|by left]. }
  assert (Hnew : nr_idempotency_key r ∉ nr_idempotency_key <$> rs).
  { intros (r' & Heq & Hin)%list_elem_of_fmap. destruct (add_keys_has r' keys rs Hin) as [x Hx]. congruence. }
  pose proof (log_ok_snoc rs r Hlog Hr Hnew) as Hsnoc. rewrite on_snd_bind. rewrite <- H1 in Hh.
  destruct (append_holds path rs r s1 Hh Hr) as (res & s2 & -> & Honly & Hres).
  assert (only_at path s s2) by (eapply only_at_trans; [by apply only_at_same|done]).
  destruct res as [[]|e].
  - eexists (Ok r), _, s2, (rs ++ [r])%list. split_and!; done.
  - destruct Hres as [Hres|Hres]; [exists (Raise e), (add_keys keys rs), s2, rs|exists (Raise e), (add_keys keys rs), s2, (rs ++ [r])%list];
      split_and!; try done; [by left|by right].
Qed.

Lemma new_log_holds path rs s : log_ok rs → holds rs (fs_files s !! path) →
  ∃ s', fs_files s' = fs_files s ∧
    (new_log (Some path) ([], s) = (Ok tt, (entries rs, s')) ∨
     new_log (Some path) ([], s) = (Raise (Exn OSError ""), ([], s')) ∧ fs_faults s ≠ []).
Proof.
  intros Hlog Hh.
  assert (Heq : new_log (Some path) ([], s) =
    match fs_files s !! path with Some _ => _load_new_keys path ([], s) | None => (Ok tt, ([], s)) end).
  { unfold new_log, pybind at 1, on_fst, modify. cbn [fst snd]. rewrite on_snd_bind.
    unfold file_at, gets. by destruct (fs_files s !! path). }
  rewrite Heq. destruct (fs_files s !! path) as [data|] eqn:Hf.
  - rewrite <- Hf in Hh. rewrite <- (add_keys_entries rs) by apply Hlog. by apply load_holds.
  - inversion Hh; subst. exists s. split; [done|]. by left.
Qed.

(** ** Logs and failures *)

(** The receipts recorded under a path. *)
Definition recorded_at (path : string) (d : Desk) : list NotionOperationReceipt :=
  omap (λ pr, if decide (pr.1 = Some path) then Some pr.2 else None) (dk_recorded d).

Definition attempted (ops : list log_op) (r : NotionOperationReceipt) : Prop :=
  ∃ i a, RecordIn i a ∈ ops ∧ new_receipt a = Ok r.

Definition desk_ok (ops : list log_op) (d : Desk) : Prop := ∀ path, ∃ rs,
  log_ok rs ∧ holds rs (fs_files (dk_store d) !! path) ∧ recorded_at path d `sublist_of` rs ∧
  ∀ r, r ∈ rs → attempted ops r.

Lemma desk_ok_same ops ops' d d' :
  desk_ok ops d → (∀ op, op ∈ ops → op ∈ ops') → fs_files (dk_store d') = fs_files (dk_store d) →
  (∀ path, recorded_at path d' = recorded_at path d) → desk_ok ops' d'.
Proof.
  intros Hd Hops Hf Hrec path. destruct (Hd path) as (rs & Hlog & Hh & Hsub & Hatt). exists rs. rewrite Hf, Hrec.
  split_and!; [done..|]. intros r Hr. destruct (Hatt r Hr) as (i & a & Ha & Hnew). exists i, a. auto.
Qed.

Lemma recorded_snoc path d logs s p r :
  recorded_at path {| dk_logs := logs; dk_store := s; dk_recorded := dk_recorded d ++ [(p, r)] |} =
  (recorded_at path d ++ if decide (p = Some path) then [r] else [])%list.
Proof. unfold recorded_at. cbn [dk_recorded]. rewrite omap_app. cbn. by case_decide. Qed.

Lemma record_desk ops d i a path keys r :
  desk_ok ops d → dk_logs d !! i = Some (Some path, keys) → new_receipt a = Ok r →
  desk_ok (ops ++ [RecordIn i a]) (desk_step d (RecordIn i a)).
Proof.
  intros Hd Hi Ha. pose proof (new_receipt_ok _ _ Ha) as Hr.
  assert (Hops : ∀ op, op ∈ ops → op ∈ (ops ++ [RecordIn i a])%list) by (intros; apply elem_of_app; by left).
  assert (Hnew : attempted (ops ++ [RecordIn i a]) r).
  { exists i, a. split; [|done]. apply elem_of_app. right. by apply list_elem_of_singleton. }
  destruct (Hd path) as (rs & Hlog & Hh & Hsub & Hatt).
  destruct (record_holds path rs keys (dk_store d) r Hlog Hh Hr) as (res & keys' & s' & rs' & Hrec & Honly & Hlog' & Hh' & Hres).
  cbn [desk_step]. rewrite Hi, Ha, Hrec. intros p. destruct (decide (p = path)) as [->|Hp].
  - exists rs'. cbn [dk_store]. split_and!; [done|done| |].
    + destruct res as [r'|e]; [destruct Hres as [-> ->]; rewrite recorded_snoc, decide_True by done; by apply sublist_app|].
      destruct Hres as [->| ->]; [done|]. by apply sublist_inserts_r.
    + assert (Hin : ∀ r', r' ∈ rs' → r' ∈ rs ∨ r' = r).
      { destruct res as [r'|e]; [destruct Hres as [-> ->]|destruct Hres as [->| ->]]; set_solver. }
      intros r' [Hr'| ->]%Hin; [|done]. destruct (Hatt r' Hr') as (j & b & Hj & Hb). exists j, b. auto.
  - destruct (Hd p) as (ps & Hlogp & Hhp & Hsubp & Hattp). exists ps. cbn [dk_store].
    rewrite (Honly p Hp). split_and!; [done|done| |].
    + destruct res; [|done]. rewrite recorded_snoc, decide_False by congruence. by rewrite app_nil_r.
    + intros r' Hr'. destruct (Hattp r' Hr') as (j & b & Hj & Hb). exists j, b. auto.
Qed.

Lemma desk_step_ok ops d op : desk_ok ops d → desk_ok (ops ++ [op]) (desk_step d op).
Proof.
  intros Hd. assert (Hops : ∀ o, o ∈ ops → o ∈ (ops ++ [op])%list) by (intros; apply elem_of_app; by left).
  destruct op as [[path|]|i a].
  - destruct (Hd path) as (rs & Hlog & Hh & _). cbn [desk_step].
    destruct (new_log_holds path rs (dk_store d) Hlog Hh) as (s' & Hs & [->|[-> _]]); by eapply desk_ok_same.
  - by eapply desk_ok_same.
  - cbn [desk_step]. destruct (dk_logs d !! i) as [[path keys]|] eqn:Hi; [|by eapply desk_ok_same].
    destruct (new_receipt a) as [r|e] eqn:Ha; [|by eapply desk_ok_same].
    destruct path as [path|].
    { pose proof (record_desk ops d i a path keys r Hd Hi Ha) as Hok. cbn [desk_step] in Hok. by rewrite Hi, Ha in Hok. }
    unfold record, _store, pybind, pyret, gets, lift_result, on_fst, modify. cbn [fst snd].
    destruct (dict_get _ keys); [by eapply desk_ok_same|]. eapply desk_ok_same; [done|done|done|].
    intros p. by rewrite recorded_snoc, app_nil_r.
Qed.

Lemma desk_run_ok faults ops : desk_ok ops (desk_run faults ops).
Proof.
  unfold desk_run. set (d0 := Build_Desk _ _ _). assert (H0 : desk_ok [] d0).
  { intros path. exists []. split_and!; [split; constructor|constructor|done|by intros r []%elem_of_nil]. }
  change ops with ([] ++ ops)%list at 1. revert H0. generalize (@nil log_op) d0.
  induction ops as [|op ops IH]; intros done_ d Hd; cbn [fold_left]; [by rewrite app_nil_r|].
  rewrite cons_middle, app_assoc. by apply IH, desk_step_ok.
Qed.

(** C16: Receipts survive failed and torn writes.  However logs are made, used and abandoned, and
    wherever file operations fail or stop within a line: a log made afterwards on any path loads
    without an error, holds every receipt that was recorded there, in that order and unchanged up
    to the order of the items of its mappings, holds each key once, and holds nothing that was
    not passed to be recorded. *)
Theorem receipts_survive_failures faults ops path :
  let d := desk_run faults ops in
  ∃ rs s, new_log (Some path) ([], {| fs_files := fs_files (dk_store d); fs_faults := [] |}) =
      (Ok tt, ((λ r, (nr_idempotency_key r, reread r)) <$> rs, s)) ∧
    recorded_at path d `sublist_of` rs ∧ NoDup (nr_idempotency_key <$> rs) ∧
    ∀ r, r ∈ rs → ∃ i a, RecordIn i a ∈ ops ∧ new_receipt a = Ok r.
Proof.
  intros d. destruct (desk_run_ok faults ops path) as (rs & Hlog & Hh & Hsub & Hatt). exists rs.
  destruct (new_log_holds path rs {| fs_files := fs_files (dk_store d); fs_faults := [] |} Hlog Hh)
    as (s & _ & [Hnew|[_ Hf]]); [|done].
  exists s. split_and!; [done|done|apply Hlog|done].
Qed.

(** ** A torn write *)

Definition sample_args (key : string) : ReceiptArgs :=
  {| ra_job_id := "job-1"; ra_operation := "page.create"; ra_workspace := "shop"; ra_target := "page";
     ra_pre_state := None; ra_post_state := PMap [(KStr "title", PStr "Plan"); (KStr "blocks", PSeq [PInt 3; PNone])];
     ra_provider_response := PMap [(KStr "id", PStr "p1")]; ra_evidence := "screenshot";
     ra_timestamp := {| st_year := 2026; st_month := 2; st_day := 28; st_hour := 23; st_minute := 59; st_second := 1;
                        st_microsecond := 20; st_offset := Some (-19800000000) |};
     ra_idempotency_key := key; ra_status := "Unknown" |}.

(** The second append stops within its line; another log then cuts the tail and appends. *)
Definition torn_ops : list log_op :=
  [MakeLog (Some "log"); MakeLog (Some "log"); RecordIn 0 (sample_args "a"); RecordIn 0 (sample_args "b"); RecordIn 1 (sample_args "c")].

Definition faults_of (kept : nat) : list Fault := [NoFault; NoFault; NoFault; NoFault; Fails (Some kept)].

Definition recorded_keys (kept : nat) (ops : list log_op) : list string * list string :=
  let d := desk_run (faults_of kept) ops in
  (nr_idempotency_key <$> recorded_at "log" d, (new_log (Some "log") ([], dk_store d)).2.1.*1).

Example torn_run : recorded_keys 50 torn_ops = (["a"; "c"], ["a"; "c"]).
Proof. vm_compute. reflexivity. Qed.

(** Without its newline the line counts, although [record] has raised. *)
Example unterminated_run :
  match new_receipt (sample_args "b") with
  | Ok r => recorded_keys (String.length (line r)) torn_ops = (["a"; "c"], ["a"; "b"; "c"])
  | Raise _ => False
  end.
Proof. vm_compute. reflexivity. Qed.
