(* ===== verification/ControlState.v ===== *)
(** * Control state

    [control/state.py], the implementation-state document: the parser of
    [docs/control/IMPLEMENTATION_STATE.json], the evidence contract of each session, and
    the two transitions that may replace the document, activation and completion.  Between two
    transitions the document is edited by commits, as [edited] and [closed_by_hand] describe.

    A file is its JSON document: decoding and encoding the text is left to [json], and
    JSON numbers are integers. *)

From S2P Require Import Prelude PyText PyLines PySort Errors Tables Contracts.

Open Scope Z_scope.

(** ** Python objects decoded from JSON *)

(** [a == b]: dictionaries compare without their order, and [True] equals [1].  The keys
    of a decoded dictionary are distinct. *)
Fixpoint json_eq (a b : json) : bool :=
  match a, b with
  | JNull, JNull => true
  | JBool x, JBool y => Bool.eqb x y
  | JBool x, JInt z => Z.b2z x =? z
  | JInt z, JBool x => z =? Z.b2z x
  | JInt x, JInt y => x =? y
  | JStr x, JStr y => String.eqb x y
  | JList l, JList m =>
      (fix go (l m : list json) : bool :=
         match l, m with
         | [], [] => true
         | x :: l, y :: m => json_eq x y && go l m
         | _, _ => false
         end) l m
  | JDict d, JDict e =>
      (length d =? length e)%nat &&
      (fix go (d : list (string * json)) : bool :=
         match d with
         | [] => true
         | (k, v) :: d =>
             match json_get k e with
             | Some w => json_eq v w
             | None => false
             end && go d
         end) d
  | _, _ => false
  end.

Definition control_error {A} (message : string) : result exn A := Raise (Exn ControlStateError message).

(** [if c: raise ControlStateError(m)] *)
Definition raise_if (c : bool) (message : string) : result exn unit :=
  if c then control_error message else Ok tt.

(** [d\[k\]] *)
Definition item (k : string) (d : list (string * json)) : result exn json :=
  match json_get k d with
  | Some v => Ok v
  | None => Raise (Exn KeyError (str_repr k))
  end.

(** ** Sessions and their evidence *)

Definition SESSION_PROMPTS : gmap Z string := list_to_map [
  (0, "03_SESSION_00_DISCOVERY_AND_REPO_BOOTSTRAP.md");
  (1, "04_SESSION_01_PLAYBOOK_MAPPING_AND_ARCHITECTURE.md");
  (2, "05_SESSION_02_ENGINEERING_FOUNDATION_AND_DATABASE.md");
  (3, "06_SESSION_03_DURABLE_ORCHESTRATOR.md");
  (4, "07_SESSION_04_AGENT_RUNTIME_AND_ROSTER.md");
  (5, "08_SESSION_05_MARKET_RESEARCH_TO_PRODUCT_SPEC.md");
  (6, "09_SESSION_06_NOTION_INTEGRATION_FOUNDATION.md");
  (7, "10_SESSION_07_PRODUCT_BUILD_VARIANTS_AND_QA.md");
  (8, "11_SESSION_08_MERCHANDISING_AND_ASSET_FACTORY.md");
  (9, "12_SESSION_09_ETSY_DRAFT_PUBLISH_AND_PREFLIGHT.md");
  (10, "13_SESSION_10_ANALYTICS_CULL_MULTIPLY_CLOSED_LOOP.md");
  (11, "14_SESSION_11_CUSTOMER_SUPPORT_AND_REPAIR.md");
  (12, "15_SESSION_12_OPERATOR_CONSOLE_AND_POSTHOG.md");
  (13, "16_SESSION_13_E2E_HARDENING_AND_FAILURE_RECOVERY.md");
  (14, "17_SESSION_14_DEPLOYMENT.md");
  (15, "18_SESSION_15_LIVE_COMMISSIONING_AND_HANDOVER.md")].

Definition SESSION_EVIDENCE_KEYS : gmap Z (list string) := list_to_map [
  (0,
   ["canonical_root_verified";
    "canonical_scaffold_verified";
    "sources_byte_identical";
    "pdf_pages_1_through_82_mapped";
    "required_playbook_items_mapped";
    "prompt_pack_verified";
    "git_ignore_audit_passed";
    "environment_versions_recorded";
    "git_evidence_semantics_verified";
    "python_checks_passed";
    "web_checks_passed";
    "compose_postgres_healthy";
    "api_health_live";
    "scripts_parse";
    "clean_bootstrap_passed";
    "implementation_review_approved";
    "adversarial_review_clear";
    "bootstrap_commit_recorded";
    "evidence_closure_commit_recorded"]);
  (2,
   ["fresh_bootstrap_path_documented";
    "database_schema_and_migrations_work";
    "seeds_are_idempotent";
    "runtime_containers_start";
    "ci_configuration_complete";
    "foundation_tests_pass";
    "control_files_and_checkpoint_current";
    "evidence_closure_commit_recorded"]);
  (1,
   ["playbook_steps_mapped";
    "architecture_and_adrs_complete";
    "state_event_job_enums_in_code";
    "typed_contracts_pass_validation";
    "configuration_encodes_playbook_defaults";
    "integration_strategy_explicit";
    "adversarial_review_resolved";
    "control_files_and_checkpoint_current";
    "evidence_closure_commit_recorded"]);
  (3,
   ["orchestration_state_machine_implemented";
    "lease_and_worker_claiming_implemented";
    "retry_and_reconciliation_implemented";
    "event_driven_successors_transactional";
    "scheduler_timers_durable";
    "worker_scheduler_fail_closed";
    "concurrency_recovery_tests_pass";
    "control_files_and_checkpoint_current";
    "evidence_closure_commit_recorded"]);
  (4,
   ["provider_abstraction_implemented";
    "prompt_registry_and_hashes_implemented";
    "agent_runner_integrated_with_jobs";
    "sixteen_agents_registered";
    "uncommissioned_agents_documented";
    "contract_and_runtime_tests_pass";
    "control_files_and_checkpoint_current";
    "evidence_closure_commit_recorded"]);
  (5,
   ["etsy_adapters_implemented";
    "research_agent_implemented";
    "shortlist_analysis_implemented";
    "scoring_agent_implemented";
    "teardown_workflow_implemented";
    "product_spec_generation_implemented";
    "dedupe_agent_implemented";
    "workflow_linking_complete";
    "control_files_and_checkpoint_current";
    "evidence_closure_commit_recorded"]);
  (6,
   ["notion_capability_inspected";
    "platform_compatibility_documented";
    "notion_adapter_interface_defined";
    "fixture_adapter_implemented";
    "adapter_router_implemented";
    "adapter_unit_tests_pass";
    "control_files_and_checkpoint_current";
    "evidence_closure_commit_recorded"]);
  (7,
   ["notion_product_builder_implemented";
    "shared_databases_built";
    "home_dashboard_built";
    "notification_dashboard_built";
    "identity_hubs_built";
    "variant_builder_implemented";
    "product_qa_implemented";
    "product_fact_ledger_persisted";
    "build_workflow_linked";
    "product_build_tests_pass";
    "control_files_and_checkpoint_current";
    "evidence_closure_commit_recorded"]);
  (8,
   ["merchandising_agent_implemented";
    "claim_validation_implemented";
    "design_tokens_implemented";
    "creative_asset_agent_implemented";
    "screenshot_acquisition_implemented";
    "link_validation_implemented";
    "asset_lineage_recorded";
    "asset_storage_implemented";
    "merchandising_workflow_linked";
    "merchandising_asset_tests_pass";
    "control_files_and_checkpoint_current";
    "evidence_closure_commit_recorded"])].

Definition _NEXT_SESSION_CONTRACT_KEY := "completion_requires_next_session".
Definition _CLOSURE_EVIDENCE_KEY := "evidence_closure_commit_recorded".
Definition _OUTER_GATES_BLOCKER := "SESSION_00_OUTER_GATES_PENDING".

Definition sha_pattern (s : string) : bool := hex_text 40 s.

Definition format_02d (n : Z) : string :=
  if (0 <=? n) && (n <? 10) then "0" ++ pretty n else pretty n.

(** ** The document *)

Record Blocker := {
  bl_code : string;
  bl_scope : string;
  bl_detail : string;
}.

#[export] Instance Blocker_eq_dec : EqDecision Blocker.
Proof. solve_decision. Defined.

(** [cs_raw] is the decoded dictionary itself; the other fields are its required entries
    at their types. *)
Record ControlState := {
  cs_programme : string;
  cs_version : string;
  cs_repo_root : string;
  cs_windows_repo_root : string;
  cs_branch : string;
  cs_head_sha : option string;
  cs_bootstrap_commit_sha : option string;
  cs_evidence_closure_commit_sha : option string;
  cs_last_verified_commit : option string;
  cs_state_revision : Z;
  cs_session_status : string;
  cs_current_session : Z;
  cs_completed_sessions : list Z;
  cs_services : list (string * string);
  cs_commissioned_agents : list string;
  cs_tests : list (string * string);
  cs_environment_versions : list (string * string);
  cs_blockers : list Blocker;
  cs_next_session : option Z;
  cs_next_prompt : string;
  cs_required_completion_evidence : list (string * bool);
  cs_transition_contract : list (string * json);
  cs_updated_at : string;
  cs_raw : list (string * json);
}.

Definition _REQUIRED_FIELDS : list string :=
  ["programme"; "version"; "repo_root"; "windows_repo_root"; "branch"; "head_sha";
   "bootstrap_commit_sha"; "evidence_closure_commit_sha"; "last_verified_commit";
   "state_revision"; "session_status"; "current_session"; "completed_sessions"; "services";
   "commissioned_agents"; "tests"; "environment_versions"; "blockers"; "next_session";
   "next_prompt"; "required_completion_evidence"; "transition_contract"; "updated_at"].

Definition _IDENTITY_FIELDS : list string :=
  ["programme"; "version"; "repo_root"; "branch"; "current_session"].

Definition _ACTIVATION_MUTABLE_FIELDS : list string :=
  ["state_revision"; "session_status"; "current_session"; "updated_at";
   "required_completion_evidence"].

Definition _COMPLETION_MUTABLE_FIELDS : list string :=
  ["state_revision"; "session_status"; "completed_sessions"; "next_session"; "next_prompt";
   "head_sha"; "evidence_closure_commit_sha"; "updated_at"; "required_completion_evidence";
   "blockers"; "transition_contract"].

(** [_require_string(state, field)], with the string it found *)
Definition _require_string (state : list (string * json)) (field : string) : result exn string :=
  let? value := item field state in
  match value with
  | JStr s => Ok s
  | _ => control_error (field ++ " must be a string")
  end.

(** [_require_string(state, field, nullable=True)] *)
Definition _require_nullable (state : list (string * json)) (field : string) : result exn (option string) :=
  let? value := item field state in
  match value with
  | JStr s => Ok (Some s)
  | JNull => Ok None
  | _ => control_error (field ++ " must be a string or null")
  end.

(** [_is_int]: a [bool] is not an integer here. *)
Definition as_int (message : string) (value : json) : result exn Z :=
  match value with
  | JInt z => Ok z
  | _ => control_error message
  end.

Definition as_str (message : string) (value : json) : result exn string :=
  match value with
  | JStr s => Ok s
  | _ => control_error message
  end.

Definition as_bool (message : string) (value : json) : result exn bool :=
  match value with
  | JBool b => Ok b
  | _ => control_error message
  end.

Definition as_list {A} (message : string) (f : string → json → result exn A) (value : json) : result exn (list A) :=
  match value with
  | JList l => traverse (f message) l
  | _ => control_error message
  end.

Definition as_dict {A} (message : string) (f : string → json → result exn A) (value : json)
    : result exn (list (string * A)) :=
  match value with
  | JDict d => traverse (λ kv, let? a := f message kv.2 in Ok (kv.1, a)) d
  | _ => control_error message
  end.

(** [isinstance(item, (bool, int))] *)
Definition as_flag (message : string) (value : json) : result exn json :=
  match value with
  | JBool _ | JInt _ => Ok value
  | _ => control_error message
  end.

Definition as_blocker (message : string) (value : json) : result exn Blocker :=
  match value with
  | JDict d =>
      match json_get "code" d, json_get "scope" d, json_get "detail" d with
      | Some (JStr code), Some (JStr scope), Some (JStr detail) =>
          if (length d =? 3)%nat then Ok {| bl_code := code; bl_scope := scope; bl_detail := detail |}
          else control_error message
      | _, _, _ => control_error message
      end
  | _ => control_error message
  end.

(** [_parse_state(path, label)] on what [path] holds: a document, or the error of reading
    and decoding it. *)
Definition _parse_state (contents : result string json) (label : string) : result exn ControlState :=
  match contents with
  | Raise error => control_error ("cannot read " ++ label ++ ": " ++ error)
  | Ok (JDict raw) =>
      let missing := py_sorted String.leb (filter (λ f, json_get f raw = None) _REQUIRED_FIELDS) in
      do? raise_if (negb (bool_decide (missing = [])))
        (label ++ " is missing required fields: " ++ String.concat ", " missing);
      let? programme := _require_string raw "programme" in
      let? version := _require_string raw "version" in
      let? repo_root := _require_string raw "repo_root" in
      let? windows_repo_root := _require_string raw "windows_repo_root" in
      let? branch := _require_string raw "branch" in
      let? session_status := _require_string raw "session_status" in
      let? next_prompt := _require_string raw "next_prompt" in
      let? updated_at := _require_string raw "updated_at" in
      let? head_sha := _require_nullable raw "head_sha" in
      let? bootstrap_commit_sha := _require_nullable raw "bootstrap_commit_sha" in
      let? evidence_closure_commit_sha := _require_nullable raw "evidence_closure_commit_sha" in
      let? last_verified_commit := _require_nullable raw "last_verified_commit" in
      let? state_revision := rbind (item "state_revision" raw) (as_int "state_revision must be an integer") in
      let? current_session := rbind (item "current_session" raw) (as_int "current_session must be an integer") in
      let? next_session := rbind (item "next_session" raw) (λ v,
        match v with
        | JNull => Ok None
        | v => let? z := as_int "next_session must be an integer or null" v in Ok (Some z)
        end) in
      let? completed_sessions := rbind (item "completed_sessions" raw)
        (as_list "completed_sessions must be a list of integers" as_int) in
      let? evidence := rbind (item "required_completion_evidence" raw)
        (as_dict "required_completion_evidence must map string keys to booleans" as_bool) in
      let? services := rbind (item "services" raw) (as_dict "services must map string keys to string values" as_str) in
      let? tests := rbind (item "tests" raw) (as_dict "tests must map string keys to string values" as_str) in
      let? environment_versions := rbind (item "environment_versions" raw)
        (as_dict "environment_versions must map string keys to string values" as_str) in
      let? commissioned_agents := rbind (item "commissioned_agents" raw)
        (as_list "commissioned_agents must be a list of strings" as_str) in
      let? blockers := rbind (item "blockers" raw)
        (as_list "blockers must be a list of code/scope/detail objects" as_blocker) in
      let? transition_contract := rbind (item "transition_contract" raw)
        (as_dict "transition_contract must map strings to booleans or integers" as_flag) in
      Ok {| cs_programme := programme; cs_version := version; cs_repo_root := repo_root;
            cs_windows_repo_root := windows_repo_root; cs_branch := branch; cs_head_sha := head_sha;
            cs_bootstrap_commit_sha := bootstrap_commit_sha;
            cs_evidence_closure_commit_sha := evidence_closure_commit_sha;
            cs_last_verified_commit := last_verified_commit; cs_state_revision := state_revision;
            cs_session_status := session_status; cs_current_session := current_session;
            cs_completed_sessions := completed_sessions; cs_services := services;
            cs_commissioned_agents := commissioned_agents; cs_tests := tests;
            cs_environment_versions := environment_versions; cs_blockers := blockers;
            cs_next_session := next_session; cs_next_prompt := next_prompt;
            cs_required_completion_evidence := evidence; cs_transition_contract := transition_contract;
            cs_updated_at := updated_at; cs_raw := raw |}
  | Ok _ => control_error (label ++ " must be a JSON object with string keys")
  end.

(** ** Transitions *)

Definition keys {A} (d : list (string * A)) : gset string := list_to_set d.*1.

(** [previous\[field\] != current\[field\]] *)
Definition differs (field : string) (previous current : list (string * json)) : result exn bool :=
  let? a := item field previous in
  let? b := item field current in
  Ok (negb (json_eq a b)).

Definition unchanged_field (label : string) (previous current : list (string * json)) (field : string)
    : result exn unit :=
  let? changed := differs field previous current in
  raise_if changed ("unsupported " ++ label ++ ": " ++ field ++ " cannot change").

Definition _require_same_fields (previous current : ControlState) (mutable_fields : list string)
    (label : string) : result exn unit :=
  do? raise_if (bool_decide (keys (cs_raw current) ≠ keys (cs_raw previous)))
    ("unsupported " ++ label ++ ": state fields cannot be added or removed");
  do? traverse (unchanged_field label (cs_raw previous) (cs_raw current))
    (py_sorted String.leb (filter (λ f, f ∉ mutable_fields) (cs_raw previous).*1));
  Ok tt.

(** The evidence keys recorded false, sorted. *)
Definition missing_evidence (evidence : list (string * bool)) : list string :=
  py_sorted String.leb (filter (λ kv, kv.2 = false) evidence).*1.

Definition _require_completed_session_evidence (previous : ControlState) : result exn unit :=
  let session := cs_current_session previous in
  match SESSION_EVIDENCE_KEYS !! session with
  | None => control_error ("unsupported activation: no completion evidence contract for session " ++ pretty session)
  | Some contract =>
      let evidence := cs_required_completion_evidence previous in
      do? raise_if (bool_decide (keys evidence ≠ list_to_set contract))
        ("activation requires exactly the session " ++ format_02d session ++ " completion evidence keys");
      raise_if (negb (bool_decide (missing_evidence evidence = [])))
        ("activation requires every prior-session evidence key to be true: " ++
         String.concat ", " (missing_evidence evidence))
  end.

Definition validate_activation_transition (previous current : ControlState) : result exn unit :=
  do? raise_if (bool_decide (cs_session_status previous ≠ "complete"))
    "unsupported activation: the previous session must be complete before activation";
  match cs_next_session previous with
  | None => control_error "unsupported activation: no next session is recorded"
  | Some next_session =>
      match SESSION_PROMPTS !! next_session with
      | None => control_error ("unsupported activation: no canonical prompt for " ++ pretty next_session)
      | Some prompt =>
          do? raise_if (negb (next_session =? cs_current_session previous + 1))
            "unsupported activation: next_session must follow current_session";
          do? raise_if (negb (cs_current_session current =? next_session))
            "unsupported activation: current_session must equal next_session";
          do? raise_if (bool_decide (cs_session_status current ≠ "incomplete"))
            "unsupported activation: activated session must be incomplete";
          do? _require_same_fields previous current _ACTIVATION_MUTABLE_FIELDS "activation";
          do? raise_if (negb (cs_state_revision current =? cs_state_revision previous + 1))
            "state revision must advance exactly once";
          do? raise_if (bool_decide (cs_updated_at current = cs_updated_at previous))
            "updated_at must change for the activation transition";
          do? raise_if (bool_decide (cs_completed_sessions previous ≠ seqZ 0 next_session))
            "previous completed_sessions are not contiguous";
          do? raise_if (bool_decide (cs_next_prompt previous ≠ prompt))
            "recorded next_prompt does not identify the canonical prompt";
          do? _require_completed_session_evidence previous;
          match SESSION_EVIDENCE_KEYS !! next_session with
          | None => control_error
              ("unsupported activation: no completion evidence contract for session " ++ pretty next_session)
          | Some contract =>
              let evidence := cs_required_completion_evidence current in
              do? raise_if (bool_decide (keys evidence ≠ list_to_set contract))
                ("activation must install exactly the session " ++ format_02d next_session ++
                 " completion evidence keys");
              raise_if (existsb snd evidence) "activation cannot claim any completion evidence"
          end
      end
  end.

(** [dict(contract)] without [_NEXT_SESSION_CONTRACT_KEY] *)
Definition without_next_session (contract : list (string * json)) : list (string * json) :=
  filter (λ kv, kv.1 ≠ _NEXT_SESSION_CONTRACT_KEY) contract.

Definition contract_may_change (previous current : ControlState) : result exn unit :=
  let previous_contract := cs_transition_contract previous in
  let current_contract := cs_transition_contract current in
  do? raise_if (negb (json_eq (JDict (without_next_session previous_contract))
                              (JDict (without_next_session current_contract))))
    "unsupported completion: transition_contract cannot change";
  raise_if
    (given (json_get _NEXT_SESSION_CONTRACT_KEY previous_contract) &&
     negb (json_eq (default JNull (json_get _NEXT_SESSION_CONTRACT_KEY current_contract))
                   (from_option JInt JNull (cs_next_session current))))
    ("transition_contract." ++ _NEXT_SESSION_CONTRACT_KEY ++ " must equal the new next_session").

(** [for key, value in previous_evidence.items(): ...] *)
Definition evidence_step (current_evidence : list (string * bool)) (kv : string * bool) : result exn unit :=
  let expected := if decide (kv.1 = _CLOSURE_EVIDENCE_KEY) then true else kv.2 in
  match list_find (λ kv', kv'.1 = kv.1) current_evidence with
  | None => Raise (Exn KeyError (str_repr kv.1))
  | Some (_, (_, value)) =>
      raise_if (negb (Bool.eqb value expected))
        "completion evidence cannot change except for the evidence-closure commit"
  end.

Definition evidence_completed (session : Z) (previous_evidence current_evidence : list (string * bool))
    : result exn unit :=
  match SESSION_EVIDENCE_KEYS !! session with
  | None => control_error ("unsupported completion: no completion evidence contract for session " ++ pretty session)
  | Some contract =>
      do? raise_if
        (bool_decide (keys previous_evidence ≠ list_to_set contract) ||
         bool_decide (keys current_evidence ≠ keys previous_evidence))
        "completion evidence keys are missing or unsupported";
      do? raise_if (bool_decide (missing_evidence previous_evidence ≠ [_CLOSURE_EVIDENCE_KEY]))
        "pre-transition evidence must be complete except for the evidence-closure commit";
      do? traverse (evidence_step current_evidence) previous_evidence;
      raise_if (negb (bool_decide (missing_evidence current_evidence = [])))
        ("completion evidence is incomplete: " ++ String.concat ", " (missing_evidence current_evidence))
  end.

Definition blockers_completed (session : Z) (previous_blockers current_blockers : list Blocker)
    : result exn unit :=
  if session =? 0 then
    do? raise_if (negb (length (filter (λ b, bl_code b = _OUTER_GATES_BLOCKER) previous_blockers) =? 1)%nat)
      "pre-transition blockers must contain exactly one Session 00 outer-gates blocker";
    raise_if (bool_decide (current_blockers ≠ filter (λ b, bl_code b ≠ _OUTER_GATES_BLOCKER) previous_blockers))
      "completion may remove only the Session 00 outer-gates blocker"
  else
    raise_if (bool_decide (current_blockers ≠ filter (λ b, b ∈ current_blockers) previous_blockers))
      "completion may only remove existing blockers, never add or edit".

Definition commits_completed (session : Z) (previous current : ControlState) : result exn unit :=
  let bootstrap := cs_bootstrap_commit_sha previous in
  let closure := cs_evidence_closure_commit_sha current in
  do? raise_if (negb (sha_pattern (default "" bootstrap)))
    "pre-transition bootstrap_commit_sha must be a lowercase 40-character hash";
  do? raise_if (bool_decide (cs_last_verified_commit previous ≠ bootstrap))
    "pre-transition last_verified_commit must identify the bootstrap commit";
  do? raise_if (negb (sha_pattern (default "" closure)))
    "evidence_closure_commit_sha must be a lowercase 40-character hash";
  do? (if session =? 0 then
    do? raise_if (bool_decide (cs_head_sha previous ≠ bootstrap))
      "pre-transition head_sha must identify the bootstrap commit";
    raise_if (given (cs_evidence_closure_commit_sha previous))
      "pre-transition evidence_closure_commit_sha must be null"
  else
    let previous_closure := cs_evidence_closure_commit_sha previous in
    do? raise_if (negb (sha_pattern (default "" previous_closure)))
      "pre-transition evidence_closure_commit_sha must identify the prior closure commit";
    do? raise_if (bool_decide (cs_head_sha previous ≠ previous_closure))
      "pre-transition head_sha must identify the prior closure commit";
    raise_if (bool_decide (closure = previous_closure))
      "each session requires a new evidence-closure commit");
  do? raise_if (bool_decide (bootstrap = closure))
    "bootstrap and evidence-closure commit SHAs must be distinct";
  raise_if (bool_decide (cs_head_sha current ≠ closure))
    "head_sha must identify the pre-transition evidence-closure commit".

Definition validate_completion_transition (previous current : ControlState) : result exn unit :=
  let session := cs_current_session previous in
  match SESSION_PROMPTS !! session, SESSION_PROMPTS !! (session + 1) with
  | Some _, Some next_prompt =>
      do? raise_if (bool_decide (cs_session_status previous ≠ "incomplete") ||
                    bool_decide (cs_session_status current ≠ "complete"))
        "unsupported completion: expected incomplete-to-complete";
      do? traverse (unchanged_field "completion" (cs_raw previous) (cs_raw current)) _IDENTITY_FIELDS;
      do? _require_same_fields previous current _COMPLETION_MUTABLE_FIELDS "completion";
      do? raise_if (negb (cs_state_revision current =? cs_state_revision previous + 1))
        "state revision must advance exactly once";
      let expected_previous_sessions := seqZ 0 session in
      do? raise_if (bool_decide (cs_completed_sessions previous ≠ expected_previous_sessions))
        "previous completed_sessions are not contiguous";
      do? raise_if (bool_decide (cs_completed_sessions current ≠ (expected_previous_sessions ++ [session])%list))
        "completed_sessions must append the current session exactly once";
      do? raise_if (bool_decide (cs_next_session current ≠ Some (cs_current_session current + 1)))
        "next session must advance exactly once";
      do? raise_if (bool_decide (cs_next_prompt current ≠ next_prompt))
        ("next prompt must identify the canonical Session " ++ format_02d (session + 1) ++ " prompt");
      do? raise_if (bool_decide (cs_updated_at current = cs_updated_at previous))
        "updated_at must change for the completion transition";
      do? contract_may_change previous current;
      do? evidence_completed session (cs_required_completion_evidence previous)
        (cs_required_completion_evidence current);
      do? blockers_completed session (cs_blockers previous) (cs_blockers current);
      commits_completed session previous current
  | _, _ => control_error ("unsupported completion: no canonical prompt after session " ++ pretty session)
  end.

(** ** Facts about decoded documents *)

Lemma raise_if_ok c m : raise_if c m = Ok tt ↔ c = false.
Proof. destruct c; simpl; naive_solver. Qed.

Lemma item_ok k d v : item k d = Ok v ↔ json_get k d = Some v.
Proof. unfold item. destruct (json_get k d); naive_solver. Qed.

Lemma json_eq_str x y : json_eq (JStr x) (JStr y) = true ↔ x = y.
Proof. apply String.eqb_eq. Qed.

Lemma json_eq_int x y : json_eq (JInt x) (JInt y) = true ↔ x = y.
Proof. apply Z.eqb_eq. Qed.

Lemma json_eq_ints l m : json_eq (JList (JInt <$> l)) (JList (JInt <$> m)) = true ↔ l = m.
Proof.
  revert m. induction l as [|x l IH]; intros [|y m]; [done..|]. split.
  - simpl. intros [->%Z.eqb_eq Hl]%andb_true_iff. f_equal. by apply IH.
  - intros [= -> ->]. simpl. rewrite Z.eqb_refl. by apply IH.
Qed.

Definition JOpt (o : option string) : json := from_option JStr JNull o.

Lemma json_eq_opt a b : json_eq (JOpt a) (JOpt b) = true ↔ a = b.
Proof. destruct a, b; simpl; rewrite ?String.eqb_eq; naive_solver. Qed.

(** What the typed fields of a parsed state say of its dictionary. *)
Definition encoded (s : ControlState) : list (string * json) :=
  [("programme", JStr (cs_programme s)); ("version", JStr (cs_version s));
   ("repo_root", JStr (cs_repo_root s)); ("windows_repo_root", JStr (cs_windows_repo_root s));
   ("branch", JStr (cs_branch s)); ("head_sha", JOpt (cs_head_sha s));
   ("bootstrap_commit_sha", JOpt (cs_bootstrap_commit_sha s));
   ("evidence_closure_commit_sha", JOpt (cs_evidence_closure_commit_sha s));
   ("last_verified_commit", JOpt (cs_last_verified_commit s));
   ("session_status", JStr (cs_session_status s));
   ("current_session", JInt (cs_current_session s));
   ("completed_sessions", JList (JInt <$> cs_completed_sessions s))].

Lemma string_encoded k d v : _require_string d k = Ok v → json_get k d = Some (JStr v).
Proof. unfold _require_string. intros (w & Hw%item_ok & Hv)%rbind_ok. destruct w; naive_solver. Qed.

Lemma nullable_encoded k d v : _require_nullable d k = Ok v → json_get k d = Some (JOpt v).
Proof. unfold _require_nullable. intros (w & Hw%item_ok & Hv)%rbind_ok. destruct w; naive_solver. Qed.

Lemma int_encoded k d m v : rbind (item k d) (as_int m) = Ok v → json_get k d = Some (JInt v).
Proof. intros (w & Hw%item_ok & Hv)%rbind_ok. destruct w; naive_solver. Qed.

Lemma ints_encoded k d m v :
  rbind (item k d) (as_list m as_int) = Ok v → json_get k d = Some (JList (JInt <$> v)).
Proof.
  intros (w & Hw%item_ok & Hv)%rbind_ok. destruct w as [| | | |l|]; try done. rewrite Hw. do 2 f_equal.
  apply traverse_Forall2 in Hv. clear Hw. induction Hv as [|x z l v Hx _ IH]; [done|].
  rewrite fmap_cons. f_equal; [|done]. destruct x; naive_solver.
Qed.

Lemma parse_encoded contents label s :
  _parse_state contents label = Ok s → Forall (λ kv, json_get kv.1 (cs_raw s) = Some kv.2) (encoded s).
Proof.
  destruct contents as [[]|]; try done. unfold _parse_state. intros Hp.
  repeat (apply rbind_ok in Hp as (? & ? & Hp)). injection Hp as <-. cbn [cs_raw].
  repeat match goal with
  | H : _require_string _ _ = _ |- _ => apply string_encoded in H
  | H : _require_nullable _ _ = _ |- _ => apply nullable_encoded in H
  | H : rbind _ (as_int _) = _ |- _ => apply int_encoded in H
  | H : rbind _ (as_list _ as_int) = _ |- _ => apply ints_encoded in H
  end.
  repeat constructor; done.
Qed.

Lemma parse_label contents l1 l2 s : _parse_state contents l1 = Ok s → _parse_state contents l2 = Ok s.
Proof.
  destruct contents as [[]|]; try done. unfold _parse_state. cbv zeta.
  case_bool_decide; [done|]. simpl. done.
Qed.

(** ** What an accepted transition says *)

Lemma unit_ok (r : result exn unit) u : r = Ok u ↔ r = Ok tt.
Proof. by destruct u. Qed.

Lemma unchanged_field_ok label p c f v w :
  unchanged_field label p c f = Ok tt → json_get f p = Some v → json_get f c = Some w → json_eq v w = true.
Proof.
  unfold unchanged_field, differs, item. intros H Hv Hw. rewrite Hv, Hw in H. simpl in H.
  by apply raise_if_ok, negb_false_iff in H.
Qed.

Lemma json_get_key f d v : json_get f d = Some v → f ∈ d.*1.
Proof.
  unfold json_get. intros (r & Hr & ->)%fmap_Some. destruct r as [i [k w]].
  apply list_find_Some in Hr as (Hi & <- & _). apply list_elem_of_fmap. exists (k, w).
  split; [done|]. by eapply list_elem_of_lookup_2.
Qed.

Lemma kept_field p c mutable label f v w :
  _require_same_fields p c mutable label = Ok tt → f ∉ mutable →
  json_get f (cs_raw p) = Some v → json_get f (cs_raw c) = Some w → json_eq v w = true.
Proof.
  unfold _require_same_fields. intros (? & _ & (us & Hall & _)%rbind_ok)%rbind_ok Hf Hv Hw.
  apply traverse_Forall2 in Hall.
  assert (Hin : f ∈ py_sorted String.leb (filter (λ f, f ∉ mutable) (cs_raw p).*1)).
  { apply elem_of_py_sorted, list_elem_of_filter. split; [done|]. by eapply json_get_key. }
  apply list_elem_of_lookup in Hin as [i Hi].
  destruct (Forall2_lookup_l _ _ _ _ _ Hall Hi) as (u & _ & Hu).
  apply unit_ok in Hu. by eapply unchanged_field_ok.
Qed.

(** The parsed form of a document. *)
Definition parsed (d : json) (s : ControlState) : Prop := _parse_state (Ok d) "state" = Ok s.

Lemma parsed_get d s k v : parsed d s → (k, v) ∈ encoded s → json_get k (cs_raw s) = Some v.
Proof. intros Hd Hin. apply parse_encoded in Hd. rewrite Forall_forall in Hd. by apply (Hd _ Hin). Qed.

Lemma kept_parsed d d' p c mutable label f v w :
  parsed d p → parsed d' c → _require_same_fields p c mutable label = Ok tt → f ∉ mutable →
  (f, v) ∈ encoded p → (f, w) ∈ encoded c → json_eq v w = true.
Proof. intros Hp Hc Hs Hf Hv Hw. eapply kept_field; eauto using parsed_get. Qed.

(** The fields no transition changes. *)
Definition identity (s : ControlState) :=
  (cs_programme s, cs_version s, cs_repo_root s, cs_windows_repo_root s, cs_branch s,
   cs_bootstrap_commit_sha s, cs_last_verified_commit s).

Ltac in_encoded := unfold encoded; repeat (first [apply list_elem_of_here | apply list_elem_of_further]).

Lemma same_identity d d' p c mutable label :
  parsed d p → parsed d' c → _require_same_fields p c mutable label = Ok tt →
  Forall (λ f, f ∉ mutable) ["programme"; "version"; "repo_root"; "windows_repo_root"; "branch";
                             "bootstrap_commit_sha"; "last_verified_commit"] →
  identity c = identity p.
Proof.
  intros Hp Hc Hs Hm. rewrite !Forall_cons in Hm. destruct Hm as (H1 & H2 & H3 & H4 & H5 & H6 & H7 & _).
  unfold identity. repeat match goal with |- (_, _) = (_, _) => apply (f_equal2 pair) end; symmetry.
  all: first [apply json_eq_str | apply json_eq_opt]; eapply kept_parsed;
    [exact Hp|exact Hc|exact Hs| |in_encoded|in_encoded]; assumption.
Qed.

Definition evidence_complete (session : Z) (evidence : list (string * bool)) : Prop :=
  ∃ contract, SESSION_EVIDENCE_KEYS !! session = Some contract ∧
    keys evidence = list_to_set contract ∧ Forall (λ kv, kv.2 = true) evidence.

Lemma missing_nil evidence : missing_evidence evidence = [] ↔ Forall (λ kv, kv.2 = true) evidence.
Proof.
  unfold missing_evidence. rewrite <- (length_zero_iff_nil (py_sorted _ _)), py_sorted_length, length_fmap,
    length_zero_iff_nil, Forall_forall. split.
  - intros Hn kv Hin. apply not_false_iff_true. intros Hf.
    assert (kv ∈ filter (λ kv : string * bool, kv.2 = false) evidence) as Hx by (by apply list_elem_of_filter).
    rewrite Hn in Hx. by apply elem_of_nil in Hx.
  - intros Hall. apply filter_none. intros kv Hin Hf. specialize (Hall kv Hin). congruence.
Qed.

Record activated (p c : ControlState) : Prop := {
  act_was : cs_session_status p = "complete";
  act_is : cs_session_status c = "incomplete";
  act_session : cs_current_session c = cs_current_session p + 1;
  act_same : _require_same_fields p c _ACTIVATION_MUTABLE_FIELDS "activation" = Ok tt;
  act_revision : cs_state_revision c = cs_state_revision p + 1;
  act_completed : cs_completed_sessions p = seqZ 0 (cs_current_session c);
  act_prior : evidence_complete (cs_current_session p) (cs_required_completion_evidence p);
  act_keys : ∃ contract, SESSION_EVIDENCE_KEYS !! cs_current_session c = Some contract ∧
    keys (cs_required_completion_evidence c) = list_to_set contract;
  act_false : Forall (λ kv, kv.2 = false) (cs_required_completion_evidence c);
}.

(** Turn the accepted checks of a validator into facts. *)
Ltac accepted :=
  repeat match goal with
  | H : rbind _ _ = Ok _ |- _ => apply rbind_ok in H as (? & ? & H)
  | H : ?r = Ok ?u |- _ => is_var u; apply unit_ok in H
  | H : raise_if _ _ = Ok tt |- _ => apply raise_if_ok in H
  | H : _ || _ = false |- _ => apply orb_false_iff in H as [? ?]
  | H : negb _ = false |- _ => apply negb_false_iff in H
  | H : bool_decide _ = false |- _ => first [apply bool_decide_eq_false, dec_stable in H | apply bool_decide_eq_false in H]
  | H : bool_decide _ = true |- _ => apply bool_decide_eq_true in H
  | H : (_ =? _) = true |- _ => apply Z.eqb_eq in H
  end.

Lemma completed_evidence_ok p :
  _require_completed_session_evidence p = Ok tt →
  evidence_complete (cs_current_session p) (cs_required_completion_evidence p).
Proof.
  unfold _require_completed_session_evidence. destruct (_ !! _) as [contract|] eqn:E; [|done].
  intros H. accepted. exists contract. by rewrite <- missing_nil.
Qed.

Lemma activation_facts p c : validate_activation_transition p c = Ok tt → activated p c.
Proof.
  unfold validate_activation_transition. intros H. apply rbind_ok in H as (? & Hs & H).
  destruct (cs_next_session p) as [n|]; [|done]. destruct (SESSION_PROMPTS !! n) as [prompt|]; [|done].
  repeat (apply rbind_ok in H as (? & ? & H)). destruct (SESSION_EVIDENCE_KEYS !! n) as [contract|] eqn:E; [|done].
  apply rbind_ok in H as (? & Hk & H).
  assert (Hf : Forall (λ kv, kv.2 = false) (cs_required_completion_evidence c)).
  { apply raise_if_ok in H. rewrite Forall_forall. intros kv Hin. destruct (kv.2) eqn:Ekv; [|done].
    assert (existsb snd (cs_required_completion_evidence c) = true); [|congruence].
    apply existsb_exists. exists kv. by rewrite <- list_elem_of_In. }
  accepted. split; eauto using completed_evidence_ok; try congruence. exists contract. split; congruence.
Qed.

Record completed (p c : ControlState) : Prop := {
  com_was : cs_session_status p = "incomplete";
  com_is : cs_session_status c = "complete";
  com_same : _require_same_fields p c _COMPLETION_MUTABLE_FIELDS "completion" = Ok tt;
  com_revision : cs_state_revision c = cs_state_revision p + 1;
  com_before : cs_completed_sessions p = seqZ 0 (cs_current_session p);
  com_after : cs_completed_sessions c = (seqZ 0 (cs_current_session p) ++ [cs_current_session p])%list;
  com_next : cs_next_session c = Some (cs_current_session c + 1);
  com_prompt : SESSION_PROMPTS !! (cs_current_session p + 1) = Some (cs_next_prompt c);
  com_evidence : evidence_complete (cs_current_session p) (cs_required_completion_evidence c);
  com_commits : commits_completed (cs_current_session p) p c = Ok tt;
}.

Lemma evidence_completed_ok session p c :
  evidence_completed session p c = Ok tt → evidence_complete session c.
Proof.
  unfold evidence_completed. destruct (_ !! _) as [contract|] eqn:E; [|done].
  intros H. accepted. exists contract. rewrite <- missing_nil. split_and!; congruence.
Qed.

Lemma completion_facts p c : validate_completion_transition p c = Ok tt → completed p c.
Proof.
  unfold validate_completion_transition. destruct (SESSION_PROMPTS !! cs_current_session p); [|done].
  destruct (SESSION_PROMPTS !! (cs_current_session p + 1)) as [prompt|] eqn:E; [|done].
  intros H. accepted. split; eauto using evidence_completed_ok; congruence.
Qed.

(** The commit a completion names: new, well formed, the new head, and the child the prior
    head must have. *)
Lemma commits_facts p c :
  commits_completed (cs_current_session p) p c = Ok tt →
  ∃ sha, sha_pattern sha = true ∧ cs_evidence_closure_commit_sha c = Some sha ∧ cs_head_sha c = Some sha ∧
    cs_bootstrap_commit_sha p ≠ Some sha ∧
    (cs_head_sha p = if cs_current_session p =? 0 then cs_bootstrap_commit_sha p
                     else cs_evidence_closure_commit_sha p) ∧
    cs_evidence_closure_commit_sha p ≠ Some sha.
Proof.
  unfold commits_completed. intros H. accepted.
  destruct (cs_evidence_closure_commit_sha c) as [sha|] eqn:Ec; [|done]. exists sha. simpl in *.
  destruct (cs_current_session p =? 0); accepted; split_and!; try congruence.
  all: intros E; rewrite E in *; naive_solver.
Qed.

(** ** The history of the programme *)

Definition finished (s : ControlState) : bool := bool_decide (cs_session_status s = "complete").

(** The document the programme starts from. *)
Definition opening (s : ControlState) : Prop :=
  cs_current_session s = 0 ∧ cs_session_status s = "incomplete" ∧ cs_completed_sessions s = [].

(** Between two transitions the document is edited by ordinary commits, which no code checks.
    Such an edit records progress: it leaves the session, its status, the completed sessions,
    the identity and the evidence-closure commit alone and never lowers the revision.  The
    head, which is synced to the tip, and the evidence may move. *)
Definition edited (p c : ControlState) : Prop :=
  cs_session_status c = cs_session_status p ∧ cs_current_session c = cs_current_session p ∧
  cs_completed_sessions c = cs_completed_sessions p ∧ identity c = identity p ∧
  cs_evidence_closure_commit_sha c = cs_evidence_closure_commit_sha p ∧
  cs_state_revision p <= cs_state_revision c.

(** A session that an operator closes by hand, as decision D-0032 does with session 7: it
    becomes complete whatever its evidence, and the evidence-closure commit stays that of the
    session before. *)
Definition closed_by_hand (p c : ControlState) : Prop :=
  cs_session_status p = "incomplete" ∧ cs_session_status c = "complete" ∧
  cs_current_session c = cs_current_session p ∧
  cs_completed_sessions c = (cs_completed_sessions p ++ [cs_current_session p])%list ∧
  identity c = identity p ∧ cs_evidence_closure_commit_sha c = cs_evidence_closure_commit_sha p ∧
  cs_state_revision p <= cs_state_revision c.

(** What moves the programme on, with the states before and after. *)
Inductive mark : Type :=
  | Activation (p c : ControlState)
  | Completion (p c : ControlState)
  | HandClose (p c : ControlState).

(** The documents that follow [d0], with the marks passed so far: edits, transitions that the
    validators accept, and closes by hand. *)
Inductive chronicle (d0 : json) : list mark → json → Prop :=
  | chr_start : chronicle d0 [] d0
  | chr_edit l d d' p c : chronicle d0 l d → parsed d p → parsed d' c → edited p c → chronicle d0 l d'
  | chr_activation l d d' p c : chronicle d0 l d → parsed d p → parsed d' c →
      validate_activation_transition p c = Ok tt → chronicle d0 (l ++ [Activation p c]) d'
  | chr_completion l d d' p c : chronicle d0 l d → parsed d p → parsed d' c →
      validate_completion_transition p c = Ok tt → chronicle d0 (l ++ [Completion p c]) d'
  | chr_hand l d d' p c : chronicle d0 l d → parsed d p → parsed d' c →
      closed_by_hand p c → chronicle d0 (l ++ [HandClose p c]) d'.

(** The [i]th mark closes or opens the session of its place.  An activation finds the whole
    evidence of the session it leaves, and starts the next without any; a completion leaves
    the whole evidence and a closure commit that is new. *)
Definition mark_ok (i : nat) (m : mark) : Prop :=
  match m with
  | Activation p c =>
      Z.of_nat i = 2 * cs_current_session p + 1 ∧ cs_current_session c = cs_current_session p + 1 ∧
      evidence_complete (cs_current_session p) (cs_required_completion_evidence p) ∧
      (∃ contract, SESSION_EVIDENCE_KEYS !! cs_current_session c = Some contract ∧
         keys (cs_required_completion_evidence c) = list_to_set contract) ∧
      Forall (λ kv, kv.2 = false) (cs_required_completion_evidence c)
  | Completion p c =>
      Z.of_nat i = 2 * cs_current_session p ∧ cs_current_session c = cs_current_session p ∧
      evidence_complete (cs_current_session c) (cs_required_completion_evidence c) ∧
      ∃ sha, sha_pattern sha = true ∧ cs_head_sha c = Some sha ∧ cs_evidence_closure_commit_sha c = Some sha ∧
        cs_bootstrap_commit_sha c ≠ Some sha ∧ cs_evidence_closure_commit_sha p ≠ Some sha
  | HandClose p c => Z.of_nat i = 2 * cs_current_session p
  end.

Definition accepted_mark (m : mark) : bool := match m with HandClose _ _ => false | _ => true end.

(** What a document records after the marks [l] since [s0]. *)
Record history (s0 : ControlState) (l : list mark) (s : ControlState) : Prop := {
  hi_session : 0 <= cs_current_session s <= 8;
  hi_status : finished s = false → cs_session_status s = "incomplete";
  hi_count : Z.of_nat (length l) = 2 * cs_current_session s + Z.b2z (finished s);
  hi_revision : cs_state_revision s0 + Z.of_nat (length (filter accepted_mark l)) <= cs_state_revision s;
  hi_completed : cs_completed_sessions s = seqZ 0 (cs_current_session s + Z.b2z (finished s));
  hi_identity : identity s = identity s0;
  hi_marks : ∀ i m, l !! i = Some m → mark_ok i m;
}.

Lemma contract_sessions n contract : SESSION_EVIDENCE_KEYS !! n = Some contract → 0 <= n <= 8.
Proof.
  assert (Hall : map_Forall (λ n _, 0 <= n <= 8) SESSION_EVIDENCE_KEYS) by by_decide.
  apply (Hall n).
Qed.

Lemma opening_history s : opening s → history s [] s.
Proof.
  intros (Hn & Hs & Hc). assert (Hf : finished s = false) by (unfold finished; by rewrite Hs).
  split; rewrite ?Hf, ?Hn; try done; simpl; lia.
Qed.

Lemma marks_snoc l m :
  (∀ i m, l !! i = Some m → mark_ok i m) → mark_ok (length l) m →
  ∀ i m', (l ++ [m])%list !! i = Some m' → mark_ok i m'.
Proof.
  intros Hl Hm i m' Hi. apply lookup_app_Some in Hi as [Hi|[Hle Hi]]; [by apply Hl|].
  apply list_lookup_singleton_Some in Hi as [Hi <-]. by replace i with (length l) by lia.
Qed.

Lemma accepted_snoc l m :
  length (filter accepted_mark (l ++ [m])%list) =
    (length (filter accepted_mark l) + if accepted_mark m then 1 else 0)%nat.
Proof.
  rewrite filter_app, length_app. f_equal. by destruct m.
Qed.

Lemma activation_history s0 l d d' p c :
  parsed d p → parsed d' c → validate_activation_transition p c = Ok tt →
  history s0 l p → history s0 (l ++ [Activation p c])%list c.
Proof.
  intros Hp Hc Ha%activation_facts H. destruct Ha, H.
  assert (Hfp : finished p = true) by (unfold finished; by rewrite act_was0).
  assert (Hfc : finished c = false) by (unfold finished; by rewrite act_is0).
  pose proof act_keys0 as (contract & Hk & _). pose proof (contract_sessions _ _ Hk).
  assert (Hcs : cs_completed_sessions c = cs_completed_sessions p).
  { symmetry. apply json_eq_ints. eapply kept_parsed; [exact Hp|exact Hc|exact act_same0| |in_encoded|in_encoded].
    by_decide. }
  split; rewrite ?accepted_snoc, ?length_app, ?Hfp, ?Hfc in *; simpl in *; try done; [lia|lia| | |].
  - rewrite Hcs, act_completed0. f_equal. lia.
  - rewrite <- hi_identity0. eapply same_identity; eauto. by_decide.
  - apply marks_snoc; [done|]. split_and!; [lia|done..].
Qed.

Lemma completion_session d d' p c :
  parsed d p → parsed d' c → completed p c → cs_current_session c = cs_current_session p.
Proof.
  intros Hp Hc []. symmetry. apply json_eq_int.
  eapply kept_parsed; [exact Hp|exact Hc|exact com_same0| |in_encoded|in_encoded]. by_decide.
Qed.

Lemma completion_history s0 l d d' p c :
  parsed d p → parsed d' c → validate_completion_transition p c = Ok tt →
  history s0 l p → history s0 (l ++ [Completion p c])%list c.
Proof.
  intros Hp Hc Ha%completion_facts H. pose proof (completion_session _ _ _ _ Hp Hc Ha) as Hn. destruct Ha, H.
  assert (Hfp : finished p = false) by (unfold finished; by rewrite com_was0).
  assert (Hfc : finished c = true) by (unfold finished; by rewrite com_is0).
  assert (Hid : identity c = identity p) by (eapply same_identity; eauto; by_decide).
  split; rewrite ?accepted_snoc, ?length_app, ?Hfp, ?Hfc, ?Hn in *; simpl in *; try done; try lia; [| |].
  - rewrite com_after0, seqZ_app by lia. by rewrite Z.add_0_l.
  - congruence.
  - apply marks_snoc; [done|]. simpl. rewrite Hn. split; [lia|]. do 2 (split; [done|]).
    destruct (commits_facts _ _ com_commits0) as (sha & H1 & H2 & H3 & H4 & _ & H5).
    exists sha. split_and!; try done. unfold identity in Hid. congruence.
Qed.

Lemma hand_history s0 l p c :
  closed_by_hand p c → history s0 l p → history s0 (l ++ [HandClose p c])%list c.
Proof.
  intros (Hwas & His & Hn & Hcom & Hid & _ & Hrev) H. destruct H.
  assert (Hfp : finished p = false) by (unfold finished; by rewrite Hwas).
  assert (Hfc : finished c = true) by (unfold finished; by rewrite His).
  split; rewrite ?accepted_snoc, ?length_app, ?Hfp, ?Hfc, ?Hn in *; simpl in *; try done; try lia; [| |].
  - rewrite Hcom, hi_completed0, Z.add_0_r, seqZ_app by lia. by rewrite Z.add_0_l.
  - congruence.
  - apply marks_snoc; [done|]. simpl. lia.
Qed.

Lemma parsed_functional d s s' : parsed d s → parsed d s' → s = s'.
Proof. unfold parsed. congruence. Qed.

Lemma edit_history s0 l p c : edited p c → history s0 l p → history s0 l c.
Proof.
  intros (Hst & Hcur & Hcom & Hid & _ & Hrev) H.
  assert (Hf : finished c = finished p) by (unfold finished; by rewrite Hst).
  destruct H. split; rewrite ?Hf, ?Hcur, ?Hst, ?Hcom, ?Hid; try done. lia.
Qed.

(** C14: The programme advances in order.  From an opening document on, let the document be
    replaced any number of times by transitions that the validators accept, by sessions that
    an operator closes by hand (as D-0032 closed session 7), and by edits in between that keep
    the session, its status, the completed sessions, the identity of the programme and the
    evidence-closure commit and do not lower the revision; edits may move the head and the
    evidence.  Then closes and activations alternate: the session and its status are those of
    the count, the completed sessions are the contiguous prefix, the identity never changes and
    every accepted transition has raised the revision.  An activation always finds the whole
    evidence of the session it leaves and starts the next session, which has an evidence
    contract, with none; a session closed by a completion has its whole evidence and a new
    well-formed closure commit then.  No more than seventeen such steps are possible. *)
Theorem programme_history d0 l d s0 :
  parsed d0 s0 → opening s0 → chronicle d0 l d →
  (length l <= 17)%nat ∧ ∃ s, parsed d s ∧ history s0 l s.
Proof.
  intros H0 Ho Hchr. assert (∃ s, parsed d s ∧ history s0 l s) as (s & Hs & Hh).
  { induction Hchr as [|l d d' p c _ (s & Hs & Hh) Hp Hc He|l d d' p c _ (s & Hs & Hh) Hp Hc Hv
      |l d d' p c _ (s & Hs & Hh) Hp Hc Hv|l d d' p c _ (s & Hs & Hh) Hp Hc Hv];
      [eauto using opening_history|rewrite <- (parsed_functional _ _ _ Hs Hp) in *; exists c; split; [done|]..].
    - eauto using edit_history.
    - eapply activation_history; [exact Hs|exact Hc|exact Hv|exact Hh].
    - eapply completion_history; [exact Hs|exact Hc|exact Hv|exact Hh].
    - by apply hand_history. }
  split; [|by exists s]. destruct Hh. destruct (finished s); simpl in *; lia.
Qed.

(** Without an edit that records evidence, a session that was just activated cannot be
    completed. *)
Theorem activation_needs_work p c e :
  validate_activation_transition p c = Ok tt → validate_completion_transition c e ≠ Ok tt.
Proof.
  intros Ha%activation_facts Hc. destruct Ha. clear act_prior0.
  destruct act_keys0 as (contract & Hk & Hkeys).
  assert (Hmany : map_Forall (λ _ contract, list_to_set contract ≠ ({[_CLOSURE_EVIDENCE_KEY]} : gset string))
    SESSION_EVIDENCE_KEYS) by by_decide.
  apply (Hmany _ _ Hk). rewrite <- Hkeys.
  assert (Hm : missing_evidence (cs_required_completion_evidence c) = [_CLOSURE_EVIDENCE_KEY]).
  { unfold validate_completion_transition in Hc.
    destruct (SESSION_PROMPTS !! cs_current_session c); [|done].
    destruct (SESSION_PROMPTS !! (cs_current_session c + 1)); [|done].
    repeat (apply rbind_ok in Hc as (? & ? & Hc)).
    match goal with H : evidence_completed _ _ _ = Ok _ |- _ => apply unit_ok in H; revert H end.
    unfold evidence_completed. rewrite Hk. intros Hev. by accepted. }
  unfold missing_evidence in Hm. rewrite filter_all in Hm by (by apply Forall_forall).
  unfold keys. rewrite <- (py_sorted_perm String.leb), Hm. set_solver.
Qed.

(** ** Worked documents *)

Definition sample_bootstrap := String.concat "" (repeat "b" 40).
Definition sample_closure (n : Z) := String.concat "" (repeat (pretty n) 40).
Definition sample_prompt (n : Z) := default "" (SESSION_PROMPTS !! n).

(** Session [n], complete or not, with [evidence] telling which keys are recorded. *)
Definition sample_doc (n : Z) (done : bool) (evidence : string → bool) : json :=
  let commit :=
    if done then JStr (sample_closure n) else if n =? 0 then JNull else JStr (sample_closure (n - 1)) in
  let next := if done then n + 1 else n in
  JDict
    [("programme", JStr "money-machine"); ("version", JStr "1.0"); ("repo_root", JStr "/repo");
     ("windows_repo_root", JStr "D:/repo"); ("branch", JStr "build/full-automation");
     ("head_sha", if negb done && (n =? 0) then JStr sample_bootstrap else commit);
     ("bootstrap_commit_sha", JStr sample_bootstrap); ("evidence_closure_commit_sha", commit);
     ("last_verified_commit", JStr sample_bootstrap); ("state_revision", JInt (2 * n + Z.b2z done));
     ("session_status", JStr (if done then "complete" else "incomplete"));
     ("current_session", JInt n); ("completed_sessions", JList (JInt <$> seqZ 0 (n + Z.b2z done)));
     ("services", JDict []); ("commissioned_agents", JList []); ("tests", JDict []);
     ("environment_versions", JDict []);
     ("blockers", JList (if negb done && (n =? 0) then
        [JDict [("code", JStr _OUTER_GATES_BLOCKER); ("scope", JStr "s"); ("detail", JStr "d")]] else []));
     ("next_session", JInt next); ("next_prompt", JStr (sample_prompt next));
     ("required_completion_evidence",
        JDict ((λ k, (k, JBool (evidence k))) <$> default [] (SESSION_EVIDENCE_KEYS !! n)));
     ("transition_contract", JDict [(_NEXT_SESSION_CONTRACT_KEY, JInt (if done then n + 1 else n))]);
     ("updated_at", JStr (pretty (2 * n + Z.b2z done)))].

Definition nothing_yet (k : string) : bool := false.
Definition all_but_closure (k : string) : bool := negb (String.eqb k _CLOSURE_EVIDENCE_KEY).
Definition everything (k : string) : bool := true.

Definition sample_state (d : json) : option ControlState :=
  match _parse_state (Ok d) "state" with Ok s => Some s | Raise _ => None end.

(** The same document with another value in one field. *)
Definition with_field (k : string) (v : json) (d : json) : json :=
  match d with
  | JDict kvs => JDict ((λ kv, if decide (kv.1 = k) then (k, v) else kv) <$> kvs)
  | d => d
  end.

(** Session [n] closed by hand: no evidence, the closure commit of the session before, and the
    head synced to some other commit. *)
Definition sample_hand_closed (n : Z) (evidence : string → bool) : json :=
  with_field "evidence_closure_commit_sha" (JStr (sample_closure (n - 1)))
    (with_field "head_sha" (JStr sample_bootstrap) (sample_doc n true evidence)).

(** Two documents whose states are related. *)
Definition states_rel (R : ControlState → ControlState → Prop) `{∀ p c, Decision (R p c)} (d d' : json) : bool :=
  match sample_state d, sample_state d' with
  | Some p, Some c => bool_decide (R p c)
  | _, _ => false
  end.

#[export] Instance edited_dec p c : Decision (edited p c).
Proof. unfold edited. apply _. Defined.

#[export] Instance closed_by_hand_dec p c : Decision (closed_by_hand p c).
Proof. unfold closed_by_hand. apply _. Defined.

Lemma sample_parsed d s : sample_state d = Some s → parsed d s.
Proof. unfold sample_state, parsed. destruct (_parse_state (Ok d) "state"); naive_solver. Qed.

Lemma sample_rel R `{∀ p c, Decision (R p c)} d d' :
  states_rel R d d' = true → ∃ p c, parsed d p ∧ parsed d' c ∧ R p c.
Proof.
  unfold states_rel. destruct (sample_state d) as [p|] eqn:Hp, (sample_state d') as [c|] eqn:Hc; try done.
  intros HR%bool_decide_eq_true. apply sample_parsed in Hp, Hc. by exists p, c.
Qed.

Definition accepted_activation (p c : ControlState) : Prop := validate_activation_transition p c = Ok tt.
Definition accepted_completion (p c : ControlState) : Prop := validate_completion_transition p c = Ok tt.

#[export] Instance accepted_activation_dec p c : Decision (accepted_activation p c).
Proof. unfold accepted_activation. apply _. Defined.
#[export] Instance accepted_completion_dec p c : Decision (accepted_completion p c).
Proof. unfold accepted_completion. apply _. Defined.

(** Nine sessions can be completed and eight of them activated. *)
Lemma sample_completed d0 l n : n ∈ seqZ 0 9 → chronicle d0 l (sample_doc n false nothing_yet) →
  ∃ m, chronicle d0 (l ++ [m]) (sample_doc n true everything).
Proof.
  assert (Hall : forallb (λ n,
    states_rel edited (sample_doc n false nothing_yet) (sample_doc n false all_but_closure) &&
    states_rel accepted_completion (sample_doc n false all_but_closure) (sample_doc n true everything)) (seqZ 0 9) = true)
    by (vm_compute; reflexivity).
  rewrite forallb_elem_of in Hall. intros Hn Hchr. specialize (Hall n Hn).
  apply andb_true_iff in Hall as [(p & q & Hp & Hq & He)%sample_rel (q' & c & Hq' & Hc & Hv)%sample_rel].
  exists (Completion q' c). eapply chr_completion; [|exact Hq'|exact Hc|exact Hv].
  eapply chr_edit; [exact Hchr|exact Hp|exact Hq|exact He].
Qed.

Lemma sample_activated d0 l n : n ∈ seqZ 0 8 → chronicle d0 l (sample_doc n true everything) →
  ∃ m, chronicle d0 (l ++ [m]) (sample_doc (n + 1) false nothing_yet).
Proof.
  assert (Hall : forallb (λ n,
    states_rel accepted_activation (sample_doc n true everything) (sample_doc (n + 1) false nothing_yet)) (seqZ 0 8) = true)
    by (vm_compute; reflexivity).
  rewrite forallb_elem_of in Hall. intros Hn Hchr. specialize (Hall n Hn).
  apply sample_rel in Hall as (p & c & Hp & Hc & Hv).
  exists (Activation p c). eapply chr_activation; [exact Hchr|exact Hp|exact Hc|exact Hv].
Qed.

Lemma sample_path (n : nat) : (n <= 8)%nat →
  ∃ l, length l = (2 * n)%nat ∧
    chronicle (sample_doc 0 false nothing_yet) l (sample_doc (Z.of_nat n) false nothing_yet).
Proof.
  induction n as [|n IH]; intros Hn; [exists []; split; [done|apply chr_start]|].
  destruct IH as (l & Hl & Hchr); [lia|].
  apply sample_completed in Hchr as [m1 Hchr]; [|apply elem_of_seqZ; lia].
  apply sample_activated in Hchr as [m2 Hchr]; [|apply elem_of_seqZ; lia].
  rewrite Nat2Z.inj_succ, <- Z.add_1_r. exists ((l ++ [m1]) ++ [m2])%list.
  split; [|exact Hchr]. rewrite !length_app, Hl. simpl. lia.
Qed.

(** The bound is met: eight sessions are completed and the last is closed by hand. *)
Theorem programme_history_witness :
  ∃ (s : ControlState) l, parsed (sample_hand_closed 8 nothing_yet) s ∧ cs_current_session s = 8 ∧
    finished s = true ∧ length l = 17%nat ∧ ∀ i m, l !! i = Some m → mark_ok i m.
Proof.
  destruct (sample_state (sample_doc 0 false nothing_yet)) as [s0|] eqn:E0; [|vm_compute in E0; discriminate].
  assert (Ho : opening s0) by (vm_compute in E0; injection E0 as <-; by split_and!).
  destruct (sample_path 8 ltac:(lia)) as (l & Hl & Hchr).
  assert (Hhand : states_rel closed_by_hand (sample_doc 8 false nothing_yet) (sample_hand_closed 8 nothing_yet) = true)
    by (vm_compute; reflexivity).
  apply sample_rel in Hhand as (p & c & Hp & Hc & Hh).
  destruct (programme_history _ _ _ s0 (sample_parsed _ _ E0) Ho (chr_hand _ _ _ _ p c Hchr Hp Hc Hh))
    as (_ & s & Hs & Hist).
  clear Hchr E0. exists s, (l ++ [HandClose p c])%list. destruct Hist as [Hses _ Hcount _ _ _ Hmarks].
  assert (Hlen : length (l ++ [HandClose p c])%list = 17%nat) by (rewrite length_app, Hl; reflexivity).
  rewrite Hlen in Hcount. split; [exact Hs|]. destruct (finished s); cbn [Z.b2z] in Hcount; [|lia].
  split; [lia|]. split; [reflexivity|]. split; [exact Hlen|exact Hmarks].
Defined.

(** A session closed by hand is left only once its evidence is recorded. *)
Definition leave_seven (evidence : string → bool) : option (result exn unit) :=
  p ← sample_state (sample_hand_closed 7 evidence);
  c ← sample_state (with_field "evidence_closure_commit_sha" (JStr (sample_closure 6))
                     (with_field "head_sha" (JStr sample_bootstrap) (sample_doc 8 false nothing_yet)));
  Some (validate_activation_transition p c).

Example hand_closed_waits_for_evidence :
  leave_seven everything = Some (Ok tt) ∧ leave_seven nothing_yet ≠ Some (Ok tt).
Proof. vm_compute. done. Qed.

(** Session 9 has no evidence contract, so no document activates it. *)
Example session_nine_is_refused :
  (p ← sample_state (sample_doc 8 true everything); c ← sample_state (sample_doc 9 false nothing_yet);
   Some (validate_activation_transition p c)) =
  Some (control_error "unsupported activation: no completion evidence contract for session 9").
Proof. vm_compute. reflexivity. Qed.
