(* ===== verification/ControlFile.v ===== *)
(** * Replacing the control state

    [control/state.py], the effects: under an exclusive lock file the current and the
    candidate document are parsed and validated, a completion is checked against Git, and the
    candidate replaces the state file atomically.  Git and the paths of the host are a
    parameter; the files are the store of [Files], whose operations may fail. *)

From S2P Require Import Prelude PyText PyLines Errors Files Tables Contracts ControlState.
Open Scope string_scope.
Open Scope Z_scope.

(** A file is its JSON document, or the error of reading and decoding it. *)
Abbreviation Contents := (result string json).
Abbreviation Store := (FileStore Contents).

Definition BOOTSTRAP_COMMIT_SUBJECT := "chore(bootstrap): initialise money machine autonomous monorepo".
Definition CANONICAL_STATE_RELATIVE_PATH := "docs/control/IMPLEMENTATION_STATE.json".
Definition GIT_TIMEOUT_SECONDS : Z := 30.

(** ** The host *)

(** How a Git process ends. *)
Inductive GitOutcome : Set :=
  | Completed (returncode : Z) (stdout stderr : string)
  | TimedOut
  | NotUtf8
  | CannotRun (error : string).

(** Processes, paths and [json.loads].  A path is its text. *)
Record Host (T : Type) := {
  host_git : list string → T → GitOutcome * T;
  host_is_dir : string → T → bool;
  host_samefile : string → string → T → option bool;
  host_resolve : string → T → result string string;
  host_loads : string → option json;
}.
Arguments host_git {T} _ _ _.
Arguments host_is_dir {T} _ _ _.
Arguments host_samefile {T} _ _ _ _.
Arguments host_resolve {T} _ _ _.
Arguments host_loads {T} _ _.

Definition path_name (path : string) : string := default "" (last (str_split slash path)).

Definition path_parent (path : string) : string :=
  String.concat "/" (take (length (str_split slash path) - 1) (str_split slash path)).

Definition path_join (root relative : string) : string :=
  if decide (root = "") then relative else root ++ "/" ++ relative.

(** [path.with_name(f".{path.name}.lock")] *)
Definition lock_path (state_path : string) : string :=
  path_parent state_path ++ "/." ++ path_name state_path ++ ".lock".

Section host.
Context {T : Type} (host : Host T).

(** ** Git *)

Definition control_raise {S A} (message : string) : M S exn A := pyraise (Exn ControlStateError message).

(** The return code and the output; [allowed] are the expected return codes. *)
Definition _git_process (repo_root : string) (arguments : list string) (allowed : list Z)
    : M T exn (Z * string) :=
  let* outcome := λ t, let (o, t') := host_git host ("git" :: "-C" :: repo_root :: arguments) t in (Ok o, t') in
  match outcome with
  | TimedOut => control_raise ("Git command timed out after " ++ pretty GIT_TIMEOUT_SECONDS ++ " seconds")
  | NotUtf8 => control_raise "Git output is not valid UTF-8"
  | CannotRun error => control_raise ("cannot execute Git: " ++ error)
  | Completed returncode stdout stderr =>
      if bool_decide (returncode ∈ allowed) then pyret (returncode, stdout)
      else
        let detail := if str_truth (str_strip stderr) then str_strip stderr
                      else if str_truth (str_strip stdout) then str_strip stdout
                      else "unknown Git error" in
        control_raise ("Git verification failed for " ++ String.concat " " arguments ++ ": " ++ detail)
  end.

(** The output of a Git command that must succeed. *)
Definition _git (repo_root : string) (arguments : list string) : M T exn string :=
  let* r := _git_process repo_root arguments [0] in pyret r.2.

Definition _resolve_commit (repo_root commit_id label : string) : M T exn string :=
  let* out := _git repo_root ["rev-parse"; "--verify"; commit_id ++ "^{commit}"] in
  let resolved := str_strip out in
  do* lift_result (raise_if (bool_decide (resolved ≠ commit_id)) (label ++ " must be a full commit object ID"));
  pyret resolved.

Definition _assert_repo_at_closure (repo_root closure recorded_branch : string) : M T exn unit :=
  let* head := _git repo_root ["rev-parse"; "--verify"; "HEAD^{commit}"] in
  do* lift_result (raise_if (bool_decide (str_strip head ≠ closure))
        "repository HEAD must equal the evidence-closure commit");
  let* branch := _git repo_root ["symbolic-ref"; "--quiet"; "--short"; "HEAD"] in
  do* lift_result (raise_if (bool_decide (str_strip branch ≠ recorded_branch))
        "repository HEAD must be attached to the recorded branch");
  let* status := _git repo_root ["status"; "--porcelain=v1"; "--untracked-files=no"] in
  lift_result (raise_if (str_truth status) "all tracked repository files must be clean before transition").

Definition same_file (left right : string) : M T exn bool :=
  gets (λ t, default false (host_samefile host left right t)).

Definition _validate_repo_identity (state_path : string) (current : ControlState)
    : M T exn (string * string) :=
  let repo_root := cs_repo_root current in
  let* is_dir := gets (host_is_dir host repo_root) in
  do* lift_result (raise_if (negb is_dir) "repo_root must identify an existing Git repository");
  let expected_state_path := path_join repo_root CANONICAL_STATE_RELATIVE_PATH in
  let* canonical :=
    (if decide (path_name state_path ≠ path_name expected_state_path) then pyret false
     else let* parents := same_file (path_parent state_path) (path_parent expected_state_path) in
          if parents then same_file state_path expected_state_path else pyret false) in
  do* lift_result (raise_if (negb canonical)
        "state path must be repo_root/docs/control/IMPLEMENTATION_STATE.json");
  let* git_root := _git repo_root ["rev-parse"; "--show-toplevel"] in
  let* same := same_file (str_strip git_root) repo_root in
  do* lift_result (raise_if (negb same) "repo_root must identify the Git worktree root");
  let recorded_branch := cs_branch current in
  let* actual_branch := _git repo_root ["symbolic-ref"; "--quiet"; "--short"; "HEAD"] in
  do* lift_result (raise_if (bool_decide (str_strip actual_branch ≠ recorded_branch))
        "recorded branch must equal the current Git branch");
  pyret (repo_root, recorded_branch).

Definition json_is (value : option json) (text : string) : bool := json_eq (default JNull value) (JStr text).

(** The document the closure commit holds must be the one before the transition. *)
Definition check_closure_document (closure_document closure : string) (previous : ControlState)
    : result exn unit :=
  match host_loads host closure_document with
  | Some (JDict closure_state) =>
      do? raise_if (json_is (json_get "head_sha" closure_state) closure ||
                    json_is (json_get "evidence_closure_commit_sha" closure_state) closure)
        "evidence-closure commit must not claim its own object ID";
      raise_if (negb (json_eq (JDict closure_state) (JDict (cs_raw previous))))
        "evidence-closure commit must contain the exact pre-transition state"
  | _ => control_error "evidence-closure commit contains invalid implementation state"
  end.

Definition _validate_git_evidence (state_path : string) (previous current : ControlState)
    : M T exn (string * string) :=
  let* identity := _validate_repo_identity state_path current in
  let repo_root := identity.1 in
  let recorded_branch := identity.2 in
  match cs_bootstrap_commit_sha current, cs_evidence_closure_commit_sha current with
  | Some bootstrap, Some closure =>
      do* _resolve_commit repo_root bootstrap "bootstrap_commit_sha";
      do* _resolve_commit repo_root closure "evidence_closure_commit_sha";
      let* subject := _git repo_root ["show"; "-s"; "--format=%s"; bootstrap] in
      do* lift_result (raise_if (bool_decide (str_rstrip_of [lf] subject ≠ BOOTSTRAP_COMMIT_SUBJECT))
            ("bootstrap commit subject must be exactly " ++ str_repr BOOTSTRAP_COMMIT_SUBJECT));
      match (if cs_current_session previous =? 0 then Some bootstrap else cs_head_sha previous) with
      | None => control_raise "pre-transition head_sha is required for ancestry verification"
      | Some ancestry_base =>
          do* _resolve_commit repo_root ancestry_base "pre-transition head_sha";
          let* ancestry := _git_process repo_root ["merge-base"; "--is-ancestor"; ancestry_base; closure] [0; 1] in
          do* lift_result (raise_if (negb (ancestry.1 =? 0))
            "the prior closure (or bootstrap) commit must be an ancestor of the new closure commit");
          do* _assert_repo_at_closure repo_root closure recorded_branch;
          let* closure_document := _git repo_root ["show"; closure ++ ":" ++ CANONICAL_STATE_RELATIVE_PATH] in
          do* lift_result (check_closure_document closure_document closure previous);
          pyret (repo_root, closure)
      end
  | _, _ => control_raise "both commit SHAs are required"
  end.

Definition _verify_completion_repository (state_path : string) (previous current : ControlState) : M T exn unit :=
  let* r := _validate_git_evidence state_path previous current in
  _assert_repo_at_closure r.1 r.2 (cs_branch current).

Definition _verify_activation_repository (state_path : string) (previous current : ControlState) : M T exn unit :=
  do* _validate_repo_identity state_path current;
  pyret tt.

(** ** Files *)

(** [path.read_text] and [json.loads], with the error either raises. *)
Definition read_contents (path : string) : M Store exn Contents :=
  let* file := gets (λ s, fs_files s !! path) in
  match file with
  | None => pyret (Raise "No such file or directory")
  | Some contents =>
      let* fault := next_fault in
      match fault with
      | NoFault => pyret contents
      | Fails _ => pyret (Raise "")
      end
  end.

Definition write_document (path : string) (document : json) : M Store exn unit :=
  let* fault := next_fault in
  match fault with
  | NoFault => set_files <[path := Ok document]>
  | Fails None => os_error
  | Fails (Some _) => do* set_files <[path := Raise "truncated"]>; os_error
  end.

(** [os.replace(source, target)] *)
Definition rename_file (source target : string) : M Store exn unit :=
  let* file := gets (λ s, fs_files s !! source) in
  match file with
  | None => pyraise (Exn FileNotFoundError source)
  | Some file =>
      let move := λ fs : gmap string Contents, <[target := file]> (delete source fs) in
      let* fault := next_fault in
      match fault with
      | NoFault => set_files move
      | Fails None => os_error
      | Fails (Some _) => do* set_files move; os_error
      end
  end.

(** [_atomic_write_json(path, document)]; [temporary] is the name [mkstemp] chooses. *)
Definition _atomic_write_json (temporary path : string) (document : json) : M Store exn unit :=
  do* file_call;
  do* set_files <[temporary := Raise "empty"]>;
  try_except
    (do* file_call;
     let* exists_ := gets (λ s, given (fs_files s !! path)) in
     do* (if exists_ then file_call else pyret tt);
     do* write_document temporary document;
     do* file_call;
     do* rename_file temporary path;
     file_call)
    (λ e, do* unlink temporary; pyraise e).

(** [LOGGER.warning] for an [OSError]. *)
Definition logged (m : M Store exn unit) : M Store exn unit :=
  try_except m (λ e, if isa (exn_type e) OSError then pyret tt else pyraise e).

Definition acquire_lock (lock : string) : M Store exn unit :=
  let* held := gets (λ s, given (fs_files s !! lock)) in
  let refuse (error : string) := control_raise ("cannot acquire state transition lock: " ++ error) in
  if held then refuse "File exists"
  else
    let* fault := next_fault in
    match fault with
    | NoFault => set_files <[lock := Raise "empty"]>
    | Fails None => refuse ""
    | Fails (Some _) => do* set_files <[lock := Raise "empty"]>; refuse ""
    end.

Definition release_lock (lock : string) : M Store exn unit := do* logged file_call; logged (unlink lock).

(** [with _state_transition_lock(state_path): body] *)
Definition with_state_transition_lock {A} (state_path : string) (body : M (Store * T) exn A) : M (Store * T) exn A :=
  do* on_fst (acquire_lock (lock_path state_path));
  try_finally body (on_fst (release_lock (lock_path state_path))).

Definition _resolve_transition_paths (state_path candidate_path : string) : M T exn (string * string) :=
  let resolve path := λ t,
    match host_resolve host path t with
    | Ok p => (Ok p, t)
    | Raise error => (Raise (Exn ControlStateError ("cannot resolve state paths: " ++ error)), t)
    end in
  let* state_path := resolve state_path in
  let* candidate_path := resolve candidate_path in
  let* same := same_file state_path candidate_path in
  do* lift_result (raise_if same "candidate must be separate from the current state file");
  pyret (state_path, candidate_path).

Definition _apply_transition (temporary state_path candidate_path : string)
    (validate : ControlState → ControlState → result exn unit)
    (verify_repository : string → ControlState → ControlState → M T exn unit)
    : M (Store * T) exn ControlState :=
  let* paths := on_snd (_resolve_transition_paths state_path candidate_path) in
  let state_path := paths.1 in
  let candidate_path := paths.2 in
  with_state_transition_lock state_path
    (let* text := on_fst (read_contents state_path) in
     let* previous := lift_result (_parse_state text "current state") in
     let* text := on_fst (read_contents candidate_path) in
     let* current := lift_result (_parse_state text "candidate state") in
     do* lift_result (validate previous current);
     do* on_snd (verify_repository state_path previous current);
     do* on_fst (try_except (_atomic_write_json temporary state_path (JDict (cs_raw current)))
       (λ e, if isa (exn_type e) OSError
             then control_raise ("atomic state write failed: " ++ exn_message e) else pyraise e));
     pyret current).

Definition apply_completion_transition (temporary state_path candidate_path : string)
    : M (Store * T) exn ControlState :=
  _apply_transition temporary state_path candidate_path validate_completion_transition
    _verify_completion_repository.

Definition apply_activation_transition (temporary state_path candidate_path : string)
    : M (Store * T) exn ControlState :=
  _apply_transition temporary state_path candidate_path validate_activation_transition
    _verify_activation_repository.
End host.

(** ** What the file operations do *)

Implicit Types s : Store.

(** Every file but those named stays. *)
Definition keeps_but (changed : list string) (s s' : Store) : Prop :=
  ∀ q, q ∉ changed → fs_files s' !! q = fs_files s !! q.

#[export] Instance keeps_but_preorder changed : PreOrder (keeps_but changed).
Proof. split; [done|]. intros s1 s2 s3 H1 H2 q Hq. by rewrite H2, H1. Qed.

Section keeps.
Context (changed : list string).

Lemma fault_keeps : within (keeps_but changed) next_fault.
Proof. intros s q _. unfold next_fault. by destruct (fs_faults s). Qed.

Lemma error_keeps {A} : within (keeps_but changed) (os_error (A := A)).
Proof. apply within_raise, _. Qed.

Lemma set_keeps (f : gmap string Contents → gmap string Contents) :
  (∀ m q, q ∉ changed → f m !! q = m !! q) → within (keeps_but changed) (set_files f).
Proof. intros Hf. apply within_modify. intros s q Hq. by apply Hf. Qed.

Lemma put_keeps path contents : path ∈ changed → within (keeps_but changed) (set_files <[path := contents]>).
Proof. intros Hp. apply set_keeps. intros m q Hq. apply lookup_insert_ne. congruence. Qed.

Lemma delete_keeps' path : path ∈ changed → within (keeps_but changed) (set_files (delete path)).
Proof. intros Hp. apply set_keeps. intros m q Hq. apply lookup_delete_ne. congruence. Qed.

Lemma move_keeps source target file : source ∈ changed → target ∈ changed →
  within (keeps_but changed) (set_files (λ fs : gmap string Contents, <[target := file]> (delete source fs))).
Proof. intros H1 H2. apply set_keeps. intros m q Hq. by rewrite lookup_insert_ne, lookup_delete_ne by congruence. Qed.

#[local] Hint Resolve fault_keeps error_keeps put_keeps delete_keeps' move_keeps : orch.

Lemma file_call_keeps : within (keeps_but changed) file_call.
Proof. unfold file_call. solve_within. Qed.
#[local] Hint Resolve file_call_keeps : orch.

Lemma read_keeps path : within (keeps_but changed) (read_contents path).
Proof. unfold read_contents. solve_within. Qed.

Lemma unlink_keeps path : path ∈ changed → within (keeps_but changed) (unlink path).
Proof. intros Hp. unfold unlink. pose proof (delete_keeps' _ Hp). solve_within. Qed.

Lemma write_keeps path document : path ∈ changed → within (keeps_but changed) (write_document path document).
Proof. intros Hp. unfold write_document. pose proof (λ c, put_keeps path c Hp). solve_within. Qed.

Lemma rename_keeps source target : source ∈ changed → target ∈ changed →
  within (keeps_but changed) (rename_file source target).
Proof. intros H1 H2. unfold rename_file. pose proof (λ f, move_keeps source target f H1 H2). solve_within. Qed.

Lemma acquire_keeps lock : lock ∈ changed → within (keeps_but changed) (acquire_lock lock).
Proof. intros Hp. unfold acquire_lock, control_raise. pose proof (λ c, put_keeps lock c Hp). solve_within. Qed.

Lemma release_keeps lock : lock ∈ changed → within (keeps_but changed) (release_lock lock).
Proof. intros Hp. unfold release_lock, logged. pose proof (unlink_keeps _ Hp). solve_within. Qed.

Lemma atomic_keeps temporary path document : temporary ∈ changed → path ∈ changed →
  within (keeps_but changed) (_atomic_write_json temporary path document).
Proof.
  intros Ht Hp. unfold _atomic_write_json.
  pose proof (λ c, put_keeps temporary c Ht). pose proof (unlink_keeps _ Ht).
  pose proof (write_keeps _ document Ht). pose proof (rename_keeps _ _ Ht Hp). solve_within.
Qed.
End keeps.

(** [path] holds what it held, or the document [d]. *)
Definition old_or (path : string) (d : json) (s s' : Store) : Prop :=
  fs_files s' !! path = fs_files s !! path ∨ fs_files s' !! path = Some (Ok d).

#[export] Instance old_or_preorder path d : PreOrder (old_or path d).
Proof. split; [by left|]. intros s1 s2 s3 H1 [H2|H2]; [|by right]. unfold old_or in *. by rewrite H2. Qed.

Lemma kept_old path d changed {A} (m : M Store exn A) :
  path ∉ changed → within (keeps_but changed) m → within (old_or path d) m.
Proof. intros Hp Hm s. left. by apply Hm. Qed.

Lemma write_ok path d s s' : write_document path d s = (Ok tt, s') → fs_files s' !! path = Some (Ok d).
Proof.
  unfold write_document. intros (f & s1 & _ & H)%pybind_ok. destruct f as [|[n|]]; [|done|done].
  injection H as <-. apply lookup_insert_eq.
Qed.

Lemma rename_cases source target s :
  source ≠ target →
  let (r, s') := rename_file source target s in
  (fs_files s' !! target = fs_files s !! target ∨ fs_files s' !! target = fs_files s !! source) ∧
  (r = Ok tt → fs_files s' !! target = fs_files s !! source).
Proof.
  intros Hne. unfold rename_file, pybind, gets, next_fault.
  destruct (fs_files s !! source) as [file|] eqn:Hf; simpl; [|by split; [left|]].
  destruct (fs_faults s) as [|[|[n|]] fs]; simpl; rewrite ?lookup_insert_eq; split; auto; done.
Qed.

(** [m] may put [d] at [path], and has done so when it returns. *)
Definition places (path : string) (d : json) (m : M Store exn unit) : Prop :=
  ∀ s, let (r, s') := m s in old_or path d s s' ∧ (r = Ok tt → fs_files s' !! path = Some (Ok d)).

Lemma places_bind path d {A} (m : M Store exn A) k :
  within (old_or path d) m → (∀ a, places path d (k a)) → places path d (pybind m k).
Proof.
  intros Hm Hk s. unfold pybind. specialize (Hm s). destruct (m s) as [[a|e] s1]; simpl in Hm; [|done].
  specialize (Hk a s1). destruct (k a s1) as [r s2]. destruct Hk as [Hk ?]. split; [by etrans|done].
Qed.

Lemma places_try path d (m : M Store exn unit) h :
  places path d m → (∀ e, within (old_or path d) (h e)) → (∀ e s, (h e s).1 ≠ Ok tt) →
  places path d (try_except m h).
Proof.
  intros Hm Hh Hn s. unfold try_except. specialize (Hm s). destruct (m s) as [[[]|e] s1]; [done|].
  destruct Hm as [Hm _]. specialize (Hh e s1). specialize (Hn e s1). destruct (h e s1) as [r s2]. simpl in *.
  split; [by etrans|done].
Qed.

(** The part of [_atomic_write_json] that moves the written file into place. *)
Lemma place_cases temporary path d :
  temporary ≠ path →
  places path d (do* write_document temporary d; do* file_call; do* rename_file temporary path; file_call).
Proof.
  intros Hne s. assert (Hp : path ∉ [temporary]) by set_solver.
  pose proof (write_keeps [temporary] temporary d ltac:(set_solver) s) as Hw.
  unfold pybind at 1. destruct (write_document temporary d s) as [[[]|e] s1] eqn:Ew; simpl in Hw.
  2:{ split; [left; by apply Hw|done]. }
  apply write_ok in Ew. pose proof (file_call_keeps [] s1) as Hc.
  unfold pybind at 1. destruct (file_call s1) as [[[]|e] s2] eqn:Ec; simpl in Hc.
  2:{ split; [left; rewrite (Hc path), (Hw path) by set_solver; done|done]. }
  pose proof (rename_cases temporary path s2 Hne) as Hr.
  unfold pybind. destruct (rename_file temporary path s2) as [[[]|e] s3] eqn:Er; destruct Hr as [Hr Hok].
  - specialize (Hok eq_refl). pose proof (file_call_keeps [] s3) as Hf.
    destruct (file_call s3) as [r s4]. simpl in Hf.
    assert (Hnew : fs_files s4 !! path = Some (Ok d)) by (rewrite (Hf path), Hok, (Hc temporary) by set_solver; done).
    split; [by right|done].
  - split; [|done]. destruct Hr as [Hr|Hr].
    + left. rewrite Hr, (Hc path), (Hw path) by set_solver. done.
    + right. rewrite Hr, (Hc temporary) by set_solver. done.
Qed.

Lemma atomic_places temporary path d :
  temporary ≠ path → places path d (_atomic_write_json temporary path d).
Proof.
  intros Hne. assert (Hp : path ∉ [temporary]) by set_solver.
  pose proof (λ A m, kept_old path d [temporary] (A := A) m Hp) as Hold.
  unfold _atomic_write_json.
  apply places_bind; [apply Hold, file_call_keeps|intros _].
  apply places_bind; [apply Hold, put_keeps; set_solver|intros _].
  apply places_try.
  - apply places_bind; [apply Hold, file_call_keeps|intros _].
    apply places_bind; [apply within_gets, _|intros exists_].
    apply places_bind; [|intros _; by apply place_cases].
    apply Hold. pose proof (file_call_keeps [temporary]). solve_within.
  - intros e. apply within_bind; [apply _| |intros _; apply within_raise, _].
    apply Hold, unlink_keeps. set_solver.
  - intros e s. unfold pybind, pyraise. by destruct (unlink temporary s) as [[] ?].
Qed.

(** ** What a transition does to the files *)

Lemma parse_raw d label c : _parse_state (Ok d) label = Ok c → d = JDict (cs_raw c).
Proof.
  unfold _parse_state. destruct d; try done. intros Hp.
  repeat (apply rbind_ok in Hp as (? & ? & Hp)). by injection Hp as <-.
Qed.

Lemma parse_contents contents label c :
  _parse_state contents label = Ok c → ∃ d, contents = Ok d ∧ parsed d c ∧ d = JDict (cs_raw c).
Proof.
  intros Hp. destruct contents as [d|e]; [|done]. exists d.
  split_and!; [done|by eapply parse_label|by eapply parse_raw].
Qed.

Lemma concat_snoc sep l a :
  String.concat sep (l ++ [a])%list = match l with [] => a | _ => String.concat sep l ++ sep ++ a end.
Proof.
  induction l as [|x [|y l] IH]; [done..|]. change (String.concat sep ((x :: y :: l) ++ [a])%list)
    with (x ++ sep ++ String.concat sep ((y :: l) ++ [a])%list). rewrite IH.
  change (String.concat sep (x :: y :: l)) with (x ++ sep ++ String.concat sep (y :: l)).
  by rewrite !str_app_assoc.
Qed.

Lemma concat_split text : String.concat "/" (str_split slash text) = text.
Proof.
  induction text as [|c text IH]; [done|]. simpl. pose proof (str_split_ne_nil slash text) as Hne.
  case_decide as Hc.
  - subst c. destruct (str_split slash text) as [|p ps]; [done|]. by rewrite <- IH.
  - destruct (str_split slash text) as [|p ps]; [done|]. rewrite <- IH. by destruct ps.
Qed.

(** The lock file lies beside the state file under a longer name. *)
Lemma lock_path_ne path : lock_path path ≠ path.
Proof.
  intros E. apply (f_equal String.length) in E. revert E. unfold lock_path, path_parent, path_name.
  rewrite <- (concat_split path) at 4.
  pose proof (str_split_ne_nil slash path) as Hne. destruct (exists_last Hne) as (l & a & ->).
  rewrite last_snoc, length_app, Nat.add_sub, take_app_length, concat_snoc, !str_app_length. simpl.
  destruct l; rewrite ?str_app_length; simpl; lia.
Qed.

(** The previous and the next document of a transition that was accepted. *)
Definition accepted_change {T} (validate : ControlState → ControlState → result exn unit)
    (verify : string → ControlState → ControlState → M T exn unit)
    (P C : string) (s : Store) (c : ControlState) : Prop :=
  ∃ d0 p d, fs_files s !! P = Some (Ok d0) ∧ parsed d0 p ∧ fs_files s !! C = Some (Ok d) ∧
    parsed d c ∧ d = JDict (cs_raw c) ∧ validate p c = Ok tt ∧ ∃ t t', verify P p c t = (Ok tt, t').

Section apply.
Context {T : Type} (host : Host T) (temporary P C : string)
  (validate : ControlState → ControlState → result exn unit)
  (verify : string → ControlState → ControlState → M T exn unit).

(** The work done under the lock. *)
Definition locked_work : M (Store * T) exn ControlState :=
  let* text := on_fst (read_contents P) in
  let* previous := lift_result (_parse_state text "current state") in
  let* text := on_fst (read_contents C) in
  let* current := lift_result (_parse_state text "candidate state") in
  do* lift_result (validate previous current);
  do* on_snd (verify P previous current);
  do* on_fst (try_except (_atomic_write_json temporary P (JDict (cs_raw current)))
    (λ e, if isa (exn_type e) OSError
          then control_raise ("atomic state write failed: " ++ exn_message e) else pyraise e));
  pyret current.

(** The state file is as before, or holds the candidate's document and the change was
    accepted; a call that returns has replaced it. *)
Definition replaced_or_kept (s s' : Store) (r : result exn ControlState) : Prop :=
  (fs_files s' !! P = fs_files s !! P ∧ ∀ c, r ≠ Ok c) ∨
  ∃ c, accepted_change validate verify P C s c ∧
    fs_files s' !! P = Some (Ok (JDict (cs_raw c))) ∧ (∀ c', r = Ok c' → c' = c).
End apply.

Lemma on_fst_run {S T A} (m : M S exn A) (s : S) (t : T) : on_fst m (s, t) = ((m s).1, ((m s).2, t)).
Proof. unfold on_fst. simpl. by destruct (m s). Qed.

Lemma on_snd_run {S T A} (m : M T exn A) (s : S) (t : T) : on_snd m (s, t) = ((m t).1, (s, (m t).2)).
Proof. unfold on_snd. simpl. by destruct (m t). Qed.

Lemma read_cases path s :
  ∃ k, (read_contents path s).1 = Ok k ∧ fs_files (read_contents path s).2 = fs_files s ∧
    ∀ d, k = Ok d → fs_files s !! path = Some (Ok d).
Proof.
  unfold read_contents, pybind, gets, next_fault.
  destruct (fs_files s !! path) as [f|], (fs_faults s) as [|[|k] fs]; simpl;
    eexists; (split_and!; [done|done|naive_solver]).
Qed.

(** Reading and parsing a file, and going on with the parsed state. *)
Lemma parse_run {T B} path label (k : ControlState → M (Store * T) exn B) (Q : result exn B * (Store * T) → Prop) s t :
  (∀ e s', fs_files s' = fs_files s → Q (Raise e, (s', t))) →
  (∀ d c s', fs_files s' = fs_files s → fs_files s !! path = Some (Ok d) → parsed d c → d = JDict (cs_raw c) →
     Q (k c (s', t))) →
  Q ((let* text := on_fst (read_contents path) in
      let* state := lift_result (_parse_state text label) in k state) (s, t)).
Proof.
  intros He Hk. unfold pybind at 1. rewrite on_fst_run.
  destruct (read_cases path s) as (contents & -> & Hs & Hd). unfold pybind, lift_result.
  destruct (_parse_state contents label) as [c|e] eqn:Hp; [|by apply He].
  destruct (parse_contents _ _ _ Hp) as (d & -> & Hc & Hraw). eapply Hk; eauto.
Qed.

Lemma work_cases {T} temporary P C validate (verify : string → ControlState → ControlState → M T exn unit) s t :
  temporary ≠ P →
  let '(r, (s', t')) := locked_work temporary P C validate verify (s, t) in
  replaced_or_kept P C validate verify s s' r ∧ keeps_but [P; temporary] s s'.
Proof.
  intros Hne.
  assert (Hkept : ∀ e s', fs_files s' = fs_files s →
    replaced_or_kept P C validate verify s s' (Raise e) ∧ keeps_but [P; temporary] s s').
  { intros e s' Hs. split; [left; by rewrite Hs|intros q _; by rewrite Hs]. }
  unfold locked_work.
  apply (parse_run P "current state" _ (λ x, let '(r, (s', t')) := x in
    replaced_or_kept P C validate verify s s' r ∧ keeps_but [P; temporary] s s')); [done|].
  intros d0 p s1 Hs1 HP Hp _.
  apply (parse_run C "candidate state" _ (λ x, let '(r, (s', t')) := x in
    replaced_or_kept P C validate verify s s' r ∧ keeps_but [P; temporary] s s')).
  { intros e s' Hs. apply Hkept. congruence. }
  intros d c s2 Hs2 HC Hc Hraw. rewrite Hs1 in Hs2, HC.
  unfold pybind at 1, lift_result. destruct (validate p c) as [[]|e] eqn:Hv; [|by apply Hkept].
  unfold pybind at 1. rewrite on_snd_run.
  destruct (verify P p c t) as [[[]|e] t'] eqn:Hver; [|by apply Hkept]. simpl.
  assert (Hch : accepted_change validate verify P C s c) by (exists d0, p, d; eauto 10).
  unfold pybind at 1. rewrite on_fst_run. unfold try_except.
  pose proof (atomic_places temporary P (JDict (cs_raw c)) Hne s2) as Hpl.
  pose proof (atomic_keeps [P; temporary] temporary P (JDict (cs_raw c)) ltac:(set_solver) ltac:(set_solver) s2) as Hk.
  destruct (_atomic_write_json temporary P (JDict (cs_raw c)) s2) as [r s3]. simpl in Hk. destruct Hpl as [Hold Hok].
  assert (Hk' : keeps_but [P; temporary] s s3) by (intros q Hq; rewrite (Hk q Hq); by rewrite Hs2).
  destruct r as [[]|e]; simpl.
  - split; [|done]. right. exists c. split_and!; [done|by apply Hok|by intros c' [= ->]].
  - assert (Hr : ∀ e, replaced_or_kept P C validate verify s s3 (Raise e)).
    { intros e'. unfold old_or in Hold. rewrite Hs2 in Hold.
      destruct Hold as [Hold|Hold]; [by left|right; exists c; split_and!; done]. }
    destruct (isa (exn_type e) OSError); simpl; split; auto.
Qed.

(** ** The lock *)

(** While no operation fails, none is about to. *)
Definition quiet (s s' : Store) : Prop := fs_faults s = [] → fs_faults s' = [].

#[export] Instance quiet_preorder : PreOrder quiet.
Proof. split; [by intros s ?|]. intros s1 s2 s3 H1 H2 H. auto. Qed.

Lemma fault_quiet : within quiet next_fault.
Proof. intros s H. unfold next_fault. by rewrite H. Qed.

Lemma set_quiet f : within quiet (set_files (F := Contents) f).
Proof. apply within_modify. by intros s H. Qed.
#[local] Hint Resolve fault_quiet set_quiet : orch.

Definition quiet_left {T} (x y : Store * T) : Prop := quiet x.1 y.1.

#[export] Instance quiet_left_preorder {T} : PreOrder (quiet_left (T := T)).
Proof. split; [by intros x ?|]. intros x y z H1 H2 H. by apply H2, H1. Qed.

Lemma work_quiet {T} temporary P C validate (verify : string → ControlState → ControlState → M T exn unit) :
  within quiet_left (locked_work temporary P C validate verify).
Proof.
  unfold locked_work, _atomic_write_json, read_contents, write_document, rename_file, file_call, unlink,
    os_error, control_raise.
  assert (Hfst : ∀ A (m : M Store exn A), within quiet m → within (quiet_left (T := T)) (on_fst m)).
  { intros A m Hm. by apply (within_on_fst quiet). }
  assert (Hsnd : ∀ A (m : M T exn A), within (quiet_left (T := T)) (on_snd m)).
  { intros A m [s t]. rewrite on_snd_run. by intros H. }
  repeat first [apply Hsnd | apply Hfst; solve [solve_within] | within_step].
Qed.

Lemma acquire_quiet lock : within quiet (acquire_lock lock).
Proof. unfold acquire_lock, control_raise. solve_within. Qed.

Lemma release_quiet lock : within quiet (release_lock lock).
Proof. unfold release_lock, logged, file_call, unlink, os_error. solve_within. Qed.

Lemma acquire_cases lock s :
  match (acquire_lock lock s).1 with
  | Ok _ => fs_files s !! lock = None ∧ fs_files (acquire_lock lock s).2 = <[lock := Raise "empty"]> (fs_files s)
  | Raise _ => (is_Some (fs_files s !! lock) → fs_files (acquire_lock lock s).2 = fs_files s) ∧
      (fs_files s !! lock = None → fs_faults s ≠ [])
  end.
Proof.
  unfold acquire_lock, pybind, gets, next_fault, given.
  destruct (fs_files s !! lock) as [f|] eqn:Hl; [by rewrite bool_decide_true|].
  rewrite bool_decide_false by (by intros []).
  destruct (fs_faults s) as [|[|[n|]] fs]; simpl; try done; by (split; [intros []|]).
Qed.

Lemma release_frees lock s : fs_faults s = [] → fs_files (release_lock lock s).2 !! lock = None.
Proof.
  intros H. unfold release_lock, logged, file_call, unlink, try_except, pybind, next_fault. rewrite H. simpl.
  rewrite H. simpl. apply lookup_delete_eq.
Qed.

Lemma resolve_cases {T} (host : Host T) sp cp t P C :
  host_resolve host sp t = Ok P → host_resolve host cp t = Ok C →
  (_resolve_transition_paths host sp cp t).1 = Ok (P, C) ∨ ∃ e, (_resolve_transition_paths host sp cp t).1 = Raise e.
Proof.
  intros HP HC. unfold _resolve_transition_paths, same_file, pybind, gets, lift_result. rewrite HP, HC.
  destruct (raise_if _ _); simpl; eauto.
Qed.

Lemma transition_run {T} (host : Host T) temporary sp cp validate verify s t P C :
  host_resolve host sp t = Ok P → host_resolve host cp t = Ok C → temporary ≠ P →
  let '(r, (s', t')) := _apply_transition host temporary sp cp validate verify (s, t) in
  replaced_or_kept P C validate verify s s' r ∧
  keeps_but [P; temporary; lock_path P] s s' ∧
  (is_Some (fs_files s !! lock_path P) → fs_files s' = fs_files s ∧ ∀ c, r ≠ Ok c) ∧
  (fs_files s !! lock_path P = None → fs_faults s = [] → fs_files s' !! lock_path P = None).
Proof.
  intros HP HC Hne. unfold _apply_transition. unfold pybind at 1. rewrite on_snd_run.
  set (lock := lock_path P). pose proof (lock_path_ne P) as Hlock. fold lock in Hlock.
  destruct (resolve_cases host sp cp t P C HP HC) as [->|[e ->]]; [|split_and!; try done; by left].
  generalize ((_resolve_transition_paths host sp cp t).2). clear t HP HC. intros t. cbv zeta. cbn [fst snd].
  unfold with_state_transition_lock at 1. fold lock. unfold pybind at 1. rewrite on_fst_run.
  pose proof (acquire_cases lock s) as Ha. pose proof (acquire_keeps [lock] lock ltac:(set_solver) s) as Hak.
  pose proof (acquire_quiet lock s) as Haq. destruct (acquire_lock lock s) as [[[]|e] s1]; simpl in Ha, Hak, Haq.
  2:{ split_and!; [left; split; [apply Hak; set_solver|done]|intros q Hq; apply Hak; set_solver|by split; [apply Ha|]|].
      intros Hnone Hf. by apply Ha in Hnone. }
  destruct Ha as [Hfree Hs1]. cbn [fst snd].
  match goal with |- context [try_finally ?b ?f (s1, t)] => change b with (locked_work temporary P C validate verify) end.
  unfold try_finally. pose proof (work_cases temporary P C validate verify s1 t Hne) as Hw.
  pose proof (work_quiet temporary P C validate verify (s1, t)) as Hwq.
  destruct (locked_work temporary P C validate verify (s1, t)) as [r [s2 t2]]. destruct Hw as [Hw Hwk].
  rewrite on_fst_run. pose proof (release_keeps [lock] lock ltac:(set_solver) s2) as Hrk.
  pose proof (release_frees lock s2) as Hrf. destruct (release_lock lock s2) as [r3 s3]. simpl in *.
  assert (HsP : fs_files s1 !! P = fs_files s !! P) by (apply Hak; set_solver).
  assert (Hfin : replaced_or_kept P C validate verify s s3 r).
  { destruct Hw as [[HP2 Hr]|(c & Hc & HP2 & Hr)].
    - left. split; [|done]. rewrite (Hrk P), HP2, HsP by set_solver. done.
    - right. exists c. split_and!; [|rewrite (Hrk P) by set_solver; done|done].
      destruct Hc as (d0 & p & d & H1 & H2 & H3 & H4). exists d0, p, d. rewrite HsP in H1.
      split; [done|]. split; [done|]. split; [|done]. rewrite Hs1 in H3. destruct (decide (C = lock)) as [->|].
      + by rewrite lookup_insert_eq in H3.
      + by rewrite lookup_insert_ne in H3. }
  assert (Hkeep : keeps_but [P; temporary; lock] s s3).
  { intros q Hq. rewrite (Hrk q), (Hwk q), (Hak q) by set_solver. done. }
  assert (Hquiet : fs_files s !! lock = None → fs_faults s = [] → fs_files s3 !! lock = None).
  { intros _ Hf. apply Hrf, Hwq, Haq, Hf. }
  assert (Hheld : is_Some (fs_files s !! lock) → fs_files s3 = fs_files s ∧ ∀ c, r ≠ Ok c) by (rewrite Hfree; by intros []).
  destruct r3 as [[]|e]; simpl; [by split_and!|]. split_and!; [|done| |done].
  - destruct Hfin as [[? _]|(c & ? & ? & _)]; [by left|right; exists c; by split_and!].
  - intros Hx. split; [by apply Hheld|done].
Qed.

(** C13: However the host and the file operations behave, a completion or an activation leaves the
    state file as it was or replaces it by the candidate's document after the change was
    accepted; it returns only in the second case, does nothing while another transition holds
    the lock, and leaves the lock free unless an operation failed. *)
Theorem transition_is_atomic {T} (host : Host T) temporary sp cp s t P C (completing : bool) :
  host_resolve host sp t = Ok P → host_resolve host cp t = Ok C → temporary ≠ P →
  let '(r, (s', t')) :=
    (if completing then apply_completion_transition host temporary sp cp
     else apply_activation_transition host temporary sp cp) (s, t) in
  (if completing then replaced_or_kept P C validate_completion_transition (_verify_completion_repository host) s s' r
   else replaced_or_kept P C validate_activation_transition (_verify_activation_repository host) s s' r) ∧
  keeps_but [P; temporary; lock_path P] s s' ∧
  (is_Some (fs_files s !! lock_path P) → fs_files s' = fs_files s ∧ ∀ c, r ≠ Ok c) ∧
  (fs_files s !! lock_path P = None → fs_faults s = [] → fs_files s' !! lock_path P = None).
Proof. intros HP HC Hne. destruct completing; by apply transition_run. Qed.

(** ** The closure commits *)

(** What Git promises: [merge-base --is-ancestor] succeeds on ancestors only, and no two
    commits are ancestors of each other. *)
Class HonestGit {T} (host : Host T) (ancestor : relation string) : Prop := {
  ancestor_order :: PartialOrder ancestor;
  ancestor_checked root a b t out err :
    (host_git host ["git"; "-C"; root; "merge-base"; "--is-ancestor"; a; b] t).1 = Completed 0 out err →
    ancestor a b;
}.

Section closures.
Context {T : Type} (host : Host T) (ancestor : relation string) `{!HonestGit host ancestor}.

Lemma git_ok root arguments allowed t r t' :
  _git_process host root arguments allowed t = (Ok r, t') →
  ∃ err, (host_git host ("git" :: "-C" :: root :: arguments) t).1 = Completed r.1 r.2 err ∧ r.1 ∈ allowed.
Proof.
  unfold _git_process, pybind. destruct (host_git host _ t) as [[rc out err| | |e] t1]; try done.
  case_bool_decide; [|done]. intros [= <- <-]. by exists err.
Qed.

(** A verified completion descends from the commit the previous session closed on. *)
Lemma verified_ancestor P p c t t' closure :
  _verify_completion_repository host P p c t = (Ok tt, t') → cs_evidence_closure_commit_sha c = Some closure →
  ∃ base, (if cs_current_session p =? 0 then cs_bootstrap_commit_sha c else cs_head_sha p) = Some base ∧
    ancestor base closure.
Proof.
  unfold _verify_completion_repository, _validate_git_evidence. intros (r & t1 & Hv & _)%pybind_ok Hc.
  apply pybind_ok in Hv as (i & t2 & _ & Hv). rewrite Hc in Hv.
  destruct (cs_bootstrap_commit_sha c) as [b|]; [|done].
  do 4 (apply pybind_ok in Hv as (? & ? & _ & Hv)).
  destruct (if cs_current_session p =? 0 then _ else _) as [base|]; [|done]. exists base. split; [done|].
  apply pybind_ok in Hv as (? & ? & _ & Hv). apply pybind_ok in Hv as (a & t3 & Ha & Hv).
  apply pybind_ok in Hv as (u & t4 & H0 & _). unfold lift_result in H0. injection H0 as H0 _.
  apply unit_ok, raise_if_ok, negb_false_iff, Z.eqb_eq in H0.
  apply git_ok in Ha as (err & Ha & _). rewrite H0 in Ha. by eapply ancestor_checked.
Qed.

(** A successful run of a transition on a state file that holds [d]. *)
Definition ran (completing : bool) (d : json) (c : ControlState) : Prop :=
  ∃ temporary sp cp P C s t, host_resolve host sp t = Ok P ∧ host_resolve host cp t = Ok C ∧
    temporary ≠ P ∧ fs_files s !! P = Some (Ok d) ∧
    ((if completing then apply_completion_transition host temporary sp cp
      else apply_activation_transition host temporary sp cp) (s, t)).1 = Ok c.

(** A document reached from an opening one by edits, sessions closed by hand and successful
    runs, with the sessions that a run completed and the commits they closed on, the latest
    first. *)
Inductive closed_on : json → list (Z * string) → Prop :=
  | closed_opening d (s : ControlState) : parsed d s → opening s → closed_on d []
  | closed_edit d d' p c l : closed_on d l → parsed d p → parsed d' c → edited p c → closed_on d' l
  | closed_hand d d' p c l : closed_on d l → parsed d p → parsed d' c → closed_by_hand p c → closed_on d' l
  | closed_activation d c l : closed_on d l → ran false d c → closed_on (JDict (cs_raw c)) l
  | closed_completion d c l sha : closed_on d l → ran true d c →
      cs_evidence_closure_commit_sha c = Some sha →
      closed_on (JDict (cs_raw c)) ((cs_current_session c, sha) :: l).

Lemma ran_activation d c :
  ran false d c → ∃ p, parsed d p ∧ parsed (JDict (cs_raw c)) c ∧ validate_activation_transition p c = Ok tt.
Proof.
  intros (temporary & sp & cp & P & C & s & t & HP & HC & Hne & Hd & Hrun).
  pose proof (transition_run host temporary sp cp validate_activation_transition
    (_verify_activation_repository host) s t P C HP HC Hne) as H.
  unfold apply_activation_transition in Hrun. destruct (_apply_transition _ _ _ _ _ _ _) as [r [s' t']].
  simpl in Hrun. subst r. destruct H as ([[_ Hr]|(c' & Hc & _ & Hr)] & _); [by destruct (Hr c)|].
  specialize (Hr c eq_refl) as ->. destruct Hc as (d0 & p & d1 & H0 & Hp & _ & Hc & -> & Hv & _).
  rewrite Hd in H0. injection H0 as <-. by exists p.
Qed.

Lemma ran_completion d c :
  ran true d c → ∃ p P t t', parsed d p ∧ parsed (JDict (cs_raw c)) c ∧
    validate_completion_transition p c = Ok tt ∧ _verify_completion_repository host P p c t = (Ok tt, t').
Proof.
  intros (temporary & sp & cp & P & C & s & t & HP & HC & Hne & Hd & Hrun).
  pose proof (transition_run host temporary sp cp validate_completion_transition
    (_verify_completion_repository host) s t P C HP HC Hne) as H.
  unfold apply_completion_transition in Hrun. destruct (_apply_transition _ _ _ _ _ _ _) as [r [s' t']].
  simpl in Hrun. subst r. destruct H as ([[_ Hr]|(c' & Hc & _ & Hr)] & _); [by destruct (Hr c)|].
  specialize (Hr c eq_refl) as ->. destruct Hc as (d0 & p & d1 & H0 & Hp & _ & Hc & -> & Hv & t1 & t2 & Hver).
  rewrite Hd in H0. injection H0 as <-. exists p, P, t1, t2. by split_and!.
Qed.

(** [a] is a proper ancestor of [b]. *)
Definition before (a b : string) : Prop := ancestor a b ∧ a ≠ b.

Lemma before_trans a b c : before a b → ancestor b c → b ≠ c → before a c.
Proof.
  intros [H1 Hne1] H2 Hne2. split; [by etrans|]. intros ->. apply Hne2.
  by apply (anti_symm ancestor).
Qed.

(** A later session on a later commit. *)
Definition closed_after (a b : Z * string) : Prop := b.1 < a.1 ∧ before b.2 a.2.

(** What the document says of the commits. *)
Definition tracks (s : ControlState) (l : list (Z * string)) : Prop :=
  (∃ (s0 : ControlState) marks, history s0 marks s) ∧
  Forall (λ x, 0 <= x.1 < cs_current_session s + Z.b2z (finished s)) l ∧
  (∀ x, head l = Some x → cs_evidence_closure_commit_sha s = Some x.2) ∧ StronglySorted closed_after l.

Lemma tracks_edit p c l : edited p c → tracks p l → tracks c l.
Proof.
  intros He ((s0 & marks & Hh) & Hall & Hhead & Hsort).
  pose proof He as (Hst & Hcur & _ & _ & Hsha & _).
  assert (Hf : finished c = finished p) by (unfold finished; by rewrite Hst).
  split; [exists s0, marks; by eapply edit_history|]. by rewrite Hf, Hcur, Hsha.
Qed.

Lemma tracks_hand p c l : closed_by_hand p c → tracks p l → tracks c l.
Proof.
  intros Hh ((s0 & marks & Hist) & Hall & Hhead & Hsort).
  pose proof Hh as (Hwas & His & Hcur & _ & _ & Hsha & _).
  split; [exists s0; eexists; by apply hand_history|]. rewrite Hcur, Hsha. split; [|done].
  eapply Forall_impl; [exact Hall|]. intros x. unfold finished.
  rewrite Hwas, His, (bool_decide_true ("complete" = "complete")), bool_decide_false by done. simpl. lia.
Qed.

Lemma tracks_activation d d' p c l :
  parsed d p → parsed d' c → validate_activation_transition p c = Ok tt → tracks p l → tracks c l.
Proof.
  intros Hp Hc Hv ((s0 & marks & Hh) & Hall & Hhead & Hsort). pose proof (activation_facts _ _ Hv) as [].
  split; [exists s0; eexists; eapply activation_history; [exact Hp|exact Hc|exact Hv|exact Hh]|].
  assert (cs_evidence_closure_commit_sha p = cs_evidence_closure_commit_sha c) as <-.
  { apply json_eq_opt. eapply kept_parsed; [exact Hp|exact Hc|exact act_same| |in_encoded|in_encoded]. by_decide. }
  split; [|done]. eapply Forall_impl; [exact Hall|]. intros x. unfold finished.
  rewrite act_was, act_is, act_session, (bool_decide_true ("complete" = "complete")), bool_decide_false by done.
  simpl. lia.
Qed.

Lemma tracks_completion d d' p c l P t t' sha :
  parsed d p → parsed d' c → validate_completion_transition p c = Ok tt →
  _verify_completion_repository host P p c t = (Ok tt, t') → cs_evidence_closure_commit_sha c = Some sha →
  tracks p l → tracks c ((cs_current_session c, sha) :: l).
Proof.
  intros Hp Hc Hv Hver Hsha ((s0 & marks & Hh) & Hall & Hhead & Hsort).
  pose proof (completion_facts _ _ Hv) as Hcom.
  pose proof (completion_session _ _ _ _ Hp Hc Hcom) as Hcur.
  destruct (commits_facts _ _ (com_commits _ _ Hcom)) as (sha' & _ & Hs & _ & _ & Hhp & Hnew).
  rewrite Hsha in Hs. injection Hs as <-.
  assert (Hfp : finished p = false) by (unfold finished; by rewrite (com_was _ _ Hcom)).
  assert (Hfc : finished c = true) by (unfold finished; by rewrite (com_is _ _ Hcom)).
  split; [exists s0; eexists; eapply completion_history; [exact Hp|exact Hc|exact Hv|exact Hh]|].
  destruct Hh. rewrite Hfp in Hall. simpl in Hall. rewrite Hfc, Hcur. simpl.
  split; [|split; [by intros x [= <-]|]].
  - constructor; [simpl; lia|]. eapply Forall_impl; [exact Hall|]. intros x. simpl. lia.
  - constructor; [done|]. destruct l as [|a l]; [constructor|].
    destruct (verified_ancestor _ _ _ _ _ _ Hver Hsha) as (base & Hbase & Hanc).
    assert (Hz : (cs_current_session p =? 0) = false).
    { apply Z.eqb_neq. apply Forall_cons in Hall as [Ha _]. lia. }
    rewrite Hz in Hhp, Hbase. rewrite Hhp, (Hhead a eq_refl) in Hbase. injection Hbase as <-.
    rewrite (Hhead a eq_refl) in Hnew. assert (Hne : a.2 ≠ sha) by congruence.
    apply StronglySorted_cons in Hsort as [Hafter _]. pose proof Hall as [Ha Hl]%Forall_cons.
    constructor; [split; [simpl; lia|done]|].
    rewrite Forall_forall in Hafter, Hl |- *. intros x Hx. split; [specialize (Hl x Hx); simpl in *; lia|].
    exact (before_trans _ _ _ (proj2 (Hafter x Hx)) Hanc Hne).
Qed.

Lemma closed_tracks d l : closed_on d l → ∃ s : ControlState, parsed d s ∧ tracks s l.
Proof.
  induction 1 as [d s Hs Ho|d d' p c l _ (s & Hs & Ht) Hp Hc He|d d' p c l _ (s & Hs & Ht) Hp Hc He
                 |d c l _ (s & Hs & Ht) Hr|d c l sha _ (s & Hs & Ht) Hr Hsha].
  - exists s. split; [done|]. split; [exists s, []; by apply opening_history|]. split_and!; [done..|constructor].
  - rewrite <- (parsed_functional _ _ _ Hs Hp) in *. exists c. split; [done|]. by eapply tracks_edit.
  - rewrite <- (parsed_functional _ _ _ Hs Hp) in *. exists c. split; [done|]. by eapply tracks_hand.
  - apply ran_activation in Hr as (p & Hp & Hc & Hv). rewrite <- (parsed_functional _ _ _ Hs Hp) in *.
    exists c. split; [done|]. eapply tracks_activation; [exact Hs|exact Hc|exact Hv|exact Ht].
  - apply ran_completion in Hr as (p & P & t & t' & Hp & Hc & Hv & Hver).
    rewrite <- (parsed_functional _ _ _ Hs Hp) in *. exists c. split; [done|]. eapply tracks_completion; [exact Hs|exact Hc|exact Hv|exact Hver|exact Hsha|exact Ht].
Qed.

(** C15: Every session that a completion run closes gets a commit of its own, in a repository
    whose Git answers truthfully and keeps its history. Let the document have come from an
    opening one by successful runs, by sessions closed by hand, which keep the evidence-closure
    commit of the session before (as D-0032 does), and by edits in between that keep it too but
    may move the head and the evidence. Then the commits of the completed sessions are pairwise
    distinct and each is a proper descendant of those of all earlier sessions; the document
    names the last one. *)
Theorem sessions_close_on_new_commits d l :
  closed_on d l →
  ∃ s : ControlState, parsed d s ∧ (∀ x, x ∈ l → x.1 ∈ cs_completed_sessions s) ∧
    (∀ x, head l = Some x → cs_evidence_closure_commit_sha s = Some x.2) ∧
    StronglySorted closed_after l ∧ NoDup l.*2.
Proof.
  intros (s & Hs & (s0 & marks & Hh) & Hall & Hhead & Hsort)%closed_tracks. exists s.
  split; [done|]. split; [|split; [done|split; [done|]]].
  - intros x Hx. rewrite Forall_forall in Hall. rewrite (hi_completed _ _ _ Hh). apply elem_of_seqZ.
    specialize (Hall x Hx). lia.
  - clear Hs Hall Hhead. induction Hsort as [|a l Hl IH Hafter]; [constructor|]. rewrite fmap_cons. constructor; [|done].
    intros (x & Hx & Hin)%list_elem_of_fmap. rewrite Forall_forall in Hafter.
    destruct (Hafter x Hin) as [_ [_ Hne]]. by apply Hne.
Qed.
End closures.

(** ** A repository whose history is a line *)

Definition commit_rank (sha : string) : option Z :=
  if decide (sha = sample_bootstrap) then Some (-1)
  else (λ r, Z.of_nat r.1) <$> list_find (λ c, c = sha) (sample_closure <$> seqZ 0 9).

Definition earlier (a b : string) : Prop :=
  a = b ∨ match commit_rank a, commit_rank b with Some i, Some j => i < j | _, _ => False end.

#[export] Instance earlier_dec a b : Decision (earlier a b).
Proof. unfold earlier. destruct (commit_rank a), (commit_rank b); apply _. Defined.

#[export] Instance earlier_order : PartialOrder earlier.
Proof.
  unfold earlier. split; [split|].
  - by left.
  - intros a b c [->|Hab] [<-|Hbc]; auto. right.
    destruct (commit_rank a), (commit_rank b), (commit_rank c); try done. lia.
  - intros a b [->|Hab] [Hba|Hba]; try done. destruct (commit_rank a), (commit_rank b); try done. lia.
Qed.

(** [n] is the session whose closure commit is checked out; the commit holds the document of
    the session before its completion, under the session's number. *)
Definition sample_host : Host Z := {|
  host_git arguments n :=
    let say out := (Completed 0 (out ++ String lf "") "", n) in
    match drop 3 arguments with
    | ["rev-parse"; "--show-toplevel"] => say "/repo"
    | ["rev-parse"; "--verify"; name] =>
        say (if decide (name = "HEAD^{commit}") then sample_closure n else String.substring 0 40 name)
    | ["symbolic-ref"; _; _; _] => say "build/full-automation"
    | ["status"; _; _] => (Completed 0 "" "", n)
    | ["show"; "-s"; _; _] => say BOOTSTRAP_COMMIT_SUBJECT
    | ["show"; _] => say (pretty n)
    | ["merge-base"; _; a; b] => (Completed (if decide (earlier a b) then 0 else 1) "" "", n)
    | _ => (CannotRun "", n)
    end;
  host_is_dir _ _ := true;
  host_samefile a b _ := Some (bool_decide (a = b));
  host_resolve path _ := Ok path;
  host_loads text :=
    match text with
    | String c _ => (λ n, sample_doc n false all_but_closure) <$> digit_value c
    | EmptyString => None
    end |}.

#[export] Instance sample_host_honest : HonestGit sample_host earlier.
Proof.
  split; [apply _|]. intros root a b t out err. cbn. by destruct (decide (earlier a b)).
Qed.

Definition sample_state_path := "/repo/" ++ CANONICAL_STATE_RELATIVE_PATH.

Definition sample_store (before after : json) : Store :=
  {| fs_files := {[sample_state_path := Ok before; "/tmp/next.json" := Ok after]}; fs_faults := [] |}.

Definition sample_run (completing : bool) (before after : json) (n : Z) : result exn ControlState * (Store * Z) :=
  (if completing then apply_completion_transition sample_host "/repo/docs/control/tmp" sample_state_path "/tmp/next.json"
   else apply_activation_transition sample_host "/repo/docs/control/tmp" sample_state_path "/tmp/next.json")
  (sample_store before after, n).

(** A run that returns the parsed candidate. *)
Lemma sample_ran completing before after n :
  (sample_run completing before after n).1 = _parse_state (Ok after) "candidate state" →
  given (sample_state after) = true →
  ∃ c, ran sample_host completing before c ∧ after = JDict (cs_raw c) ∧ parsed after c.
Proof.
  intros Hrun Hgiven. unfold given in Hgiven. apply bool_decide_eq_true in Hgiven as [c Hc].
  apply sample_parsed in Hc. pose proof (parse_label _ _ "candidate state" _ Hc) as Hp. rewrite Hp in Hrun.
  exists c. split_and!; [|by eapply parse_raw|done].
  exists "/repo/docs/control/tmp", sample_state_path, "/tmp/next.json", sample_state_path, "/tmp/next.json".
  exists (sample_store before after), n. split_and!; [done..|exact Hrun].
Qed.

Lemma sample_closes n before after l :
  n ∈ [0; 1] → before = sample_doc n false all_but_closure → after = sample_doc n true everything →
  closed_on sample_host (sample_doc n false nothing_yet) l →
  closed_on sample_host after ((n, sample_closure n) :: l).
Proof.
  intros Hn -> -> Hl.
  destruct (sample_ran true (sample_doc n false all_but_closure) (sample_doc n true everything) n)
    as (c & Hr & Hd & Hc);
    [rewrite !elem_of_cons in Hn; destruct Hn as [->|[->|Hn]]; [vm_compute; reflexivity..|by apply elem_of_nil in Hn]..|].
  assert (He : states_rel edited (sample_doc n false nothing_yet) (sample_doc n false all_but_closure) = true)
    by (rewrite !elem_of_cons in Hn; destruct Hn as [->|[->|Hn]]; [vm_compute; reflexivity..|by apply elem_of_nil in Hn]).
  apply sample_rel in He as (p & q & Hp & Hq & He). pose proof Hc as Hc'. pose proof Hd as Hdoc.
  apply (parsed_get _ _ "evidence_closure_commit_sha" (JOpt (cs_evidence_closure_commit_sha c))) in Hc; [|in_encoded].
  apply (parsed_get _ _ "current_session" (JInt (cs_current_session c))) in Hc'; [|in_encoded].
  injection Hd as Hd. rewrite <- Hd in Hc, Hc'.
  change (Some (JInt n) = Some (JInt (cs_current_session c))) in Hc'. injection Hc' as Hses.
  change (Some (JStr (sample_closure n)) = Some (JOpt (cs_evidence_closure_commit_sha c))) in Hc.
  assert (Hsha : cs_evidence_closure_commit_sha c = Some (sample_closure n))
    by (destruct (cs_evidence_closure_commit_sha c); [by injection Hc as <-|done]).
  replace (n, sample_closure n) with (cs_current_session c, sample_closure n) by congruence.
  rewrite Hdoc. eapply closed_completion; [|exact Hr|exact Hsha].
  eapply closed_edit; [exact Hl|exact Hp|exact Hq|exact He].
Qed.

(** Two sessions close on two commits; the head is synced to some other commit in between, and
    back. *)
Theorem sessions_close_on_new_commits_witness :
  let l := [(1, sample_closure 1); (0, sample_closure 0)] in
  closed_on sample_host (sample_doc 1 true everything) l ∧
  ∃ s : ControlState, parsed (sample_doc 1 true everything) s ∧ ∀ x, x ∈ l → x.1 ∈ cs_completed_sessions s.
Proof.
  intros l.
  assert (Hc : closed_on sample_host (sample_doc 1 true everything) l).
  { eapply sample_closes; [by_decide|done..|].
    destruct (sample_ran false (sample_doc 0 true everything) (sample_doc 1 false nothing_yet) 0)
      as (c & Hr & -> & Hc); [vm_compute; reflexivity..|].
    eapply closed_activation; [|exact Hr].
    assert (H1 : states_rel edited (sample_doc 0 true everything)
      (with_field "head_sha" (JStr sample_bootstrap) (sample_doc 0 true everything)) = true) by (vm_compute; reflexivity).
    assert (H2 : states_rel edited (with_field "head_sha" (JStr sample_bootstrap) (sample_doc 0 true everything))
      (sample_doc 0 true everything) = true) by (vm_compute; reflexivity).
    apply sample_rel in H1 as (p1 & q1 & Hp1 & Hq1 & He1). apply sample_rel in H2 as (p2 & q2 & Hp2 & Hq2 & He2).
    eapply closed_edit; [|exact Hp2|exact Hq2|exact He2]. eapply closed_edit; [|exact Hp1|exact Hq1|exact He1].
    eapply sample_closes; [by_decide|done..|].
    destruct (sample_state (sample_doc 0 false nothing_yet)) as [s0|] eqn:E0; [|vm_compute in E0; discriminate].
    eapply closed_opening; [by apply sample_parsed|]. vm_compute in E0. injection E0 as <-. by split_and!. }
  split; [exact Hc|].
  destruct (sessions_close_on_new_commits sample_host earlier _ _ Hc) as (s & Hs & Hin & _). exists s. split; [exact Hs|exact Hin].
Defined.

(** A completion whose directory sync fails reports an error over the replaced file; one that
    meets the lock changes nothing. *)
Theorem transition_is_atomic_witness :
  let faults := {| fs_files := fs_files (sample_store (sample_doc 0 false all_but_closure) (sample_doc 0 true everything));
                   fs_faults := repeat NoFault 9 ++ [Fails None] |} in
  let '(r, (s', _)) := apply_completion_transition sample_host "/repo/docs/control/tmp" sample_state_path "/tmp/next.json" (faults, 0) in
  r = Raise (Exn ControlStateError "atomic state write failed: ") ∧
  fs_files s' !! sample_state_path = Some (Ok (sample_doc 0 true everything)) ∧
  keeps_but [sample_state_path; "/repo/docs/control/tmp"; lock_path sample_state_path] faults s'.
Proof.
  intros faults.
  pose proof (transition_is_atomic sample_host "/repo/docs/control/tmp" sample_state_path "/tmp/next.json" faults 0
    sample_state_path "/tmp/next.json" true eq_refl eq_refl ltac:(by_decide)) as H. cbv iota in H.
  destruct (apply_completion_transition _ _ _ _ _) as [r [s' t']] eqn:E.
  split_and!; [| |apply H]; vm_compute in E; injection E as <- <- _; vm_compute; reflexivity.
Defined.
