(* ===== verification/Footprints.v ===== *)
(** * The footprint of every operation

    For each operation that writes: which moves it makes on job rows, in which statuses the
    rows it adds are, and under which keys it records that nothing was found.  Nothing is
    assumed of the database. *)

From S2P Require Import Prelude PyText Sha256 Enums Errors TransitionGuard Retry Tables WorkflowsConfig.
From S2P Require Import Contracts Agents Evolution Tracking AgentRuntime Leases Repositories Idempotency.
From S2P Require Import DependencyResolver Scheduler Reconciliation SuccessorFactory EventDispatcher Engine.
From S2P Require Import Worker DraftClient DraftListing RealDraft DraftEffects.
Open Scope Z_scope.
Import JobStatus.

Section footprints.
Context `{Backend} (f : Footprint) `{!Closed f}.

(** ** The session primitives *)


Lemma insert_event_tracked e : within (tracked f) (insert_event e).
Proof.
  intros db. unfold insert_event. case_match eqn:Hx; cbn [snd]; [|reflexivity].
  rewrite !andb_true_iff, negb_true_iff in Hx. tracked_frame. apply unique_key_insert. apply Hx.
Qed.

Lemma insert_idempotency_tracked r : within (tracked f) (insert_idempotency r).
Proof.
  intros db. unfold insert_idempotency. case_match eqn:Hx; cbn [snd]; [|reflexivity].
  rewrite andb_true_iff, negb_true_iff in Hx. tracked_frame; [apply unique_key_insert, Hx|].
  split; simpl; [|intros i a Ha; exists a; split_and!; [done..|lia]|by right].
  intros i r' Hr. exists r'. rewrite lookup_insert_ne; [done|]. intros <-.
  apply (uuid4_fresh (dom (idempotency_records db))). by eapply elem_of_dom_2.
Qed.

Lemma insert_effect_attempt_tracked e :
  (eff_state e = EffectState.ABSENT → eff_key e ∈ fp_absent f) →
  within (tracked f) (insert_effect_attempt e).
Proof.
  intros He db. unfold insert_effect_attempt. case_match eqn:Hx; cbn [snd]; [|reflexivity]. tracked_frame.
  split; simpl; [eauto| |].
  - intros i a Ha. exists a. rewrite lookup_insert_ne; [split_and!; [done..|lia]|]. intros <-.
    apply (uuid4_fresh (dom (effect_attempts db))). by eapply elem_of_dom_2.
  - intros i a [[_ <-]|[_ Ha]]%lookup_insert_Some Hs; [left; auto|by right].
Qed.

(** An edit that keeps the key and the number. *)
Lemma flush_effect_attempt_tracked i e old db :
  effect_attempts db !! i = Some old → eff_key e = eff_key old →
  eff_reconciliation_attempt e = eff_reconciliation_attempt old →
  (eff_state e = EffectState.ABSENT → eff_key e ∈ fp_absent f) →
  tracked f db (flush_effect_attempt i e db).2.
Proof.
  intros Ho Hk Hn He. unfold flush_effect_attempt. case_match; cbn [snd]; [|reflexivity]. tracked_frame.
  split; simpl; [eauto| |].
  - intros i' a Ha. destruct (decide (i = i')) as [<-|].
    + rewrite lookup_insert_eq. simplify_eq. exists e. split_and!; [done..|lia].
    + exists a. rewrite lookup_insert_ne by done. split_and!; [done..|lia].
  - intros i' a [[_ <-]|[_ Ha]]%lookup_insert_Some Hs; [left; auto|by right].
Qed.

Lemma insert_receipt_tracked r : within (tracked f) (insert_receipt r).
Proof. intros db. unfold insert_receipt. case_match; cbn [snd]; [tracked_frame|reflexivity]. Qed.

Lemma insert_trigger_tracked t : within (tracked f) (insert_trigger t).
Proof.
  intros db. unfold insert_trigger. case_match eqn:Hx; cbn [snd]; [|reflexivity].
  rewrite andb_true_iff, negb_true_iff in Hx. tracked_frame. apply unique_key_insert, Hx.
Qed.

Lemma insert_workflow_tracked wid w : within (tracked f) (insert_workflow wid w).
Proof.
  intros db. unfold insert_workflow. case_match; cbn [snd]; [|reflexivity]. tracked_frame.
  intros k Hk. destruct (decide (wid = k)) as [<-|]; [by rewrite lookup_insert_eq|by rewrite lookup_insert_ne].
Qed.

Lemma store_workflow_tracked db wid w : tracked f db (store_workflow db wid w).
Proof.
  unfold store_workflow. destruct (workflow_runs db !! wid) eqn:Ho; [|reflexivity].
  case_decide; [reflexivity|]. tracked_frame. intros k Hk.
  destruct (decide (wid = k)) as [<-|]; [by rewrite lookup_insert_eq|by rewrite lookup_insert_ne].
Qed.

Lemma flush_workflow_tracked wid w : within (tracked f) (flush_workflow wid w).
Proof. apply within_modify. intros db. apply store_workflow_tracked. Qed.

Lemma insert_job_tracked jid j :
  j_status j ∈ fp_births f → within (tracked f) (insert_job jid j).
Proof.
  intros Hb db. unfold insert_job. case_match eqn:Hx; cbn [snd]; [|reflexivity].
  rewrite !andb_true_iff, negb_true_iff, !bool_decide_eq_true in Hx. destruct Hx as [[[Hn Hk] Hfk] Hchk].
  split; simpl; [| | |by apply spares_same].
  - intros []. split; simpl; try done; [by apply unique_key_insert|by apply map_Forall_insert_2..].
  - intros k j' Hk'. exists j'. rewrite lookup_insert_ne by congruence. split; [done|by left].
  - intros k j' Hk1 [[_ <-]|[_ Hk2]]%lookup_insert_Some; [done|congruence].
Qed.

(** Flushing edits of rows: each keeps the row's fixed columns and makes a listed move. *)
Lemma flush_jobs_tracked db rows :
  NoDup rows.*1 →
  (∀ k j old, (k, j) ∈ rows → jobs db !! k = Some old →
     job_envelope j = job_envelope old ∧ may_move f (j_status old) (j_status j)) →
  tracked f db (flush_jobs rows db).2.
Proof.
  intros Hnd Hrows. destruct (flush_jobs_cases rows db) as [[Hchk ->]|[_ ->]]; cbn [snd]; [|reflexivity].
  assert (Hback : ∀ k a', jobs (foldl store_job db rows) !! k = Some a' →
    ∃ a, jobs db !! k = Some a ∧ job_envelope a' = job_envelope a ∧ may_move f (j_status a) (j_status a') ∧
      (job_check a = true → job_check a' = true)).
  { intros k a' Hk. rewrite foldl_store_lookup in Hk by done.
    destruct (list_to_map rows !! k) as [j|] eqn:Hj; [|exists a'; split_and!; [done..|by left|done]].
    destruct (jobs db !! k) as [old|] eqn:Ho; simplify_eq/=. apply elem_of_list_to_map_2 in Hj.
    destruct (Hrows k j old Hj Ho) as [He Hm]. exists old. unfold stored.
    case_decide; (split; [done|]); [split; [done|split; [by left|done]]|split; [done|split; [done|]]]. intros _. simpl.
    exact (proj1 (forallb_elem_of _ _) Hchk (k, j) Hj). }
  assert (Hdom : ∀ k a, jobs db !! k = Some a → is_Some (jobs (foldl store_job db rows) !! k)).
  { intros k a Hk. rewrite foldl_store_lookup by done. destruct (list_to_map rows !! k); rewrite Hk; eauto. }
  rewrite foldl_store_frame in *. simpl in *. split; simpl; [| | |by apply spares_same].
  - intros [? ? Hkeys ? Hchecks Howner]. split; simpl; try done.
    + eapply unique_key_update; [|exact Hkeys]. intros k a' Hk. destruct (Hback _ _ Hk) as (a & ? & Henv & _).
      exists a. split; [done|]. unfold job_envelope in Henv. by injection Henv.
    + intros k a' Hk. destruct (Hback _ _ Hk) as (a & ? & _ & _ & Hck). eapply Hck, Hchecks. done.
    + intros k a' Hk. destruct (Hback _ _ Hk) as (a & Ha & Henv & _).
      unfold job_envelope in Henv. injection Henv as -> _. by eapply Howner.
  - intros k j Hk. destruct (Hdom k j Hk) as [a' Ha']. exists a'. split; [done|].
    destruct (Hback k a' Ha') as (? & ? & _ & ? & _). by simplify_eq.
  - intros k j' Hn Hs. destruct (Hback _ _ Hs) as (? & ? & _). congruence.
Qed.

Lemma flush_job_tracked db k j :
  (∀ old, jobs db !! k = Some old → job_envelope j = job_envelope old ∧ may_move f (j_status old) (j_status j)) →
  tracked f db (flush_jobs [(k, j)] db).2.
Proof.
  intros Hj. apply flush_jobs_tracked; [apply NoDup_singleton|].
  intros k' j' old Hin Hold. apply list_elem_of_singleton in Hin. simplify_eq. auto.
Qed.

Lemma flush_edits_tracked (g : Job → Job) rows db :
  NoDup rows.*1 →
  (∀ k j, (k, j) ∈ rows → jobs db !! k = Some j ∧ job_envelope (g j) = job_envelope j ∧
     may_move f (j_status j) (j_status (g j))) →
  tracked f db (flush_jobs (prod_map id g <$> rows) db).2.
Proof.
  intros Hnd Hrows. apply flush_jobs_tracked; [by rewrite fmap_rows_fst|].
  intros k j' old Hin Hold. apply list_elem_of_fmap in Hin as ([k0 j] & [= -> ->] & Hin).
  apply Hrows in Hin as [Hk He]. unfold id in *. by simplify_eq.
Qed.

#[local] Hint Resolve insert_event_tracked insert_idempotency_tracked insert_receipt_tracked
  insert_trigger_tracked insert_workflow_tracked flush_workflow_tracked : orch.

(** A call from a given database, and what follows it. *)
Lemma bind_tracked {A B} (m : Session A) (k : A → Session B) db :
  tracked f db (m db).2 → (∀ a, within (tracked f) (k a)) → tracked f db (pybind m k db).2.
Proof.
  intros Hm Hk. unfold pybind. destruct (m db) as [[a|e] db1]; cbn [snd] in *; [|done]. etrans; [exact Hm|apply Hk].
Qed.

Lemma atomically_tracked {A} (m : Session A) db : tracked f db (m db).2 → tracked f db (atomically m db).2.
Proof. unfold atomically. destruct (m db) as [[a|e] db1]; cbn [snd]; [done|reflexivity]. Qed.

(** ** Leases *)

Lemma claim_tracked locked w now d :
  may_move f READY RUNNING → within (tracked f) (claim_ready_job locked w now d).
Proof.
  intros Hm. apply within_gets_bind. intros db.
  destruct (select _ _ _ db) as [|[k j] rows] eqn:Hsel; [cbn; reflexivity|]. cbn [take].
  assert (Hin : (k, j) ∈ select jobs (ready_due locked now) (λ r, j_scheduled_at r.2) db) by (rewrite Hsel; left).
  apply elem_of_ready_due in Hin as (Hk & Hs & _).
  unfold pybind at 1, lift_result at 1. destruct (require_job_transition _ _); [|cbn; reflexivity].
  apply bind_tracked; [|intros ?; unfold refreshed; solve_within].
  apply flush_job_tracked. intros old Ho. simplify_eq. split; [done|]. by rewrite Hs.
Qed.

Lemma heartbeat_tracked jid w now ext : within (tracked f) (heartbeat jid w now ext).
Proof.
  apply within_gets_bind. intros db. destruct (jobs db !! jid) as [j|] eqn:Hj; [|cbn; reflexivity].
  case_decide; [cbn; reflexivity|]. case_match; [cbn; reflexivity|].
  apply flush_job_tracked. intros old Ho. simplify_eq. split; [by destruct ext|]. left. by destruct ext.
Qed.

Lemma release_from jid w now st db :
  (∀ j, jobs db !! jid = Some j → j_lease_owner j = Some w → st ∈ _LEGAL_RELEASE_STATUSES →
     may_move f (j_status j) st) →
  tracked f db (release_lease jid w now st db).2.
Proof.
  intros Hm. unfold release_lease. case_decide as Hst; [cbn; reflexivity|].
  unfold get_job. unfold pybind at 1, gets at 1.
  destruct (jobs db !! jid) as [j|] eqn:Hj; [|cbn; reflexivity]. case_decide as Hw; [cbn; reflexivity|].
  unfold pybind, lift_result. destruct (require_job_transition _ _) as [[]|]; [|cbn; reflexivity].
  apply flush_job_tracked. intros old Ho. rewrite Hj in Ho. injection Ho as <-. split; [done|]. by apply Hm.
Qed.

Lemma release_tracked jid w now st :
  (∀ s, may_move f s st) → within (tracked f) (release_lease jid w now st).
Proof. intros Hm db. apply release_from. auto. Qed.

Lemma reclaim_tracked locked now limit :
  may_move f RUNNING READY → may_move f RUNNING FAILED → may_move f RUNNING TERMINAL_FAILURE →
  within (tracked f) (reclaim_expired_leases locked now limit).
Proof.
  intros Hr Hf Ht db. rewrite reclaim_unfold. apply bind_tracked; [|intros ?; solve_within].
  apply flush_edits_tracked; [apply take_NoDup_fst, select_NoDup|].
  intros k j (Hk & Hs & _)%elem_of_take_1%elem_of_expired. split; [done|]. split; [done|]. rewrite Hs.
  unfold reclaimed, reclaim_status. simpl. destruct (j_retry_class j); try done; by destruct (_ <? _).
Qed.

(** ** Dependencies *)

Lemma promote_tracked jid now :
  may_move f PENDING READY → within (tracked f) (promote_pending_to_ready jid now).
Proof.
  intros Hm. unfold promote_pending_to_ready. apply within_gets_bind. intros db.
  destruct (jobs db !! jid) as [j|] eqn:Hj; [|cbn; reflexivity]. case_decide as Hs; [cbn; reflexivity|].
  unfold pybind at 1.
  destruct (evaluate_job_readiness_iff jid now db j Hj) as ([] & why & E & _); rewrite E; cbn [negb fst snd];
    [|cbn; reflexivity].
  unfold pybind at 1, lift_result at 1. destruct (require_job_transition _ _); [|cbn; reflexivity].
  apply bind_tracked; [|intros ?; unfold refreshed; solve_within].
  apply flush_job_tracked. intros old Ho. simplify_eq. split; [done|]. by rewrite Hs.
Qed.

Lemma propagate_tracked fid now :
  may_move f PENDING BLOCKED → within (tracked f) (propagate_dependency_failure fid now).
Proof.
  intros Hm db. rewrite propagate_unfold. apply bind_tracked; [|intros ?; solve_within].
  apply flush_edits_tracked; [apply select_NoDup|].
  intros k j (Hk & Hs & _)%elem_of_pending_dependent. split; [done|]. split; [done|]. by rewrite Hs.
Qed.

Lemma satisfy_tracked sid now : within (tracked f) (satisfy_dependency sid now).
Proof. intros db. unfold satisfy_dependency, gets, modify, pybind, pyret. simpl. tracked_frame. Qed.

(** ** The scheduler *)

Lemma promote_due_tracked now limit :
  may_move f PENDING READY → within (tracked f) (promote_due_jobs now limit).
Proof.
  intros Hm. pose proof (λ j, promote_tracked j now Hm). unfold promote_due_jobs, promote_or_skip. solve_within.
Qed.

Lemma insert_events_tracked es : within (tracked f) (insert_events es).
Proof. unfold insert_events. solve_within. Qed.

Lemma detect_tracked locked now thr limit :
  may_move f RUNNING FAILED → within (tracked f) (detect_stalled_jobs locked now thr limit).
Proof.
  intros Hm db. rewrite detect_unfold. apply bind_tracked; [|intros ?; solve_within].
  apply atomically_tracked, bind_tracked; [|intros ?; apply insert_events_tracked].
  apply flush_edits_tracked; [apply stalled_rows_NoDup|].
  intros k j [Hk Hs]%stalled_rows_elem. split; [done|]. split; [done|]. by rewrite Hs.
Qed.

Lemma cycle_tracked l1 l2 now p r s :
  may_move f PENDING READY → may_move f RUNNING READY → may_move f RUNNING FAILED →
  may_move f RUNNING TERMINAL_FAILURE → within (tracked f) (run_scheduler_cycle l1 l2 now p r s).
Proof.
  intros H1 H2 H3 H4. pose proof (λ n, promote_due_tracked now n H1).
  pose proof (λ l n, reclaim_tracked l now n H2 H3 H4). pose proof (λ l t n, detect_tracked l now t n H3).
  unfold run_scheduler_cycle. solve_within.
Qed.

Lemma weekly_tracked s k n c now : within (tracked f) (schedule_weekly_timer s k n c now).
Proof.
  apply within_gets_bind. intros db.
  pose proof (elem_of_select scheduled_triggers (λ _ t, bool_decide (trig_key t = k)) unordered db) as Hin.
  destruct (select _ _ _ db) as [|[tid t] rows];
    [apply bind_tracked; [apply insert_trigger_tracked|intros ?; solve_within]|].
  destruct (proj1 (Hin (tid, t))) as [Ht _]; [left|]. unfold modify. cbn [snd]. tracked_frame.
  apply unique_key_update. intros i a [[<- <-]|[_ Ha]]%lookup_insert_Some; [by exists t|by exists a].
Qed.

(** ** Reservations, attempts, receipts and events *)

Lemma reserve_tracked k j o c now : within (tracked f) (reserve_idempotency_key k j o c now).
Proof. unfold reserve_idempotency_key, now_or. solve_within. Qed.

Lemma repo_reserve_tracked k j o c : within (tracked f) (IdempotencyRepository.reserve k j o c).
Proof. unfold IdempotencyRepository.reserve, clock_now. solve_within. Qed.

Lemma found_reservation k db rid r :
  one_or_none (select idempotency_records (λ _ r, bool_decide (idem_key r = k)) unordered db) = Ok (Some (rid, r)) →
  idempotency_records db !! rid = Some r ∧ idem_key r = k.
Proof.
  intros Ho. destruct (select _ _ _ db) as [|x [|]] eqn:Hs; simplify_eq/=.
  assert (Hin : (rid, r) ∈ [(rid, r)]) by left. rewrite <- Hs in Hin.
  apply elem_of_select in Hin as [Hin Hk]. by apply bool_decide_eq_true in Hk.
Qed.

Lemma completed_tracked k now : within (tracked f) (mark_idempotency_completed k now).
Proof.
  intros db. unfold mark_idempotency_completed, now_or, gets, lift_result, pybind.
  destruct (one_or_none _) as [[[rid r]|]|e] eqn:Ho; cbn [snd pyraise]; try reflexivity.
  apply found_reservation in Ho as [Hr Hk]. unfold modify. cbn [snd]. tracked_frame.
  - apply unique_key_update. intros i a [[<- <-]|[_ Ha]]%lookup_insert_Some; [by exists r|by exists a].
  - split; simpl; [|intros i a Ha; exists a; split_and!; [done..|lia]|by right].
    intros i r' Hr'. destruct (decide (rid = i)) as [<-|Hne]; [|rewrite lookup_insert_ne by done; eauto].
    rewrite lookup_insert_eq. simplify_eq. eexists. split_and!; [done..|]. simpl. eauto.
Qed.

Lemma record_tracked k j r p o s i n now :
  (s = EffectState.ABSENT → k ∈ fp_absent f) → within (tracked f) (record_effect_attempt k j r p o s i n now).
Proof.
  intros Hs. unfold record_effect_attempt, now_or. apply within_bind; [apply _|solve_within|]. intros t.
  apply within_bind; [apply _|by apply insert_effect_attempt_tracked|]. intros ?. solve_within.
Qed.

Lemma receipt_tracked j k p o c m s i a u d now :
  within (tracked f) (record_receipt j k p o c m s i a u d now).
Proof. unfold record_receipt, now_or. solve_within. Qed.

Lemma by_dedupe_key_tracked k : within (tracked f) (EventRepository.by_dedupe_key k).
Proof. unfold EventRepository.by_dedupe_key. solve_within. Qed.
#[local] Hint Resolve by_dedupe_key_tracked : orch.

Lemma append_tracked n ty a k o w j r p : within (tracked f) (EventRepository.append n ty a k o w j r p).
Proof. unfold EventRepository.append, clock_now. solve_within. Qed.
#[local] Hint Resolve append_tracked reserve_tracked completed_tracked receipt_tracked : orch.

(** ** Reconciliation *)

Lemma within_at {A} (m : Session A) db : within (tracked f) m → tracked f db (m db).2.
Proof. intros Hm. apply Hm. Qed.

Lemma reconcile_tracked jid q mx now db :
  (∀ j, jobs db !! jid = Some j → j_idempotency_key j ∈ fp_absent f) →
  tracked f db (reconcile_uncertain_effect jid q mx now db).2.
Proof.
  intros HK. unfold reconcile_uncertain_effect, now_or, get_job. unfold pybind at 1, gets at 1.
  unfold pybind at 1, gets at 1. destruct (jobs db !! jid) as [j|] eqn:Hj; [|cbn; reflexivity].
  case_decide; [cbn; reflexivity|].
  pose proof (λ r p o s i n t, record_tracked (j_idempotency_key j) jid r p o s i n t (λ _, HK j eq_refl)).
  apply within_at. unfold get_idempotency_record, get_latest_effect_attempt. solve_within.
Qed.

Lemma apply_tracked jid r now db :
  (∀ s, job_edge UNCERTAIN_EXTERNAL_EFFECT s → may_move f UNCERTAIN_EXTERNAL_EFFECT s) →
  (∀ j, jobs db !! jid = Some j → j_status j = UNCERTAIN_EXTERNAL_EFFECT) →
  tracked f db (apply_reconciliation_result jid r now db).2.
Proof.
  intros Hm Hunc. unfold apply_reconciliation_result, now_or, get_job, gets, pybind, lift_result.
  destruct (jobs db !! jid) as [j|] eqn:Hj; [|cbn; reflexivity]. case_decide; [cbn; reflexivity|].
  specialize (Hunc j eq_refl).
  destruct (require_job_transition _ _) as [[]|e] eqn:Hr; [|cbn; reflexivity].
  apply require_job_transition_ok in Hr. rewrite Hunc in Hr.
  apply flush_job_tracked. intros old Ho. simplify_eq. split; [done|]. rewrite Hunc. by apply Hm.
Qed.

Lemma latest_effect_row jid db eid e :
  latest_effect_of jid db = Some (eid, e) → effect_attempts db !! eid = Some e ∧ eff_job_id e = jid.
Proof.
  unfold latest_effect_of, EffectAttemptRepository.newest_attempts. intros Hl.
  assert (Hin : (eid, e) ∈ select effect_attempts (λ _ e, bool_decide (eff_job_id e = jid))
    (λ r, - eff_reconciliation_attempt r.2) db).
  { destruct (select _ _ _ db) as [|x rows]; simplify_eq/=. left. }
  apply elem_of_select in Hin as [Hin Hk]. by apply bool_decide_eq_true in Hk.
Qed.

Lemma settle_tracked jid st oid now db :
  may_move f UNCERTAIN_EXTERNAL_EFFECT SUCCEEDED → may_move f UNCERTAIN_EXTERNAL_EFFECT FAILED →
  (∀ eid e, latest_effect_of jid db = Some (eid, e) → eff_key e ∈ fp_absent f) →
  tracked f db (settle_uncertain_effect jid st oid now db).2.
Proof.
  intros H1 H2 HK. unfold settle_uncertain_effect, get_job.
  destruct (parse_outcome st) as [s|]; [|cbn; reflexivity]. unfold pybind at 1, gets at 1.
  destruct (jobs db !! jid) as [job|] eqn:Hj; [|cbn; reflexivity].
  case_decide as Hs; [cbn; reflexivity|]. unfold pybind at 1, gets at 1.
  destruct (latest_effect_of jid db) as [[eid e]|] eqn:Hl; [|cbn; reflexivity].
  apply latest_effect_row in Hl as Hrow. destruct Hrow as [He _].
  set (target := if decide (st = "CONFIRMED"%string) then _ else _).
  unfold pybind at 1, lift_result at 1. destruct (require_job_transition _ target) as [[]|]; [|cbn; reflexivity].
  apply bind_tracked; [|intros ?; solve_within]. apply atomically_tracked.
  unfold pybind. pose proof (flush_effect_attempt_tracked eid (set_eff_observed_at now
    (set_eff_provider_object_id oid (set_eff_state s e))) e db He eq_refl eq_refl (λ _, HK eid e eq_refl)) as Hf.
  destruct (flush_effect_attempt _ _ db) as [[[]|x] db1] eqn:Hfl; cbn [snd] in *; [|done].
  etrans; [exact Hf|]. apply flush_job_tracked. intros old Ho.
  assert (Hj1 : jobs db1 = jobs db) by (unfold flush_effect_attempt in Hfl; case_match; by simplify_eq).
  rewrite Hj1 in Ho. simplify_eq. split; [done|]. simpl. rewrite Hs. unfold target. by case_decide.
Qed.

(** ** The engine on existing jobs *)

Lemma retry_tracked jid now : may_move f FAILED READY → within (tracked f) (retry_failed_job jid now).
Proof.
  intros Hm. unfold retry_failed_job. apply within_gets_bind. intros db.
  destruct (jobs db !! jid) as [job|] eqn:Hj; [|cbn; reflexivity]. case_decide as Hs; [cbn; reflexivity|].
  match goal with |- tracked f _ (pybind ?m ?k _).2 => destruct (m db) as [[res|e] db0] eqn:Hr end.
  2: { unfold pybind. rewrite Hr. case_decide; unfold gets, pyret in Hr; by simplify_eq. }
  assert (db0 = db) as -> by (case_decide; unfold gets, pyret in Hr; by simplify_eq).
  unfold pybind at 1. rewrite Hr. unfold pybind at 1, lift_result at 1.
  destruct (evaluate_retry_default _ _ _ now res) as [d|e]; [|cbn; reflexivity].
  destruct (can_retry d); [|cbn; reflexivity]. destruct (retry_scheduled_at d) as [t|]; [|cbn; reflexivity].
  unfold pybind at 1, lift_result at 1. destruct (require_job_transition _ _); [|cbn; reflexivity].
  apply bind_tracked; [|intros ?; unfold refreshed; solve_within].
  apply flush_job_tracked. intros old Ho. simplify_eq. split; [done|]. by rewrite Hs.
Qed.

Lemma cancel_tracked wid now :
  may_move f PENDING CANCELLED → may_move f READY CANCELLED → within (tracked f) (cancel_workflow wid now).
Proof.
  intros H1 H2 db. destruct (workflow_runs db !! wid) as [w|] eqn:Hw.
  2: { unfold cancel_workflow, get_workflow, gets, pybind. rewrite Hw. cbn. reflexivity. }
  rewrite (cancel_unfold wid now db w Hw). apply bind_tracked; [|intros ?; solve_within].
  apply atomically_tracked. unfold pybind, flush_workflow, modify.
  etrans; [apply (store_workflow_tracked db wid (set_wf_completed_at (Some now) w))|].
  apply flush_edits_tracked; [apply select_NoDup|]. intros k j (Hk & _ & Hs)%elem_of_cancellable.
  split; [unfold store_workflow; by repeat case_match|]. split; [done|]. simpl.
  rewrite !elem_of_cons, elem_of_nil in Hs. by destruct Hs as [->|[->|[]]].
Qed.

(** ** Drafts that become ready *)

Lemma ready_one_tracked o jid :
  (∀ s, job_edge s READY → may_move f s READY) → within (tracked f) (ready_one o jid).
Proof.
  intros Hm. unfold ready_one. apply within_gets_bind. intros db.
  destruct (jobs db !! jid) as [j|] eqn:Hj; [|cbn; reflexivity].
  unfold pybind, lift_result. destruct (require_job_transition _ _) as [[]|] eqn:Hr; [|cbn; reflexivity].
  apply require_job_transition_ok in Hr. apply flush_job_tracked. intros old Ho. simplify_eq. split; [done|]. by apply Hm.
Qed.

(** ** Operations that add jobs *)

Section births.
Hypothesis born : PENDING ∈ fp_births f.

Lemma insert_pending j jid : j_status j = PENDING → within (tracked f) (insert_job jid j).
Proof. intros Hs. apply insert_job_tracked. by rewrite Hs. Qed.

Lemma insert_successor_tracked w p t o d i k : within (tracked f) (insert_successor w p t o d i k).
Proof. unfold insert_successor, clock_now. repeat within_step. by apply insert_pending. Qed.
#[local] Hint Resolve insert_successor_tracked : orch.

Lemma create_job_tracked cfg w p a t o : within (tracked f) (_create_successor_job cfg w p a t o).
Proof. unfold _create_successor_job, get_job. solve_within. Qed.
#[local] Hint Resolve create_job_tracked : orch.

Lemma create_successors_tracked cfg e w p a at_ o : within (tracked f) (create_successors cfg e w p a at_ o).
Proof. unfold create_successors, spawn_one. solve_within. Qed.
#[local] Hint Resolve create_successors_tracked : orch.

Lemma create_entry_tracked w s o : within (tracked f) (_create_successor_entry_job w s o).
Proof. unfold _create_successor_entry_job, clock_now. repeat within_step. by apply insert_pending. Qed.
#[local] Hint Resolve create_entry_tracked : orch.

Lemma create_workflow_tracked p st d s sh : within (tracked f) (_create_successor_workflow p st d s sh).
Proof. unfold _create_successor_workflow, clock_now. solve_within. Qed.
#[local] Hint Resolve create_workflow_tracked : orch.

Lemma create_multiply_tracked d p o : within (tracked f) (create_multiply_successor d p o).
Proof. unfold create_multiply_successor, get_workflow. solve_within. Qed.
#[local] Hint Resolve create_multiply_tracked : orch.

Lemma append_once_tracked n ty a w j p k o : within (tracked f) (append_once n ty a w j p k o).
Proof. unfold append_once. solve_within. Qed.
#[local] Hint Resolve append_once_tracked : orch.

Lemma dispatch_tracked cfg n ty a w j p o : within (tracked f) (dispatch cfg n ty a w j p o).
Proof. unfold dispatch, event_key, get_job. solve_within. Qed.
#[local] Hint Resolve dispatch_tracked : orch.

Lemma dispatch_decision_tracked d p o : within (tracked f) (dispatch_decision d p o).
Proof. unfold dispatch_decision. solve_within. Qed.

Lemma maturity_tracked w t now : within (tracked f) (schedule_maturity_timer w t now).
Proof. unfold schedule_maturity_timer, get_workflow. repeat within_step. by apply insert_pending. Qed.

Lemma insert_jobs_tracked rows :
  Forall (λ r : uuid * Job, fresh_job r.2) rows → within (tracked f) (insert_jobs rows).
Proof.
  intros Hf. unfold insert_jobs. apply within_atomically; [apply _|]. generalize tt.
  induction Hf as [|r rows Hr _ IH]; intros u; cbn [for_fold]; [solve_within|].
  apply within_bind; [apply _|apply insert_pending, Hr|]. intros ?. apply IH.
Qed.

Lemma spawn_entry_tracked cfg w t ts now : within (tracked f) (_spawn_entry_jobs cfg w t ts now).
Proof.
  unfold _spawn_entry_jobs, clock_now. destruct (find_workflow_def cfg t) as [wd|]; [|solve_within].
  apply within_bind; [apply _|solve_within|]. intros st. apply within_lift_bind; [apply _|]. intros rows Hr.
  apply within_bind; [apply _|by eapply insert_jobs_tracked, entry_rows_fresh|]. intros ?. solve_within.
Qed.
#[local] Hint Resolve spawn_entry_tracked : orch.

Lemma start_workflow_tracked cfg t st s now : within (tracked f) (start_workflow cfg t st s now).
Proof. unfold start_workflow. solve_within. Qed.

Lemma record_draft_tracked cfg e rc w o :
  (∀ s, job_edge s READY → may_move f s READY) → within (tracked f) (_record_ready_draft cfg e rc w o).
Proof.
  intros Hm. pose proof (λ i, ready_one_tracked o i Hm). unfold _record_ready_draft, get_job. solve_within.
Qed.

Lemma emit_events_tracked cfg jid wid res now : within (tracked f) (emit_events cfg jid wid res now).
Proof. unfold emit_events. solve_within. Qed.
End births.

(** ** The transactions of a draft effect *)

Section effects.
Context (shop_name : uuid → string) (self : SqlDraftEffects).

Lemma draft_job_tracked : within (tracked f) (_job shop_name self).
Proof. unfold _job, _scoped_job, get_job, clock_now, refuse_when. solve_within. Qed.

Lemma scoped_job_tracked : within (tracked f) (_scoped_job shop_name self).
Proof. unfold _scoped_job, get_job, refuse_when. solve_within. Qed.

Lemma record_next_tracked e key prior s i :
  (s = EffectState.ABSENT → key ∈ fp_absent f) → within (tracked f) (record_next self e key prior s i).
Proof. intros Hs. unfold record_next. pose proof (λ j r p o n now, record_tracked key j r p o s i n now Hs). solve_within. Qed.

Lemma record_present e key prior s i :
  s ≠ EffectState.ABSENT → within (tracked f) (record_next self e key prior s i).
Proof. intros Hs. by apply record_next_tracked. Qed.

#[local] Hint Resolve draft_job_tracked scoped_job_tracked : orch.

Lemma reserve_effect_tracked e : within (tracked f) (reserve_effect shop_name self e).
Proof.
  pose proof (λ key prior i, record_present e key prior EffectState.UNKNOWN i ltac:(done)).
  unfold reserve_effect, get_idempotency_record, get_latest_effect_attempt, refuse_when. solve_within.
Qed.

Lemma recheck_effect_tracked key : within (tracked f) (recheck_effect shop_name self key).
Proof. unfold recheck_effect, get_idempotency_record. solve_within. Qed.

Lemma accept_effect_tracked e key id : within (tracked f) (accept_effect shop_name self e key id).
Proof.
  pose proof (λ prior i, record_present e key prior EffectState.UNKNOWN i ltac:(done)).
  unfold accept_effect, get_idempotency_record, get_latest_effect_attempt. solve_within.
Qed.

Lemma settle_failure_tracked e key absent known :
  (absent = true → key ∈ fp_absent f) → within (tracked f) (settle_failure shop_name self e key absent known).
Proof.
  intros HK. pose proof (λ prior s i Hs, record_next_tracked e key prior s i Hs) as Hr.
  assert (∀ prior, within (tracked f) (record_next self e key prior
    (if absent then EffectState.ABSENT else EffectState.UNKNOWN) (if absent then None else known)))
    by (intros prior; apply Hr; destruct absent; [by intros _; apply HK|done]).
  unfold settle_failure, get_idempotency_record, get_latest_effect_attempt. solve_within.
Qed.

Lemma confirm_effect_tracked e key id : within (tracked f) (confirm_effect shop_name self e key id).
Proof.
  pose proof (λ prior i, record_present e key prior EffectState.CONFIRMED i ltac:(done)).
  unfold confirm_effect, get_idempotency_record, get_latest_effect_attempt. solve_within.
Qed.
End effects.

(** ** A worker round *)

Section rounds.
Context (cfg : WorkflowsConfig) (registry : AgentRegistry) (prompt_path : string → string → PromptPath)
  (implementation : string → Agent).
Hypothesis any_move : ∀ s t, may_move f s t.
Hypothesis born : PENDING ∈ fp_births f.

(** The committed and the open state of a unit of work that began in [db]. *)
Definition uow_tracked (db : DB) (u : UnitOfWork) : Prop :=
  tracked f db (h_db (uow_saved u)) ∧ tracked f db (h_db (uow_now u)).

Definition uow_step (db : DB) (u u' : UnitOfWork) : Prop := uow_tracked db u → uow_tracked db u'.

#[local] Instance uow_step_preorder db : PreOrder (uow_step db).
Proof. split; [by intros u ?|]. intros u1 u2 u3 H12 H23 H1. auto. Qed.

Lemma in_uow_tracked {A} (m : M Host exn A) db :
  (∀ h, tracked f (h_db h) (h_db (m h).2)) → within (uow_step db) (in_uow m).
Proof. intros Hm u [Hs Hn]. rewrite in_uow_run. split; [done|]. cbn. etrans; [exact Hn|apply Hm]. Qed.

Lemma on_db_tracked {A} (m : Session A) db : within (tracked f) m → within (uow_step db) (in_uow (on_db m)).
Proof. intros Hm. apply in_uow_tracked. intros h. rewrite on_db_run. apply Hm. Qed.

Lemma commit_tracked db : within (uow_step db) commit.
Proof. intros u [Hs Hn]. by split. Qed.

Lemma rollback_tracked db : within (uow_step db) rollback.
Proof. intros u [Hs Hn]. by split. Qed.

Lemma execute_tracked env agent b now h :
  tracked f (h_db h) (h_db (AgentRuntime.execute registry prompt_path env agent b now h).2).
Proof.
  pose proof (execute_cases registry prompt_path env agent b now h) as Hx.
  destruct (AgentRuntime.execute _ _ _ _ _ _ _) as [[[res rc]|e] h1]; cbn [snd] in *.
  - destruct Hx as [_ -> _ _]. cbn. reflexivity.
  - subst h1. reflexivity.
Qed.

Lemma release_any jid w now st : within (tracked f) (release_lease jid w now st).
Proof. by apply release_tracked. Qed.

#[local] Hint Resolve commit_tracked rollback_tracked release_any heartbeat_tracked emit_events_tracked
  on_db_tracked : orch.

(** The claimed row is the one in the table. *)
Lemma run_job_tracked k c w now db u :
  (∀ old, jobs (h_db (uow_now u)) !! k = Some old → job_envelope c = job_envelope old) →
  uow_step db u (run_job cfg registry prompt_path implementation k c w now u).2.
Proof.
  intros Hc. unfold run_job. unfold pybind at 1, lift_result at 1.
  destruct (_job_envelope k c) as [env|e]; [|cbn; reflexivity].
  unfold pybind at 1, lift_result at 1. destruct (definition_for_job registry env) as [d|e]; [|cbn; reflexivity].
  destruct (agent_map _ _) as [agent|].
  - assert (Hw : within (uow_step db) (
      let* out := in_uow (AgentRuntime.execute registry prompt_path env agent true (Some now)) in
      let res := out.1 in
      do* in_uow (on_db (heartbeat k w now None));
      do* in_uow (on_db (release_lease k w now (final_status (rs_status res))));
      do* in_uow (on_db (emit_events cfg k (j_workflow_id c) res now));
      do* commit;
      pyret (Some res))); [|apply Hw].
    apply within_bind; [apply _|apply in_uow_tracked, execute_tracked|]. intros [res rc]. cbv zeta.
    apply within_bind; [apply _|by apply on_db_tracked, heartbeat_tracked|]. intros ?.
    apply within_bind; [apply _|by apply on_db_tracked, release_any|]. intros ?.
    apply within_bind; [apply _|by apply on_db_tracked, emit_events_tracked|]. intros ?. solve_within.
  - intros [Hs Hn]. unfold pybind at 1. rewrite in_uow_run, on_db_run.
    pose proof (flush_job_tracked (h_db (uow_now u)) k (set_j_updated_at now (set_j_status FAILED c))) as Hfl.
    assert (Htr : tracked f db (flush_jobs [(k, set_j_updated_at now (set_j_status FAILED c))] (h_db (uow_now u))).2).
    { etrans; [exact Hn|]. apply Hfl. intros old Ho. split; [exact (Hc old Ho)|apply any_move]. }
    destruct (flush_jobs _ _) as [[[]|e] db1]; cbn in *; by split.
Qed.

Lemma job_runner_tracked k c w now db u :
  (∀ old, jobs (h_db (uow_now u)) !! k = Some old → job_envelope c = job_envelope old) →
  uow_step db u (_execute_job_with_runner cfg registry prompt_path implementation k c w now u).2.
Proof.
  intros Hc. pose proof (run_job_tracked k c w now db u Hc) as Hr. unfold _execute_job_with_runner, try_except.
  destruct (run_job _ _ _ _ _ _ _ _ u) as [[res|e] u1]; cbn [snd] in *; [done|]. etrans; [exact Hr|].
  destruct (isa _ _).
  - assert (Hw : within (uow_step db) (do* in_uow (on_db (release_lease k w now FAILED)); do* commit; pyret (@None AgentResult)));
      [|apply Hw].
    apply within_bind; [apply _|by apply on_db_tracked, release_any|]. intros ?. solve_within.
  - assert (Hw : within (uow_step db) (do* rollback; pyret (@None AgentResult))); [|apply Hw]. solve_within.
Qed.

Lemma claim_returns locked w now d db k c db1 :
  claim_ready_job locked w now d db = (Ok (Some (k, c)), db1) → ∀ old, jobs db1 !! k = Some old → c = old.
Proof.
  unfold claim_ready_job. unfold pybind at 1, gets at 1. destruct (take 1 _) as [|[k0 j] rows]; [done|].
  unfold pybind at 1, lift_result at 1. destruct (require_job_transition _ _); [|done].
  intros (u & s & _ & (r & s' & Hr & Hret)%pybind_ok)%pybind_ok old Ho. apply pyret_ok in Hret as [Hret <-].
  unfold refreshed, gets in Hr. injection Hr as <- <-. injection Hret as <- <-. simpl in *. by rewrite Ho.
Qed.

Lemma round_tracked locked w now h :
  tracked f (h_db h) (h_db (worker_iteration cfg registry prompt_path implementation locked w now h).2).
Proof.
  unfold worker_iteration, unit_of_work.
  set (u0 := {| uow_saved := h; uow_now := h |}).
  assert (H0 : uow_tracked (h_db h) u0) by (split; cbn; reflexivity).
  enough (Hw : uow_tracked (h_db h) (pybind (in_uow (on_db (claim_ready_job locked w now LEASE_DURATION)))
    (λ job, match job with
            | None => pyret false
            | Some (jid, job) =>
                do* _execute_job_with_runner cfg registry prompt_path implementation jid job w now;
                pyret true
            end) u0).2).
  { destruct (pybind _ _ u0) as [r u]. apply Hw. }
  unfold pybind at 1. rewrite in_uow_run, on_db_run. cbn [uow_now uow_saved u0].
  pose proof (claim_tracked locked w now LEASE_DURATION (any_move _ _) (h_db h)) as Hcl.
  destruct (claim_ready_job _ _ _ _ (h_db h)) as [[[[k c]|]|e] db1] eqn:E; cbn [fst snd] in *;
    [|split; cbn; [reflexivity|done]..].
  set (u1 := {| uow_saved := h; uow_now := set_h_db db1 h |}).
  assert (H1 : uow_tracked (h_db h) u1) by (split; cbn; [reflexivity|done]).
  pose proof (job_runner_tracked k c w now (h_db h) u1) as Hr.
  unfold pybind. destruct (_execute_job_with_runner _ _ _ _ _ _ _ _ u1) as [r u2].
  assert (Hs : uow_tracked (h_db h) u2).
  { apply Hr; [|done]. intros old Ho. by rewrite (claim_returns _ _ _ _ _ _ _ _ E old Ho). }
  by destruct r.
Qed.
End rounds.
End footprints.
