(* ===== verification/System.v ===== *)
(** * The orchestrator as a transition system

    An [action] is one operation of the orchestrator as a transaction with any arguments, the
    recording of a ready draft, a worker round, or the passing of time; [run_actions] runs any
    sequence of them.  Two actions can break the leases and budgets of jobs; [regular_run] says
    that a run has none of these.  The schema holds in every state of every run; the components'
    contracts compose to invariants of regular runs, and there every action moves the statuses of
    the jobs as its own table of moves says. *)

From S2P Require Import Prelude PyText Sha256 Enums Errors TransitionGuard Tables WorkflowsConfig.
From S2P Require Import Contracts Agents Evolution Samples Tracking AgentRuntime Leases Repositories Idempotency.
From S2P Require Import DependencyResolver Scheduler Reconciliation SuccessorFactory EventDispatcher Engine.
From S2P Require Import Worker DraftClient DraftListing RealDraft DraftEffects Footprints.
Open Scope string_scope.
Open Scope Z_scope.
Import JobStatus.

(** A transaction: the session commits when the call returns and rolls back when it
    raises. *)
Definition transaction {A} (m : Session A) (db : DB) : DB :=
  match m db with
  | (Ok _, db') => db'
  | (Raise _, _) => db
  end.

(** ** Operations *)

Inductive operation : Type :=
  | StartWorkflow (workflow_type : string) (state : ProductLifecycleState) (shop : uuid) (now : datetime)
  | SchedulerCycle (locked1 locked2 : gset uuid) (now : datetime) (promote reclaim stall : nat)
  | ClaimReadyJob (locked : gset uuid) (worker : string) (now : datetime) (lease : timedelta)
  | Heartbeat (job : uuid) (worker : string) (now : datetime) (extension : option timedelta)
  | ReleaseLease (job : uuid) (worker : string) (now : datetime) (status : JobStatus)
  | ReclaimExpired (locked : gset uuid) (now : datetime) (limit : nat)
  | PromotePending (job : uuid) (now : datetime)
  | PropagateFailure (job : uuid) (now : datetime)
  | SatisfyDependency (job : uuid) (now : datetime)
  | MaturityTimer (workflow : uuid) (at_ now : datetime)
  | WeeklyTimer (shop : uuid) (key : string) (next : datetime) (cron : string) (now : datetime)
  | ReserveKey (key : string) (job : uuid) (op : string) (effect : SideEffectClass) (now : option datetime)
  | RepositoryReserve (key : string) (job : uuid) (op : string) (effect : SideEffectClass)
  | CompleteKey (key : string) (now : option datetime)
  | RecordAttempt (key : string) (job : uuid) (run : option uuid) (provider op : string)
      (state : EffectState) (object : option string) (number : Z) (now : option datetime)
  | RecordReceipt (job : uuid) (key provider op : string) (effect : SideEffectClass) (mode : AutonomyMode)
      (state : EffectState) (object : option string) (amount : option QArith_base.Q) (currency : option string)
      (detail : option json) (now : option datetime)
  | AppendEvent (name : EventName) (aggregate_type : string) (aggregate : uuid) (key : string) (at_ : datetime)
      (workflow job run : option uuid) (payload : option json)
  | ReconcileEffect (job : uuid) (query : Query) (max_attempts : Z) (now : option datetime)
  | SettleUncertain (job : uuid) (verdict : string) (object : option string) (now : datetime)
  | RetryFailed (job : uuid) (now : datetime)
  | CancelWorkflow (workflow : uuid) (now : datetime)
  | Dispatch (name : EventName) (aggregate_type : string) (aggregate : uuid) (workflow job : option uuid)
      (payload : option json) (at_ : option datetime)
  | DispatchDecision (decision : PortfolioDecision) (parent_job : uuid) (at_ : option datetime)
  | ReserveEffect (self : SqlDraftEffects) (e : Effect)
  | RecheckEffect (self : SqlDraftEffects) (key : string)
  | AcceptEffect (self : SqlDraftEffects) (e : Effect) (key id : string)
  | SettleFailure (self : SqlDraftEffects) (e : Effect) (key : string) (absent : bool) (known : option string)
  | ConfirmEffect (self : SqlDraftEffects) (e : Effect) (key id : string).

Definition jobs_fixed (db db' : DB) : Prop := jobs db' = jobs db.

#[export] Instance jobs_fixed_preorder : PreOrder jobs_fixed.
Proof. unfold jobs_fixed. split; [intros db; done|]. intros d1 d2 d3 H1 H2. congruence. Qed.
#[global] Typeclasses Opaque jobs_fixed.

Section system.
Context `{Backend} (cfg : WorkflowsConfig) (shop_name : uuid → string).

(** Reconciliation as its caller runs it: query, then apply, in one transaction. *)
Definition reconcile_and_apply (job : uuid) (query : Query) (max_attempts : Z) (now : option datetime)
    : Session unit :=
  let* r := reconcile_uncertain_effect job query max_attempts now in
  apply_reconciliation_result job r now.

Definition discard {A} (m : Session A) : Session unit := do* m; pyret tt.

Definition perform (o : operation) : Session unit :=
  match o with
  | StartWorkflow t st s now => discard (start_workflow cfg t st s now)
  | SchedulerCycle l1 l2 now p r s => discard (run_scheduler_cycle l1 l2 now p r s)
  | ClaimReadyJob l w now d => discard (claim_ready_job l w now d)
  | Heartbeat j w now e => heartbeat j w now e
  | ReleaseLease j w now st => release_lease j w now st
  | ReclaimExpired l now n => discard (reclaim_expired_leases l now n)
  | PromotePending j now => discard (promote_pending_to_ready j now)
  | PropagateFailure j now => discard (propagate_dependency_failure j now)
  | SatisfyDependency j now => discard (satisfy_dependency j now)
  | MaturityTimer w t now => discard (schedule_maturity_timer w t now)
  | WeeklyTimer s k n c now => discard (schedule_weekly_timer s k n c now)
  | ReserveKey k j o c now => discard (reserve_idempotency_key k j o c now)
  | RepositoryReserve k j o c => discard (IdempotencyRepository.reserve k j o c)
  | CompleteKey k now => discard (mark_idempotency_completed k now)
  | RecordAttempt k j r p o s i n now => discard (record_effect_attempt k j r p o s i n now)
  | RecordReceipt j k p o c m s i a u d now => discard (record_receipt j k p o c m s i a u d now)
  | AppendEvent n ty a k t w j r p => discard (EventRepository.append n ty a k t w j r p)
  | ReconcileEffect j q mx now => reconcile_and_apply j q mx now
  | SettleUncertain j v i now => discard (settle_uncertain_effect j v i now)
  | RetryFailed j now => discard (retry_failed_job j now)
  | CancelWorkflow w now => discard (cancel_workflow w now)
  | Dispatch n ty a w j p at_ => discard (dispatch cfg n ty a w j p at_)
  | DispatchDecision d p at_ => discard (dispatch_decision d p at_)
  | ReserveEffect self e => discard (reserve_effect shop_name self e)
  | RecheckEffect self k => recheck_effect shop_name self k
  | AcceptEffect self e k i => accept_effect shop_name self e k i
  | SettleFailure self e k b i => settle_failure shop_name self e k b i
  | ConfirmEffect self e k i => confirm_effect shop_name self e k i
  end.

(** *** The operations keep the contract *)

Lemma insert_effect_attempt_fixed e : within jobs_fixed (insert_effect_attempt e).
Proof. intros db. unfold insert_effect_attempt, jobs_fixed. by destruct (_ && _). Qed.
#[local] Hint Resolve insert_effect_attempt_fixed : orch.

Lemma reconcile_fixed j q mx now : within jobs_fixed (reconcile_uncertain_effect j q mx now).
Proof.
  unfold reconcile_uncertain_effect, record_effect_attempt, now_or, get_job, get_idempotency_record,
    get_latest_effect_attempt. solve_within.
Qed.

(** A reconciliation that returns has found the job uncertain and left it so. *)
Lemma reconcile_still_uncertain j q mx now db r db' :
  reconcile_uncertain_effect j q mx now db = (Ok r, db') →
  ∀ k, jobs db' !! j = Some k → j_status k = UNCERTAIN_EXTERNAL_EFFECT.
Proof.
  intros E k Hk. pose proof (reconcile_fixed j q mx now db) as Hf. rewrite E in Hf. unfold jobs_fixed in Hf.
  simpl in Hf. rewrite Hf in Hk. unfold reconcile_uncertain_effect in E.
  unfold pybind at 1, now_or, gets at 1 in E. unfold pybind at 1, get_job, gets at 1 in E. rewrite Hk in E.
  by case_decide.
Qed.

Lemma reconcile_and_apply_contract j q mx now : within contract (reconcile_and_apply j q mx now).
Proof.
  intros db. unfold reconcile_and_apply, pybind.
  pose proof (reconcile_contract j q mx now db) as Hc.
  destruct (reconcile_uncertain_effect j q mx now db) as [[r|e] db'] eqn:E; [|exact Hc].
  etrans; [exact Hc|]. apply apply_contract. intros k. by eapply reconcile_still_uncertain.
Qed.

Lemma discard_contract {A} (m : Session A) : within contract m → within contract (discard m).
Proof. intros Hm. unfold discard. solve_within. Qed.

Lemma repository_reserve_contract k j o c : within contract (IdempotencyRepository.reserve k j o c).
Proof. unfold IdempotencyRepository.reserve, clock_now. solve_within. Qed.

#[local] Hint Resolve reserve_contract record_effect_attempt_contract record_receipt_contract
  mark_completed_contract : orch.

Lemma draft_job_contract self : within contract (_job shop_name self).
Proof. unfold _job, _scoped_job, get_job, clock_now, refuse_when. solve_within. Qed.

Lemma scoped_job_contract self : within contract (_scoped_job shop_name self).
Proof. unfold _scoped_job, get_job, refuse_when. solve_within. Qed.
#[local] Hint Resolve draft_job_contract scoped_job_contract : orch.

Ltac solve_effect := unfold get_idempotency_record, get_latest_effect_attempt, refuse_when, record_next; solve_within.

Lemma reserve_effect_contract self e : within contract (reserve_effect shop_name self e).
Proof. unfold reserve_effect. solve_effect. Qed.

Lemma recheck_effect_contract self k : within contract (recheck_effect shop_name self k).
Proof. unfold recheck_effect. solve_effect. Qed.

Lemma accept_effect_contract self e k i : within contract (accept_effect shop_name self e k i).
Proof. unfold accept_effect. solve_effect. Qed.

Lemma settle_failure_contract self e k b i : within contract (settle_failure shop_name self e k b i).
Proof. unfold settle_failure. solve_effect. Qed.

Lemma confirm_effect_contract self e k i : within contract (confirm_effect shop_name self e k i).
Proof. unfold confirm_effect. solve_effect. Qed.

Lemma perform_contract o : within contract (perform o).
Proof.
  destruct o; simpl; try apply discard_contract; auto using reconcile_and_apply_contract,
    heartbeat_contract, release_lease_contract, start_workflow_contract, run_scheduler_cycle_contract,
    claim_ready_job_contract, reclaim_contract, promote_contract, propagate_contract, satisfy_contract,
    schedule_maturity_timer_contract, schedule_weekly_timer_contract, reserve_contract,
    mark_completed_contract, record_effect_attempt_contract, settle_contract, retry_failed_job_contract,
    cancel_workflow_contract, dispatch_contract, dispatch_decision_contract, repository_reserve_contract,
    record_receipt_contract, append_contract, reserve_effect_contract, recheck_effect_contract,
    accept_effect_contract, settle_failure_contract, confirm_effect_contract.
Qed.

Lemma transaction_contract {A} (m : Session A) db : contract db (m db).2 → contract db (transaction m db).
Proof.
  intros Hm. unfold transaction.
  destruct (m db) as [[a|e] db']; [exact Hm|reflexivity].
Qed.

(** ** Actions and runs *)

Definition set_db_clock (t : datetime) (db : DB) : DB :=
  {| shops := shops db; workflow_runs := workflow_runs db; jobs := jobs db;
     job_dependencies := job_dependencies db; scheduled_triggers := scheduled_triggers db;
     events := events db; idempotency_records := idempotency_records db;
     effect_attempts := effect_attempts db; receipts := receipts db; db_clock := t |}.

(** A worker round is given the files the worker reads, the agents it calls, and the rows that
    other sessions hold. *)
Inductive action : Type :=
  | Perform (o : operation)
  | RecordDraft (evidence : DraftEvidence) (receipt : DraftReceipt) (workflow : uuid) (at_ : datetime)
  | WorkerRound (registry : AgentRegistry) (prompts : string → string → PromptPath)
      (implementation : string → Agent) (locked : gset uuid) (worker : string) (now : datetime)
  | Tick (now : datetime).

Definition act (a : action) (h : Host) : Host :=
  match a with
  | Perform o => set_h_db (transaction (perform o) (h_db h)) h
  | RecordDraft evidence receipt workflow at_ =>
      set_h_db (transaction (_record_ready_draft cfg evidence receipt workflow at_) (h_db h)) h
  | WorkerRound registry prompts implementation locked w now =>
      (worker_iteration cfg registry prompts implementation locked w now h).2
  | Tick now => set_h_db (set_db_clock (Z.max now (db_clock (h_db h))) (h_db h)) h
  end.

Definition run_actions (as_ : list action) (h : Host) : Host := foldl (λ h a, act a h) h as_.

(** The job the worker would claim is not one of a defined but unimplemented agent. *)
Definition claims_implemented (registry : AgentRegistry) (locked : gset uuid) (w : string) (now : datetime)
    (h : Host) : Prop :=
  ∀ k c db d, claim_ready_job locked w now LEASE_DURATION (h_db h) = (Ok (Some (k, c)), db) →
    registry !! j_owner_agent_id c = Some d → ad_agent_id d ∈ ["A01"; "A02"].

(** The draft job of the product, if it is there, has an attempt left. *)
Definition draft_job_retryable (product_id : uuid) (db : DB) : Prop :=
  ∀ j, jobs db !! product_job_id product_id = Some j → j_attempt j < j_max_attempts j.

(** The two actions after which a job may keep its lease or be ready without an attempt left are
    a round that claims a job of an agent without an implementation, and a draft recorded for a
    product whose draft job has used up its attempts. *)
Definition regular (a : action) (h : Host) : Prop :=
  match a with
  | WorkerRound registry _ _ locked w now => claims_implemented registry locked w now h
  | RecordDraft evidence _ _ _ => draft_job_retryable (dv_product_id evidence) (h_db h)
  | Perform _ | Tick _ => True
  end.

Fixpoint regular_run (as_ : list action) (h : Host) : Prop :=
  match as_ with
  | [] => True
  | a :: as_ => regular a h ∧ regular_run as_ (act a h)
  end.

Lemma regular_performs os h : regular_run (Perform <$> os) h.
Proof. revert h. induction os as [|o os IH]; intros h; [done|]. split; [done|apply IH]. Qed.

(** ** What an action may touch *)

(** The keys under which an action may record that nothing was found. *)
Definition may_find_absent (a : action) (db : DB) : list string :=
  match a with
  | Perform (RecordAttempt k _ _ _ _ s _ _ _) => if decide (s = EffectState.ABSENT) then [k] else []
  | Perform (ReconcileEffect j _ _ _) => from_option (λ r, [j_idempotency_key r]) [] (jobs db !! j)
  | Perform (SettleUncertain j _ _ _) => from_option (λ r, [eff_key r.2]) [] (latest_effect_of j db)
  | Perform (SettleFailure _ _ k absent _) => if absent then [k] else []
  | _ => []
  end.

(** The moves of a job's status in one action. *)
Definition job_moves (a : action) : list (JobStatus * JobStatus) :=
  match a with
  | Perform (SchedulerCycle _ _ _ _ _ _) =>
      [(PENDING, READY); (RUNNING, READY); (RUNNING, FAILED); (RUNNING, TERMINAL_FAILURE)]
  | Perform (ClaimReadyJob _ _ _ _) => [(READY, RUNNING)]
  | Perform (ReleaseLease _ _ _ st) => if decide (st ∈ _LEGAL_RELEASE_STATUSES) then [(RUNNING, st)] else []
  | Perform (ReclaimExpired _ _ _) => [(RUNNING, READY); (RUNNING, FAILED); (RUNNING, TERMINAL_FAILURE)]
  | Perform (PromotePending _ _) => [(PENDING, READY)]
  | Perform (PropagateFailure _ _) => [(PENDING, BLOCKED)]
  | Perform (ReconcileEffect _ _ _ _) =>
      [(UNCERTAIN_EXTERNAL_EFFECT, SUCCEEDED); (UNCERTAIN_EXTERNAL_EFFECT, FAILED);
       (UNCERTAIN_EXTERNAL_EFFECT, BLOCKED)]
  | Perform (SettleUncertain _ _ _ _) =>
      [(UNCERTAIN_EXTERNAL_EFFECT, SUCCEEDED); (UNCERTAIN_EXTERNAL_EFFECT, FAILED)]
  | Perform (RetryFailed _ _) => [(FAILED, READY)]
  | Perform (CancelWorkflow _ _) => [(PENDING, CANCELLED); (READY, CANCELLED)]
  | RecordDraft _ _ _ _ => [(PENDING, READY); (BLOCKED, READY); (FAILED, READY)]
  | WorkerRound _ _ _ _ _ _ => [(READY, SUCCEEDED); (READY, FAILED); (READY, BLOCKED)]
  | _ => []
  end.

(** The status of a job that an action adds. *)
Definition job_births (a : action) : list JobStatus :=
  match a with
  | Perform (StartWorkflow _ _ _ _) | Perform (MaturityTimer _ _ _) | Perform (Dispatch _ _ _ _ _ _ _)
  | Perform (DispatchDecision _ _ _) | WorkerRound _ _ _ _ _ _ => [PENDING]
  | RecordDraft _ _ _ _ => [PENDING; READY]
  | _ => []
  end.

(** The moves from any state, where a row of any status may carry a lease. *)
Definition footprint (a : action) (db : DB) : Footprint :=
  match a with
  | Perform (ReleaseLease _ _ _ st) =>
      {| fp_moves := (λ s, (s, st)) <$> JobStatus_members; fp_births := []; fp_absent := [] |}
  | WorkerRound _ _ _ _ _ _ =>
      {| fp_moves := s ← JobStatus_members; (λ t, (s, t)) <$> JobStatus_members;
         fp_births := JobStatus_members; fp_absent := [] |}
  | _ => {| fp_moves := job_moves a; fp_births := job_births a; fp_absent := may_find_absent a db |}
  end.

#[export] Instance footprint_closed a db : Closed (footprint a db).
Proof. destruct a as [[]|? ? ? ?|? ? ? ? ? ?|?]; try reflexivity. by destruct status. Qed.

Lemma members_all s : s ∈ JobStatus_members.
Proof. destruct s; unfold JobStatus_members; set_solver. Qed.

Ltac listed := right; apply list_elem_of_In; simpl; tauto.

Lemma discard_tracked f `{!Closed f} {A} (m : Session A) db : tracked f db (m db).2 → tracked f db (discard m db).2.
Proof. intros Hm. apply bind_tracked; [done|exact Hm|intros ?; apply within_ret, _]. Qed.

Lemma reconcile_and_apply_tracked f `{!Closed f} j q mx now db :
  (∀ s, job_edge UNCERTAIN_EXTERNAL_EFFECT s → may_move f UNCERTAIN_EXTERNAL_EFFECT s) →
  (∀ r, jobs db !! j = Some r → j_idempotency_key r ∈ fp_absent f) →
  tracked f db (reconcile_and_apply j q mx now db).2.
Proof.
  intros Hm HK. unfold reconcile_and_apply, pybind.
  pose proof (reconcile_tracked f j q mx now db HK) as Hc.
  destruct (reconcile_uncertain_effect j q mx now db) as [[r|e] db'] eqn:E; [|exact Hc].
  etrans; [exact Hc|]. apply apply_tracked; [done..|]. by eapply reconcile_still_uncertain.
Qed.

Lemma perform_tracked o db : tracked (footprint (Perform o) db) db (perform o db).2.
Proof.
  pose proof (footprint_closed (Perform o) db) as Hc.
  destruct o; cbn [perform]; try (apply discard_tracked; [exact Hc|]).
  - apply start_workflow_tracked; [exact Hc|by left].
  - apply cycle_tracked; [exact Hc|listed..].
  - apply claim_tracked; [exact Hc|listed].
  - by apply heartbeat_tracked.
  - apply release_tracked; [exact Hc|]. intros s. right. apply (list_elem_of_fmap_2 (λ s, (s, status))), members_all.
  - apply reclaim_tracked; [exact Hc|listed..].
  - apply promote_tracked; [exact Hc|listed].
  - apply propagate_tracked; [exact Hc|listed].
  - by apply satisfy_tracked.
  - apply maturity_tracked; [exact Hc|by left].
  - by apply weekly_tracked.
  - by apply reserve_tracked.
  - by apply repo_reserve_tracked.
  - by apply completed_tracked.
  - apply record_tracked; [exact Hc|]. intros ->. by left.
  - by apply receipt_tracked.
  - by apply append_tracked.
  - apply reconcile_and_apply_tracked; [exact Hc| |intros r Hr; cbn; rewrite Hr; by left].
    intros s Hs. right. unfold job_edge in Hs. simpl in *. set_solver.
  - apply settle_tracked; [exact Hc|listed..|]. intros eid e He. cbn. rewrite He. by left.
  - apply retry_tracked; [exact Hc|listed].
  - apply cancel_tracked; [exact Hc|listed..].
  - apply dispatch_tracked; [exact Hc|by left].
  - apply dispatch_decision_tracked; [exact Hc|by left].
  - by apply reserve_effect_tracked.
  - by apply recheck_effect_tracked.
  - by apply accept_effect_tracked.
  - apply settle_failure_tracked; [exact Hc|]. intros ->. by left.
  - by apply confirm_effect_tracked.
Qed.

Lemma transaction_tracked f `{!Closed f} {A} (m : Session A) db :
  tracked f db (m db).2 → tracked f db (transaction m db).
Proof. intros Hm. unfold transaction. destruct (m db) as [[a|e] db']; [exact Hm|reflexivity]. Qed.

(** Whatever the state, an action stays within its footprint. *)
Lemma act_tracked a h : tracked (footprint a (h_db h)) (h_db h) (h_db (act a h)).
Proof.
  pose proof (footprint_closed a (h_db h)) as Hc.
  destruct a as [o|e rc w t|registry prompts impl locked w now|now]; cbn [act h_db set_h_db].
  - apply transaction_tracked, perform_tracked. exact Hc.
  - apply transaction_tracked; [exact Hc|]. apply record_draft_tracked; [exact Hc|by left|].
    intros s Hs. destruct s; try (listed || (unfold job_edge in Hs; simpl in Hs; set_solver)).
  - apply round_tracked; [exact Hc| |apply (members_all PENDING)]. intros s t. right. cbn [footprint fp_moves].
    apply list_elem_of_bind. exists s. split; [|apply members_all]. apply list_elem_of_fmap. exists t.
    split; [done|apply members_all].
  - apply tracked_no_jobs; cbn; try done. by apply spares_same.
Qed.

(** ** Invariants *)

Definition runs_grow (h h' : Host) : Prop := h_runs h ⊆ h_runs h'.

Lemma unchanged_ok h : db_ok (h_db h) → (db_ok (h_db h) ∧ db_evolves (h_db h) (h_db h)) ∧ runs_grow h h.
Proof. intros Hok. unfold runs_grow. split; [split; [done|]|]; reflexivity. Qed.

Lemma worker_contract registry prompts impl locked w now h :
  claims_implemented registry locked w now h → db_ok (h_db h) →
  let h' := (worker_iteration cfg registry prompts impl locked w now h).2 in
  (db_ok (h_db h') ∧ db_evolves (h_db h) (h_db h')) ∧ runs_grow h h'.
Proof.
  intros Himpl Hok. pose proof (iteration_cases cfg registry prompts impl locked w now h Hok) as Hc.
  destruct (worker_iteration _ _ _ _ _ _ _ _) as [r h']. cbn [snd].
  destruct Hc as [(_ & -> & _)|[[_ ->]|(_ & k & j & Hj & Hd & Hl & Hcl & Hok1 & Hcom)]];
    [by apply unchanged_ok..|].
  set (c := claimed_row w now LEASE_DURATION j) in *. set (db := set_jobs _ (h_db h)) in *.
  pose proof (claim_ready_job_contract locked w now LEASE_DURATION (h_db h) Hok) as [_ Hev1].
  rewrite Hcl in Hev1. cbn [snd] in Hev1. assert (Hk : jobs db !! k = Some c) by apply lookup_insert_eq.
  assert (Hrel : ∀ st, job_edge RUNNING st → contract db (set_jobs (<[k := settled_row st now c]> (jobs db)) db)).
  { intros st Hst. pose proof (release_lease_contract k w now st db) as Hr.
    by rewrite (release_run k w now st db c Hok1 Hst Hk eq_refl) in Hr. }
  assert (Hfrom : ∀ db', contract db db' → db_ok db' ∧ db_evolves (h_db h) db').
  { intros db' Hdb. destruct (Hdb Hok1) as [Hok2 Hev2]. split; [done|by etrans]. }
  destruct Hcom as [|d Hreg Hn|res rc db' Hnew Hjob Hst Hem].
  - split; [|unfold runs_grow; reflexivity]. apply Hfrom, Hrel. by auto with orch.
  - exfalso. apply Hn. by apply (Himpl k c db d).
  - split; [|by apply insert_subseteq]. apply Hfrom. etrans; [apply Hrel, final_status_edge|].
    pose proof (emit_events_contract cfg k (j_workflow_id c) res now
      (set_jobs (<[k := settled_row (final_status (rs_status res)) now c]> (jobs db)) db)) as He.
    by rewrite Hem in He.
Qed.

(** The repository's map: [ASSETS_COMPLETED] is followed by the draft job alone. *)
Definition draft_only : Prop :=
  mapped_successors cfg (EventName.EventName_value EventName.ASSETS_COMPLETED) = Some ["DraftListingJob"].

Lemma act_invariant a h : draft_only → regular a h → db_ok (h_db h) →
  (db_ok (h_db (act a h)) ∧ db_evolves (h_db h) (h_db (act a h))) ∧ runs_grow h (act a h).
Proof.
  intros Hdraft Hreg Hok. destruct a as [o|evidence receipt w at_|registry prompts impl locked w now|t].
  - split; [|unfold runs_grow; reflexivity].
    by apply (transaction_contract (perform o) (h_db h) (perform_contract o (h_db h))).
  - split; [|unfold runs_grow; reflexivity].
    by apply (transaction_contract _ _ (record_ready_draft_contract cfg Hdraft evidence receipt w at_ (h_db h) Hreg)).
  - by apply worker_contract.
  - split; [|unfold runs_grow; reflexivity]. destruct Hok, h as [[]]. split; [by split|]. split; simpl; try reflexivity.
    all: try (by apply rows_evolve_refl; apply _). intros k j Hn Hs. simpl in *. congruence.
Qed.

Lemma run_invariant as_ h : draft_only → regular_run as_ h → db_ok (h_db h) →
  (db_ok (h_db (run_actions as_ h)) ∧ db_evolves (h_db h) (h_db (run_actions as_ h))) ∧
  runs_grow h (run_actions as_ h).
Proof.
  intros Hdraft. revert h. induction as_ as [|a as_ IH]; intros h Hreg Hok; [by apply unchanged_ok|].
  destruct Hreg as [Ha Hreg]. destruct (act_invariant a h Hdraft Ha Hok) as [[Hok2 Hev] Hg].
  destruct (IH _ Hreg Hok2) as [[Hok3 Hev3] Hg3]. cbn [run_actions foldl] in *. fold (run_actions as_ (act a h)) in *.
  split; [split; [done|by etrans]|]. unfold runs_grow in *. by etrans.
Qed.

(** The schema holds whatever runs. *)
Lemma run_schema as_ h : schema_ok (h_db h) → schema_ok (h_db (run_actions as_ h)).
Proof.
  revert h. induction as_ as [|a as_ IH]; intros h Hok; [done|]. apply IH.
  by apply (tk_schema _ _ _ (act_tracked a h)).
Qed.

Definition initial (shops0 : gset uuid) (clock : datetime) (definitions : gmap uuid AgentDefinitionRow)
    (prompts : gmap uuid PromptVersion) : Host :=
  {| h_db := empty_db shops0 clock; h_definitions := definitions; h_prompts := prompts; h_runs := ∅ |}.

Lemma initial_ok s t d p : db_ok (h_db (initial s t d p)).
Proof. split; by intros ? **. Qed.

Lemma initial_schema s t d p : schema_ok (h_db (initial s t d p)).
Proof. split; by intros ? **. Qed.

(** C1: in every state that any sequence of operations, draft recordings, worker rounds and
    clock ticks leads to from an empty database, the idempotency keys of jobs and of
    reservations, the keys of triggers and the dedupe keys of events are unique, no job has
    used more attempts than its budget, and every job belongs to a stored workflow.  If no
    round on the way claimed a job of a defined agent without an implementation, and no draft
    was recorded for a product whose draft job had used up its attempts, then also exactly the
    running jobs carry a lease and a job that may still execute has an attempt left (with the
    repository's event map, where the draft job alone follows ASSETS_COMPLETED).  Those two
    steps do break that part. *)
Theorem reachable_invariant s t d p as_ :
  let h := run_actions as_ (initial s t d p) in
  ((∀ k1 k2 j1 j2, jobs (h_db h) !! k1 = Some j1 → jobs (h_db h) !! k2 = Some j2 →
      j_idempotency_key j1 = j_idempotency_key j2 → k1 = k2) ∧
   (∀ k1 k2 r1 r2, idempotency_records (h_db h) !! k1 = Some r1 → idempotency_records (h_db h) !! k2 = Some r2 →
      idem_key r1 = idem_key r2 → k1 = k2) ∧
   (∀ k1 k2 t1 t2, scheduled_triggers (h_db h) !! k1 = Some t1 → scheduled_triggers (h_db h) !! k2 = Some t2 →
      trig_key t1 = trig_key t2 → k1 = k2) ∧
   (∀ k1 k2 e1 e2, events (h_db h) !! k1 = Some e1 → events (h_db h) !! k2 = Some e2 →
      ev_dedupe_key e1 = ev_dedupe_key e2 → k1 = k2) ∧
   (∀ k j, jobs (h_db h) !! k = Some j →
      j_attempt j <= j_max_attempts j ∧ 0 < j_max_attempts j ∧
      is_Some (workflow_runs (h_db h) !! j_workflow_id j))) ∧
  (draft_only → regular_run as_ (initial s t d p) →
   ∀ k j, jobs (h_db h) !! k = Some j →
     (j_status j = RUNNING ↔ is_Some (j_lease_owner j)) ∧ 0 <= j_attempt j ∧
     (j_status j ∈ [PENDING; READY; RUNNING] → j_attempt j < j_max_attempts j)).
Proof.
  intros h. split.
  - destruct (run_schema as_ _ (initial_schema s t d p)) as [He Hi Hk Ht Hc Ho]. split_and!; [done..|].
    intros k j Hj. specialize (Hc k j Hj). simpl in Hc. unfold job_check in Hc.
    rewrite !andb_true_iff, Z.leb_le, Z.ltb_lt in Hc. split_and!; [apply Hc..|by apply (Ho k j)].
  - intros Hdraft Hreg k j Hk. destruct (run_invariant as_ _ Hdraft Hreg (initial_ok s t d p)) as [[Hok _] _].
    destruct (ok_jobs _ Hok k j Hk) as [[Hl (Ha & _ & Hb)] _]. split; [|split; [lia|done]].
    unfold lease_consistent in Hl. case_decide as Hs; [naive_solver|].
    destruct Hl as (Hn & _). rewrite Hn. split; [done|]. by intros [? ?].
Qed.

(** C12: history is monotone.  Take any sequence of operations, draft recordings, worker rounds
    and ticks from a valid database, with the repository's event map, in which no round claims
    a job of a defined agent without an implementation and no draft is recorded for a product
    whose draft job has used up its attempts.  No event, receipt or agent run is lost or
    changed, a reservation keeps its key and its job, a job that has succeeded, failed for good
    or been cancelled stays so, attempts never go back, and a completed workflow stays
    completed. *)
Theorem history_is_monotone as_ h :
  draft_only → db_ok (h_db h) → regular_run as_ h →
  let h' := run_actions as_ h in
  events (h_db h) ⊆ events (h_db h') ∧ receipts (h_db h) ⊆ receipts (h_db h') ∧ h_runs h ⊆ h_runs h' ∧
  (∀ k r, idempotency_records (h_db h) !! k = Some r → ∃ r', idempotency_records (h_db h') !! k = Some r' ∧
     idem_key r' = idem_key r ∧ idem_job_id r' = idem_job_id r) ∧
  (∀ k j, jobs (h_db h) !! k = Some j → ∃ j', jobs (h_db h') !! k = Some j' ∧
     j_attempt j <= j_attempt j' ∧
     (j_status j ∈ [SUCCEEDED; TERMINAL_FAILURE; CANCELLED] → j_status j' = j_status j)) ∧
  (∀ k w, workflow_runs (h_db h) !! k = Some w → is_Some (wf_completed_at w) →
     ∃ w', workflow_runs (h_db h') !! k = Some w' ∧ is_Some (wf_completed_at w')).
Proof.
  intros Hdraft Hok Hreg h'. destruct (run_invariant as_ h Hdraft Hreg Hok) as [[_ [Hj _ Hw He Hrc Hi]] Hg].
  do 3 (split; [done|]). split; [exact Hi|]. split.
  - intros k j Hk. destruct (Hj k j Hk) as (j' & Hk' & [_ Hst Ha _]). exists j'. split; [done|].
    split; [done|]. intros Ht. apply (terminal_absorbing _ _); [|exact Hst].
    rewrite !elem_of_cons, elem_of_nil in Ht. by destruct Ht as [->|[->|[->|[]]]].
  - intros k w Hk Hc. destruct (Hw k w Hk) as (w' & Hk' & [_ _ Hcomp]). eauto.
Qed.

(** ** Refinement *)

(** The abstract machine: a status per job.  One action moves the status of a job at most once,
    as its table says, and adds jobs in the statuses it lists. *)
Definition abs_step (a : action) (m m' : gmap uuid JobStatus) : Prop :=
  (∀ k s, m !! k = Some s → ∃ s', m' !! k = Some s' ∧ (s' = s ∨ (s, s') ∈ job_moves a)) ∧
  (∀ k s', m !! k = None → m' !! k = Some s' → s' ∈ job_births a).

Fixpoint abs_run (as_ : list action) (m m' : gmap uuid JobStatus) : Prop :=
  match as_ with
  | [] => m' = m
  | a :: as_ => ∃ m1, abs_step a m m1 ∧ abs_run as_ m1 m'
  end.

Definition abstraction (h : Host) : gmap uuid JobStatus := j_status <$> jobs (h_db h).

(** The actions whose moves can be two edges at once: a reclaim fails a job and puts it back,
    and a round claims a job and ends it. *)
Definition compound (a : action) : bool :=
  match a with
  | Perform (SchedulerCycle _ _ _ _ _ _) | Perform (ReclaimExpired _ _ _) | WorkerRound _ _ _ _ _ _ => true
  | _ => false
  end.

Lemma tracked_abs a f db h h' :
  tracked f db (h_db h') → jobs db = jobs (h_db h) →
  (∀ s t, (s, t) ∈ fp_moves f → (s, t) ∈ job_moves a) → (∀ s, s ∈ fp_births f → s ∈ job_births a) →
  abs_step a (abstraction h) (abstraction h').
Proof.
  intros [_ Hm Hb _] Hj Hmoves Hbirths. unfold abstraction. rewrite Hj in *. split.
  - intros k s. rewrite !lookup_fmap. intros (j & Hk & ->)%fmap_Some.
    destruct (Hm k j Hk) as (j' & -> & Hst). exists (j_status j'). split; [done|].
    destruct Hst as [->|?]; [by left|right; auto].
  - intros k s'. rewrite !lookup_fmap. intros Hk%fmap_None (j' & Hk' & ->)%fmap_Some. by apply Hbirths, (Hb k j').
Qed.

Lemma release_abs j w now st h :
  db_ok (h_db h) → abs_step (Perform (ReleaseLease j w now st)) (abstraction h)
    (abstraction (act (Perform (ReleaseLease j w now st)) h)).
Proof.
  intros Hok. set (a := Perform _). set (f := {| fp_moves := job_moves a; fp_births := []; fp_absent := [] |}).
  assert (Hc : Closed f) by (destruct st; reflexivity).
  eapply (tracked_abs _ f (h_db h)); [|done|done|by intros s Hs%not_elem_of_nil].
  apply transaction_tracked; [exact Hc|]. apply release_from; [exact Hc|]. intros r Hr Hw Hst. right.
  cbn. rewrite decide_True by done. rewrite (lease_held_running r w); [by left|apply (ok_jobs _ Hok j r Hr)|done].
Qed.

(** A round moves the job it claims and adds pending jobs. *)
Lemma round_abs registry prompts impl locked w now h :
  db_ok (h_db h) →
  let a := WorkerRound registry prompts impl locked w now in
  abs_step a (abstraction h) (abstraction (act a h)).
Proof.
  intros Hok a. pose proof (iteration_cases cfg registry prompts impl locked w now h Hok) as Hc.
  replace (act a h) with (worker_iteration cfg registry prompts impl locked w now h).2 by done.
  destruct (worker_iteration _ _ _ _ _ _ _ _) as [r h']. cbn [snd].
  set (f := {| fp_moves := []; fp_births := [PENDING]; fp_absent := [] |}).
  assert (Hf : Closed f) by reflexivity.
  assert (Hsame : abs_step a (abstraction h) (abstraction h)).
  { eapply (tracked_abs _ f (h_db h)); [reflexivity|done|intros ? ? []%elem_of_nil|done]. }
  destruct Hc as [(_ & -> & _)|[[_ ->]|(_ & k & j & Hj & [Hready _] & _ & _ & _ & Hcom)]]; [done..|].
  set (c := claimed_row w now LEASE_DURATION j) in *. set (db := set_jobs _ (h_db h)) in *.
  destruct (committed_row _ _ k c now h db h' Hcom (lookup_insert_eq _ k c)) as (jk & Hjk & Hst & _).
  assert (Hkc : jobs db !! k = Some c) by apply lookup_insert_eq.
  assert (Hnew : ∀ i j', jobs db !! i = None → jobs (h_db h') !! i = Some j' → j_status j' = PENDING).
  { destruct Hcom as [|d _ _|res rc db' _ _ _ Hem]; cbn [h_db set_h_db jobs set_jobs set_h_runs].
    - intros i j' Hn [[<- _]|[_ Hi]]%lookup_insert_Some; congruence.
    - intros i j' Hn [[<- _]|[_ Hi]]%lookup_insert_Some; congruence.
    - intros i j' Hn Hi.
      pose proof (emit_events_tracked f ltac:(by left) cfg k (j_workflow_id c) res now
        (set_jobs (<[k := settled_row (final_status (rs_status res)) now c]> (jobs db)) db)) as [_ _ Hb _].
      rewrite Hem in Hb. specialize (Hb i j'). cbn in Hb. apply list_elem_of_singleton, Hb; [|done].
      destruct (decide (k = i)) as [<-|Hne]; [congruence|]. cbn. by rewrite lookup_insert_ne. }
  unfold abstraction. split.
  - intros i s. rewrite !lookup_fmap. intros (ji & Hi & ->)%fmap_Some. destruct (decide (i = k)) as [->|Hne].
    + rewrite Hjk. exists (j_status jk). split; [done|]. right. rewrite Hj in Hi. injection Hi as <-.
      rewrite Hready. rewrite !elem_of_cons, elem_of_nil in Hst.
      destruct Hst as [->|[->|[->|[]]]]; apply list_elem_of_In; simpl; tauto.
    + assert (Hi' : jobs (h_db h') !! i = Some ji).
      { eapply committed_others; [exact Hcom|exact Hne|]. cbn. by rewrite lookup_insert_ne. }
      rewrite Hi'. exists (j_status ji). split; [done|by left].
  - intros i s'. rewrite !lookup_fmap. intros Hi%fmap_None (j' & Hi' & ->)%fmap_Some. apply list_elem_of_singleton.
    destruct (decide (k = i)) as [<-|Hne]; [congruence|].
    apply (Hnew i); [|done]. cbn. by rewrite lookup_insert_ne.
Qed.

Lemma act_abs a h : db_ok (h_db h) → abs_step a (abstraction h) (abstraction (act a h)).
Proof.
  intros Hok. pose proof (act_tracked a h) as Htr.
  destruct a as [o|? ? ? ?|? ? ? ? ? ?|?]; [|by eapply tracked_abs|by apply round_abs|by eapply tracked_abs].
  destruct o; try (by eapply tracked_abs). by apply release_abs.
Qed.

(** A move of a table, decided. *)
Definition move_legal (two : bool) (m : JobStatus * JobStatus) : bool :=
  bool_decide (m.2 ∈ JOB_TRANSITIONS m.1) ||
  two && existsb (λ u, bool_decide (m.2 ∈ JOB_TRANSITIONS u)) (JOB_TRANSITIONS m.1).

Lemma moves_edges a s t : (s, t) ∈ job_moves a →
  job_edge s t ∨ compound a = true ∧ ∃ u, job_edge s u ∧ job_edge u t.
Proof.
  assert (Hall : forallb (move_legal (compound a)) (job_moves a) = true).
  { destruct a as [[]|? ? ? ?|? ? ? ? ? ?|?]; try reflexivity. by destruct status. }
  rewrite forallb_elem_of in Hall. intros Hm. specialize (Hall _ Hm). unfold move_legal in Hall. simpl in Hall.
  rewrite orb_true_iff, andb_true_iff, bool_decide_eq_true, existsb_exists in Hall. unfold job_edge.
  destruct Hall as [?|[Hc (u & Hu & Ht)]]; [by left|right]. split; [done|]. exists u.
  apply list_elem_of_In in Hu. by apply bool_decide_eq_true in Ht.
Qed.

(** C2: the orchestrator refines the abstract job machine, action by action.  Every move in the
    table of an action is an edge of the job table, or two edges in a row for a reclaim, which
    fails a job and then puts it back or gives it up, and a worker round, which claims a job and
    ends it; an added job is PENDING, or READY when a draft is recorded (one edge on).  And each
    action of a run moves every job not at all or once, as its own table says, and adds jobs only
    as it says.  The run starts in a valid database with the repository's event map, and in it no
    round claims a job of a defined agent without an implementation and no draft is recorded for
    a product whose draft job has used up its attempts. *)
Theorem orchestrator_refines_job_machine as_ h :
  (∀ a s t, (s, t) ∈ job_moves a →
     job_edge s t ∨ compound a = true ∧ ∃ u, job_edge s u ∧ job_edge u t) ∧
  (∀ a s, s ∈ job_births a → s = PENDING ∨ job_edge PENDING s) ∧
  (draft_only → db_ok (h_db h) → regular_run as_ h →
     abs_run as_ (abstraction h) (abstraction (run_actions as_ h))).
Proof.
  split_and!.
  - intros a s t Hm. apply moves_edges, Hm.
  - intros a s Hs. destruct a as [[]|? ? ? ?|? ? ? ? ? ?|?]; cbn in Hs; try (by apply not_elem_of_nil in Hs).
    all: rewrite ?elem_of_cons, ?elem_of_nil in Hs.
    all: repeat destruct Hs as [->|Hs]; try done; try (by left); right; by auto with orch.
  - intros Hdraft. revert h. induction as_ as [|a as_ IH]; intros h Hok Hreg; [done|].
    destruct Hreg as [Ha Hreg]. exists (abstraction (act a h)). split; [by apply act_abs|].
    apply IH; [|done]. by apply (act_invariant a h).
Qed.
End system.

(** ** The environment of a draft effect *)

(** Every action of the orchestrator is a step of the rest of the system beside the executions
    of draft effects, under the keys for which it may find nothing. *)
Lemma action_is_environment `{Backend} cfg shop_name a h w :
  wd_db w = h_db h →
  exec_step shop_name w
    {| wd_running := wd_running w; wd_db := h_db (act cfg shop_name a h); wd_created := wd_created w;
       wd_absent := fp_absent (footprint a (h_db h)) ++ wd_absent w |}.
Proof. intros Hw. apply exec_other. rewrite Hw. apply (tk_spares _ _ _ (act_tracked cfg shop_name a h)). Qed.

(** An answer is lost, the worker parks the job, an operator settles the effect as absent, the
    job is retried and claimed again: the effect is created a second time. *)
Example settled_absence_creates_again :
  let Hb := reference_backend in
  let execute_once db := run silent_provider (execute sample_shop_name sample_self (sample_effect "draft")) db tt in
  let first := execute_once sample_effect_db in
  let host := {| h_db := first.1.1.2; h_definitions := ∅; h_prompts := ∅; h_runs := ∅ |} in
  let later := run_actions canonical_workflows sample_shop_name (Perform <$>
    [ReleaseLease 1 "worker-1" 20 UNCERTAIN_EXTERNAL_EFFECT; SettleUncertain 1 "ABSENT" None 30;
     RetryFailed 1 40; ClaimReadyJob ∅ "worker-1" (minutes 10) (minutes 5)]) host in
  let second := execute_once (h_db later) in
  (first.2, second.2) = ([(sample_key "draft", Raise (Exn OSError "timeout"))],
                         [(sample_key "draft", Raise (Exn OSError "timeout"))]).
Proof. vm_compute. reflexivity. Qed.

(** ** Samples *)

(** A workflow is started, its entry jobs are promoted, one is claimed and fails, its
    retry is refused (it waits for an operator), and the other is claimed. *)
Definition sample_script (job : uuid) : list action := Perform <$>
  [ StartWorkflow "ProductLifecycleWorkflow" ProductLifecycleState.DISCOVERED 1 0;
    SchedulerCycle ∅ ∅ 0 5 5 5;
    ClaimReadyJob ∅ "worker-1" 10 (minutes 5);
    ReleaseLease job "worker-1" 20 FAILED;
    RetryFailed job 30;
    SchedulerCycle ∅ ∅ 40 5 5 5;
    ClaimReadyJob ∅ "worker-1" 50 (minutes 5) ].

Definition sample_run : list action → Host → Host :=
  @run_actions reference_backend canonical_workflows sample_shop_name.

Definition sample_start : Host := initial {[1%N]} 0 ∅ ∅.

Definition sample_jobs : list (uuid * Job) :=
  map_to_list (jobs (h_db (sample_run (firstn 3 (sample_script 0)) sample_start))).

(** The job that the first claim takes. *)
Definition sample_claimed : uuid :=
  from_option (λ r, r.2.1) 0%N (list_find (λ r, j_status r.2 = RUNNING) sample_jobs).

Definition sample_end : Host := sample_run (sample_script sample_claimed) sample_start.

Lemma reachable_invariant_witness :
  db_ok (h_db sample_end) ∧
  filter (λ s, s = RUNNING) ((λ r, j_status r.2) <$> map_to_list (jobs (h_db sample_end))) = [RUNNING] ∧
  ∀ k j, jobs (h_db sample_end) !! k = Some j →
    (j_status j = RUNNING ↔ is_Some (j_lease_owner j)).
Proof.
  split; [solve_db_ok|]. split; [vm_compute; reflexivity|].
  destruct (@reachable_invariant reference_backend canonical_workflows sample_shop_name {[1%N]} 0 ∅ ∅
    (sample_script sample_claimed)) as [_ Hregular].
  intros k j Hk. exact (proj1 (Hregular canonical_draft_only (regular_performs _ _ _ _) k j Hk)).
Defined.

(** A worker round ends the first job; a receipt of it is recorded; the second job is claimed,
    its effect stays unknown, and a reconciliation that finds nothing fails it. *)
Definition sample_actions : list action :=
  [ WorkerRound sample_registry sample_prompts (λ _, sample_agent AgentRunStatus.SUCCESS) ∅ "worker-1" 10;
    Perform (RecordReceipt 1 "key" "etsy" "etsy.create_draft" SideEffectClass.EXTERNAL_WRITE AutonomyMode.DRAFT
      EffectState.CONFIRMED (Some "L1") None None None None);
    Tick 15;
    Perform (ClaimReadyJob ∅ "worker-1" 20 (minutes 5));
    Perform (ReserveKey "b" 2 "etsy.create_draft" SideEffectClass.EXTERNAL_WRITE None);
    Perform (ReleaseLease 2 "worker-1" 30 UNCERTAIN_EXTERNAL_EFFECT);
    Perform (ReconcileEffect 2 (λ _ _, Ok (EffectState.ABSENT, None)) 3 None) ].

Lemma sample_regular n :
  @regular_run reference_backend canonical_workflows sample_shop_name (firstn n sample_actions) (worker_host "A01").
Proof.
  destruct n as [|n]; [done|]. split; [|by do 7 (destruct n as [|n]; [by repeat split|])].
  intros k c db d _ Hreg. unfold sample_registry in Hreg.
  apply lookup_singleton_Some in Hreg as [_ <-]. by left.
Qed.

Lemma history_is_monotone_witness :
  let start := worker_host "A01" in
  let after n := sample_run (firstn n sample_actions) start in
  map_to_list (h_runs (after 1%nat)) ≠ [] ∧ map_to_list (receipts (h_db (after 2%nat))) ≠ [] ∧
  receipts (h_db start) ⊆ receipts (h_db (after 7%nat)) ∧
  (j_status <$> jobs (h_db (after 7%nat)) !! 1%N) = Some SUCCEEDED ∧
  (j_status <$> jobs (h_db (after 7%nat)) !! 2%N) = Some FAILED.
Proof.
  cbv zeta. split; [vm_compute; discriminate|]. split; [vm_compute; discriminate|].
  destruct (@history_is_monotone reference_backend canonical_workflows sample_shop_name (firstn 7 sample_actions)
    (worker_host "A01") canonical_draft_only ltac:(solve_db_ok) (sample_regular 7)) as (_ & Hreceipts & _).
  split; [exact Hreceipts|]. split; vm_compute; reflexivity.
Defined.

Lemma orchestrator_refines_job_machine_witness :
  let start := worker_host "A01" in
  abs_run (firstn 7 sample_actions) (abstraction start) (abstraction (sample_run (firstn 7 sample_actions) start)) ∧
  abstraction start !! 2%N = Some READY ∧
  abstraction (sample_run (firstn 7 sample_actions) start) !! 2%N = Some FAILED.
Proof.
  cbv zeta. split; [|split; vm_compute; reflexivity].
  apply (@orchestrator_refines_job_machine reference_backend canonical_workflows sample_shop_name (firstn 7 sample_actions)
    (worker_host "A01")); [exact canonical_draft_only|solve_db_ok|exact (sample_regular 7)].
Defined.
